(* ===== verification/_CoqProject ===== *)
-Q . S2P
Prelude.v
KernelHeader.v
VirtManager.v
Mutex.v
FreeList.v
PhysManager.v
PhysStorage.v
PhysTests.v
BuddySpec.v
PhysInvariant.v
PhysCorrect.v
PhysTheorems.v
PhysSystem.v
PhysInit.v
PhysSafety.v
PhysConcurrent.v
Terminal.v
TerminalTheorems.v
Paging.v
PagingTheorems.v
Bytes.v
Gdt.v
Interrupt.v
Fmt.v
Log.v
InterruptStub.v
PhysLog.v
Elf.v
ElfTheorems.v
ElfText.v
Bootloader.v
BootloaderTheorems.v
BootConsole.v
Platform.v
KernelMain.v
System.v
Builder.v
BuildScript.v
BuildDemo.v
