(* ===== verification/Prelude.v ===== *)
(** * A verification of SimpleOS-rs.

    SimpleOS-rs is a small x86_64 operating system: a UEFI bootloader
    ([src/bootloader]) that builds page tables, loads the kernel's ELF image
    and jumps to it with a [KernelHeader] ([src/common-structures]); a kernel
    ([src/kernel]) with a framebuffer terminal, a buddy allocator for physical
    pages, the switch to its own half of the address space, segment and
    interrupt descriptor tables and interrupt stubs; and a host tool that
    builds the disk image ([src/builder]).  This library translates that code
    into executable definitions and proves what makes each part correct.

    ** How Rust is modelled

    A function that can panic returns [res]: [Ok] or an [Err] that says how it
    failed (explicit panic with its message, arithmetic overflow, index out of
    bounds, undefined pointer access).  Integers are [Z] with their width
    written at each operation: [add_w], [sub_w], [mul_w] and [shl_w] are the
    operators of the debug profile, which panic on overflow; [wrap] is a
    truncating cast.  [wrapping_add] and shifts of constants wrap explicitly.
    A raw pointer is an address.  Memory behind a pointer is the list of its
    bytes, words or structures, or, for the free-list entries that the
    allocator keeps in free pages, a finite map from addresses to entries; a
    pointer access outside it is [Err UB].  Statics and [&mut] arguments are
    passed in and handed back.

    ** Files

    - [Prelude]: results, machine integers, checked arithmetic and its
      automation ([checked_arith], [simpl_res], the hint database [rust]),
      lists indexed by [Z], the monadic fold [foldM] with its rules.
    - [KernelHeader]: [common-structures/src/kernel_header.rs], [config.rs].
    - [VirtManager]: [kernel/src/memory/virt_manager.rs], the mirror of
      physical memory at [HIGH_MEM_BASE].
    - [Mutex]: [kernel/src/mutex.rs], the lock, its guard and the step relation
      of threads that share one.
    - [FreeList], [PhysManager], [PhysStorage], [PhysTests]:
      [kernel/src/memory/phys_manager.rs], the intrusive lists, the allocator,
      the kernel's storage backend, and the unit tests with their backend.  The
      storage trait is the class [PhysManagerStorage]; what the allocator needs
      from an implementation is the class [StorageLaws], which both backends
      discharge.
    - [BuddySpec]: the abstract allocator, a map of free blocks; [PhysInvariant]:
      the representation invariant; [PhysCorrect], [PhysTheorems]: the concrete
      block operations refine the abstract ones; [PhysSystem], [PhysSafety]:
      the public methods and the system of clients; [PhysInit]: [new];
      [PhysConcurrent]: threads that call the methods at the same time;
      [PhysLog]: [new] with what it prints.
    - [Terminal], [TerminalTheorems]: [kernel/src/terminal.rs] with the log
      macros.
    - [Paging], [PagingTheorems]: [bootloader/src/paging.rs] and
      [kernel/src/arch/x86_64/virt_manager.rs], with the processor's page walk.
    - [Bytes]: little-endian fields in byte lists.
    - [Gdt]: [kernel/src/arch/x86_64/gdt.rs]; [Interrupt]: the descriptor table
      of [interrupt/mod.rs] with [set_isrs.rs].
    - [Fmt]: formatted numbers, and computations with output ([writer]); [Log]:
      the log lines as text, and the panic handler of [kernel/src/main.rs].
    - [InterruptStub]: the assembly stubs of [interrupt/mod.rs] with
      [isrs.rs], as instructions of a small machine with interrupt entry and
      [iretq], and the handlers they call, the default one with its warning.
    - [Elf], [ElfTheorems], [ElfText]: [bootloader/src/elf.rs] on byte images.
    - [Bootloader], [BootloaderTheorems]: [bootloader/src/main.rs],
      [allocator.rs], [io.rs], [platform.rs]; [BootConsole]: the same with the
      console output, and the bootloader's panic handler.
    - [Platform]: [kernel/src/arch/x86_64/mod.rs] and
      [kernel/src/interrupt/mod.rs]; [KernelMain]: [kernel/src/main.rs], which
      composes the kernel's parts; [System]: the bootloader's output as the
      kernel's input.
    - [Builder], [BuildScript], [BuildDemo]: [builder/src/main.rs], its command
      line, names and sizes; [build] and [run_clippy] as scripts on a host;
      and a host on which they run.

    ** What the theorems show

    - Memory manager: [free_block] and [alloc_block] refine the abstract buddy
      allocator on every branch and are inverse to each other; [new] frees
      exactly the free segments less the bitmap; whatever clients do with what
      they own, by any of the six methods, live allocations never overlap, no
      page is lost and freeing never fails, also when any number of threads
      call the methods at once, in every interleaving ([concurrent_safety]);
      sizes that cannot be served panic.  These need a bitmap that covers
      whole blocks of the largest order, 256 pages: for every other capacity
      [unaligned_bitmap_panics] has a block whose freeing panics.  The unit
      tests of the code are evaluated ([unit_tests_pass]).
    - Lock: mutual exclusion, and critical sections behave as if run one after
      the other, in every interleaving.
    - Terminal: no panic on any text, nothing drawn outside the text area,
      glyphs and cursor exactly as specified, colours restored by the log
      macros; the panic handler and the default interrupt handler report, but
      never return when the lock is held.
    - Page tables: every byte of memory is mapped twice, kernel-space pointers
      and their inverse, the removal of the identity mapping; the slots of the
      top-level table between the two mappings are never written, so that
      what they hold is the firmware's ([identity_unmapped]).  The or-ed base
      needs a power-of-two number of PML4 entries:
      [kernelspace_pointers_collide].
    - Processor tables and interrupts: what the processor decodes from GDT, TSS
      and IDT; the interrupted program's registers are what the handler is
      given and what it leaves is what the processor resumes with; the default
      handler prints its warning and changes nothing else.  Findings:
      the multi-core GDT, the stubs without error code (over the table of
      [isrs.rs]: exactly 21, 29 and 30), the stack alignment at the handler,
      and the 64 KiB that clearing the IDT zeroes: the GDT whenever it lies
      there ([init_platform_zeroes_gdt]).
    - Loader and bootloader: the least image size, loading, relocation,
      the search of the dynamic section ([read_dynamic_reference]: without a
      null entry it leaves the buffer); [get_text_addr] is the reference search
      for a section by name; the widest usable video mode; memory the
      bootloader still needs is never free for the kernel; all pointers handed
      over are valid in the page table handed over; a panic of the bootloader
      is reported, before [exit_boot_services] is called unless that call
      itself fails ([boot_panics_reported]).
    - Kernel start: [main_starts_kernel] composes the kernel's parts with every
      line they print, including an allocation on free lists that clearing the
      IDT may have cut; it ends in its loop or, for lack of memory only, in the
      panic handler's, with the message shown.  Clearing the IDT is undefined
      in the model ([Err UB]) when the 64 KiB are not all mapped or hold memory
      the kernel runs on: the screen, the page tables, or what the bootloader
      allocated ([clear_spares]; the memory manager, GDT and TSS are zeroed as
      values instead); the theorem says where a free page must lie for that.
      Every use of the screen needs it mapped in the current page table
      ([touch_screen]).  [system_boots] runs [efi_main] and then [main] on what
      it left.
    - Builder: when the calls of the crates succeed, the image has one partition whose volume holds the bootloader
      and the kernel byte for byte at the paths the firmware and the bootloader
      read; a failed compilation stops it before anything is written.

    ** Parameters, bounds and fuel

    Code outside the repository is a parameter with named laws: the firmware's
    page allocator ([PageSource]/[PageSourceLaws]) and its other answers (data
    of [uefi], [firmware] and [file_answers]), the 8x8 font
    ([Font]/[FontLaws]), the linker's stub addresses, what [PanicInfo] formats
    to, cargo and the crates [fatfs] and [gpt] of the builder
    ([Fat]/[FatLaws], [Gpt]/[GptLaws], laws of the single functions the builder
    calls; that the calls succeed is a hypothesis).  The feature [verbose-logging] is the
    boolean [verbose_logging].  The processor (page
    walk, descriptor decoding, interrupt entry and return) is modelled from
    the AMD64 manual.  Fuel: [free_block] and [alloc_block] climb one order per
    call, so the orders left are enough; [add_region] frees at least a page per
    round, so the page count is; [read_dynamic] reads 16 bytes further per
    round, so the buffer's length is (past the buffer the model ends with [UB],
    whatever the code would read there); [count_entries]
    walks a list of distinct entries, so the number of entries in memory is;
    64 digits hold any 64-bit number; a spin lock gets as many turns as its
    [fuel], and the theorems need one.  All other loops run over lists.

    ** What is not modelled

    The release profile's wrapping arithmetic is not modelled.
    The atomic operations of the lock are sequentially consistent, and the body
    of a method is one step of [PhysConcurrent]: what it touches is protected
    by the lock or in free pages.  The terminal and the components that print
    share no state, so that the lines of an initialiser are collected and
    printed in order.

    Next: the accesses of a method's body as separate steps of the threads; what
    clearing the IDT costs the memory manager afterwards; the release
    profile. *)
From stdpp Require Import base gmap numbers strings list.
From Stdlib Require Import ZArith Lia.

#[local] Open Scope Z_scope.

(** ** Outcomes of Rust code *)

(** How a computation can fail to return.  [PanicMsg] is an explicit [panic!],
    [assert!] or [expect]; [PanicOverflow] is the arithmetic-overflow check of
    the debug profile; [PanicBounds] is a slice index out of range; [UB] is an
    access through a pointer that addresses nothing; [OutOfFuel] marks a loop
    that was cut off by the model. *)
Inductive failure :=
  | PanicMsg (msg : string)
  | PanicOverflow
  | PanicBounds
  | UB
  | OutOfFuel.

#[global] Instance failure_eq_dec : EqDecision failure.
Proof. solve_decision. Defined.

(** The failures that are panics; the others have no defined behaviour or
    never return. *)
Definition is_panic (e : failure) : bool :=
  match e with
  | PanicMsg _ | PanicOverflow | PanicBounds => true
  | UB | OutOfFuel => false
  end.

Inductive res (A : Type) :=
  | Ok (a : A)
  | Err (e : failure).
Arguments Ok {A} a.
Arguments Err {A} e.

#[global] Instance res_eq_dec {A} `{EqDecision A} : EqDecision (res A).
Proof. solve_decision. Defined.

#[global] Instance res_ret : MRet res := λ A a, Ok a.
#[global] Instance res_bind : MBind res := λ A B f m,
  match m with Ok a => f a | Err e => Err e end.

Definition is_ok {A} (m : res A) : bool :=
  match m with Ok _ => true | Err _ => false end.

Definition of_option {A} (e : failure) (o : option A) : res A :=
  match o with Some a => Ok a | None => Err e end.

(** Iterate a fallible step over a list, left to right (a [for] loop). *)
Fixpoint foldM {A B} (f : B → A → res B) (b : B) (l : list A) : res B :=
  match l with
  | [] => mret b
  | a :: l => b' ← f b a; foldM f b' l
  end.

Lemma bind_Ok {A B} (a : A) (f : A → res B) : (Ok a ≫= f) = f a.
Proof. done. Qed.

Lemma bind_Err {A B} e (f : A → res B) : (Err e ≫= f) = Err e.
Proof. done. Qed.

Lemma bind_inv {A B} (m : res A) (f : A → res B) b :
  (m ≫= f) = Ok b → ∃ a, m = Ok a ∧ f a = Ok b.
Proof. destruct m; simpl; [eauto | discriminate]. Qed.

Lemma foldM_app {A B} (f : B → A → res B) b l1 l2 :
  foldM f b (l1 ++ l2) = (b' ← foldM f b l1; foldM f b' l2).
Proof.
  revert b; induction l1 as [|a l1 IH]; intros b; simpl; [done|].
  destruct (f b a); simpl; auto.
Qed.

(** An invariant indexed by the elements already consumed. *)
Lemma foldM_inv {A B} (f : B → A → res B) (P : list A → B → Prop) :
  ∀ l done b,
  P done b →
  (∀ d a r b, done ++ l = d ++ a :: r → P d b → ∃ b', f b a = Ok b' ∧ P (d ++ [a]) b') →
  ∃ b', foldM f b l = Ok b' ∧ P (done ++ l) b'.
Proof.
  induction l as [|a l IH]; intros d b Hb Hstep; simpl.
  - exists b. rewrite app_nil_r. auto.
  - destruct (Hstep d a l b eq_refl Hb) as (b' & -> & Hb'). simpl.
    destruct (IH (d ++ [a]) b') as (b'' & Hf & HP); [done| |].
    + intros d' a' r b0 Heq. apply Hstep with (r := r). by rewrite <- Heq, <- app_assoc.
    + exists b''. by rewrite <- app_assoc in HP.
Qed.

Tactic Notation "simpl_res" := repeat (rewrite bind_Ok || rewrite bind_Err).
Tactic Notation "inv_bind" hyp(H) "as" simple_intropattern(p) :=
  apply bind_inv in H; destruct H as p.

(** ** Machine integers *)

(** A [w]-bit unsigned integer is a [Z] in [0, 2^w).  Additions, subtractions
    and multiplications panic when the result leaves the range (the debug
    profile's overflow check); shifts panic when the amount reaches the width
    and drop the bits shifted out. *)
Definition uint (w x : Z) : Prop := 0 ≤ x < 2 ^ w.

Definition in_width (w x : Z) : bool := (0 <=? x) && (x <? 2 ^ w).

Definition checked (w x : Z) : res Z := if in_width w x then Ok x else Err PanicOverflow.

Definition add_w (w x y : Z) : res Z := checked w (x + y).
Definition sub_w (w x y : Z) : res Z := checked w (x - y).
Definition mul_w (w x y : Z) : res Z := checked w (x * y).

(** [as u8], [as u16], ...: keep the low [w] bits. *)
Definition wrap (w x : Z) : Z := x mod 2 ^ w.

Definition shl_w (w x n : Z) : res Z :=
  if (0 <=? n) && (n <? w) then Ok (wrap w (Z.shiftl x n)) else Err PanicOverflow.

(** Bitwise complement [!x] of a [w]-bit integer. *)
Definition not_w (w x : Z) : Z := Z.lxor x (Z.ones w).

Definition leading_zeros64 (x : Z) : Z := if x =? 0 then 64 else 63 - Z.log2 x.

Fixpoint pos_trailing_zeros (p : positive) : Z :=
  match p with
  | xO q => 1 + pos_trailing_zeros q
  | _ => 0
  end.

Definition trailing_zeros64 (x : Z) : Z :=
  match x with Zpos p => pos_trailing_zeros p | _ => 64 end.

(** ** Slices *)

(** [l[i]] and [l[i] = x] on a slice: an index out of range panics. *)
Definition index {A} (l : list A) (i : Z) : res A :=
  if 0 <=? i then of_option PanicBounds (l !! Z.to_nat i) else Err PanicBounds.

Definition store {A} (l : list A) (i : Z) (x : A) : res (list A) :=
  if (0 <=? i) && (i <? Z.of_nat (length l)) then Ok (<[Z.to_nat i := x]> l)
  else Err PanicBounds.

Section checked_facts.
Implicit Types w x y : Z.

Lemma in_width_true w x : in_width w x = true ↔ uint w x.
Proof. unfold in_width, uint. rewrite andb_true_iff. lia. Qed.

Lemma checked_ok w x : uint w x → checked w x = Ok x.
Proof. intros H%in_width_true. unfold checked. by rewrite H. Qed.

Lemma checked_inv w x y : checked w x = Ok y → y = x ∧ uint w x.
Proof.
  unfold checked. destruct (in_width w x) eqn:E; [|done].
  intros [= <-]. split; [done|]. by apply in_width_true.
Qed.

Lemma add_w_ok w x y : uint w (x + y) → add_w w x y = Ok (x + y).
Proof. apply checked_ok. Qed.

Lemma sub_w_ok w x y : uint w (x - y) → sub_w w x y = Ok (x - y).
Proof. apply checked_ok. Qed.

Lemma mul_w_ok w x y : uint w (x * y) → mul_w w x y = Ok (x * y).
Proof. apply checked_ok. Qed.

Lemma shl1_ok w n : 0 ≤ n < w → shl_w w 1 n = Ok (2 ^ n).
Proof.
  intros Hn. unfold shl_w, wrap.
  destruct (Z.leb_spec 0 n), (Z.ltb_spec n w); try lia. simpl.
  rewrite Z.shiftl_1_l, Z.mod_small; [done|].
  split; [lia|]. apply Z.pow_lt_mono_r; lia.
Qed.

Lemma shl_w_ok w x n : 0 ≤ n < w → uint w (x * 2 ^ n) → shl_w w x n = Ok (x * 2 ^ n).
Proof.
  intros Hn Hx. unfold shl_w, wrap.
  destruct (Z.leb_spec 0 n), (Z.ltb_spec n w); try lia. simpl.
  by rewrite Z.shiftl_mul_pow2, Z.mod_small by (auto || lia).
Qed.

Lemma testbit_not_w w x n : 0 ≤ n < w → Z.testbit (not_w w x) n = negb (Z.testbit x n).
Proof.
  intros Hn. unfold not_w. rewrite Z.lxor_spec, Z.ones_spec_low by lia.
  apply xorb_true_r.
Qed.

Lemma testbit_high w x n : uint w x → w ≤ n → Z.testbit x n = false.
Proof.
  intros [Hx0 Hx] Hn. destruct (Z.eq_dec x 0) as [->|]; [apply Z.bits_0|].
  apply Z.bits_above_log2; [lia|].
  assert (Z.log2 x < w); [|lia]. apply Z.log2_lt_pow2; lia.
Qed.

(** [x & !2^n] clears one bit. *)
Lemma land_not_pow2 w x n : 0 ≤ n < w → uint w x →
  Z.land x (not_w w (2 ^ n)) = Z.ldiff x (2 ^ n).
Proof.
  intros Hn Hx. apply Z.bits_inj'. intros m Hm.
  rewrite Z.land_spec, Z.ldiff_spec.
  destruct (Z.lt_ge_cases m w).
  - by rewrite testbit_not_w by lia.
  - by rewrite (testbit_high w x m Hx) by lia.
Qed.

Lemma testbit_setbit x n m : 0 ≤ n → 0 ≤ m →
  Z.testbit (Z.lor x (2 ^ n)) m = Z.testbit x m || (n =? m).
Proof. intros. by rewrite Z.lor_spec, Z.pow2_bits_eqb by lia. Qed.

Lemma testbit_clearbit x n m : 0 ≤ n → 0 ≤ m →
  Z.testbit (Z.ldiff x (2 ^ n)) m = Z.testbit x m && negb (n =? m).
Proof. intros. by rewrite Z.ldiff_spec, Z.pow2_bits_eqb by lia. Qed.

Lemma land_pow2 x n : 0 ≤ n → Z.land x (2 ^ n) = if Z.testbit x n then 2 ^ n else 0.
Proof.
  intros Hn. apply Z.bits_inj'. intros m Hm. rewrite Z.land_spec, Z.pow2_bits_eqb by lia.
  destruct (Z.eqb_spec n m) as [->|].
  - destruct (Z.testbit x m); simpl; [|by rewrite Z.bits_0].
    by rewrite Z.pow2_bits_true by lia.
  - rewrite andb_false_r. destruct (Z.testbit x n); [|by rewrite Z.bits_0].
    by rewrite Z.pow2_bits_false by lia.
Qed.

(** The test [x & (1 << n) != 0] of the source reads bit [n]. *)
Lemma land_pow2_eqb x n : 0 ≤ n → (Z.land x (2 ^ n) =? 0) = negb (Z.testbit x n).
Proof.
  intros Hn. rewrite land_pow2 by done. destruct (Z.testbit x n); simpl; [|done].
  apply Z.eqb_neq. pose proof (Z.pow_pos_nonneg 2 n). lia.
Qed.
End checked_facts.

Section width_facts.
Implicit Types w x y n : Z.

Lemma uint_of_bits w x : 0 ≤ w → 0 ≤ x → (∀ n, w ≤ n → Z.testbit x n = false) → uint w x.
Proof.
  intros Hw Hx Hb. split; [done|].
  destruct (Z.lt_ge_cases x (2 ^ w)) as [|Hge]; [done|].
  assert (0 < 2 ^ w) by (apply Z.pow_pos_nonneg; lia).
  assert (w ≤ Z.log2 x) by (apply Z.log2_le_pow2; lia).
  specialize (Hb (Z.log2 x) ltac:(done)). by rewrite Z.bit_log2 in Hb by lia.
Qed.

Lemma uint_lor w x y : 0 ≤ w → uint w x → uint w y → uint w (Z.lor x y).
Proof.
  intros Hw Hx Hy. apply uint_of_bits; [done| |].
  - apply Z.lor_nonneg. unfold uint in *; lia.
  - intros n Hn. by rewrite Z.lor_spec, (testbit_high w x), (testbit_high w y).
Qed.

Lemma uint_ldiff w x y : 0 ≤ w → uint w x → uint w (Z.ldiff x y).
Proof.
  intros Hw Hx. apply uint_of_bits; [done| |].
  - apply Z.ldiff_nonneg. left. apply Hx.
  - intros n Hn. by rewrite Z.ldiff_spec, (testbit_high w x).
Qed.

Lemma uint_land w x y : 0 ≤ w → uint w x → uint w (Z.land x y).
Proof.
  intros Hw Hx. apply uint_of_bits; [done| |].
  - apply Z.land_nonneg. left. apply Hx.
  - intros n Hn. by rewrite Z.land_spec, (testbit_high w x).
Qed.

Lemma uint_pow2 w n : 0 ≤ n < w → uint w (2 ^ n).
Proof. intros. split; [lia|]. apply Z.pow_lt_mono_r; lia. Qed.

(** Disjoint bit patterns add like they [or]. *)
Lemma lor_add_disjoint x y : Z.land x y = 0 → Z.lor x y = x + y.
Proof. intros H. rewrite <- Z.lxor_lor by done. symmetry. by apply Z.add_nocarry_lxor. Qed.

Lemma pos_trailing_zeros_spec p :
  0 ≤ pos_trailing_zeros p ∧ (2 ^ pos_trailing_zeros p | Zpos p).
Proof.
  induction p as [p IH|p IH|]; simpl pos_trailing_zeros.
  - split; [lia|]. apply Z.divide_1_l.
  - destruct IH as [H0 [q Hq]]. split; [lia|].
    exists q. rewrite Pos2Z.inj_xO, Z.pow_add_r, Hq, Z.pow_1_r by lia. ring.
  - split; [lia|]. apply Z.divide_1_l.
Qed.

Lemma trailing_zeros64_spec x : 0 ≤ x →
  0 ≤ trailing_zeros64 x ∧ (2 ^ trailing_zeros64 x | x).
Proof.
  intros Hx. destruct x as [|p|p]; simpl; [|apply pos_trailing_zeros_spec|lia].
  split; [lia|]. apply Z.divide_0_r.
Qed.

Lemma divide_pow2_le m n x : 0 ≤ m ≤ n → (2 ^ n | x) → (2 ^ m | x).
Proof.
  intros H Hd. transitivity (2 ^ n); [|done].
  exists (2 ^ (n - m)). rewrite <- Z.pow_add_r by lia. f_equal; lia.
Qed.

Lemma uint64_log2 x : uint 64 x → 0 < x → 0 ≤ Z.log2 x ≤ 63.
Proof.
  intros [_ Hx] H0. split; [apply Z.log2_nonneg|].
  assert (Z.log2 x < 64); [|lia]. by apply Z.log2_lt_pow2.
Qed.
End width_facts.

Section slice_facts.
Context {A : Type}.
Implicit Types (l : list A) (i : Z).

Lemma index_Some l i x : 0 ≤ i → l !! Z.to_nat i = Some x → index l i = Ok x.
Proof. intros Hi Hx. unfold index. destruct (Z.leb_spec 0 i); [|lia]. by rewrite Hx. Qed.

Lemma index_inv l i x : index l i = Ok x →
  0 ≤ i < Z.of_nat (length l) ∧ l !! Z.to_nat i = Some x.
Proof.
  unfold index. destruct (Z.leb_spec 0 i); [|done].
  destruct (l !! Z.to_nat i) eqn:E; [|done]. simpl. intros [= ->].
  apply lookup_lt_Some in E as H'. split; [lia|done].
Qed.

Lemma index_ok l i : 0 ≤ i < Z.of_nat (length l) →
  ∃ x, index l i = Ok x ∧ l !! Z.to_nat i = Some x.
Proof.
  intros Hi. destruct (lookup_lt_is_Some_2 l (Z.to_nat i)) as [x Hx]; [lia|].
  exists x. split; [|done]. apply index_Some; [lia|done].
Qed.

Lemma index_bounds l i : 0 ≤ i → Z.of_nat (length l) ≤ i → index l i = Err PanicBounds.
Proof.
  intros H0 Hi. unfold index. destruct (Z.leb_spec 0 i); [|lia].
  by rewrite lookup_ge_None_2 by lia.
Qed.

Lemma store_ok l i x : 0 ≤ i < Z.of_nat (length l) →
  store l i x = Ok (<[Z.to_nat i := x]> l).
Proof.
  intros Hi. unfold store.
  destruct (Z.leb_spec 0 i), (Z.ltb_spec i (Z.of_nat (length l))); (lia || done).
Qed.

Lemma store_inv l i x l' : store l i x = Ok l' →
  0 ≤ i < Z.of_nat (length l) ∧ l' = <[Z.to_nat i := x]> l.
Proof.
  unfold store.
  destruct (Z.leb_spec 0 i), (Z.ltb_spec i (Z.of_nat (length l))); simpl; try done.
  intros [= <-]. split; [lia|done].
Qed.
End slice_facts.

(** Membership after dropping one element of a duplicate-free list. *)
Lemma elem_of_remove_middle {A} (l1 l2 : list A) i j :
  NoDup (l1 ++ i :: l2) → j ∈ l1 ++ l2 ↔ j ∈ l1 ++ i :: l2 ∧ j ≠ i.
Proof.
  intros (_ & Hd & [Hi _]%NoDup_cons)%NoDup_app. specialize (Hd i).
  rewrite !elem_of_app, elem_of_cons in *. split.
  - intros [Hj|Hj]; (split; [tauto|]); intros ->; tauto.
  - tauto.
Qed.

(** Where a loop over a range stands. *)
Lemma seqZ_split_range {m n} d a r : seqZ m n = d ++ a :: r →
  m ≤ a < m + n ∧ Forall (λ b, m ≤ b < m + n) d.
Proof.
  intros E. split.
  - apply elem_of_seqZ. rewrite E. set_solver.
  - apply Forall_forall. intros b Hb. apply elem_of_seqZ. rewrite E. set_solver.
Qed.

(** ** Loops that store a value per index *)

(** [l] with [v] at [o + k] for every offset [o]. *)
Definition put_all {A} (offs : list Z) (k : Z) (v : A) (l : list A) : list A :=
  foldr (λ o l, <[Z.to_nat (o + k) := v]> l) l offs.

Section fill.
Context {A : Type} (offs : list Z) (e : Z → A) (cnt : Z).
Implicit Types l : list A.

Lemma length_put_all k v l : length (put_all offs k v l) = length l.
Proof. unfold put_all. induction offs; simpl; [done|]. by rewrite length_insert. Qed.

Lemma put_all_hit o k v l : o ∈ offs → (∀ o, o ∈ offs → 0 ≤ o + k < Z.of_nat (length l)) →
  put_all offs k v l !! Z.to_nat (o + k) = Some v.
Proof.
  intros Ho Hr. unfold put_all. induction offs as [|o' os IH]; [by apply elem_of_nil in Ho|]. simpl.
  assert (length (foldr (λ o l, <[Z.to_nat (o + k) := v]> l) l os) = length l) as Hl.
  { clear. induction os; simpl; [done|]. by rewrite length_insert. }
  destruct (decide (o' + k = o + k)) as [E|].
  - rewrite E, list_lookup_insert_eq; [done|]. rewrite Hl. specialize (Hr o Ho). lia.
  - apply elem_of_cons in Ho as [->|Ho]; [done|].
    rewrite list_lookup_insert_ne; [apply IH; set_solver|].
    pose proof (Hr o' ltac:(set_solver)). pose proof (Hr o ltac:(set_solver)). lia.
Qed.

Lemma put_all_miss k v l j : (∀ o, o ∈ offs → j ≠ Z.to_nat (o + k)) →
  put_all offs k v l !! j = l !! j.
Proof.
  unfold put_all. induction offs as [|o os IH]; intros Hj; simpl; [done|].
  rewrite list_lookup_insert_ne by (pose proof (Hj o ltac:(set_solver)); lia).
  apply IH. set_solver.
Qed.

(** A loop whose [k]-th iteration puts [e k] at the offsets. *)
Lemma fill_loop (f : list A → Z → res (list A)) l :
  (∀ l' k, length l' = length l → 0 ≤ k < cnt → f l' k = Ok (put_all offs k (e k) l')) →
  (∀ o k, o ∈ offs → 0 ≤ k < cnt → 0 ≤ o + k < Z.of_nat (length l)) →
  (∀ o o' k k', o ∈ offs → o' ∈ offs → 0 ≤ k < cnt → 0 ≤ k' < cnt → o + k = o' + k' → k = k') →
  ∃ l', foldM f l (seqZ 0 cnt) = Ok l' ∧ length l' = length l ∧
    (∀ o k, o ∈ offs → 0 ≤ k < cnt → l' !! Z.to_nat (o + k) = Some (e k)) ∧
    (∀ j, (∀ o k, o ∈ offs → 0 ≤ k < cnt → j ≠ Z.to_nat (o + k)) → l' !! j = l !! j).
Proof.
  intros Hf Hr Hinj.
  destruct (foldM_inv f (λ d l', length l' = length l ∧
    (∀ o k, o ∈ offs → k ∈ d → 0 ≤ k < cnt → l' !! Z.to_nat (o + k) = Some (e k)) ∧
    (∀ j, (∀ o k, o ∈ offs → 0 ≤ k < cnt → j ≠ Z.to_nat (o + k)) → l' !! j = l !! j))
    (seqZ 0 cnt) [] l) as (l' & Hl' & Hlen & Hin & Hout).
  - split_and!; [done| |done]. intros o k _ Hk. by apply elem_of_nil in Hk.
  - intros d k r l' E (Hlen & Hin & Hout). apply seqZ_split_range in E as [Hk _].
    eexists. split; [by apply Hf|]. split_and!.
    + by rewrite length_put_all.
    + intros o k' Ho Hk' Hk'r. destruct (decide (k' = k)) as [->|Hne].
      * apply put_all_hit; [done|]. intros o' Ho'. rewrite Hlen. by apply Hr.
      * rewrite put_all_miss.
        -- apply Hin; [done| |done]. apply elem_of_app in Hk' as [|?%list_elem_of_singleton]; done.
        -- intros o' Ho' E. apply Hne. eapply (Hinj o o'); [done..|].
           pose proof (Hr o k' Ho Hk'r). pose proof (Hr o' k Ho' Hk). lia.
    + intros j Hj. rewrite put_all_miss by auto. by apply Hout.
  - exists l'. split_and!; [done|done| |done]. intros o k Ho Hk. apply Hin; [done| |done].
    apply elem_of_seqZ. lia.
Qed.
End fill.

(** ** Shared automation *)

Create HintDb rust.
Create Rewrite HintDb rust.
#[export] Hint Resolve add_w_ok sub_w_ok mul_w_ok shl1_ok store_ok checked_ok : rust.
#[export] Hint Resolve uint_lor uint_ldiff uint_land uint_pow2 : rust.
#[export] Hint Rewrite @bind_Ok @bind_Err : rust.

(** Reduce the boolean comparisons of the source to the facts they decide. *)
Ltac bool_cases :=
  repeat match goal with
  | |- context [?x =? ?y] => destruct (Z.eqb_spec x y); simpl; try lia
  | |- context [?x <? ?y] => destruct (Z.ltb_spec x y); simpl; try lia
  | |- context [?x <=? ?y] => destruct (Z.leb_spec x y); simpl; try lia
  end.

(** Run checked arithmetic whose operands are known to be in range. *)
Ltac checked_arith :=
  repeat first
    [ rewrite bind_Ok
    | rewrite add_w_ok by (unfold uint; lia)
    | rewrite sub_w_ok by (unfold uint; lia)
    | rewrite mul_w_ok by (unfold uint; lia) ].

Ltac destruct_and_ex :=
  repeat match goal with
  | H : ∃ _, _ |- _ => destruct H
  | H : _ ∧ _ |- _ => destruct H
  end.
