(* ===== verification/KernelHeader.v ===== *)
(** * The boot protocol: the structures of [common-structures].

    The bootloader fills a [KernelHeader] and hands it to the kernel's entry
    point; both sides share these layouts.  Pointers are addresses ([Z]). *)
From stdpp Require Import base numbers list.
From S2P Require Import Prelude.

#[local] Open Scope Z_scope.

(** [pub enum Format] *)
Inductive Format := RGB | BGR.

#[global] Instance Format_eq_dec : EqDecision Format.
Proof. solve_decision. Defined.

(** [pub enum MemorySegmentState] *)
Inductive MemorySegmentState := Free | Occupied.

#[global] Instance MemorySegmentState_eq_dec : EqDecision MemorySegmentState.
Proof. solve_decision. Defined.

(** [pub struct MemorySegment] *)
Record MemorySegment := mkMemorySegment {
  start : Z;
  page_count : Z;
  state : MemorySegmentState;
}.

(** [pub struct PagingInfo] *)
Record PagingInfo := mkPagingInfo {
  page_buffer : Z;
  pdp_pages : Z;
  pd_pages : Z;
  pml4_entries : Z;
}.

(** [pub struct KernelHeader] *)
Record KernelHeader := mkKernelHeader {
  screen_buffer : Z;
  screen_width : Z;
  screen_height : Z;
  screen_scanline_width : Z;
  screen_format : Format;
  paging_info : PagingInfo;
  memory_map : Z;
  memory_map_entries : Z;
  high_memory_base : Z;
}.

(** [config::KERNEL_STACK_SIZE] *)
Definition KERNEL_STACK_SIZE : Z := 1024 * 1024.

Definition seg_free (s : MemorySegment) : bool := bool_decide (state s = Free).

(** A segment's physical page frames are [seg_first s, seg_first s + page_count s). *)
Definition seg_first (s : MemorySegment) : Z := Z.shiftr (start s) 12.

Definition seg_page (s : MemorySegment) (p : Z) : Prop :=
  seg_first s ≤ p < seg_first s + page_count s.

(** What a bootloader-made segment satisfies: a page-aligned start and an end
    that fits in 64 bits. *)
Definition seg_ok (s : MemorySegment) : Prop :=
  (4096 | start s) ∧ 0 ≤ start s ∧ 0 ≤ page_count s ∧ start s + page_count s * 4096 < 2 ^ 64.
