(* ===== verification/VirtManager.v ===== *)
(** * The kernel's view of physical memory ([kernel/src/memory/virt_manager.rs]).

    Physical memory is mirrored at [HIGH_MEM_BASE]; the kernel converts between
    the two views by or-ing the base in and masking it out. *)
From stdpp Require Import base numbers.
From S2P Require Import Prelude.
From S2P Require Import KernelHeader.

#[local] Open Scope Z_scope.

(** [set_high_mem_base] overwrites the static. *)
Definition set_high_mem_base (HIGH_MEM_BASE high_mem_base : Z) : Z := high_mem_base.

Definition phys_to_virt (HIGH_MEM_BASE phys : Z) : Z := Z.lor phys HIGH_MEM_BASE.

Definition virt_to_phys (HIGH_MEM_BASE virt : Z) : Z := Z.land virt (not_w 64 HIGH_MEM_BASE).

(** The addresses the mirror can represent: those that share no bit with the
    base. *)
Definition representable (HIGH_MEM_BASE phys : Z) : Prop :=
  uint 64 phys ∧ Z.land phys HIGH_MEM_BASE = 0.

Lemma phys_to_virt_add base phys :
  representable base phys → phys_to_virt base phys = phys + base.
Proof. intros [_ H]. by apply lor_add_disjoint. Qed.

Lemma virt_to_phys_to_virt base phys :
  uint 64 base → representable base phys → virt_to_phys base (phys_to_virt base phys) = phys.
Proof.
  intros Hb [Hp Hd]. unfold virt_to_phys, phys_to_virt.
  apply Z.bits_inj'. intros n Hn. rewrite Z.land_spec, Z.lor_spec.
  assert (Z.testbit (Z.land phys base) n = false) as Hd' by (rewrite Hd; apply Z.bits_0).
  rewrite Z.land_spec in Hd'.
  destruct (Z.lt_ge_cases n 64).
  - rewrite testbit_not_w by lia. destruct (Z.testbit phys n), (Z.testbit base n); done.
  - by rewrite (testbit_high 64 phys n), (testbit_high 64 base n).
Qed.

(** An address below a base whose low [k] bits are clear is representable. *)
Lemma representable_low base phys k :
  0 ≤ k ≤ 64 → (2 ^ k | base) → 0 ≤ base → 0 ≤ phys < 2 ^ k → representable base phys.
Proof.
  intros Hk [q ->] Hb Hp. split.
  - split; [lia|]. assert (2 ^ k ≤ 2 ^ 64) by (apply Z.pow_le_mono_r; lia). lia.
  - apply Z.bits_inj'. intros n Hn. rewrite Z.land_spec, Z.bits_0.
    destruct (Z.lt_ge_cases n k).
    + by rewrite Z.mul_pow2_bits_low, andb_false_r.
    + by rewrite (testbit_high k phys n).
Qed.
