(* ===== verification/Mutex.v ===== *)
(** * Locks ([kernel/src/mutex.rs]).

    [SpinLock] is an atomic flag taken with a swap and released with a store.
    The sequential half models [try_lock], [lock], [unlock] and the guard's
    drop; the concurrent half is a step relation on any number of threads that
    share one lock and the data it protects, where every atomic access is one
    step.  The theorems are mutual exclusion, and that the protected data
    always is what running the critical sections one after the other, in the
    order they took the lock, would give. *)
From stdpp Require Import base gmap numbers list.
From S2P Require Import Prelude.

#[local] Open Scope Z_scope.

(** ** Sequential operations *)

(** [pub trait Lock]: [try_lock] says whether a guard was obtained. *)
Class Lock (L : Type) := {
  try_lock : L → bool * L;
  unlock : L → L;
}.

(** The provided method [lock]: spin until [try_lock] yields a guard.  The
    fuel bounds the spinning. *)
Fixpoint lock_spin {L} `{Lock L} (fuel : nat) (l : L) : res L :=
  match fuel with
  | O => Err OutOfFuel
  | S n => let '(got, l') := try_lock l in if got then Ok l' else lock_spin n l'
  end.

(** A scope that begins with [let _guard = l.lock()]: the guard is dropped,
    and the lock released, when the scope returns normally (a panic does not
    return). *)
Definition with_guard {L A} `{Lock L} (fuel : nat) (l : L) (body : res A) : res (A * L) :=
  l' ← lock_spin fuel l;
  a ← body;
  mret (a, unlock l').

(** [pub struct SpinLock] *)
Record SpinLock := mkSpinLock { locked : bool }.

(** [SpinLock::new] *)
Definition SpinLock_new : SpinLock := mkSpinLock false.

(** [impl Lock for SpinLock]: [swap(true)] returns the old value. *)
Definition SpinLock_try_lock (l : SpinLock) : bool * SpinLock :=
  (negb (locked l), mkSpinLock true).

Definition SpinLock_unlock (l : SpinLock) : SpinLock := mkSpinLock false.

#[global] Instance SpinLock_Lock : Lock SpinLock := {
  try_lock := SpinLock_try_lock;
  unlock := SpinLock_unlock;
}.

(** A free lock is taken at the first try; a held one is never taken by
    spinning alone. *)
Lemma lock_spin_free n (l : SpinLock) : locked l = false → lock_spin (S n) l = Ok (mkSpinLock true).
Proof. intros Hl. simpl. unfold SpinLock_try_lock. by rewrite Hl. Qed.

Lemma lock_spin_held n (l : SpinLock) : locked l = true → lock_spin n l = Err OutOfFuel.
Proof.
  revert l. induction n as [|n IH]; intros l Hl; simpl; [done|].
  unfold SpinLock_try_lock. rewrite Hl. simpl. by apply IH.
Qed.

(** ** Threads sharing one lock *)

Section threads.
Context {D : Type}.

(** A critical section is the sequence of its accesses to the data. *)
Definition section : Type := list (D → D).

Definition run (ops : section) (d : D) : D := fold_left (λ d f, f d) ops d.

(** Where a thread is: outside, in [lock]'s loop about to swap, or holding
    the guard with some accesses still to do. *)
Inductive pc :=
  | Outside
  | Spinning (body : section)
  | Holding (rest : section).

(** [hist] lists the critical sections in the order they took the lock; it
    is not part of the program. *)
Record world := mkWorld {
  w_lock : SpinLock;
  w_data : D;
  w_pcs : gmap nat pc;
  w_hist : list section;
}.

Inductive step (bodies : section → Prop) : world → world → Prop :=
  | step_call l d ts h t body :
      ts !! t = Some Outside → bodies body →
      step bodies (mkWorld l d ts h) (mkWorld l d (<[t := Spinning body]> ts) h)
  | step_acquire l d ts h t body l' :
      ts !! t = Some (Spinning body) → try_lock l = (true, l') →
      step bodies (mkWorld l d ts h)
           (mkWorld l' d (<[t := Holding body]> ts) (h ++ [body]))
  | step_spin l d ts h t body l' :
      ts !! t = Some (Spinning body) → try_lock l = (false, l') →
      step bodies (mkWorld l d ts h) (mkWorld l' d ts h)
  | step_access l d ts h t f rest :
      ts !! t = Some (Holding (f :: rest)) →
      step bodies (mkWorld l d ts h) (mkWorld l (f d) (<[t := Holding rest]> ts) h)
  | step_drop l d ts h t :
      ts !! t = Some (Holding []) →
      step bodies (mkWorld l d ts h) (mkWorld (unlock l) d (<[t := Outside]> ts) h).

Definition initial (d : D) (w : world) : Prop :=
  w_lock w = SpinLock_new ∧ w_data w = d ∧ w_hist w = [] ∧
  map_Forall (λ _ p, p = Outside) (w_pcs w).

Definition reachable (bodies : section → Prop) (d : D) (w : world) : Prop :=
  ∃ w0, initial d w0 ∧ rtc (step bodies) w0 w.

Definition holding (p : pc) : bool := match p with Holding _ => true | _ => false end.

Definition holds (w : world) (t : nat) : Prop := ∃ r, w_pcs w !! t = Some (Holding r).

(** The lock invariant: the flag is up exactly when some thread holds the
    guard, that thread is unique, and finishing its accesses completes the
    serial execution of the history. *)
Definition lock_inv (bodies : section → Prop) (d0 : D) (w : world) : Prop :=
  Forall bodies (w_hist w) ∧
  map_Forall (λ _ p, match p with Spinning b => bodies b | _ => True end) (w_pcs w) ∧
  match locked (w_lock w) with
  | false =>
      map_Forall (λ _ p, holding p = false) (w_pcs w) ∧
      w_data w = fold_left (λ d b, run b d) (w_hist w) d0
  | true =>
      ∃ t r, w_pcs w !! t = Some (Holding r) ∧
        map_Forall (λ t' p, t' ≠ t → holding p = false) (w_pcs w) ∧
        run r (w_data w) = fold_left (λ d b, run b d) (w_hist w) d0
  end.

Lemma holding_false_lookup (ts : gmap nat pc) t p :
  map_Forall (λ _ p, holding p = false) ts → ts !! t = Some p → holding p = false.
Proof. intros H Ht. by apply (H t). Qed.

(** In a held world every holder is the one the invariant names. *)
Lemma holder_unique (ts : gmap nat pc) t t' r :
  map_Forall (λ t' p, t' ≠ t → holding p = false) ts →
  ts !! t' = Some (Holding r) → t' = t.
Proof.
  intros H Ht'. destruct (decide (t' = t)) as [|Hne]; [done|].
  by specialize (H t' _ Ht' Hne).
Qed.

Lemma lock_inv_initial bodies d w : initial d w → lock_inv bodies d w.
Proof.
  intros (Hl & Hd & Hh & Hp). unfold lock_inv. rewrite Hl, Hh, Hd. simpl.
  repeat split; [constructor| |].
  - intros t p Ht. by rewrite (Hp t p Ht).
  - intros t p Ht. by rewrite (Hp t p Ht).
Qed.

Lemma lock_inv_step bodies d w w' : lock_inv bodies d w → step bodies w w' → lock_inv bodies d w'.
Proof.
  intros (HB & HS & HI) Hst.
  destruct Hst as [l dt ts h t body Ht Hb|l dt ts h t body l' Ht Htl
    |l dt ts h t body l' Ht Htl|l dt ts h t f rest Ht|l dt ts h t Ht];
    unfold lock_inv in *; simpl in *.
  - split_and!; [done|by apply map_Forall_insert_2|].
    destruct (locked l).
    + destruct HI as (t0 & r & Ht0 & Hu & Hr). exists t0, r.
      assert (t ≠ t0) by congruence. rewrite lookup_insert_ne by done.
      split_and!; [done| |done]. by apply map_Forall_insert_2.
    + destruct HI as [Hn Hd]. split; [|done]. by apply map_Forall_insert_2.
  - assert (locked l = false ∧ l' = mkSpinLock true) as [Hl ->].
    { unfold SpinLock_try_lock in Htl. injection Htl. destruct (locked l); done. }
    rewrite Hl in HI. destruct HI as [Hn Hd]. simpl.
    split_and!.
    + apply Forall_app. split; [done|]. constructor; [|constructor].
      exact (HS t _ Ht).
    + by apply map_Forall_insert_2.
    + exists t, body. rewrite lookup_insert_eq. split_and!; [done| |].
      * apply map_Forall_insert_2; [done|]. intros t' p Hp _. exact (Hn t' p Hp).
      * by rewrite fold_left_app, Hd.
  - assert (l' = l) as ->.
    { unfold SpinLock_try_lock in Htl. injection Htl. destruct l as [[]]; simpl; congruence. }
    done.
  - destruct (locked l) eqn:Hl.
    + destruct HI as (t0 & r & Ht0 & Hu & Hr).
      assert (t = t0) as -> by eauto using holder_unique. simplify_eq.
      split_and!; [done|by apply map_Forall_insert_2|].
      exists t0, rest. rewrite lookup_insert_eq. split_and!; [done| |done].
      apply map_Forall_insert_2; [congruence|done].
    + destruct HI as [Hn _]. by specialize (Hn t _ Ht).
  - destruct (locked l) eqn:Hl.
    + destruct HI as (t0 & r & Ht0 & Hu & Hr).
      assert (t = t0) as -> by eauto using holder_unique. simplify_eq.
      split_and!; [done|by apply map_Forall_insert_2| |done].
      intros t' p. destruct (decide (t0 = t')) as [<-|].
      * rewrite lookup_insert_eq. by intros [= <-].
      * rewrite lookup_insert_ne by done. intros Hp. by apply (Hu t').
    + destruct HI as [Hn _]. by specialize (Hn t _ Ht).
Qed.

Lemma lock_inv_reachable bodies d w : reachable bodies d w → lock_inv bodies d w.
Proof.
  intros (w0 & H0 & Hst). apply (lock_inv_initial bodies) in H0. revert H0.
  induction Hst; eauto using lock_inv_step.
Qed.

(** In every reachable state at most one thread holds the guard of a
    [SpinLock], however the threads' steps interleave. *)
Lemma mutual_exclusion bodies d w t1 t2 :
  reachable bodies d w → holds w t1 → holds w t2 → t1 = t2.
Proof.
  intros Hr [r1 H1] [r2 H2]. apply lock_inv_reachable in Hr as (_ & _ & HI).
  destruct (locked (w_lock w)).
  - destruct HI as (t & r & _ & Hu & _).
    by rewrite (holder_unique _ t t1 r1 Hu H1), (holder_unique _ t t2 r2 Hu H2).
  - destruct HI as [Hn _]. by specialize (Hn t1 _ H1).
Qed.

(** Running well-behaved critical sections in any order keeps an invariant. *)
Lemma serial_invariant (bodies : section → Prop) (I : D → Prop) d h :
  (∀ b d, bodies b → I d → I (run b d)) → I d → Forall bodies h →
  I (fold_left (λ d b, run b d) h d).
Proof.
  intros HI. revert d. induction h as [|b h IH]; intros d Hd HB; simpl; [done|].
  inversion HB; subst. apply IH; auto.
Qed.

(** C9: whenever the lock is free, the protected data is what the critical
    sections that took the lock give when run one after the other, whole, in
    the order they took it; so an invariant every section keeps holds. *)
Theorem critical_sections_serialise bodies d w (I : D → Prop) :
  reachable bodies d w → locked (w_lock w) = false →
  (∀ b d, bodies b → I d → I (run b d)) → I d →
  w_data w = fold_left (λ d b, run b d) (w_hist w) d ∧
  Forall bodies (w_hist w) ∧ I (w_data w).
Proof.
  intros Hr Hl HI Hd. apply lock_inv_reachable in Hr as (HB & _ & Hinv).
  rewrite Hl in Hinv. destruct Hinv as [_ Hdata].
  split_and!; [done|done|]. rewrite Hdata. by apply (serial_invariant bodies).
Qed.
End threads.

(** ** Witnesses: two threads that increment a counter twice each *)

Definition demo_body : section (D := Z) := [Z.succ; Z.succ].

Definition demo_start : world (D := Z) :=
  mkWorld SpinLock_new 0 {[0%nat := Outside; 1%nat := Outside]} [].

(** Thread 0 is inside, thread 1 has already swapped in vain. *)
Definition demo_held : world (D := Z) :=
  mkWorld (mkSpinLock true) 1 {[0%nat := Holding [Z.succ]; 1%nat := Spinning demo_body]} [demo_body].

(** Thread 0 is done, thread 1 still spins. *)
Definition demo_free : world (D := Z) :=
  mkWorld (mkSpinLock false) 2 {[0%nat := Outside; 1%nat := Spinning demo_body]} [demo_body].

Lemma demo_start_initial : initial 0 demo_start.
Proof.
  repeat split. intros t p Ht. simpl in Ht. apply lookup_insert_Some in Ht as [[_ <-]|[_ Ht]]; [done|].
  by apply lookup_singleton_Some in Ht as [_ <-].
Qed.

Lemma demo_steps_held : rtc (step (eq demo_body)) demo_start demo_held.
Proof.
  eapply rtc_l; [by apply (step_call _ _ _ _ _ 0 demo_body)|].
  eapply rtc_l; [by apply (step_call _ _ _ _ _ 1 demo_body)|].
  eapply rtc_l; [by apply (step_acquire _ _ _ _ _ 0 demo_body)|].
  eapply rtc_l; [by apply (step_spin _ _ _ _ _ 1 demo_body)|].
  eapply rtc_l; [by apply (step_access _ _ _ _ _ 0 Z.succ [Z.succ])|].
  replace demo_held with (mkWorld (mkSpinLock true) 1
    (<[0%nat := Holding [Z.succ]]> (<[0%nat := Holding demo_body]>
      (<[1%nat := Spinning demo_body]> (<[0%nat := Spinning demo_body]>
        {[0%nat := Outside; 1%nat := Outside]})))) [demo_body]) by done.
  apply rtc_refl.
Qed.

Lemma demo_steps_free : rtc (step (eq demo_body)) demo_held demo_free.
Proof.
  eapply rtc_l; [by apply (step_access _ _ _ _ _ 0 Z.succ [])|].
  eapply rtc_l; [by apply (step_drop _ _ _ _ _ 0)|].
  apply rtc_refl.
Qed.

Lemma critical_sections_serialise_witness :
  w_data demo_free = 2 ∧ Z.Even (w_data demo_free).
Proof.
  split; [reflexivity|].
  apply (critical_sections_serialise (eq demo_body) 0 demo_free Z.Even).
  - exists demo_start. split; [exact demo_start_initial|].
    transitivity demo_held; [exact demo_steps_held|exact demo_steps_free].
  - reflexivity.
  - intros b d <- [k ->]. exists (k + 1). unfold run, demo_body. simpl. lia.
  - exists 0. reflexivity.
Defined.
