(* ===== verification/FreeList.v ===== *)
(** * The intrusive free lists of the buddy allocator
      ([FreeEntry] and the list helpers of [kernel/src/memory/phys_manager.rs]).

    A [FreeEntry] lives in the free block it describes and is reached only
    through raw pointers, so the model keeps a heap from addresses to entries;
    an access to an address that holds no entry is undefined behaviour.  A
    [*mut FreeEntry] is an address, [null_mut()] is 0, and the [&mut *mut
    FreeEntry] head argument is passed in and handed back. *)
From stdpp Require Import base gmap numbers list.
From S2P Require Import Prelude.

#[local] Open Scope Z_scope.

Definition null_mut : Z := 0.

Definition is_null (p : Z) : bool := p =? 0.

(** [pub struct FreeEntry] *)
Record FreeEntry := mkFreeEntry {
  order : Z;
  next : Z;
  prev : Z;
}.

#[global] Instance FreeEntry_eq_dec : EqDecision FreeEntry.
Proof. solve_decision. Defined.

Abbreviation heap := (gmap Z FreeEntry).

(** Reading and writing through a raw pointer. *)
Definition deref (h : heap) (p : Z) : res FreeEntry := of_option UB (h !! p).

Definition set_next (h : heap) (p v : Z) : res heap :=
  e ← deref h p; mret (<[p := mkFreeEntry (order e) v (prev e)]> h).

Definition set_prev (h : heap) (p v : Z) : res heap :=
  e ← deref h p; mret (<[p := mkFreeEntry (order e) (next e) v]> h).

(** [ptr.write(v)]: the old content is not read. *)
Definition write (h : heap) (p : Z) (v : FreeEntry) : res heap :=
  if is_null p then Err UB else mret (<[p := v]> h).

(** [fn remove_buddy_list_entry] *)
Definition remove_buddy_list_entry (h : heap) (head entry : Z) : res (heap * Z) :=
  e ← deref h entry;
  '(h, head) ← (if is_null (prev e) then mret (h, next e)
                else h ← set_next h (prev e) (next e); mret (h, head));
  e ← deref h entry;
  h ← (if negb (is_null (next e)) then set_prev h (next e) (prev e) else mret h);
  mret (h, head).

(** [fn push_buddy_list_entry] *)
Definition push_buddy_list_entry (h : heap) (head entry : Z) : res (heap * Z) :=
  h ← (if negb (is_null head) then
         h ← set_next h entry head;
         set_prev h head entry
       else mret h);
  mret (h, entry).

(** [fn pop_buddy_list_entry] *)
Definition pop_buddy_list_entry (h : heap) (head : Z) : res (heap * Z * Z) :=
  if is_null head then mret (h, head, null_mut)
  else
    let tmp := head in
    e ← deref h head;
    let head := next e in
    h ← (if negb (is_null head) then set_prev h head null_mut else mret h);
    mret (h, head, tmp).

(** ** What a well-formed list is *)

(** [dseg h k pv p l]: from [p], whose predecessor is [pv], the [next]
    pointers run through the entries [l], all of order [k] and linked back by
    [prev], and end in null. *)
Fixpoint dseg (h : heap) (k pv p : Z) (l : list Z) : Prop :=
  match l with
  | [] => p = null_mut
  | q :: l' => p = q ∧ q ≠ null_mut ∧
      ∃ e, h !! q = Some e ∧ order e = k ∧ prev e = pv ∧ dseg h k q (next e) l'
  end.

(** A doubly linked list of order [k] with the given head. *)
Definition dlist (h : heap) (k head : Z) (l : list Z) : Prop :=
  dseg h k null_mut head l ∧ NoDup l.

(** The two heaps hold the same entries outside [l]. *)
Definition same_except (l : list Z) (h h' : heap) : Prop :=
  ∀ p, p ∉ l → h' !! p = h !! p.

Lemma same_except_refl l h : same_except l h h.
Proof. by intros p. Qed.

Lemma same_except_trans l h1 h2 h3 :
  same_except l h1 h2 → same_except l h2 h3 → same_except l h1 h3.
Proof. intros H1 H2 p Hp. by rewrite H2, H1. Qed.

Lemma same_except_insert l h p e : p ∈ l → same_except l h (<[p := e]> h).
Proof. intros Hp q Hq. rewrite lookup_insert_ne; [done|]. by intros ->. Qed.

Lemma same_except_weaken l l' h h' : l ⊆ l' → same_except l h h' → same_except l' h h'.
Proof. intros Hsub H p Hp. apply H. set_solver. Qed.

#[export] Hint Resolve same_except_refl same_except_insert : rust.

Lemma dseg_frame h h' k pv p l :
  (∀ q, q ∈ l → h' !! q = h !! q) → dseg h k pv p l → dseg h' k pv p l.
Proof.
  revert pv p. induction l as [|q l IH]; intros pv p Hsame; simpl; [done|].
  intros (-> & Hq & e & He & Ho & Hpv & Hs). split_and!; [done..|].
  exists e. rewrite Hsame by set_solver. split_and!; [done..|].
  apply IH; [|done]. intros. apply Hsame. set_solver.
Qed.

(** A list is unaffected by changes outside it. *)
Lemma dlist_frame l' h h' k head l :
  same_except l' h h' → (∀ q, q ∈ l → q ∉ l') → dlist h k head l → dlist h' k head l.
Proof.
  intros Hs Hd [Hl Hn]. split; [|done].
  eapply dseg_frame; [|done]. intros q Hq. apply Hs, Hd, Hq.
Qed.

Lemma dseg_head h k pv p l : dseg h k pv p l → p = default null_mut (l !! 0%nat).
Proof. destruct l; simpl; [done|]. by intros (-> & _). Qed.

Lemma dseg_entry h k pv p l q :
  dseg h k pv p l → q ∈ l → q ≠ null_mut ∧ ∃ e, h !! q = Some e ∧ order e = k.
Proof.
  revert pv p. induction l as [|q' l IH]; intros pv p; simpl; [set_solver|].
  intros (-> & Hq & e & He & Ho & Hpv & Hs) [->|Hin]%elem_of_cons; eauto.
Qed.

(** Replacing the predecessor of the first entry. *)
Lemma dseg_set_prev h k pv pv' p q l e :
  dseg h k pv p (q :: l) → NoDup (q :: l) → h !! q = Some e →
  dseg (<[q := mkFreeEntry (order e) (next e) pv']> h) k pv' p (q :: l).
Proof.
  intros (-> & Hq & e' & He & Ho & _ & Hs) Hnd%NoDup_cons He'. simplify_eq.
  split_and!; [done..|]. eexists. rewrite lookup_insert_eq. split_and!; [done..|].
  simpl. eapply dseg_frame; [|done]. intros r Hr. rewrite lookup_insert_ne; [done|].
  intros <-. by destruct Hnd.
Qed.

Lemma set_prev_ok h p v e :
  h !! p = Some e → set_prev h p v = Ok (<[p := mkFreeEntry (order e) (next e) v]> h).
Proof. intros He. unfold set_prev, deref. by rewrite He. Qed.

Lemma set_next_ok h p v e :
  h !! p = Some e → set_next h p v = Ok (<[p := mkFreeEntry (order e) v (prev e)]> h).
Proof. intros He. unfold set_next, deref. by rewrite He. Qed.

Lemma is_null_false p : p ≠ null_mut → is_null p = false.
Proof. apply Z.eqb_neq. Qed.

(** ** The list operations on well-formed lists *)

(** Pushing a fresh entry of the right order in front. *)
Lemma push_ok h k head l p :
  dlist h k head l → p ≠ null_mut → p ∉ l → h !! p = Some (mkFreeEntry k null_mut null_mut) →
  ∃ h', push_buddy_list_entry h head p = Ok (h', p) ∧
    dlist h' k p (p :: l) ∧ same_except (p :: l) h h'.
Proof.
  intros [Hs Hn] Hp Hpl He. unfold push_buddy_list_entry.
  destruct l as [|q l]; simpl in Hs.
  - subst head. exists h. split_and!; [done| |auto with rust].
    split; [|apply NoDup_singleton]. simpl. eauto 10.
  - pose proof Hs as (-> & Hq & e & Heq & Ho & Hpv & Hs').
    rewrite is_null_false by done. simpl negb. cbv iota.
    rewrite (set_next_ok _ _ _ _ He), bind_Ok.
    assert (p ≠ q) by set_solver +Hpl.
    erewrite set_prev_ok by (rewrite lookup_insert_ne; done).
    eexists. split_and!; [done| |].
    + split; [|by apply NoDup_cons]. split_and!; [done..|].
      exists (mkFreeEntry k q null_mut). rewrite lookup_insert_ne, lookup_insert_eq by done.
      split_and!; [done..|]. eapply dseg_set_prev; [|done|].
      * eapply dseg_frame; [|exact Hs]. intros r Hr. rewrite lookup_insert_ne; [done|set_solver +Hr Hpl].
      * by rewrite lookup_insert_ne.
    + eapply same_except_trans; apply same_except_insert; set_solver +.
Qed.

Lemma pop_nil h k head : dlist h k head [] → pop_buddy_list_entry h head = Ok (h, head, null_mut).
Proof. intros [-> _]. done. Qed.

(** Popping takes the first entry; only the new first entry changes. *)
Lemma pop_cons h k head p l :
  dlist h k head (p :: l) →
  ∃ h' head', pop_buddy_list_entry h head = Ok (h', head', p) ∧
    dlist h' k head' l ∧ same_except l h h'.
Proof.
  intros [(-> & Hp & e & He & Ho & Hpv & Hs) Hnd%NoDup_cons].
  unfold pop_buddy_list_entry. rewrite is_null_false by done. unfold deref. rewrite He. simpl.
  destruct l as [|q l].
  - simpl in Hs. rewrite Hs. simpl. eexists _, _. split_and!; [done| |auto with rust].
    split; [done|constructor].
  - pose proof Hs as (Hn & Hq & eq & Heq & _).
    rewrite Hn, is_null_false by done. simpl. rewrite (set_prev_ok _ _ _ _ Heq).
    eexists _, _. split_and!; [done| |].
    + rewrite Hn in Hs. split; [|apply Hnd]. eapply dseg_set_prev; [done|apply Hnd|done].
    + apply same_except_insert. set_solver +.
Qed.

(** The entry in front of a suffix of the list. *)
Definition pred_of (pv : Z) (l1 : list Z) : Z := default pv (last l1).

Lemma dseg_app h k pv p l1 q l2 :
  dseg h k pv p (l1 ++ q :: l2) →
  ∃ e, h !! q = Some e ∧ order e = k ∧ q ≠ null_mut ∧ prev e = pred_of pv l1 ∧
    dseg h k q (next e) l2.
Proof.
  revert pv p. induction l1 as [|r l1 IH]; intros pv p; simpl.
  - intros (-> & Hq & e & He & Ho & Hpv & Hs). eauto 10.
  - intros (-> & Hr & e & He & Ho & Hpv & Hs). destruct (IH _ _ Hs) as (e' & H).
    exists e'. unfold pred_of in *. by rewrite last_cons; destruct (last l1).
Qed.

(** Relinking the predecessor past [q]: the list up to the suffix. *)
Lemma dseg_unlink_next h k pv p l1 q l2 e :
  dseg h k pv p (l1 ++ q :: l2) → NoDup (l1 ++ q :: l2) → l1 ≠ [] → h !! q = Some e →
  ∃ eb, h !! pred_of pv l1 = Some eb ∧ pred_of pv l1 ∈ l1 ∧
    ∀ h', (∀ r, r ∈ l1 → r ≠ pred_of pv l1 → h' !! r = h !! r) →
      h' !! pred_of pv l1 = Some (mkFreeEntry (order eb) (next e) (prev eb)) →
      dseg h' k (pred_of pv l1) (next e) l2 →
      dseg h' k pv p (l1 ++ l2).
Proof.
  revert pv p. induction l1 as [|r l1 IH]; intros pv p Hs Hnd Hne He; [done|].
  destruct Hs as (-> & Hr & er & Her & Ho & Hpv & Hs). simpl in Hnd.
  apply NoDup_cons in Hnd as [Hrn Hnd].
  destruct l1 as [|r' l1].
  - simpl in *. destruct Hs as (Hq & _). exists er. unfold pred_of; simpl.
    split_and!; [done|set_solver +|]. intros h' _ Her' Hs'.
    split_and!; [done..|]. eexists; split_and!; [done..|]. done.
  - destruct (IH _ _ Hs Hnd ltac:(done) He) as (eb & Heb & Hin & Hk).
    assert (pred_of pv (r :: r' :: l1) = pred_of r (r' :: l1)) as ->.
    { unfold pred_of. rewrite (last_cons r). by destruct (last (r' :: l1)) eqn:E; [|apply last_None in E]. }
    exists eb. split_and!; [done|by apply elem_of_cons; right|]. intros h' Hf Hb' Hs'.
    change ((r :: r' :: l1) ++ l2) with (r :: ((r' :: l1) ++ l2)). split_and!; [done..|].
    exists er. rewrite Hf; [|set_solver +|]. 2: { intros Heq. apply Hrn. rewrite Heq. apply elem_of_app. by left. }
    split_and!; [done..|]. apply Hk; [|done..]. intros r0 Hr0 ?. apply Hf; [by apply elem_of_cons; right|done].
Qed.

(** Giving the suffix behind a removed entry its new predecessor. *)
Lemma relink_suffix h k pv pv' p l :
  dseg h k pv p l → NoDup l →
  ∃ h', (if negb (is_null p) then set_prev h p pv' else mret h) = Ok h' ∧
    dseg h' k pv' p l ∧ same_except l h h'.
Proof.
  intros Hs Hnd. destruct l as [|q l].
  - simpl in Hs. subst p. simpl. eauto with rust.
  - pose proof Hs as (-> & Hq & e & He & _). rewrite is_null_false by done. simpl.
    rewrite (set_prev_ok _ _ _ _ He). eexists. split; [done|split].
    + by eapply dseg_set_prev.
    + apply same_except_insert. set_solver +.
Qed.

(** Removing any entry of the list; the entries that change are in the rest of
    the list. *)
Lemma remove_ok h k head l1 q l2 :
  dlist h k head (l1 ++ q :: l2) →
  ∃ h' head', remove_buddy_list_entry h head q = Ok (h', head') ∧
    dlist h' k head' (l1 ++ l2) ∧ same_except (l1 ++ l2) h h'.
Proof.
  intros [Hs Hnd]. destruct (dseg_app _ _ _ _ _ _ _ Hs) as (e & He & Ho & Hq & Hpv & Hs2).
  pose proof Hnd as (Hn1 & Hd & [Hq2 Hn2]%NoDup_cons)%NoDup_app.
  assert (∀ r, r ∈ l1 → r ∉ l2) as Hd12 by (intros r Hr Hr2; apply (Hd r Hr); set_solver +Hr2).
  assert (q ∉ l1) as Hq1 by (intros Hin; apply (Hd q Hin); set_solver +).
  assert (NoDup (l1 ++ l2)) as Hnd' by (apply NoDup_app; auto).
  unfold remove_buddy_list_entry, deref. rewrite He. simpl of_option. simpl_res.
  destruct (decide (l1 = [])) as [->|Hl1].
  - rewrite Hpv. simpl. rewrite He. simpl. rewrite Hpv.
    destruct (relink_suffix h k q (pred_of null_mut []) (next e) l2) as (h' & -> & Hs' & Hx); [done..|].
    simpl. eexists _, _. split_and!; [done|by split|done].
  - destruct (dseg_unlink_next _ _ _ _ _ _ _ _ Hs Hnd Hl1 He) as (eb & Heb & Hb & Hk).
    destruct (dseg_entry _ _ _ _ _ _ Hs (proj2 (elem_of_app _ _ _) (or_introl Hb))) as [Hbn _].
    assert (pred_of null_mut l1 ≠ q) by (intros Heq; apply Hq1; by rewrite <- Heq).
    rewrite Hpv, is_null_false, (set_next_ok _ _ _ _ Heb) by done. simpl.
    rewrite lookup_insert_ne, He by done. simpl. rewrite Hpv.
    set (h1 := <[_ := _]> h).
    destruct (relink_suffix h1 k q (pred_of null_mut l1) (next e) l2) as (h' & -> & Hs' & Hx).
    { eapply dseg_frame; [|done]. intros r Hr. apply lookup_insert_ne.
      intros <-. by eapply Hd12. }
    { done. }
    simpl. eexists _, _. split_and!; [done| |].
    + split; [|done]. apply Hk; [..|done].
      * intros r Hr Hrb. rewrite Hx by auto. by apply lookup_insert_ne.
      * rewrite Hx by auto. by apply lookup_insert_eq.
    + apply same_except_trans with h1; [apply same_except_insert|eapply same_except_weaken; [|done]];
        set_solver +Hb.
Qed.
