(* ===== verification/PhysManager.v ===== *)
(** * The physical memory manager: a buddy allocator
      ([kernel/src/memory/phys_manager.rs]).

    This file holds the code: the storage interface, the manager's state, the
    index arithmetic, [free_block], [alloc_block], [add_region], [new] and the
    public operations.  The recursion of [free_block] and [alloc_block] climbs
    one order per call and stops at [MAX_ORDER], so their fuel is the number
    of orders left; [add_region]'s loop frees at least one page per
    iteration, so its fuel is the number of pages. *)
From stdpp Require Import base gmap numbers strings list.
From S2P Require Import Prelude.
From S2P Require Import KernelHeader.
From S2P Require Import Mutex.
From S2P Require Import FreeList.

#[local] Open Scope Z_scope.

Definition MAX_ORDER : Z := 8.

(** [pub trait PhysManagerStorage].  [get_buddy_map] returns a mutable slice:
    reading it is [get_buddy_map], writing through it is [set_buddy_map]. *)
Class PhysManagerStorage (S : Type) := {
  storage_new : Z → list MemorySegment → res (S * list MemorySegment);
  get_buddy_map : S → list Z;
  set_buddy_map : S → list Z → S;
  get_entry : S → Z → Z;
  get_index : S → Z → Z;
}.

(** The page frames the bitmap of a storage covers. *)
Definition capacity {S} `{PhysManagerStorage S} (s : S) : Z :=
  64 * Z.of_nat (length (get_buddy_map s)).

(** What the manager relies on from a storage backend: writing the bitmap
    writes the bitmap and nothing else, and in a well-formed backend every
    covered page frame has an entry of its own, at a non-null address from
    which its index can be recovered; page frames have 52-bit numbers. *)
Class StorageLaws (S : Type) `{PhysManagerStorage S} := {
  storage_ok : S → Prop;
  get_set_buddy_map s b : get_buddy_map (set_buddy_map s b) = b;
  get_entry_set_buddy_map s b i : get_entry (set_buddy_map s b) i = get_entry s i;
  get_index_set_buddy_map s b p : get_index (set_buddy_map s b) p = get_index s p;
  storage_ok_set_buddy_map s b :
    length b = length (get_buddy_map s) → storage_ok s → storage_ok (set_buddy_map s b);
  get_index_entry s i : storage_ok s → 0 ≤ i < capacity s → get_index s (get_entry s i) = i;
  capacity_bound s : storage_ok s → capacity s ≤ 2 ^ 52;
  get_entry_not_null s i : storage_ok s → 0 ≤ i < capacity s → get_entry s i ≠ null_mut;
}.

(** ** Index arithmetic *)

(** [fn get_buddy_index] *)
Definition get_buddy_index (index order : Z) : res Z :=
  b ← shl_w 64 1 order;
  mret (Z.lxor index b).

(** [fn get_combined_index] *)
Definition get_combined_index (index order : Z) : res Z :=
  b ← shl_w 64 1 order;
  mret (Z.land index (not_w 64 b)).

(** [fn get_size_order] *)
Definition get_size_order (count : Z) : res Z :=
  order ← sub_w 32 63 (leading_zeros64 count);
  b ← shl_w 64 1 order;
  if negb (Z.land count b =? count) then add_w 32 order 1 else mret order.

Section manager.
Context {S : Type} `{PhysManagerStorage S}.

(** The part of [PhysMemoryManager] that the lock protects, together with
    the memory its raw pointers address. *)
Record buddy := mkBuddy {
  free_lists : list Z;
  storage : S;
  b_heap : heap;
}.

(** [pub struct PhysMemoryManager] *)
Record PhysMemoryManager := mkPhysMemoryManager {
  pm_lock : SpinLock;
  pm_buddy : buddy;
}.

(** Put an entry for the block in front of the list of its order: the
    common tail of [free_block] and of a split in [alloc_block]. *)
Definition insert_block (st : buddy) (index ord : Z) : res buddy :=
  let entry := index / 64 in
  let bit := index mod 64 in
  let entry_ptr := get_entry (storage st) index in
  let buddy_map := get_buddy_map (storage st) in
  w ← Prelude.index buddy_map entry;
  b ← shl_w 64 1 bit;
  buddy_map ← store buddy_map entry (Z.lor w b);
  let st_storage := set_buddy_map (storage st) buddy_map in
  h ← write (b_heap st) entry_ptr (mkFreeEntry ord null_mut null_mut);
  head ← Prelude.index (free_lists st) ord;
  '(h, head) ← push_buddy_list_entry h head entry_ptr;
  lists ← store (free_lists st) ord head;
  mret (mkBuddy lists st_storage h).

(** Clear the bitmap bit of a block. *)
Definition clear_bit (s : S) (index : Z) : res S :=
  let entry := index / 64 in
  let bit := index mod 64 in
  let buddy_map := get_buddy_map s in
  w ← Prelude.index buddy_map entry;
  b ← shl_w 64 1 bit;
  buddy_map ← store buddy_map entry (Z.land w (not_w 64 b));
  mret (set_buddy_map s buddy_map).

(** The condition of [free_block]'s [if]; [&&] evaluates left to right and
    stops at the first [false]. *)
Definition can_merge (st : buddy) (buddy_index ord : Z) : res bool :=
  if ord <? MAX_ORDER then
    w ← Prelude.index (get_buddy_map (storage st)) (buddy_index / 64);
    b ← shl_w 64 1 (buddy_index mod 64);
    if negb (Z.land w b =? 0) then
      e ← deref (b_heap st) (get_entry (storage st) buddy_index);
      mret (order e =? ord)
    else mret false
  else mret false.

(** [fn free_block] *)
Fixpoint free_block_go (fuel : nat) (st : buddy) (index ord : Z) : res buddy :=
  buddy_index ← get_buddy_index index ord;
  let buddy_ptr := get_entry (storage st) buddy_index in
  merge ← can_merge st buddy_index ord;
  if (merge : bool) then
    st_storage ← clear_bit (storage st) buddy_index;
    head ← Prelude.index (free_lists st) ord;
    '(h, head) ← remove_buddy_list_entry (b_heap st) head buddy_ptr;
    lists ← store (free_lists st) ord head;
    combined ← get_combined_index index ord;
    match fuel with
    | O => Err OutOfFuel
    | Datatypes.S fuel => free_block_go fuel (mkBuddy lists st_storage h) combined (ord + 1)
    end
  else insert_block st index ord.

Definition free_block (st : buddy) (index ord : Z) : res buddy :=
  free_block_go (Z.to_nat (MAX_ORDER - ord)) st index ord.

(** [fn alloc_block] *)
Fixpoint alloc_block_go (fuel : nat) (st : buddy) (ord : Z) : res (buddy * Z) :=
  head ← Prelude.index (free_lists st) ord;
  '(h, head, entry) ← pop_buddy_list_entry (b_heap st) head;
  lists ← store (free_lists st) ord head;
  let st := mkBuddy lists (storage st) h in
  if is_null entry then
    if ord =? MAX_ORDER then Err (PanicMsg "Out of physical memory")
    else
      match fuel with
      | O => Err OutOfFuel
      | Datatypes.S fuel =>
          '(st, higher_block) ← alloc_block_go fuel st (ord + 1);
          buddy_index ← get_buddy_index higher_block ord;
          st ← insert_block st buddy_index ord;
          mret (st, higher_block)
      end
  else
    let index := get_index (storage st) entry in
    st_storage ← clear_bit (storage st) index;
    mret (mkBuddy (free_lists st) st_storage (b_heap st), index).

Definition alloc_block (st : buddy) (ord : Z) : res (buddy * Z) :=
  alloc_block_go (Z.to_nat (MAX_ORDER - ord)) st ord.

(** The loop of [fn add_region]. *)
Fixpoint add_region_go (fuel : nat) (st : buddy) (index page_count : Z) : res buddy :=
  if 0 <? page_count then
    match fuel with
    | O => Err OutOfFuel
    | Datatypes.S fuel =>
        let index_order := trailing_zeros64 index in
        count_order ← sub_w 32 63 (leading_zeros64 page_count);
        let ord := Z.min (Z.min index_order count_order) MAX_ORDER in
        st ← free_block st index ord;
        b ← shl_w 64 1 ord;
        index ← add_w 64 index b;
        page_count ← sub_w 64 page_count b;
        add_region_go fuel st index page_count
    end
  else mret st.

(** A method that begins by taking the manager's lock.  Nothing else runs
    in the sequential model, so one turn of the spin decides. *)
Definition locked_op {A} (m : PhysMemoryManager) (body : buddy → res (buddy * A)) :
  res (PhysMemoryManager * A) :=
  '((st, a), l) ← with_guard 1 (pm_lock m) (body (pm_buddy m));
  mret (mkPhysMemoryManager l st, a).

Definition no_result (r : res buddy) : res (buddy * unit) := st ← r; mret (st, tt).

(** [fn add_region] *)
Definition add_region (m : PhysMemoryManager) (index page_count : Z) :
  res (PhysMemoryManager * unit) :=
  locked_op m (λ st, no_result (add_region_go (Z.to_nat page_count) st index page_count)).

(** [pub fn free_page] *)
Definition free_page (m : PhysMemoryManager) (addr : Z) : res (PhysMemoryManager * unit) :=
  locked_op m (λ st, no_result (free_block st (Z.shiftr addr 12) 0)).

(** [pub fn free_linear_pages] *)
Definition free_linear_pages (m : PhysMemoryManager) (addr count : Z) :
  res (PhysMemoryManager * unit) :=
  locked_op m (λ st, no_result (
    ord ← get_size_order count;
    free_block st (Z.shiftr addr 12) ord)).

(** [pub fn free_pages] *)
Definition free_pages (m : PhysMemoryManager) (addresses : list Z) :
  res (PhysMemoryManager * unit) :=
  locked_op m (λ st, no_result (
    foldM (λ st addr, free_block st (Z.shiftr addr 12) 0) st addresses)).

(** [index << 12] on a [u64] *)
Definition index_to_addr (i : Z) : Z := wrap 64 (Z.shiftl i 12).

(** [pub fn alloc_page] *)
Definition alloc_page (m : PhysMemoryManager) : res (PhysMemoryManager * Z) :=
  locked_op m (λ st,
    '(st, i) ← alloc_block st 0;
    mret (st, index_to_addr i)).

(** [pub fn alloc_linear_pages] *)
Definition alloc_linear_pages (m : PhysMemoryManager) (count : Z) :
  res (PhysMemoryManager * Z) :=
  locked_op m (λ st,
    ord ← get_size_order count;
    '(st, i) ← alloc_block st ord;
    mret (st, index_to_addr i)).

(** [pub fn alloc_pages]: fills a slice of the given length, one element
    per iteration. *)
Definition alloc_one (acc : buddy * list Z) (_ : nat) : res (buddy * list Z) :=
  let '(st, out) := acc in
  '(st, i) ← alloc_block st 0;
  mret (st, out ++ [index_to_addr i]).

Definition alloc_pages (m : PhysMemoryManager) (len : nat) : res (PhysMemoryManager * list Z) :=
  locked_op m (λ st, foldM alloc_one (st, []) (seq 0 len)).

(** [pub fn new]: the highest address of the map sizes the storage, and
    every segment still marked free is handed to [add_region].  The model's
    heap starts with the entries [h] that memory happens to contain. *)
Definition max_address (memory_map : list MemorySegment) : res Z :=
  ends ← foldM (λ acc s,
    b ← mul_w 64 (page_count s) 4096;
    e ← add_w 64 (start s) b;
    mret (acc ++ [e])) [] memory_map;
  match ends with
  | [] => Err (PanicMsg "Memory Map is empty")
  | e :: es => mret (fold_left Z.max es e)
  end.

Definition new (h : heap) (memory_map : list MemorySegment) :
  res (PhysMemoryManager * list MemorySegment) :=
  max_address ← max_address memory_map;
  '(s, memory_map) ← storage_new (Z.shiftr max_address 12) memory_map;
  let m := mkPhysMemoryManager SpinLock_new
    (mkBuddy (replicate (Z.to_nat (MAX_ORDER + 1)) null_mut) s h) in
  m ← foldM (λ m seg,
    '(m, _) ← add_region m (Z.shiftr (start seg) 12) (page_count seg);
    mret m) m (filter (λ seg, seg_free seg = true) memory_map);
  mret (m, memory_map).
End manager.

Arguments buddy S : clear implicits.
Arguments PhysMemoryManager S : clear implicits.

(** ** Page frames and addresses *)

Lemma index_to_addr_small i : 0 ≤ i → uint 64 (i * 4096) → index_to_addr i = i * 4096.
Proof.
  intros Hi Hu. unfold index_to_addr, wrap. rewrite Z.shiftl_mul_pow2 by lia.
  by apply Z.mod_small.
Qed.

Lemma addr_to_index i : Z.shiftr (i * 4096) 12 = i.
Proof. rewrite Z.shiftr_div_pow2 by lia. by apply Z.div_mul. Qed.
