(* ===== verification/PhysStorage.v ===== *)
(** * The kernel's storage backend for the memory manager
      ([InlineStorage] of [kernel/src/memory/phys_manager.rs]).

    The bitmap is carved out of the first free segment that is large enough,
    and every [FreeEntry] is placed in the free block it describes, through
    the high-memory mirror of physical memory. *)
From stdpp Require Import base gmap numbers strings list.
From S2P Require Import Prelude.
From S2P Require Import KernelHeader.
From S2P Require Import VirtManager.
From S2P Require Import Mutex.
From S2P Require Import FreeList.
From S2P Require Import PhysManager.

#[local] Open Scope Z_scope.

(** [pub struct InlineStorage]: the slice pointer and what it points to. *)
Record InlineStorage := mkInlineStorage {
  buddy_map_ptr : Z;
  buddy_map : list Z;
}.

(** The first segment that satisfies [find]'s closure, reduced in place. *)
Fixpoint carve (num_storage_pages : Z) (memory_map : list MemorySegment) :
  res (Z * list MemorySegment) :=
  match memory_map with
  | [] => Err (PanicMsg "No suitable memory location found for buddy map")
  | entry :: rest =>
      if seg_free entry && (num_storage_pages <=? page_count entry) then
        bytes ← mul_w 64 num_storage_pages 4096;
        start' ← add_w 64 (start entry) bytes;
        page_count' ← sub_w 64 (page_count entry) num_storage_pages;
        mret (start entry, mkMemorySegment start' page_count' (state entry) :: rest)
      else
        '(a, rest) ← carve num_storage_pages rest;
        mret (a, entry :: rest)
  end.

(** [InlineStorage::new] *)
Definition InlineStorage_new (HIGH_MEM_BASE num_pages : Z) (memory_map : list MemorySegment) :
  res (InlineStorage * list MemorySegment) :=
  n ← add_w 64 num_pages 63;
  let num_entries := n / 64 in
  bytes ← mul_w 64 num_entries 8;
  bytes ← add_w 64 bytes 4095;
  let num_storage_pages := bytes / 4096 in
  '(a, memory_map) ← carve num_storage_pages memory_map;
  let res := phys_to_virt HIGH_MEM_BASE a in
  mret (mkInlineStorage res (replicate (Z.to_nat num_entries) 0), memory_map).

(** [InlineStorage::get_entry] and [InlineStorage::get_index] *)
Definition InlineStorage_get_entry (HIGH_MEM_BASE : Z) (index : Z) : Z :=
  phys_to_virt HIGH_MEM_BASE (index_to_addr index).

Definition InlineStorage_get_index (HIGH_MEM_BASE : Z) (entry : Z) : Z :=
  Z.shiftr (virt_to_phys HIGH_MEM_BASE entry) 12.

Section inline.
Context (HIGH_MEM_BASE : Z).

#[export] Instance InlineStorage_storage : PhysManagerStorage InlineStorage := {
  storage_new := InlineStorage_new HIGH_MEM_BASE;
  get_buddy_map := buddy_map;
  set_buddy_map s b := mkInlineStorage (buddy_map_ptr s) b;
  get_entry _ := InlineStorage_get_entry HIGH_MEM_BASE;
  get_index _ := InlineStorage_get_index HIGH_MEM_BASE;
}.

(** The base is set and every covered frame is representable in the mirror. *)
Definition inline_ok (s : InlineStorage) : Prop :=
  uint 64 HIGH_MEM_BASE ∧ 0 < HIGH_MEM_BASE ∧
  ∀ i, 0 ≤ i < capacity s → representable HIGH_MEM_BASE (i * 4096).

Lemma inline_get_index_entry i :
  uint 64 HIGH_MEM_BASE → 0 ≤ i → representable HIGH_MEM_BASE (i * 4096) →
  InlineStorage_get_index HIGH_MEM_BASE (InlineStorage_get_entry HIGH_MEM_BASE i) = i.
Proof.
  intros Hb Hi Hr. unfold InlineStorage_get_index, InlineStorage_get_entry.
  rewrite index_to_addr_small by (apply Hr || lia).
  rewrite virt_to_phys_to_virt, Z.shiftr_div_pow2 by done.
  apply Z.div_mul. done.
Qed.

#[export, refine] Instance InlineStorage_laws : StorageLaws InlineStorage := {
  storage_ok := inline_ok;
}.
Proof.
  - done.
  - done.
  - done.
  - intros s b Hb (H1 & H2 & H3). split_and!; [done..|]. unfold capacity in *. simpl in *.
    by rewrite Hb.
  - intros s i (H1 & _ & H3) Hi. apply inline_get_index_entry; [done|lia|auto].
  - intros s (H1 & H2 & H3). destruct (Z.le_gt_cases (capacity s) 0); [lia|].
    destruct (H3 (capacity s - 1)) as [[_ Hu] _]; lia.
  - intros s i (H1 & H2 & H3) Hi. simpl. unfold InlineStorage_get_entry, null_mut.
    specialize (H3 i Hi). rewrite index_to_addr_small by (apply H3 || lia).
    rewrite phys_to_virt_add by done. lia.
Defined.
End inline.
