(* ===== verification/PhysTests.v ===== *)
(** * The unit tests of the memory manager ([mod tests] of
      [kernel/src/memory/phys_manager.rs]).

    [TestStorage] is the second backend of the storage interface, and each
    [#[test]] function is a computation whose asserts are checked by
    evaluation. *)
From stdpp Require Import base gmap numbers strings list.
From S2P Require Import Prelude.
From S2P Require Import KernelHeader.
From S2P Require Import Mutex.
From S2P Require Import FreeList.
From S2P Require Import PhysManager.

#[local] Open Scope Z_scope.

(** [struct TestStorage]: [memory] is the address of its buffer. *)
Record TestStorage := mkTestStorage {
  t_buddy_map : list Z;
  memory : Z;
}.

(** [vec![0; num_pages * 4096]]: where the allocator places the buffer. *)
Definition test_memory : Z := 65536.

Definition TestStorage_new (num_pages : Z) (memory_map : list MemorySegment) :
  res (TestStorage * list MemorySegment) :=
  n ← add_w 64 num_pages 63;
  _ ← mul_w 64 num_pages 4096;
  mret (mkTestStorage (replicate (Z.to_nat (n / 64)) 0) test_memory, memory_map).

#[global] Instance TestStorage_storage : PhysManagerStorage TestStorage := {
  storage_new := TestStorage_new;
  get_buddy_map := t_buddy_map;
  set_buddy_map s b := mkTestStorage b (memory s);
  get_entry s index := memory s + index_to_addr index;
  get_index s entry := Z.shiftr (entry - memory s) 12;
}.

(** The buffer lies in the address space. *)
Definition test_ok (s : TestStorage) : Prop :=
  0 < memory s ∧ memory s + capacity s * 4096 < 2 ^ 64.

#[global, refine] Instance TestStorage_laws : StorageLaws TestStorage := {
  storage_ok := test_ok;
}.
Proof.
  - done.
  - done.
  - done.
  - intros s b Hb [H1 H2]. split; [done|]. unfold capacity in *. simpl in *. by rewrite Hb.
  - intros s i [H1 H2] Hi. simpl. unfold index_to_addr, wrap.
    rewrite Z.shiftl_mul_pow2, Z.mod_small, Z.shiftr_div_pow2 by lia.
    replace (memory s + i * 2 ^ 12 - memory s) with (i * 2 ^ 12) by lia. by apply Z.div_mul.
  - intros s [H1 H2]. lia.
  - intros s i [H1 H2] Hi. simpl. unfold index_to_addr, wrap, null_mut.
    rewrite Z.shiftl_mul_pow2, Z.mod_small by lia. lia.
Defined.

Abbreviation manager := (PhysMemoryManager TestStorage).

(** [get_buddy_map()[entry] & (1 << bit) != 0] *)
Definition bit_set (m : manager) (entry bit : Z) : bool :=
  match index (get_buddy_map (storage (pm_buddy m))) entry with
  | Ok w => negb (Z.land w (2 ^ bit) =? 0)
  | Err _ => false
  end.

Definition list_head (m : manager) (ord : nat) : Z :=
  default null_mut (free_lists (pm_buddy m) !! ord).

(** The entry at the head of a list, with what the asserts say about it. *)
Definition head_is (m : manager) (ord : nat) (next_null prev_null : bool) : bool :=
  let p := list_head m ord in
  negb (is_null p) &&
  match b_heap (pm_buddy m) !! p with
  | Some e => Bool.eqb (is_null (next e)) next_null && Bool.eqb (is_null (prev e)) prev_null
              && (order e =? Z.of_nat ord)
  | None => false
  end.

Definition new_manager (mmap : list MemorySegment) : res manager :=
  '(m, _) ← new ∅ mmap; mret m.

Definition count_to_order : bool :=
  bool_decide (map get_size_order [1; 2; 3; 4; 13] = [Ok 0; Ok 1; Ok 2; Ok 2; Ok 4]).

Definition occupied30 : list MemorySegment := [mkMemorySegment 0 30 Occupied].

Definition free_single : res bool :=
  m ← new_manager occupied30;
  '(m, _) ← free_page m (7 * 4096);
  mret (bit_set m 0 7 && head_is m 0 true true).

Definition free_merge_forward : res bool :=
  m ← new_manager occupied30;
  '(m, _) ← free_page m (6 * 4096);
  '(m, _) ← free_page m (7 * 4096);
  mret (bit_set m 0 6 && negb (bit_set m 0 7) && is_null (list_head m 0)
        && head_is m 1 true true).

Definition free_merge_backward : res bool :=
  m ← new_manager occupied30;
  '(m, _) ← free_page m (7 * 4096);
  '(m, _) ← free_page m (6 * 4096);
  mret (bit_set m 0 6 && negb (bit_set m 0 7) && is_null (list_head m 0)
        && head_is m 1 true true).

Definition free_dont_merge_different_orders : res bool :=
  m ← new_manager [mkMemorySegment 0 1 Free; mkMemorySegment 1 3 Occupied];
  '(m, _) ← free_linear_pages m (2 * 4096) 2;
  mret (bit_set m 0 0 && negb (bit_set m 0 1) && bit_set m 0 2 && negb (bit_set m 0 3)
        && head_is m 0 true true && head_is m 1 true true).

Definition init_dont_merge_max_order : res bool :=
  m ← new_manager [mkMemorySegment 0 (2 ^ MAX_ORDER * 2) Free];
  let index := 2 ^ MAX_ORDER in
  mret (bit_set m 0 0 && bit_set m (index / 64) (index mod 64) && head_is m 8 false true).

Definition alloc_single : res bool :=
  m ← new_manager [mkMemorySegment 0 1 Free];
  '(m, page) ← alloc_page m;
  mret ((page =? 0) && negb (bit_set m 0 0) && is_null (list_head m 0)).

Definition alloc_split : res bool :=
  m ← new_manager [mkMemorySegment 0 2 Free];
  '(m, page) ← alloc_page m;
  mret ((page =? 0) && negb (bit_set m 0 0) && bit_set m 0 1
        && negb (is_null (list_head m 0)) && is_null (list_head m 1)).

Definition init_free_regions : res bool :=
  m ← new_manager [mkMemorySegment (68 * 4096) 2 Free; mkMemorySegment (70 * 4096) 2 Free];
  let first := bit_set m 1 4 && negb (bit_set m 1 6) && is_null (list_head m 0)
    && is_null (list_head m 1) && head_is m 2 true true in
  m ← new_manager [mkMemorySegment (68 * 4096) 2 Free; mkMemorySegment (70 * 4096) 1 Free];
  mret (first && bit_set m 1 4 && bit_set m 1 6 && is_null (list_head m 2)
        && head_is m 0 true true && head_is m 1 true true).

(** Every assert of the repository's unit tests holds in the model. *)
Example unit_tests_pass :
  count_to_order = true ∧ free_single = Ok true ∧ free_merge_forward = Ok true ∧
  free_merge_backward = Ok true ∧ free_dont_merge_different_orders = Ok true ∧
  init_dont_merge_max_order = Ok true ∧ alloc_single = Ok true ∧ alloc_split = Ok true ∧
  init_free_regions = Ok true.
Proof. split_and!; vm_compute; reflexivity. Qed.
