(* ===== verification/BuddySpec.v ===== *)
(** * The abstract buddy allocator.

    The contract of the memory manager, without bitmap, lists or pointers: a
    finite map from the first page frame of each free block to the block's
    order.  [free_spec] merges and inserts, [split_spec] carves a block out of
    a larger one.  The file proves what the two do to the set of free pages
    and that they keep the map well formed: aligned, in range, disjoint and
    fully merged. *)
From stdpp Require Import base gmap numbers list.
From S2P Require Import Prelude.
From S2P Require Import PhysManager.

#[local] Open Scope Z_scope.

Abbreviation blocks := (gmap Z Z).

(** ** Blocks *)

Definition block_page (i k p : Z) : Prop := i ≤ p < i + 2 ^ k.

Definition page_free (F : blocks) (p : Z) : Prop := ∃ i k, F !! i = Some k ∧ block_page i k p.

Definition valid_block (cap i k : Z) : Prop :=
  0 ≤ k ≤ MAX_ORDER ∧ 0 ≤ i ∧ (2 ^ k | i) ∧ i + 2 ^ k ≤ cap.

(** The neighbour a block can merge with, and the block they form. *)
Definition buddy_of (i k : Z) : Z := Z.lxor i (2 ^ k).

Definition combined (i k : Z) : Z := Z.ldiff i (2 ^ k).

Record wf (cap : Z) (F : blocks) : Prop := mkWf {
  wf_valid : map_Forall (λ i k, valid_block cap i k) F;
  wf_disjoint : ∀ i k j m p,
    F !! i = Some k → F !! j = Some m → block_page i k p → block_page j m p → i = j;
  wf_merged : ∀ i k, F !! i = Some k → k < MAX_ORDER → F !! buddy_of i k ≠ Some k;
}.

(** ** The abstract operations *)

Fixpoint free_spec (n : nat) (F : blocks) (i k : Z) : blocks :=
  match n with
  | O => <[i := k]> F
  | S n =>
      if bool_decide (k < MAX_ORDER ∧ F !! buddy_of i k = Some k) then
        free_spec n (delete (buddy_of i k) F) (combined i k) (k + 1)
      else <[i := k]> F
  end.

(** Take block [i] out of the map and return the upper halves left over when
    it is halved [n] times down to order [k]. *)
Fixpoint split_spec (n : nat) (F : blocks) (i k : Z) : blocks :=
  match n with
  | O => delete i F
  | S n => <[i + 2 ^ k := k]> (split_spec n F i (k + 1))
  end.

(** ** Buddy arithmetic *)

Lemma pow2_pos k : 0 ≤ k → 0 < 2 ^ k.
Proof. intros. apply Z.pow_pos_nonneg; lia. Qed.

Lemma pow2_succ k : 0 ≤ k → 2 ^ (k + 1) = 2 * 2 ^ k.
Proof. intros. rewrite Z.pow_add_r by lia. lia. Qed.

Lemma testbit_aligned i k n : 0 ≤ n < k → (2 ^ k | i) → Z.testbit i n = false.
Proof. intros Hn [q ->]. apply Z.mul_pow2_bits_low. lia. Qed.

(** Setting the clear bit [k] is an addition. *)
Lemma lxor_aligned j k : 0 ≤ k → (2 ^ (k + 1) | j) → Z.lxor j (2 ^ k) = j + 2 ^ k.
Proof.
  intros Hk Hd. symmetry. apply Z.add_nocarry_lxor, Z.bits_inj'. intros n Hn.
  rewrite Z.land_spec, Z.pow2_bits_eqb, Z.bits_0 by lia.
  destruct (Z.eqb_spec k n) as [<-|]; [|apply andb_false_r].
  by rewrite (testbit_aligned j (k + 1)) by (done || lia).
Qed.

Lemma ldiff_aligned j k : 0 ≤ k → (2 ^ (k + 1) | j) →
  Z.ldiff j (2 ^ k) = j ∧ Z.ldiff (Z.lxor j (2 ^ k)) (2 ^ k) = j.
Proof.
  intros Hk Hd. assert (Hb : Z.testbit j k = false) by (apply (testbit_aligned j (k + 1)); [lia|done]).
  split; apply Z.bits_inj'; intros n Hn;
    rewrite Z.ldiff_spec, ?Z.lxor_spec, Z.pow2_bits_eqb by lia;
    destruct (Z.eqb_spec k n) as [<-|]; rewrite ?Hb; simpl;
    rewrite ?xorb_false_r, ?andb_true_r; done.
Qed.

(** A block is the lower or the upper half of the block it merges into. *)
Lemma buddy_cases i k : 0 ≤ k → (2 ^ k | i) →
  ((2 ^ (k + 1) | i) ∧ buddy_of i k = i + 2 ^ k ∧ combined i k = i) ∨
  ((2 ^ (k + 1) | i - 2 ^ k) ∧ buddy_of i k = i - 2 ^ k ∧ combined i k = i - 2 ^ k).
Proof.
  intros Hk [q Hq]. unfold buddy_of, combined. pose proof (pow2_succ k Hk) as Hs.
  destruct (Z.Even_or_Odd q) as [[r Hr]|[r Hr]].
  - left. assert (Hd : (2 ^ (k + 1) | i)) by (exists r; lia).
    split_and!; [done|by apply lxor_aligned|by apply ldiff_aligned].
  - right. set (j := i - 2 ^ k). assert (Hd : (2 ^ (k + 1) | j)) by (exists r; subst j; lia).
    assert (Hj : i = Z.lxor j (2 ^ k)) by (rewrite lxor_aligned by done; lia).
    clearbody j. clear Hq. subst i. split_and!; [done| |by apply ldiff_aligned].
    by rewrite Z.lxor_assoc, Z.lxor_nilpotent, Z.lxor_0_r.
Qed.

Lemma buddy_involutive i k : buddy_of (buddy_of i k) k = i.
Proof. unfold buddy_of. by rewrite Z.lxor_assoc, Z.lxor_nilpotent, Z.lxor_0_r. Qed.

(** The lower half of an aligned block has the upper half as its buddy. *)
Lemma buddy_lower i k : 0 ≤ k → (2 ^ (k + 1) | i) → buddy_of i k = i + 2 ^ k.
Proof. apply lxor_aligned. Qed.

(** The merged block consists of the two halves. *)
Lemma combined_pages i k p : 0 ≤ k → (2 ^ k | i) →
  block_page (combined i k) (k + 1) p ↔ block_page i k p ∨ block_page (buddy_of i k) k p.
Proof.
  intros Hk Hd. pose proof (pow2_succ k Hk). pose proof (pow2_pos k Hk). unfold block_page.
  destruct (buddy_cases i k Hk Hd) as [(_ & -> & ->)|(_ & -> & ->)]; lia.
Qed.

Lemma combined_valid cap i k :
  k < MAX_ORDER → valid_block cap i k → valid_block cap (buddy_of i k) k →
  valid_block cap (combined i k) (k + 1).
Proof.
  intros Hlt (Hk & Hi & Hd & Hc) (_ & Hi' & _ & Hc').
  pose proof (pow2_succ k ltac:(lia)).
  destruct (buddy_cases i k ltac:(lia) Hd) as [(? & Hb & ->)|(? & Hb & ->)];
    rewrite Hb in *; split_and!; (done || lia).
Qed.

Lemma block_page_self i k : 0 ≤ k → block_page i k i.
Proof. intros Hk. pose proof (pow2_pos k Hk). unfold block_page. lia. Qed.

Lemma buddy_ne i k : 0 ≤ k → buddy_of i k ≠ i.
Proof.
  intros Hk Heq. assert (2 ^ k = 0); [|pose proof (pow2_pos k Hk); lia].
  rewrite <- (Z.lxor_0_l (2 ^ k)), <- (Z.lxor_nilpotent i) at 1.
  rewrite Z.lxor_assoc. unfold buddy_of in Heq. rewrite Heq. apply Z.lxor_nilpotent.
Qed.

(** ** Pages of updated maps *)

Lemma page_free_lookup F i k : 0 ≤ k → F !! i = Some k → page_free F i.
Proof. intros Hk HF. exists i, k. auto using block_page_self. Qed.

Lemma page_free_insert F i k p :
  F !! i = None → page_free (<[i := k]> F) p ↔ page_free F p ∨ block_page i k p.
Proof.
  intros HN. split.
  - intros (j & m & [[-> ->]|[? HF]]%lookup_insert_Some & Hp); [by right|]. left. by exists j, m.
  - intros [(j & m & HF & Hp)|Hp].
    + exists j, m. split; [|done]. rewrite lookup_insert_ne; [done|]. intros ->. congruence.
    + exists i, k. by rewrite lookup_insert_eq.
Qed.

Lemma page_free_delete cap F i k p :
  wf cap F → F !! i = Some k → page_free (delete i F) p ↔ page_free F p ∧ ¬ block_page i k p.
Proof.
  intros Hwf Hi. split.
  - intros (j & m & [Hne HF]%lookup_delete_Some & Hp). split; [by exists j, m|].
    intros Hp'. apply Hne. by eapply wf_disjoint.
  - intros [(j & m & HF & Hp) Hn]. exists j, m. split; [|done].
    apply lookup_delete_Some. split; [|done]. intros ->. congruence.
Qed.

(** A block none of whose pages is free does not occur in the map. *)
Lemma not_free_lookup cap F i k :
  wf cap F → 0 ≤ k → (∀ p, block_page i k p → ¬ page_free F p) → F !! i = None.
Proof.
  intros Hwf Hk Hn. destruct (F !! i) as [m|] eqn:E; [|done].
  destruct (Hn i); [by apply block_page_self|].
  apply (page_free_lookup F i m); [|done]. apply (wf_valid _ _ Hwf i m E).
Qed.

(** ** Well-formedness of updated maps *)

Lemma wf_empty cap : wf cap ∅.
Proof. split; [apply map_Forall_empty|set_solver..]. Qed.

Lemma wf_delete cap F i : wf cap F → wf cap (delete i F).
Proof.
  intros [Hv Hd Hm]. split.
  - by apply map_Forall_delete.
  - intros j k j' m p [_ ?]%lookup_delete_Some [_ ?]%lookup_delete_Some. by eapply Hd.
  - intros j k [_ HF]%lookup_delete_Some Hk [_ HF']%lookup_delete_Some. by apply (Hm j k).
Qed.

Lemma wf_insert cap F i k :
  wf cap F → valid_block cap i k → (∀ p, block_page i k p → ¬ page_free F p) →
  (k < MAX_ORDER → F !! buddy_of i k ≠ Some k) → wf cap (<[i := k]> F).
Proof.
  intros Hwf Hv Hn Hb. pose proof Hwf as [Hval Hd Hm]. pose proof Hv as (Hk & _). split.
  - by apply map_Forall_insert_2.
  - intros j m j' m' p [[<- <-]|[? HF]]%lookup_insert_Some [[<- <-]|[? HF']]%lookup_insert_Some
      Hp Hp'; [done| | |by eapply Hd].
    + destruct (Hn p Hp). by exists j', m'.
    + destruct (Hn p Hp'). by exists j, m.
  - intros j m [[<- <-]|[? HF]]%lookup_insert_Some Hlt.
    + rewrite lookup_insert_ne by (apply not_eq_sym, buddy_ne; lia). auto.
    + intros [[Hi <-]|[? HF']]%lookup_insert_Some; [|by apply (Hm j m)].
      apply Hb; [done|]. by rewrite Hi, buddy_involutive.
Qed.

(** ** Freeing *)

(** Freeing a block adds exactly its pages and keeps the map well formed. *)
Lemma free_spec_ok cap n F i k :
  wf cap F → valid_block cap i k → n = Z.to_nat (MAX_ORDER - k) →
  (∀ p, block_page i k p → ¬ page_free F p) →
  wf cap (free_spec n F i k) ∧
  ∀ p, page_free (free_spec n F i k) p ↔ page_free F p ∨ block_page i k p.
Proof.
  revert F i k. induction n as [|n IH]; intros F i k Hwf Hv Hnk Hn; simpl;
    pose proof Hv as (Hk & Hi & Hd & Hc);
    assert (F !! i = None) as HN by (eapply not_free_lookup; [done| |done]; lia).
  - split; [|intros p; by apply page_free_insert]. apply wf_insert; [done..|]. lia.
  - case_bool_decide as Hb.
    + destruct Hb as [Hlt Hb].
      pose proof (wf_valid _ _ Hwf _ _ Hb) as Hvb. simpl in Hvb.
      destruct (IH (delete (buddy_of i k) F) (combined i k) (k + 1)) as [Hwf' Hp'].
      * by apply wf_delete.
      * by apply combined_valid.
      * lia.
      * intros p Hp. rewrite page_free_delete by done.
        rewrite combined_pages in Hp by (done || lia).
        destruct Hp as [Hp|Hp]; [|tauto]. intros [? _]. by apply (Hn p).
      * split; [done|]. intros p. rewrite Hp', page_free_delete, combined_pages by (done || lia).
        assert (block_page (buddy_of i k) k p → page_free F p) by (intros; by exists (buddy_of i k), k).
        assert (block_page i k p → ¬ page_free F p) by auto.
        destruct (decide (buddy_of i k ≤ p < buddy_of i k + 2 ^ k)) as [Hbp|Hbp];
          change (buddy_of i k ≤ p < buddy_of i k + 2 ^ k) with (block_page (buddy_of i k) k p) in Hbp;
          tauto.
    + split; [|intros p; by apply page_free_insert]. apply wf_insert; [done..|]. tauto.
Qed.

(** ** Splitting *)

(** Carving block [i] of order [k] out of a free block of order [k + n] takes
    exactly its pages and keeps the map well formed. *)
Lemma split_spec_ok cap n F i k :
  wf cap F → 0 ≤ k → F !! i = Some (k + Z.of_nat n) →
  wf cap (split_spec n F i k) ∧
  ∀ p, page_free (split_spec n F i k) p ↔ page_free F p ∧ ¬ block_page i k p.
Proof.
  revert k. induction n as [|n IH]; intros k Hwf Hk HF; simpl.
  - rewrite Z.add_0_r in HF. split; [by apply wf_delete|]. intros p. by apply (page_free_delete cap).
  - destruct (IH (k + 1)) as [Hwf' Hp']; [done|lia|by rewrite <- Z.add_assoc, Z.add_1_l, <- Nat2Z.inj_succ|].
    pose proof (wf_valid _ _ Hwf _ _ HF) as (Hm & Hi & Hd & Hc). simpl in *.
    apply (divide_pow2_le (k + 1)) in Hd as Hd1; [|lia].
    apply (divide_pow2_le k) in Hd as Hd0; [|lia].
    pose proof (pow2_succ k Hk) as Hs. pose proof (pow2_pos k Hk) as Hpos.
    assert (2 ^ (k + 1) ≤ 2 ^ (k + Z.of_nat (S n))) as Hle by (apply Z.pow_le_mono_r; lia).
    assert (∀ p, block_page (i + 2 ^ k) k p → block_page i (k + 1) p) as Hsub
      by (unfold block_page; lia).
    assert (∀ p, block_page (i + 2 ^ k) k p → ¬ page_free (split_spec n F i (k + 1)) p) as Hn.
    { intros p Hp [_ Hb]%Hp'. auto. }
    assert (split_spec n F i (k + 1) !! (i + 2 ^ k) = None) as HN
      by (by apply (not_free_lookup cap _ _ k)).
    split.
    + apply wf_insert; [done| |done|].
      * split_and!; [lia..|by apply Z.divide_add_r|lia].
      * intros _ Hb. rewrite <- buddy_lower, buddy_involutive in Hb by done.
        apply page_free_lookup, Hp' in Hb as [_ []]; [|done]. unfold block_page. lia.
    + intros p. rewrite page_free_insert, Hp' by done.
      assert (block_page i (k + 1) p → page_free F p) as Hfree.
      { intros Hb. exists i, (k + Z.of_nat (S n)). split; [done|]. unfold block_page in *. lia. }
      unfold block_page in *. split.
      * intros [[Hf Hnb]|Hb]; (split; [auto with lia|lia]).
      * intros [Hf Hnb]. destruct (decide (i ≤ p < i + 2 ^ (k + 1))); [right; lia|by left].
Qed.

(** The upper half of a block being split is not in the map yet. *)
Lemma split_upper_fresh cap n F i k :
  wf cap F → 0 ≤ k → F !! i = Some (k + 1 + Z.of_nat n) →
  split_spec n F i (k + 1) !! (i + 2 ^ k) = None.
Proof.
  intros Hwf Hk HF. destruct (split_spec_ok cap n F i (k + 1)) as [Hwf' Hp']; [done|lia|done|].
  apply (not_free_lookup cap _ _ k); [done..|]. intros p Hp [_ Hb]%Hp'.
  apply Hb. pose proof (pow2_succ k Hk). unfold block_page in *. lia.
Qed.

(** ** Round trip *)

(** Freeing a block right after carving it out merges the halves back: the
    map is restored. *)
Lemma free_split_spec cap n m F i k :
  wf cap F → 0 ≤ k → F !! i = Some (k + Z.of_nat n) → (n ≤ m)%nat →
  free_spec m (split_spec n F i k) i k = F.
Proof.
  revert k m. induction n as [|n IH]; intros k m Hwf Hk HF Hle; simpl.
  - rewrite Z.add_0_r in HF.
    assert (<[i := k]> (delete i F) = F) as Hid by (by rewrite insert_delete_eq, insert_id).
    destruct m; simpl; [done|]. case_bool_decide as Hb; [|done].
    destruct Hb as [Hlt [_ Hb]%lookup_delete_Some]. by destruct (wf_merged _ _ Hwf i k HF).
  - destruct m as [|m]; [lia|]. simpl.
    pose proof (wf_valid _ _ Hwf _ _ HF) as (Hm & Hi & Hd & Hc). simpl in *.
    apply (divide_pow2_le (k + 1)) in Hd; [|lia].
    rewrite buddy_lower, lookup_insert_eq by done.
    rewrite bool_decide_true by (split; [lia|done]).
    unfold combined. rewrite (proj1 (ldiff_aligned i k Hk Hd)), delete_insert_id.
    + apply IH; [done|lia| |lia]. by rewrite <- Z.add_assoc, Z.add_1_l, <- Nat2Z.inj_succ.
    + apply (split_upper_fresh cap); [done..|].
      by rewrite <- Z.add_assoc, Z.add_1_l, <- Nat2Z.inj_succ.
Qed.

(** ** Availability *)

(** No free block of order [k] or more: what makes an allocation fail. *)
Definition exhausted (F : blocks) (k : Z) : Prop := map_Forall (λ _ m, m < k) F.
