(* ===== verification/PhysInvariant.v ===== *)
(** * The representation invariant of the memory manager.

    [rep st F] relates the concrete state (free lists, bitmap, entries in
    memory) to the abstract map [F] of free blocks of [BuddySpec]: the list of
    each order holds exactly the blocks of that order, and a bitmap bit is set
    exactly for the first page of a free block.  The lemmas show how the two
    building blocks of the allocator, inserting an entry and removing one,
    move from one represented map to the next. *)
From stdpp Require Import base gmap numbers strings list.
From S2P Require Import Prelude.
From S2P Require Import KernelHeader.
From S2P Require Import Mutex.
From S2P Require Import FreeList.
From S2P Require Import PhysManager.
From S2P Require Import BuddySpec.

#[local] Open Scope Z_scope.

(** ** The bitmap *)

(** The bit of page [i]. *)
Definition bit (bm : list Z) (i : Z) : bool :=
  match bm !! Z.to_nat (i / 64) with
  | Some w => Z.testbit w (i mod 64)
  | None => false
  end.

Definition bits_rep (bm : list Z) (F : blocks) : Prop :=
  Forall (uint 64) bm ∧
  ∀ i, 0 ≤ i < 64 * Z.of_nat (length bm) → bit bm i = bool_decide (is_Some (F !! i)).

Lemma word_range (bm : list Z) i :
  0 ≤ i < 64 * Z.of_nat (length bm) → 0 ≤ i / 64 < Z.of_nat (length bm) ∧ 0 ≤ i mod 64 < 64.
Proof.
  intros Hi. pose proof (Z.mod_pos_bound i 64 ltac:(lia)).
  pose proof (Z.div_mod i 64 ltac:(lia)). lia.
Qed.

(** Updating one word changes one bit when the word changes in one bit. *)
Lemma bit_insert (bm : list Z) i j w w' (f : bool) :
  0 ≤ i < 64 * Z.of_nat (length bm) → 0 ≤ j →
  bm !! Z.to_nat (i / 64) = Some w →
  (∀ n, 0 ≤ n < 64 → Z.testbit w' n = if i mod 64 =? n then f else Z.testbit w n) →
  bit (<[Z.to_nat (i / 64) := w']> bm) j = if i =? j then f else bit bm j.
Proof.
  intros Hi Hj Hw Hw'. destruct (word_range bm i Hi) as [Hq Hr]. unfold bit.
  pose proof (Z.div_mod i 64 ltac:(lia)) as Ei. pose proof (Z.div_mod j 64 ltac:(lia)) as Ej.
  pose proof (Z.mod_pos_bound j 64 ltac:(lia)) as Hrj.
  destruct (decide (Z.to_nat (i / 64) = Z.to_nat (j / 64))) as [Heq|Hne].
  - rewrite <- Heq, list_lookup_insert_eq, Hw by lia. rewrite Hw' by done.
    assert (0 ≤ j / 64) by (apply Z.div_pos; lia).
    destruct (Z.eqb_spec (i mod 64) (j mod 64)), (Z.eqb_spec i j); (done || lia || congruence).
  - rewrite list_lookup_insert_ne by done.
    destruct (Z.eqb_spec i j); [congruence|done].
Qed.

(** [buddy_map[entry] |= 1 << bit] records one more block. *)
Lemma bits_rep_set bm F i k :
  bits_rep bm F → 0 ≤ i < 64 * Z.of_nat (length bm) →
  ∃ w bm', index bm (i / 64) = Ok w ∧ shl_w 64 1 (i mod 64) = Ok (2 ^ (i mod 64)) ∧
    store bm (i / 64) (Z.lor w (2 ^ (i mod 64))) = Ok bm' ∧
    length bm' = length bm ∧ bits_rep bm' (<[i := k]> F).
Proof.
  intros [Hu Hb] Hi. destruct (word_range bm i Hi) as [Hq Hr].
  destruct (index_ok bm (i / 64) Hq) as (w & Hw & Hlw). eexists w, _.
  pose proof (proj1 (Forall_lookup _ _) Hu _ _ Hlw) as Huw.
  split_and!; [done|by apply shl1_ok|by apply store_ok|apply length_insert|split].
  - apply Forall_insert; [done|]. apply uint_lor; [lia|done|by apply uint_pow2].
  - rewrite length_insert. intros j Hj. rewrite (bit_insert bm i j w _ true); [|done|lia|done|].
    2: { intros n Hn. rewrite testbit_setbit by lia.
         destruct (_ =? n); auto using orb_true_r, orb_false_r. }
    destruct (Z.eqb_spec i j) as [<-|].
    + by rewrite lookup_insert_eq, bool_decide_true.
    + rewrite lookup_insert_ne by done. by apply Hb.
Qed.

(** [buddy_map[entry] &= !(1 << bit)] forgets a block. *)
Lemma bits_rep_clear bm F i :
  bits_rep bm F → 0 ≤ i < 64 * Z.of_nat (length bm) →
  ∃ w bm', index bm (i / 64) = Ok w ∧ shl_w 64 1 (i mod 64) = Ok (2 ^ (i mod 64)) ∧
    store bm (i / 64) (Z.land w (not_w 64 (2 ^ (i mod 64)))) = Ok bm' ∧
    length bm' = length bm ∧ bits_rep bm' (delete i F).
Proof.
  intros [Hu Hb] Hi. destruct (word_range bm i Hi) as [Hq Hr].
  destruct (index_ok bm (i / 64) Hq) as (w & Hw & Hlw). eexists w, _.
  pose proof (proj1 (Forall_lookup _ _) Hu _ _ Hlw) as Huw.
  split_and!; [done|by apply shl1_ok|by apply store_ok|apply length_insert|];
    rewrite land_not_pow2 by (done || lia); split.
  - apply Forall_insert; [done|]. by apply uint_ldiff.
  - rewrite length_insert. intros j Hj. rewrite (bit_insert bm i j w _ false); [|done|lia|done|].
    2: { intros n Hn. rewrite testbit_clearbit by lia.
         destruct (_ =? n); auto using andb_true_r, andb_false_r. }
    destruct (Z.eqb_spec i j) as [<-|].
    + rewrite lookup_delete_eq, bool_decide_false; [done|]. by intros [].
    + rewrite lookup_delete_ne by done. by apply Hb.
Qed.

(** The test [buddy_map[entry] & (1 << bit) != 0]. *)
Lemma bits_rep_test bm F i w :
  bits_rep bm F → 0 ≤ i < 64 * Z.of_nat (length bm) → index bm (i / 64) = Ok w →
  negb (Z.land w (2 ^ (i mod 64)) =? 0) = bool_decide (is_Some (F !! i)).
Proof.
  intros [_ Hb] Hi [_ Hw]%index_inv. destruct (word_range bm i Hi) as [Hq Hr].
  rewrite land_pow2_eqb, negb_involutive by lia. rewrite <- Hb by done. unfold bit. by rewrite Hw.
Qed.

(** ** The free lists *)

(** The head of order [k] starts a list of exactly the blocks of order [k];
    [ge] is the storage's [get_entry]. *)
Definition list_rep (ge : Z → Z) (h : heap) (F : blocks) (k head : Z) (l : list Z) : Prop :=
  dlist h k head (ge <$> l) ∧ ∀ i, i ∈ l ↔ F !! i = Some k.

Definition lists_rep (ge : Z → Z) (lists : list Z) (h : heap) (F : blocks) : Prop :=
  length lists = 9%nat ∧
  ∀ k, 0 ≤ k ≤ MAX_ORDER → ∃ head l, lists !! Z.to_nat k = Some head ∧ list_rep ge h F k head l.

(** Only entries of page frames in [P] may differ between the two heaps. *)
Definition footprint (ge : Z → Z) (P : Z → Prop) (h h' : heap) : Prop :=
  ∀ p, (∀ i, P i → p ≠ ge i) → h' !! p = h !! p.

(** The relations depend on [ge] only through its values. *)
#[global] Instance lists_rep_proper :
  Proper (pointwise_relation Z eq ==> eq ==> eq ==> eq ==> iff) lists_rep.
Proof.
  intros ge ge' Hge lists ? <- h ? <- F ? <-. unfold lists_rep, list_rep.
  assert (∀ l, ge <$> l = ge' <$> l) as Hmap by (intros l; by apply list_fmap_ext; intros; apply Hge).
  by setoid_rewrite Hmap.
Qed.

#[global] Instance footprint_proper :
  Proper (pointwise_relation Z eq ==> eq ==> eq ==> eq ==> iff) footprint.
Proof.
  intros ge ge' Hge P ? <- h ? <- h' ? <-. unfold footprint.
  split; intros Hf p Hp; apply Hf; intros i Hi; [rewrite Hge|rewrite <- Hge]; auto.
Qed.

(** How an insertion or a deletion changes the blocks of one order. *)
Lemma insert_same_order (F : blocks) i j k :
  <[i := k]> F !! j = Some k ↔ j = i ∨ F !! j = Some k.
Proof.
  destruct (decide (i = j)) as [<-|].
  - rewrite lookup_insert_eq. tauto.
  - rewrite lookup_insert_ne by done. split; [auto|]. by intros [->|].
Qed.

Lemma insert_other_order (F : blocks) i j k m :
  F !! i = None → m ≠ k → <[i := k]> F !! j = Some m ↔ F !! j = Some m.
Proof.
  intros HN Hne. destruct (decide (i = j)) as [<-|].
  - rewrite lookup_insert_eq. split; congruence.
  - by rewrite lookup_insert_ne.
Qed.

Lemma delete_other_order (F : blocks) i j k m :
  F !! i = Some k → m ≠ k → delete i F !! j = Some m ↔ F !! j = Some m.
Proof.
  intros HF Hne. destruct (decide (i = j)) as [<-|].
  - rewrite lookup_delete_eq. split; congruence.
  - by rewrite lookup_delete_ne.
Qed.

Section lists.
Context (cap : Z) (ge : Z → Z).
Context (ge_inj : ∀ i j, 0 ≤ i < cap → 0 ≤ j < cap → ge i = ge j → i = j).

Definition in_range (F : blocks) : Prop := map_Forall (λ i _, 0 ≤ i < cap) F.

Lemma wf_in_range F : wf cap F → in_range F.
Proof.
  intros Hwf i k HF. destruct (wf_valid _ _ Hwf i k HF) as ([Hk _] & Hi & _ & Hc).
  pose proof (pow2_pos k Hk). lia.
Qed.

(** Replacing the list of order [k] leaves the other lists alone, as long as
    the entries that were written belong to blocks of order [k] or to no
    block. *)
Lemma lists_rep_update lists h F k h' head' l0 l' F' :
  in_range F → lists_rep ge lists h F → 0 ≤ k ≤ MAX_ORDER →
  (∀ j, j ∈ l0 → 0 ≤ j < cap ∧ ∀ m, F !! j = Some m → m = k) →
  same_except (ge <$> l0) h h' →
  list_rep ge h' F' k head' l' →
  (∀ m j, m ≠ k → F' !! j = Some m ↔ F !! j = Some m) →
  lists_rep ge (<[Z.to_nat k := head']> lists) h' F'.
Proof.
  intros Hr [Hlen HL] Hk Hl0 Hs Hl' HF. split; [by rewrite length_insert|].
  unfold MAX_ORDER in *. intros m Hm. destruct (decide (k = m)) as [<-|Hne].
  - exists head', l'. rewrite list_lookup_insert_eq by lia. done.
  - destruct (HL m Hm) as (head & l & Hh & Hd & Hin). exists head, l.
    rewrite list_lookup_insert_ne by lia. split; [done|]. split.
    + eapply dlist_frame; [done| |done]. intros p Hp Hp0.
      apply list_elem_of_fmap in Hp as (i & -> & Hi).
      apply list_elem_of_fmap in Hp0 as (j & Heq & Hj).
      apply Hin in Hi. destruct (Hl0 j Hj) as [Hjr Hjk].
      assert (i = j) as -> by (apply ge_inj; [by apply (Hr i m)|done..]).
      apply Hne. symmetry. by apply Hjk.
    + intros i. rewrite HF by done. apply Hin.
Qed.
End lists.

(** ** The whole state *)

Section rep.
Context {S : Type} `{StorageLaws S}.

Record rep (st : buddy S) (F : blocks) : Prop := mkRep {
  rep_storage : storage_ok (storage st);
  rep_bits : bits_rep (get_buddy_map (storage st)) F;
  rep_lists : lists_rep (get_entry (storage st)) (free_lists st) (b_heap st) F;
}.

(** The invariant: a represented, well-formed map of free blocks. *)
Definition inv (st : buddy S) (F : blocks) : Prop :=
  rep st F ∧ wf (capacity (storage st)) F.

(** [st'] has the same storage layout as [st] and differs in memory only at
    entries of page frames in [P]. *)
Record extends (P : Z → Prop) (st st' : buddy S) : Prop := mkExtends {
  ext_entry : pointwise_relation Z eq (get_entry (storage st')) (get_entry (storage st));
  ext_capacity : capacity (storage st') = capacity (storage st);
  ext_heap : footprint (get_entry (storage st)) P (b_heap st) (b_heap st');
}.

(** [st'] represents [F], and only entries of pages that are free in [F]
    were written on the way from [st]. *)
Definition becomes (st : buddy S) (F : blocks) (st' : buddy S) : Prop :=
  rep st' F ∧ extends (page_free F) st st'.

Lemma extends_refl P st : extends P st st.
Proof. by split. Qed.

Lemma extends_trans P st1 st2 st3 : extends P st1 st2 → extends P st2 st3 → extends P st1 st3.
Proof.
  intros [E1 C1 H1] [E2 C2 H2]. split; [|congruence|].
  - by rewrite E2.
  - rewrite E1 in H2. intros p Hp. by rewrite H2, H1.
Qed.

Lemma extends_weaken (P Q : Z → Prop) st st' :
  (∀ p, P p → Q p) → extends P st st' → extends Q st st'.
Proof. intros HPQ [E C Hf]. split; [done..|]. intros p Hp. apply Hf. auto. Qed.

Lemma get_entry_inj (s : S) i j :
  storage_ok s → 0 ≤ i < capacity s → 0 ≤ j < capacity s → get_entry s i = get_entry s j → i = j.
Proof.
  intros Hs Hi Hj Heq. rewrite <- (get_index_entry s i), <- (get_index_entry s j) by done.
  by rewrite Heq.
Qed.

(** The order stored in the entry of a free block is the block's order. *)
Lemma rep_entry st F i k :
  rep st F → 0 ≤ k ≤ MAX_ORDER → F !! i = Some k →
  ∃ e, b_heap st !! get_entry (storage st) i = Some e ∧ order e = k.
Proof.
  intros [_ _ [_ HL]] Hk HF. destruct (HL k Hk) as (head & l & _ & [Hd _] & Hin).
  apply Hin in HF. eapply dseg_entry; [exact Hd|]. apply list_elem_of_fmap. eauto.
Qed.

(** [insert_block] adds a block that was not there. *)
Lemma insert_block_ok st F i k :
  rep st F → wf (capacity (storage st)) F →
  0 ≤ k ≤ MAX_ORDER → 0 ≤ i < capacity (storage st) → F !! i = None →
  ∃ st', insert_block st i k = Ok st' ∧ becomes st (<[i := k]> F) st'.
Proof.
  intros [Hs Hb HL] Hwf Hk Hi HN. pose proof (wf_in_range _ _ Hwf) as Hr. unfold insert_block.
  destruct (bits_rep_set _ _ i k Hb Hi) as (w & bm & -> & -> & Hst & Hlen & Hb').
  simpl_res. rewrite Hst. simpl_res.
  pose proof (get_entry_not_null _ _ Hs Hi) as Hnn.
  unfold write. rewrite is_null_false by done. simpl_res.
  destruct (proj2 HL k Hk) as (head & l & Hhead & Hd & Hin).
  rewrite (index_Some _ _ head) by (done || lia). simpl_res.
  set (p := get_entry (storage st) i) in *.
  set (h1 := <[p := mkFreeEntry k null_mut null_mut]> (b_heap st)).
  assert (p ∉ get_entry (storage st) <$> l) as Hpl.
  { intros (j & Heq & Hj)%list_elem_of_fmap. apply Hin in Hj.
    apply get_entry_inj in Heq as ->; [congruence|done..|by apply (Hr j k)]. }
  destruct (push_ok h1 k head (get_entry (storage st) <$> l) p) as (h2 & Hpush & Hd2 & Hs2).
  { eapply dlist_frame; [apply (same_except_insert [p]); set_solver +| |done].
    intros q Hq ->%list_elem_of_singleton. done. }
  { done. } { done. } { apply lookup_insert_eq. }
  change (mret h1) with (Ok h1). simpl_res. rewrite Hpush. simpl_res.
  destruct HL as [Hlen9 HL]. rewrite store_ok by (rewrite Hlen9; unfold MAX_ORDER in *; lia).
  eexists. split; [done|].
  assert (same_except (get_entry (storage st) <$> (i :: l)) (b_heap st) h2) as Hse.
  { eapply same_except_trans; [apply same_except_insert; by left|done]. }
  split; split; simpl.
  - by apply storage_ok_set_buddy_map.
  - by rewrite get_set_buddy_map.
  - assert (pointwise_relation Z eq (get_entry (set_buddy_map (storage st) bm)) (get_entry (storage st)))
      as -> by (intros j; apply get_entry_set_buddy_map).
    eapply (lists_rep_update (capacity (storage st))) with (l0 := i :: l) (l' := i :: l);
      [by intros; eapply get_entry_inj|done|by split|done| |done|split; [done|]|].
    + intros j [->|Hj]%elem_of_cons; [split; [done|congruence]|].
      apply Hin in Hj. split; [by apply (Hr j k)|congruence].
    + intros j. by rewrite elem_of_cons, Hin, insert_same_order.
    + intros m j Hne. by apply insert_other_order.
  - intros j. apply get_entry_set_buddy_map.
  - unfold capacity. by rewrite get_set_buddy_map, Hlen.
  - intros q Hq. apply Hse. intros (j & -> & [->|Hj]%elem_of_cons)%list_elem_of_fmap.
    + apply (Hq i); [|done]. apply (page_free_lookup _ i k); [lia|apply lookup_insert_eq].
    + apply Hin in Hj. apply (Hq j); [|done].
      apply (page_free_lookup _ j k); [lia|]. by rewrite lookup_insert_ne by congruence.
Qed.

(** Taking block [i] of order [k] out of its list and the bitmap: [h'] and
    [head'] are the list without it. *)
Lemma delete_rep st F i k l h' head' :
  rep st F → in_range (capacity (storage st)) F → 0 ≤ k ≤ MAX_ORDER → F !! i = Some k →
  (∀ j, j ∈ l ↔ F !! j = Some k ∧ j ≠ i) →
  dlist h' k head' (get_entry (storage st) <$> l) →
  same_except (get_entry (storage st) <$> l) (b_heap st) h' →
  ∃ s', clear_bit (storage st) i = Ok s' ∧
    becomes st (delete i F) (mkBuddy (<[Z.to_nat k := head']> (free_lists st)) s' h').
Proof.
  intros [Hs Hb HL] Hr Hk HF Hl Hd Hse. unfold clear_bit.
  destruct (bits_rep_clear _ _ i Hb (Hr i k HF)) as (w & bm & -> & -> & Hst & Hlen & Hb').
  simpl_res. rewrite Hst. simpl_res. eexists. split; [done|].
  split; split; simpl.
  - by apply storage_ok_set_buddy_map.
  - by rewrite get_set_buddy_map.
  - assert (pointwise_relation Z eq (get_entry (set_buddy_map (storage st) bm)) (get_entry (storage st)))
      as -> by (intros j; apply get_entry_set_buddy_map).
    eapply (lists_rep_update (capacity (storage st))) with (l0 := l) (l' := l);
      [by intros; eapply get_entry_inj|done|done|done| |done|split; [done|]|].
    + intros j [Hj _]%Hl. split; [by apply (Hr j k)|congruence].
    + intros j. rewrite Hl, lookup_delete_Some. clear; intuition congruence.
    + intros m j Hne. by apply (delete_other_order F i j k).
  - intros j. apply get_entry_set_buddy_map.
  - unfold capacity. by rewrite get_set_buddy_map, Hlen.
  - intros q Hq. apply Hse. intros (j & -> & [Hj Hne]%Hl)%list_elem_of_fmap.
    apply (Hq j); [|done]. apply (page_free_lookup _ j k); [lia|].
    by rewrite lookup_delete_ne by done.
Qed.

(** [remove_buddy_list_entry] followed by clearing the bit. *)
Lemma remove_block_ok st F i k :
  rep st F → in_range (capacity (storage st)) F → 0 ≤ k ≤ MAX_ORDER → F !! i = Some k →
  ∃ s' head h' head',
    clear_bit (storage st) i = Ok s' ∧ index (free_lists st) k = Ok head ∧
    remove_buddy_list_entry (b_heap st) head (get_entry (storage st) i) = Ok (h', head') ∧
    store (free_lists st) k head' = Ok (<[Z.to_nat k := head']> (free_lists st)) ∧
    becomes st (delete i F) (mkBuddy (<[Z.to_nat k := head']> (free_lists st)) s' h').
Proof.
  intros Hrep Hr Hk HF. pose proof Hrep as [Hs _ [Hlen HL]].
  destruct (HL k Hk) as (head & l & Hhead & Hd & Hin).
  pose proof HF as (l1 & l2 & ->)%Hin%list_elem_of_split.
  rewrite fmap_app, fmap_cons in Hd. destruct (remove_ok _ _ _ _ _ _ Hd) as (h' & head' & Hrm & Hd' & Hse).
  rewrite <- fmap_app in Hd', Hse.
  assert (NoDup (l1 ++ i :: l2)) as Hnd.
  { eapply NoDup_fmap_1. rewrite fmap_app, fmap_cons. apply Hd. }
  destruct (delete_rep st F i k (l1 ++ l2) h' head') as (s' & Hc & Hst'); try done.
  { intros j. rewrite <- Hin. by apply elem_of_remove_middle. }
  exists s', head, h', head'. unfold MAX_ORDER in *.
  split_and!; [done|apply index_Some; (done || lia)|done|apply store_ok; lia|done].
Qed.

(** [pop_buddy_list_entry] on the list of order [k]: null exactly when there
    is no block of that order, and then nothing changes. *)
Lemma pop_block_ok st F k :
  rep st F → in_range (capacity (storage st)) F → 0 ≤ k ≤ MAX_ORDER →
  ∃ head h' head' p,
    index (free_lists st) k = Ok head ∧
    pop_buddy_list_entry (b_heap st) head = Ok (h', head', p) ∧
    store (free_lists st) k head' = Ok (<[Z.to_nat k := head']> (free_lists st)) ∧
    ((p = null_mut ∧ h' = b_heap st ∧ <[Z.to_nat k := head']> (free_lists st) = free_lists st ∧
      ∀ i, F !! i ≠ Some k) ∨
     ∃ i s', p = get_entry (storage st) i ∧ p ≠ null_mut ∧ F !! i = Some k ∧
       get_index (storage st) p = i ∧ clear_bit (storage st) i = Ok s' ∧
       becomes st (delete i F) (mkBuddy (<[Z.to_nat k := head']> (free_lists st)) s' h')).
Proof.
  intros Hrep Hr Hk. pose proof Hrep as [Hs _ [Hlen HL]].
  destruct (HL k Hk) as (head & l & Hhead & Hd & Hin). exists head. unfold MAX_ORDER in *.
  destruct l as [|i l].
  - exists (b_heap st), head, null_mut.
    split_and!; [apply index_Some; (done || lia)|by eapply pop_nil|apply store_ok; lia|].
    left. split_and!; [done|done|by apply list_insert_id|]. by intros i ?%Hin%not_elem_of_nil.
  - rewrite fmap_cons in Hd. destruct (pop_cons _ _ _ _ _ Hd) as (h' & head' & Hpop & Hd' & Hse).
    exists h', head', (get_entry (storage st) i).
    split_and!; [apply index_Some; (done || lia)|done|apply store_ok; lia|]. right.
    assert (F !! i = Some k) as HF by (apply Hin; by left).
    assert (NoDup (i :: l)) as Hnd by (eapply NoDup_fmap_1; rewrite fmap_cons; apply Hd).
    destruct (delete_rep st F i k l h' head') as (s' & Hc & Hst'); try done.
    { intros j. rewrite <- Hin. by apply (elem_of_remove_middle []). }
    exists i, s'. specialize (Hr i k HF). simpl in Hr.
    split_and!; [done|by apply get_entry_not_null|done|by apply get_index_entry|done|done].
Qed.
End rep.
