(* ===== verification/PhysCorrect.v ===== *)
(** * Correctness of [free_block] and [alloc_block].

    The concrete operations refine the abstract ones of [BuddySpec] under the
    invariant of [PhysInvariant]: freeing adds exactly the pages of the block
    and merges as far as possible, allocating takes exactly the pages of the
    block it returns, and both write only to entries of free pages. *)
From stdpp Require Import base gmap numbers strings list.
From S2P Require Import Prelude.
From S2P Require Import KernelHeader.
From S2P Require Import Mutex.
From S2P Require Import FreeList.
From S2P Require Import PhysManager.
From S2P Require Import BuddySpec.
From S2P Require Import PhysInvariant.

#[local] Open Scope Z_scope.

(** ** Index arithmetic *)

Lemma get_buddy_index_ok i k : 0 ≤ k < 64 → get_buddy_index i k = Ok (buddy_of i k).
Proof. intros Hk. unfold get_buddy_index. by rewrite shl1_ok. Qed.

Lemma get_combined_index_ok i k : 0 ≤ k < 64 → uint 64 i → get_combined_index i k = Ok (combined i k).
Proof.
  intros Hk Hi. unfold get_combined_index. rewrite shl1_ok by done. simpl_res.
  by rewrite land_not_pow2.
Qed.

(** The aligned region of [2^MAX_ORDER] pages around page [i] lies in the
    bitmap, so that every buddy [free_block] may look at does too. *)
Definition buddies_mapped (cap i : Z) : Prop := (i / 256 + 1) * 256 ≤ cap.

Lemma buddies_mapped_aligned cap i k :
  (256 | cap) → valid_block cap i k → buddies_mapped cap i.
Proof.
  intros [q ->] (Hk & Hi & _ & Hc). pose proof (pow2_pos k ltac:(lia)). unfold buddies_mapped.
  assert (i / 256 < q); [|lia]. apply Z.div_lt_upper_bound; lia.
Qed.

Lemma buddy_valid cap i k :
  k < MAX_ORDER → valid_block cap i k → buddies_mapped cap i → valid_block cap (buddy_of i k) k.
Proof.
  unfold MAX_ORDER, buddies_mapped. intros Hlt (Hk & Hi & Hd & Hc) Htop.
  pose proof (pow2_succ k ltac:(lia)) as Hs. pose proof (pow2_pos k ltac:(lia)) as Hp.
  destruct (buddy_cases i k ltac:(lia) Hd) as [([q Hq] & -> & _)|([q Hq] & -> & _)].
  - unfold valid_block, MAX_ORDER. split_and!; [lia|lia|lia|by apply Z.divide_add_r|].
    destruct (divide_pow2_le (k + 1) 8 256) as [r Hr]; [unfold MAX_ORDER in *; lia|by exists 1|].
    pose proof (Z.div_mod i 256 ltac:(lia)). pose proof (Z.mod_pos_bound i 256 ltac:(lia)).
    assert (i < (i / 256 + 1) * 256) as Hlt' by lia. set (t := i / 256 + 1) in *.
    assert (t * 256 = t * r * 2 ^ (k + 1)) as Ht by (rewrite Hr at 1; ring).
    rewrite Ht, Hq in Hlt'. apply Z.mul_lt_mono_pos_r in Hlt'; [|lia].
    assert ((q + 1) * 2 ^ (k + 1) ≤ t * r * 2 ^ (k + 1)) by (apply Z.mul_le_mono_nonneg_r; lia).
    lia.
  - unfold valid_block, MAX_ORDER. split_and!; [lia|lia| |by apply Z.divide_sub_r|lia].
    assert (0 ≤ q) by nia. nia.
Qed.

Lemma combined_le i k : 0 ≤ k → (2 ^ k | i) → combined i k ≤ i.
Proof.
  intros Hk Hd. pose proof (pow2_pos k Hk).
  destruct (buddy_cases i k Hk Hd) as [(_ & _ & ->)|(_ & _ & ->)]; lia.
Qed.

Lemma buddies_mapped_le cap i j : j ≤ i → buddies_mapped cap i → buddies_mapped cap j.
Proof.
  unfold buddies_mapped. intros Hle. assert (j / 256 ≤ i / 256) by (apply Z.div_le_mono; lia). lia.
Qed.

Section correct.
Context {S : Type} `{StorageLaws S}.
Implicit Types (st : buddy S) (F : blocks).

Abbreviation cap st := (capacity (storage st)).

Lemma valid_range c i k : valid_block c i k → 0 ≤ i < c.
Proof. intros (Hk & Hi & _ & Hc). pose proof (pow2_pos k ltac:(lia)). lia. Qed.

(** The merge test of [free_block] decides whether the neighbour is a free
    block of the same order. *)
Lemma can_merge_ok st F b k :
  inv st F → (k < MAX_ORDER → 0 ≤ b < cap st) →
  can_merge st b k = Ok (bool_decide (k < MAX_ORDER ∧ F !! b = Some k)).
Proof.
  intros [Hrep Hwf] Hb. unfold can_merge.
  destruct (Z.ltb_spec k MAX_ORDER) as [Hlt|Hge].
  2: { by rewrite bool_decide_false by lia. }
  specialize (Hb Hlt). pose proof (rep_bits _ _ Hrep) as Hbits.
  destruct (word_range _ _ Hb) as [Hq Hr].
  destruct (index_ok _ _ Hq) as (w & Hw & _). rewrite Hw. simpl_res.
  rewrite shl1_ok by done. simpl_res. rewrite (bits_rep_test _ F) by done.
  destruct (F !! b) as [m|] eqn:E; simpl.
  - pose proof (wf_valid _ _ Hwf b m E) as [Hm _]. 
    destruct (rep_entry _ _ _ _ Hrep Hm E) as (e & He & <-).
    unfold deref. rewrite He. simpl. f_equal.
    destruct (Z.eqb_spec (order e) k) as [->|Hne]; symmetry;
      [by apply bool_decide_true|apply bool_decide_false; by intros [_ [=]]].
  - rewrite bool_decide_false; [done|]. by intros [].
Qed.

(** Refinement of [free_block]: it returns, and the new state represents the
    abstract result. *)
Lemma free_block_go_ok n st F i k :
  inv st F → valid_block (cap st) i k → buddies_mapped (cap st) i →
  n = Z.to_nat (MAX_ORDER - k) → (∀ p, block_page i k p → ¬ page_free F p) →
  ∃ st', free_block_go n st i k = Ok st' ∧ becomes st (free_spec n F i k) st'.
Proof.
  revert st F i k. induction n as [|n IH]; intros st F i k Hinv Hv Hm Hn Hnf;
    pose proof Hinv as [Hrep Hwf]; pose proof Hv as (Hk & Hi & Hd & Hc);
    pose proof (valid_range _ _ _ Hv) as Hri; unfold MAX_ORDER in *;
    pose proof (capacity_bound _ (rep_storage _ _ Hrep)) as Hcap;
    assert (F !! i = None) as HN by (eapply not_free_lookup; [done| |done]; lia);
    simpl free_block_go; rewrite get_buddy_index_ok by lia; simpl_res;
    rewrite (can_merge_ok st F) by (done || (intros; eapply valid_range, buddy_valid; done));
    simpl_res; simpl free_spec.
  - rewrite bool_decide_false by (unfold MAX_ORDER; lia).
    apply insert_block_ok; (done || (unfold MAX_ORDER; lia)).
  - case_bool_decide as Hb; [|apply insert_block_ok; (done || (unfold MAX_ORDER; lia))].
    destruct Hb as [Hlt Hb]. unfold MAX_ORDER in Hlt.
    destruct (remove_block_ok st F (buddy_of i k) k) as (s' & head & h' & head' & -> & Hix & Hrm & Hst & Hrep1 & Hext1);
      [done|by apply wf_in_range|unfold MAX_ORDER; lia|done|].
    simpl_res. rewrite Hix. simpl_res. rewrite Hrm. simpl_res. rewrite Hst. simpl_res.
    rewrite get_combined_index_ok by (unfold uint; lia). simpl_res.
    pose proof (ext_capacity _ _ _ Hext1) as Hcap1. set (st1 := mkBuddy _ _ _) in *.
    pose proof (buddy_valid _ _ _ Hlt Hv Hm) as Hvb.
    assert (wf (cap st1) (delete (buddy_of i k) F)) as Hwf1 by (rewrite Hcap1; by apply wf_delete).
    assert (valid_block (cap st1) (combined i k) (k + 1)) as Hv1
      by (rewrite Hcap1; by apply combined_valid).
    assert (∀ p, block_page (combined i k) (k + 1) p → ¬ page_free (delete (buddy_of i k) F) p) as Hnf1.
    { intros p Hp. rewrite (page_free_delete _ _ _ _ _ Hwf Hb).
      rewrite combined_pages in Hp by (done || lia).
      destruct Hp as [Hp|Hp]; [|tauto]. intros [? _]. by apply (Hnf p). }
    destruct (IH st1 (delete (buddy_of i k) F) (combined i k) (k + 1)) as (st' & Hfb & Hrep' & Hext');
      [done|done| |unfold MAX_ORDER; lia|done|].
    { rewrite Hcap1. eapply buddies_mapped_le; [apply combined_le|]; (done || lia). }
    exists st'. split; [done|]. split; [done|].
    eapply extends_trans; [eapply extends_weaken; [|done]|done].
    intros p Hp. eapply free_spec_ok; [done..| |done|by left]. unfold MAX_ORDER; lia.
Qed.

(** What a successful run of [alloc_block] establishes. *)
Definition allocated st F k st' i : Prop :=
  ∃ m : nat, F !! i = Some (k + Z.of_nat m) ∧
    (∀ j i', k ≤ j < k + Z.of_nat m → F !! i' ≠ Some j) ∧
    becomes st (split_spec m F i k) st'.

(** Splitting the block the recursive call returned. *)
Lemma split_block_ok st F st1 i k :
  inv st F → 0 ≤ k < MAX_ORDER → (∀ i', F !! i' ≠ Some k) → allocated st F (k + 1) st1 i →
  ∃ st', (buddy_index ← get_buddy_index i k; insert_block st1 buddy_index k) = Ok st' ∧
    allocated st F k st' i.
Proof.
  intros [Hrep Hwf] Hk Hno (m & HF & Hmin & Hrep1 & Hext1). unfold MAX_ORDER in *.
  pose proof (ext_capacity _ _ _ Hext1) as Hcap1.
  pose proof (wf_valid _ _ Hwf i _ HF) as (Hm & Hi & Hd & Hc).
  apply (divide_pow2_le (k + 1)) in Hd; [|lia].
  rewrite get_buddy_index_ok, buddy_lower by (done || lia). simpl_res.
  destruct (split_spec_ok (cap st) m F i (k + 1)) as [Hwf1 Hp1]; [done|lia|done|].
  pose proof (split_upper_fresh _ _ _ _ _ Hwf (proj1 Hk) HF) as HN.
  rewrite <- Hcap1 in Hwf1.
  pose proof (pow2_succ k ltac:(lia)). pose proof (pow2_pos k ltac:(lia)).
  assert (2 ^ (k + 1) ≤ 2 ^ (k + 1 + Z.of_nat m)) by (apply Z.pow_le_mono_r; lia).
  destruct (insert_block_ok st1 (split_spec m F i (k + 1)) (i + 2 ^ k) k)
    as (st' & -> & Hrep' & Hext'); [done|done|unfold MAX_ORDER; lia|lia|done|].
  exists st'. split; [done|]. exists (Datatypes.S m). split_and!.
  - rewrite HF. f_equal. lia.
  - intros j i' Hj. destruct (decide (j = k)) as [->|]; [apply Hno|apply Hmin; lia].
  - split; [exact Hrep'|]. eapply extends_trans; [eapply extends_weaken; [|done]|done].
    intros p Hp. simpl. apply page_free_insert; [done|by left].
Qed.

(** Refinement of [alloc_block]: it returns a block carved out of the
    smallest free block that is large enough, or panics when there is none. *)
Lemma alloc_block_go_ok n st F k :
  inv st F → 0 ≤ k ≤ MAX_ORDER → n = Z.to_nat (MAX_ORDER - k) →
  (∃ st' i, alloc_block_go n st k = Ok (st', i) ∧ allocated st F k st' i) ∨
  (alloc_block_go n st k = Err (PanicMsg "Out of physical memory") ∧ exhausted F k).
Proof.
  revert st F k. induction n as [|n IH]; intros st F k Hinv Hk Hn;
    pose proof Hinv as [Hrep Hwf];
    destruct (pop_block_ok st F k) as (head & h' & head' & p & Hix & Hpop & Hst &
      [(-> & -> & Hid & Hno)|(i & s' & -> & Hnn & HF & Hgi & Hc & Hb)]);
    try (done || by apply wf_in_range);
    simpl alloc_block_go; rewrite Hix; simpl_res; rewrite Hpop; simpl_res; rewrite Hst; simpl_res.
  2, 4: left; rewrite is_null_false by done; cbn; rewrite Hgi, Hc; cbn;
    eexists _, i; split; [done|]; exists 0%nat; rewrite Z.add_0_r; split_and!; (done || lia).
  - right. assert (k = MAX_ORDER) as -> by (unfold MAX_ORDER in *; lia).
    split; [done|]. intros i m HF. pose proof (wf_valid _ _ Hwf i m HF) as [Hm _].
    assert (m ≠ MAX_ORDER) by (intros ->; by apply (Hno i)). lia.
  - simpl is_null. cbv iota. rewrite Hid. destruct (Z.eqb_spec k MAX_ORDER) as [|Hne]; [lia|].
    replace (mkBuddy (free_lists st) (storage st) (b_heap st)) with st by (by destruct st).
    destruct (IH st F (k + 1)) as [(st1 & i & -> & Ha)|[-> Hex]]; [done|lia|lia| |].
    + left. simpl_res.
      destruct (split_block_ok st F st1 i k) as (st' & Heq & Ha'); [done|lia|done..|].
      exists st', i. split; [|done]. inv_bind Heq as (b & -> & Heq). simpl_res. by rewrite Heq.
    + right. split; [done|]. intros i m HF. specialize (Hex i m HF). simpl in Hex.
      assert (m ≠ k) by (intros ->; by apply (Hno i)). lia.
Qed.
End correct.
