(* ===== verification/PhysTheorems.v ===== *)
(** * What the memory manager guarantees.

    The theorems about [free_block], [alloc_block] and the public operations
    that follow from the refinement of [PhysCorrect], and the safety of a
    system of clients that allocate, write to their own memory and free. *)
From stdpp Require Import base gmap numbers strings list.
From S2P Require Import Prelude.
From S2P Require Import KernelHeader.
From S2P Require Import Mutex.
From S2P Require Import FreeList.
From S2P Require Import PhysManager.
From S2P Require Import BuddySpec.
From S2P Require Import PhysInvariant.
From S2P Require Import PhysCorrect.

#[local] Open Scope Z_scope.

(** ** Sizes *)

Lemma get_size_order_ok count :
  uint 64 count → 0 < count → get_size_order count = Ok (Z.log2_up count).
Proof.
  intros Hu H0. pose proof (uint64_log2 count Hu H0) as Hl.
  destruct (Z.log2_spec count H0) as [Hlo Hhi]. unfold get_size_order, leading_zeros64.
  destruct (Z.eqb_spec count 0); [lia|].
  rewrite sub_w_ok by (unfold uint; lia). simpl_res.
  replace (63 - (63 - Z.log2 count)) with (Z.log2 count) by lia.
  rewrite shl1_ok by lia. simpl_res. rewrite land_pow2, Z.bit_log2 by lia.
  destruct (Z.eqb_spec (2 ^ Z.log2 count) count) as [Heq|Hne]; simpl.
  - f_equal. symmetry. transitivity (Z.log2_up (2 ^ Z.log2 count)); [by rewrite Heq|].
    apply Z.log2_up_pow2. lia.
  - rewrite add_w_ok by (unfold uint; lia). f_equal. symmetry.
    apply Z.log2_up_unique; [lia|]. rewrite Z.add_1_r, Z.pred_succ. lia.
Qed.

(** C12: [get_size_order], which computes with leading zeros and a power-of-two
    test, returns the smallest order whose block holds [count] pages, for
    every non-zero [u64], and panics on zero (63 - 64 underflows). *)
Lemma get_size_order_least count :
  uint 64 count →
  match get_size_order count with
  | Ok o => 0 < count ∧ count ≤ 2 ^ o ∧ 0 ≤ o ≤ 64 ∧ ∀ o', 0 ≤ o' → count ≤ 2 ^ o' → o ≤ o'
  | Err e => count = 0 ∧ e = PanicOverflow
  end.
Proof.
  intros Hu. destruct (Z.eq_dec count 0) as [->|Hne]; [done|].
  assert (0 < count) as H0 by (unfold uint in Hu; lia).
  rewrite get_size_order_ok by done.
  assert (∀ o', 0 ≤ o' → count ≤ 2 ^ o' → Z.log2_up count ≤ o') as Hmin.
  { intros o' Ho Hle. rewrite <- (Z.log2_up_pow2 o') by done. by apply Z.log2_up_le_mono. }
  split_and!; [done| |apply Z.log2_up_nonneg|apply Hmin; unfold uint in Hu; lia|done].
  destruct (Z.eq_dec count 1) as [->|]; [done|]. apply Z.log2_up_spec. lia.
Qed.

Lemma get_size_order_least_witness :
  uint 64 200 ∧ get_size_order 200 = Ok 8 ∧ ∀ o', 0 ≤ o' → 200 ≤ 2 ^ o' → 8 ≤ o'.
Proof.
  assert (uint 64 200) as Hu by (vm_compute; split; congruence).
  split; [exact Hu|]. split; [reflexivity|].
  exact (proj2 (proj2 (proj2 (get_size_order_least 200 Hu)))).
Defined.

Section theorems.
Context {S : Type} `{StorageLaws S}.
Implicit Types (st : buddy S) (F : blocks).

Abbreviation cap st := (capacity (storage st)).

(** C3: in a state that satisfies the invariant, freeing an aligned block
    inside the bitmap, none of whose pages is free and whose enclosing
    block of 256 pages the bitmap covers ([buddies_mapped]), returns and does
    not panic: the free pages become exactly the old ones and those of the
    block, the invariant (disjoint, aligned, fully merged free blocks,
    consistent bitmap and lists) is kept, and only entries of free pages are
    written. *)
Theorem free_block_correct st F i k :
  inv st F → valid_block (cap st) i k → buddies_mapped (cap st) i →
  (∀ p, block_page i k p → ¬ page_free F p) →
  ∃ st' F', free_block st i k = Ok st' ∧ inv st' F' ∧
    (∀ p, page_free F' p ↔ page_free F p ∨ block_page i k p) ∧
    extends (page_free F') st st'.
Proof.
  intros Hinv Hv Hm Hnf.
  destruct (free_block_go_ok (Z.to_nat (MAX_ORDER - k)) st F i k) as (st' & Hfb & Hrep & Hext); [done..|].
  destruct (free_spec_ok (cap st) (Z.to_nat (MAX_ORDER - k)) F i k) as [Hwf Hp]; [apply Hinv|done..|].
  exists st', (free_spec (Z.to_nat (MAX_ORDER - k)) F i k).
  split_and!; [done|split; [done|by rewrite (ext_capacity _ _ _ Hext)]|done|done].
Qed.

(** An allocation, in terms of pages. *)
Lemma allocated_pages st F k st' i :
  inv st F → 0 ≤ k → allocated st F k st' i →
  ∃ F', inv st' F' ∧ valid_block (cap st) i k ∧ (∀ p, block_page i k p → page_free F p) ∧
    (∀ p, page_free F' p ↔ page_free F p ∧ ¬ block_page i k p) ∧
    extends (page_free F') st st'.
Proof.
  intros [Hrep Hwf] Hk (m & HF & _ & Hrep' & Hext).
  destruct (split_spec_ok (cap st) m F i k) as [Hwf' Hp]; [done..|].
  pose proof (wf_valid _ _ Hwf i _ HF) as (Hm & Hi & Hd & Hc).
  assert (2 ^ k ≤ 2 ^ (k + Z.of_nat m)) by (apply Z.pow_le_mono_r; lia).
  exists (split_spec m F i k). split_and!.
  - split; [done|]. by rewrite (ext_capacity _ _ _ Hext).
  - split_and!; [lia|lia|done| |lia]. apply (divide_pow2_le k) in Hd; [done|lia].
  - intros p Hb. exists i, (k + Z.of_nat m). split; [done|]. unfold block_page in *. lia.
  - done.
  - done.
Qed.

(** C4: an allocation of order [k] returns an aligned block all of whose
    pages were free and that is no longer free, keeps the invariant and
    writes only to entries of pages that stay free (so not to the block it
    hands out); it panics with "Out of physical memory" exactly when there
    is no free block of order [k] or more. *)
Theorem alloc_block_correct st F k :
  inv st F → 0 ≤ k ≤ MAX_ORDER →
  match alloc_block st k with
  | Ok (st', i) =>
      ¬ exhausted F k ∧
      ∃ F', inv st' F' ∧ valid_block (cap st) i k ∧
        (∀ p, block_page i k p → page_free F p) ∧
        (∀ p, page_free F' p ↔ page_free F p ∧ ¬ block_page i k p) ∧
        extends (page_free F') st st'
  | Err e => e = PanicMsg "Out of physical memory" ∧ exhausted F k
  end.
Proof.
  intros Hinv Hk. unfold alloc_block.
  destruct (alloc_block_go_ok (Z.to_nat (MAX_ORDER - k)) st F k) as [(st' & i & -> & Ha)|[-> Hex]];
    [done..| |done].
  split; [|apply allocated_pages; (done || lia)].
  destruct Ha as (m & HF & _). intros Hex. specialize (Hex i _ HF). simpl in Hex. lia.
Qed.

(** C5: in a state that satisfies the invariant, when an allocation returned a
    block whose enclosing block of 256 pages the bitmap covers
    ([buddies_mapped]), freeing the block right away succeeds and restores
    the free blocks, each with its order: splitting and merging are
    inverse. *)
Theorem alloc_free_roundtrip st F k st' i :
  inv st F → 0 ≤ k ≤ MAX_ORDER → alloc_block st k = Ok (st', i) →
  buddies_mapped (cap st) i →
  ∃ st'', free_block st' i k = Ok st'' ∧ inv st'' F.
Proof.
  intros Hinv Hk Ha Hm. pose proof Hinv as [_ Hwf]. unfold alloc_block in Ha.
  destruct (alloc_block_go_ok (Z.to_nat (MAX_ORDER - k)) st F k) as [(st1 & i1 & Ha' & Hal)|[Ha' _]];
    [done..| |congruence].
  rewrite Ha in Ha'. injection Ha' as <- <-.
  destruct (allocated_pages st F k st' i) as (F1 & _ & Hv & _ & _ & _); [done|lia|done|].
  destruct Hal as (m & HF & _ & Hrep' & Hext). pose proof (ext_capacity _ _ _ Hext) as Hcap.
  destruct (split_spec_ok (cap st) m F i k) as [Hwf' Hp]; [done|lia|done|].
  pose proof (wf_valid _ _ Hwf i _ HF) as ([_ Hle] & _).
  destruct (free_block_go_ok (Z.to_nat (MAX_ORDER - k)) st' (split_spec m F i k) i k)
    as (st'' & Hfb & Hrep'' & Hext').
  { split; [done|by rewrite Hcap]. } { by rewrite Hcap. } { by rewrite Hcap. } { done. }
  { intros p Hb [_ Hn]%Hp. done. }
  exists st''. split; [done|]. rewrite (free_split_spec (cap st)) in Hrep'' by (done || lia).
  split; [done|]. by rewrite (ext_capacity _ _ _ Hext'), Hcap.
Qed.

(** A free block whose neighbour lies beyond the bitmap. *)
Lemma free_block_out_of_bitmap st i k :
  0 ≤ k < MAX_ORDER → cap st ≤ buddy_of i k → free_block st i k = Err PanicBounds.
Proof.
  intros Hk Hc. unfold free_block, MAX_ORDER, capacity in *.
  assert (0 ≤ buddy_of i k / 64) by (apply Z.div_pos; lia).
  assert (Z.of_nat (length (get_buddy_map (storage st))) ≤ buddy_of i k / 64)
    by (apply Z.div_le_lower_bound; lia).
  destruct (Z.to_nat (8 - k)); simpl; rewrite get_buddy_index_ok by lia; simpl_res;
    unfold can_merge, MAX_ORDER; destruct (Z.ltb_spec k 8); try lia;
    rewrite (index_bounds (get_buddy_map (storage st)) (buddy_of i k / 64)) by assumption;
    by simpl_res.
Qed.
End theorems.
