(* ===== verification/PhysSystem.v ===== *)
(** * The public operations and a system of clients.

    The methods of [PhysMemoryManager] take the lock, run one block operation
    (or several) and release the lock.  [sys_step] is everything clients can
    do: allocate a block, a page or a batch of pages, write anything to the
    pages they own, free what they own.  Whatever they do, live allocations
    never overlap, no page is lost, and freeing never fails (the bitmap must
    cover a multiple of 256 pages: [buddies_mapped]). *)
From stdpp Require Import base gmap numbers strings list.
From S2P Require Import Prelude.
From S2P Require Import KernelHeader.
From S2P Require Import Mutex.
From S2P Require Import FreeList.
From S2P Require Import PhysManager.
From S2P Require Import BuddySpec.
From S2P Require Import PhysInvariant.
From S2P Require Import PhysCorrect.
From S2P Require Import PhysTheorems.

#[local] Open Scope Z_scope.

(** An allocation as its client sees it: the address and the page count. *)
Definition allocation : Type := Z * Z.

(** The block behind an allocation. *)
Definition alloc_index (a : allocation) : Z := Z.shiftr a.1 12.
Definition alloc_order (a : allocation) : Z := Z.log2_up a.2.
Definition owns (a : allocation) (p : Z) : Prop := block_page (alloc_index a) (alloc_order a) p.

#[global] Instance owns_dec a p : Decision (owns a p).
Proof. unfold owns, block_page. apply _. Defined.

Lemma owned_cons a (l : list allocation) p :
  (∃ b, b ∈ a :: l ∧ owns b p) ↔ owns a p ∨ ∃ b, b ∈ l ∧ owns b p.
Proof.
  split.
  - intros (b & [->|Hb]%elem_of_cons & Ho); eauto.
  - intros [Ho|(b & Hb & Ho)]; [exists a|exists b]; (split; [|done]); rewrite elem_of_cons; auto.
Qed.

(** The pages of a batch ([alloc_pages], [free_pages]) as allocations. *)
Definition single_pages (addrs : list Z) : list allocation := (λ addr, (addr, 1)) <$> addrs.

(** No two allocations of the list share a page. *)
Fixpoint disjoint_live (l : list allocation) : Prop :=
  match l with
  | [] => True
  | a :: l => (∀ b p, b ∈ l → owns a p → owns b p → False) ∧ disjoint_live l
  end.

#[global] Instance disjoint_live_perm : Proper ((≡ₚ) ==> iff) disjoint_live.
Proof.
  assert (∀ l l', l ≡ₚ l' → disjoint_live l → disjoint_live l') as Hp.
  { induction 1 as [|a l l' Hl IH|a b l|l1 l2 l3 H1 IH1 H2 IH2]; simpl; [done| | |by auto].
    - intros [Ha Hd]. split; [|by auto]. intros c p. rewrite <- Hl. apply Ha.
    - intros (Hb & Ha & Hd). split_and!; [|intros c p Hc; apply Hb; by right|done].
      intros c p [->|Hc]%elem_of_cons Hpa Hpc; [by apply (Hb a p); [left|..]|by apply (Ha c p)]. }
  intros l l' Hl. split; apply Hp; by rewrite Hl.
Qed.

Section system.
Context {S : Type} `{StorageLaws S}.
Implicit Types (m : PhysMemoryManager S) (F : blocks) (live : list allocation).

Abbreviation mcap m := (capacity (storage (pm_buddy m))).

(** Between operations: the lock is free and the state represents [F]. *)
Definition pm_inv m F : Prop := locked (pm_lock m) = false ∧ inv (pm_buddy m) F.

Lemma locked_op_ok {A} m (body : buddy S → res (buddy S * A)) st a :
  locked (pm_lock m) = false → body (pm_buddy m) = Ok (st, a) →
  locked_op m body = Ok (mkPhysMemoryManager SpinLock_new st, a).
Proof.
  intros Hl Hb. destruct m as [[l] b]; simpl in *. subst l. unfold locked_op, with_guard. simpl.
  by rewrite Hb.
Qed.

Lemma locked_op_err {A} m (body : buddy S → res (buddy S * A)) e :
  locked (pm_lock m) = false → body (pm_buddy m) = Err e → locked_op m body = Err e.
Proof.
  intros Hl Hb. destruct m as [[l] b]; simpl in *. subst l. unfold locked_op, with_guard. simpl.
  by rewrite Hb.
Qed.

(** A size that fits the allocator: at most one block of [MAX_ORDER]. *)
Lemma size_order_range count : 0 < count ≤ 256 →
  get_size_order count = Ok (Z.log2_up count) ∧ 0 ≤ Z.log2_up count ≤ MAX_ORDER.
Proof.
  intros Hc. split; [apply get_size_order_ok; unfold uint; lia|].
  split; [apply Z.log2_up_nonneg|]. apply Z.log2_up_le_pow2; unfold MAX_ORDER; lia.
Qed.

(** [alloc_linear_pages] in terms of pages; [alloc_page] is the case of one
    page. *)
Lemma alloc_linear_pages_pages m F count :
  pm_inv m F → 0 < count ≤ 256 →
  (∃ m' F' addr, alloc_linear_pages m count = Ok (m', addr) ∧ pm_inv m' F' ∧
     mcap m' = mcap m ∧ addr = alloc_index (addr, count) * 4096 ∧
     valid_block (mcap m) (alloc_index (addr, count)) (alloc_order (addr, count)) ∧
     (∀ p, owns (addr, count) p → page_free F p) ∧
     (∀ p, page_free F' p ↔ page_free F p ∧ ¬ owns (addr, count) p)) ∨
  (alloc_linear_pages m count = Err (PanicMsg "Out of physical memory") ∧
     exhausted F (Z.log2_up count)).
Proof.
  intros [Hl Hinv] Hc. destruct (size_order_range count Hc) as [Hso Hk].
  destruct (alloc_block_go_ok (Z.to_nat (MAX_ORDER - Z.log2_up count)) (pm_buddy m) F (Z.log2_up count))
    as [(st' & i & Ha & Hal)|[Ha Hex]]; [done..| |].
  - left. destruct (allocated_pages (pm_buddy m) F (Z.log2_up count) st' i)
      as (F' & Hinv' & Hv & Hpre & Hp & Hext); [done|lia|done|].
    pose proof (valid_range _ _ _ Hv) as Hr.
    pose proof (capacity_bound _ (rep_storage _ _ (proj1 Hinv))) as Hcap.
    exists (mkPhysMemoryManager SpinLock_new st'), F', (i * 4096). unfold owns, alloc_index, alloc_order.
    simpl. rewrite addr_to_index. split_and!; try done; [|apply (ext_capacity _ _ _ Hext)].
    apply locked_op_ok; [done|]. rewrite Hso. simpl_res. unfold alloc_block. rewrite Ha. simpl_res.
    rewrite index_to_addr_small; [done|lia|unfold uint; lia].
  - right. split; [|done]. apply locked_op_err; [done|]. rewrite Hso. simpl_res.
    unfold alloc_block. by rewrite Ha.
Qed.

(** A request for zero pages underflows in [get_size_order]; one for more
    than a block of the largest order indexes the free lists out of bounds. *)
Lemma alloc_linear_pages_bad m F count :
  pm_inv m F → uint 64 count → ¬ (0 < count ≤ 256) →
  alloc_linear_pages m count = Err (if count =? 0 then PanicOverflow else PanicBounds).
Proof.
  intros [Hl [[_ _ [Hlen _]] _]] [Hu0 Hu] Hc. destruct (Z.eqb_spec count 0) as [->|Hne]; [by apply locked_op_err|].
  apply locked_op_err; [done|]. rewrite get_size_order_ok by (done || lia). simpl_res.
  assert (8 < Z.log2_up count) as Hk by (apply (Z.log2_up_lt_pow2 count 8); lia).
  unfold alloc_block, MAX_ORDER. replace (Z.to_nat (8 - Z.log2_up count)) with 0%nat by lia.
  simpl. rewrite (index_bounds (free_lists (pm_buddy m))) by (rewrite ?Hlen; lia). done.
Qed.

Lemma alloc_page_linear m : alloc_page m = alloc_linear_pages m 1.
Proof. done. Qed.

Lemma free_page_linear m addr : free_page m addr = free_linear_pages m addr 1.
Proof. done. Qed.

(** Freeing a live allocation. *)
Lemma free_linear_pages_pages m F addr count :
  pm_inv m F → 0 < count ≤ 256 →
  valid_block (mcap m) (alloc_index (addr, count)) (alloc_order (addr, count)) →
  buddies_mapped (mcap m) (alloc_index (addr, count)) →
  (∀ p, owns (addr, count) p → ¬ page_free F p) →
  ∃ m' F', free_linear_pages m addr count = Ok (m', tt) ∧ pm_inv m' F' ∧ mcap m' = mcap m ∧
    (∀ p, page_free F' p ↔ page_free F p ∨ owns (addr, count) p).
Proof.
  intros [Hl Hinv] Hc Hv Hm Hnf. destruct (size_order_range count Hc) as [Hso Hk].
  destruct (free_block_go_ok (Z.to_nat (MAX_ORDER - Z.log2_up count)) (pm_buddy m) F
    (alloc_index (addr, count)) (Z.log2_up count)) as (st' & Hfb & Hrep & Hext); [done..|].
  destruct (free_spec_ok (mcap m) (Z.to_nat (MAX_ORDER - Z.log2_up count)) F
    (alloc_index (addr, count)) (Z.log2_up count)) as [Hwf Hp]; [apply Hinv|done..|].
  eexists (mkPhysMemoryManager SpinLock_new st'), _.
  split_and!; [|split; [done|]; split; [done|]|apply (ext_capacity _ _ _ Hext)|exact Hp].
  - apply locked_op_ok; [done|]. unfold no_result. rewrite Hso. simpl_res.
    unfold free_block. change (Z.shiftr addr 12) with (alloc_index (addr, count)). by rewrite Hfb.
  - simpl. by rewrite (ext_capacity _ _ _ Hext).
Qed.

(** ** Clients *)

(** The manager's state after memory changed to [h]. *)
Definition set_heap m (h : heap) : PhysMemoryManager S :=
  mkPhysMemoryManager (pm_lock m)
    (mkBuddy (free_lists (pm_buddy m)) (storage (pm_buddy m)) h).

(** The invariant depends on memory only at entries of free pages. *)
Lemma inv_set_heap m F h :
  pm_inv m F →
  (∀ i, page_free F i → h !! get_entry (storage (pm_buddy m)) i =
                        b_heap (pm_buddy m) !! get_entry (storage (pm_buddy m)) i) →
  pm_inv (set_heap m h) F.
Proof.
  intros [Hl [[Hs Hb [Hlen HL]] Hwf]] Hh. split; [done|]. split; [|done]. split; [done..|].
  split; [done|]. simpl. intros k Hk. destruct (HL k Hk) as (head & l & Hhd & [Hd Hnd] & Hin).
  exists head, l. split; [done|]. split; [|done]. split; [|done].
  eapply dseg_frame; [|exact Hd]. intros q (i & -> & Hi)%list_elem_of_fmap.
  apply Hh. apply (page_free_lookup _ i k); [lia|]. by apply Hin.
Qed.

(** One action of the system; [live] is the multiset of live allocations.
    Clients may write whatever they like, whenever they like, to the pages
    they own. *)
Inductive sys_step : PhysMemoryManager S * list allocation → PhysMemoryManager S * list allocation → Prop :=
  | sys_alloc_linear m live count m' addr :
      uint 64 count → alloc_linear_pages m count = Ok (m', addr) →
      sys_step (m, live) (m', (addr, count) :: live)
  | sys_alloc_page m live m' addr :
      alloc_page m = Ok (m', addr) → sys_step (m, live) (m', (addr, 1) :: live)
  | sys_alloc_pages m live len m' addrs :
      alloc_pages m len = Ok (m', addrs) → sys_step (m, live) (m', single_pages addrs ++ live)
  | sys_free_linear m live live' addr count m' :
      live ≡ₚ (addr, count) :: live' → free_linear_pages m addr count = Ok (m', tt) →
      sys_step (m, live) (m', live')
  | sys_free_page m live live' addr m' :
      live ≡ₚ (addr, 1) :: live' → free_page m addr = Ok (m', tt) →
      sys_step (m, live) (m', live')
  | sys_free_pages m live live' addrs m' :
      live ≡ₚ single_pages addrs ++ live' → free_pages m addrs = Ok (m', tt) →
      sys_step (m, live) (m', live')
  | sys_client_write m live h :
      (∀ p, (∀ i a, a ∈ live → owns a i → p ≠ get_entry (storage (pm_buddy m)) i) →
         h !! p = b_heap (pm_buddy m) !! p) →
      sys_step (m, live) (set_heap m h, live).

(** A live allocation is a well-placed block. *)
Definition live_ok (c : Z) (a : allocation) : Prop :=
  0 < a.2 ≤ 256 ∧ valid_block c (alloc_index a) (alloc_order a) ∧ a.1 = alloc_index a * 4096.

Record sys_inv (P0 : Z → Prop) (x : PhysMemoryManager S * list allocation) (F : blocks) : Prop := mkSysInv {
  si_inv : pm_inv x.1 F;
  si_aligned : (256 | mcap x.1);
  si_live : Forall (live_ok (mcap x.1)) x.2;
  si_disjoint : disjoint_live x.2;
  si_not_free : ∀ a p, a ∈ x.2 → owns a p → ¬ page_free F p;
  si_pages : ∀ p, P0 p ↔ page_free F p ∨ ∃ a, a ∈ x.2 ∧ owns a p;
}.

Lemma sys_inv_alloc P0 m live F count m' addr :
  sys_inv P0 (m, live) F → 0 < count ≤ 256 → alloc_linear_pages m count = Ok (m', addr) →
  ∃ F', sys_inv P0 (m', (addr, count) :: live) F'.
Proof.
  intros [Hi Ha Hl Hd Hn Hp] Hc Heq; simpl in *.
  destruct (alloc_linear_pages_pages m F count Hi Hc)
    as [(m1 & F' & addr1 & Heq' & Hi' & Hcap & Hadr & Hv & Hpre & Hpost)|[Heq' _]]; [|congruence].
  rewrite Heq in Heq'. injection Heq' as <- <-. exists F'. split; simpl; rewrite ?Hcap; try done.
  - constructor; [|done]. split; [done|]. by split.
  - split; [|done]. intros b p Hb Hpa Hpb. by apply (Hn b p Hb Hpb), Hpre.
  - intros a p [->|Hal]%elem_of_cons Hap [Hpf Hno]%Hpost; [done|]. by apply (Hn a p).
  - intros p. rewrite Hp, Hpost, owned_cons. specialize (Hpre p).
    destruct (decide (owns (addr, count) p)); tauto.
Qed.

(** Freeing a live allocation succeeds and keeps the invariant. *)
Lemma sys_inv_free P0 m live live' F addr count :
  sys_inv P0 (m, live) F → live ≡ₚ (addr, count) :: live' →
  ∃ m' F', free_linear_pages m addr count = Ok (m', tt) ∧ sys_inv P0 (m', live') F'.
Proof.
  intros [Hi Ha Hl Hd Hn Hp] Hperm; simpl in *. rewrite Hperm in Hl, Hd.
  apply Forall_cons in Hl as [(Hc & Hv & Hadr) Hl]. destruct Hd as [Hda Hd].
  assert (∀ p, owns (addr, count) p → ¬ page_free F p) as Hna
    by (intros p; apply Hn; rewrite Hperm; by left).
  destruct (free_linear_pages_pages m F addr count) as (m' & F' & Heq & Hi' & Hcap & Hpost);
    [done|done|done|by eapply buddies_mapped_aligned|done|].
  exists m', F'. split; [done|]. split; simpl; rewrite ?Hcap; try done.
  - intros a p Hal Hap [Hpf|Hpa]%Hpost; [|by apply (Hda a p)].
    apply (Hn a p); [rewrite Hperm; by right|done..].
  - intros p. rewrite Hp, Hpost. setoid_rewrite Hperm. rewrite owned_cons. tauto.
Qed.

Lemma sys_inv_perm P0 m l l' F : l ≡ₚ l' → sys_inv P0 (m, l) F → sys_inv P0 (m, l') F.
Proof.
  intros Hp [Hi Ha Hl Hd Hn Hpg]. split; cbn [fst snd] in *; try done.
  - by rewrite <- Hp.
  - by rewrite <- Hp.
  - intros a p. rewrite <- Hp. apply Hn.
  - intros p. rewrite Hpg. by setoid_rewrite Hp.
Qed.

(** ** Batches

    A batch is a loop of single-page operations under one guard, so it keeps
    the invariant because each round does. *)

(** The manager as a method finds it once it has the guard. *)
Definition unlocked (st : buddy S) : PhysMemoryManager S := mkPhysMemoryManager SpinLock_new st.

Lemma unlocked_eq m F : pm_inv m F → m = unlocked (pm_buddy m).
Proof. intros [Hl _]. destruct m as [[l] st]. cbn in Hl. by subst l. Qed.

Lemma alloc_page_unlocked st :
  alloc_page (unlocked st) = ('(st, i) ← alloc_block st 0; mret (unlocked st, index_to_addr i)).
Proof.
  unfold alloc_page, locked_op, with_guard. cbn [lock_spin unlocked pm_lock pm_buddy]. cbn.
  by destruct (alloc_block st 0) as [[st' i]|].
Qed.

Lemma sys_inv_alloc_loop P0 (l : list nat) st out live F :
  sys_inv P0 (unlocked st, live) F →
  match foldM alloc_one (st, out) l with
  | Ok (st', out') => ∃ new F', out' = out ++ new ∧ length new = length l ∧
      sys_inv P0 (unlocked st', single_pages new ++ live) F'
  | Err e => e = PanicMsg "Out of physical memory"
  end.
Proof.
  revert st out live F. induction l as [|x l IH]; intros st out live F HI; cbn [foldM].
  { exists [], F. by rewrite app_nil_r. }
  pose proof (alloc_linear_pages_pages _ F 1 (si_inv _ _ _ HI) ltac:(lia)) as Hal. cbn [fst] in Hal.
  rewrite <- alloc_page_linear, alloc_page_unlocked in Hal.
  change (alloc_one (st, out) x) with ('(st', i) ← alloc_block st 0; mret (st', out ++ [index_to_addr i])).
  destruct (alloc_block st 0) as [[st1 i]|e] eqn:E.
  - change (mret (st1, out ++ [index_to_addr i])) with (Ok (st1, out ++ [index_to_addr i])). simpl_res.
    destruct (sys_inv_alloc P0 (unlocked st) live F 1 (unlocked st1) (index_to_addr i)) as [F1 HI1];
      [done|lia|by rewrite <- alloc_page_linear, alloc_page_unlocked, E|].
    specialize (IH st1 (out ++ [index_to_addr i]) _ F1 HI1).
    destruct (foldM alloc_one _ l) as [[st' out']|e]; [|done].
    destruct IH as (new & F' & -> & Hlen & HI'). exists (index_to_addr i :: new), F'.
    rewrite <- app_assoc. split_and!; [done|cbn; congruence|].
    eapply sys_inv_perm; [|exact HI']. unfold single_pages. rewrite fmap_cons. by rewrite <- Permutation_middle.
  - destruct Hal as [(? & ? & ? & Hal & _)|[Hal _]]; cbn in Hal; simplify_eq; done.
Qed.

Lemma sys_inv_alloc_pages P0 m live F len :
  sys_inv P0 (m, live) F →
  match alloc_pages m len with
  | Ok (m', addrs) => ∃ F', length addrs = len ∧ sys_inv P0 (m', single_pages addrs ++ live) F'
  | Err e => e = PanicMsg "Out of physical memory"
  end.
Proof.
  intros HI. rewrite (unlocked_eq m F) in * by apply HI.
  pose proof (sys_inv_alloc_loop P0 (seq 0 len) _ [] live F HI) as Hl.
  unfold alloc_pages, locked_op, with_guard. cbn [lock_spin try_lock pm_lock unlocked pm_buddy] in *. cbn.
  destruct (foldM alloc_one _ (seq 0 len)) as [[st' out']|e]; [|done]. cbn.
  destruct Hl as (new & F' & -> & Hlen & HI'). exists F'. by rewrite length_seq in Hlen.
Qed.

Lemma sys_inv_free_loop P0 addrs st live' F :
  sys_inv P0 (unlocked st, single_pages addrs ++ live') F →
  ∃ st' F', foldM (λ st addr, free_block st (Z.shiftr addr 12) 0) st addrs = Ok st' ∧
    sys_inv P0 (unlocked st', live') F'.
Proof.
  revert st F. induction addrs as [|addr addrs IH]; intros st F HI; [by exists st, F|].
  destruct (sys_inv_free P0 _ _ (single_pages addrs ++ live') F addr 1 HI) as (m1 & F1 & E & HI1); [done|].
  rewrite <- free_page_linear in E. unfold free_page, locked_op, with_guard, no_result in E. cbn in E.
  cbn [foldM]. destruct (free_block st (Z.shiftr addr 12) 0) as [st1|]; [|done]. injection E as <-.
  simpl_res. exact (IH st1 F1 HI1).
Qed.

Lemma sys_inv_free_pages P0 m live live' F addrs :
  sys_inv P0 (m, live) F → live ≡ₚ single_pages addrs ++ live' →
  ∃ m' F', free_pages m addrs = Ok (m', tt) ∧ sys_inv P0 (m', live') F'.
Proof.
  intros HI Hp. apply (sys_inv_perm _ _ _ _ _ Hp) in HI. rewrite (unlocked_eq m F) in * by apply HI.
  destruct (sys_inv_free_loop P0 addrs _ live' F HI) as (st' & F' & E & HI').
  exists (unlocked st'), F'. split; [|done]. unfold free_pages, no_result. apply locked_op_ok; [done|].
  cbn [pm_buddy unlocked]. by rewrite E.
Qed.

Lemma sys_inv_step P0 x y F : sys_inv P0 x F → sys_step x y → ∃ F', sys_inv P0 y F'.
Proof.
  intros Hinv Hst. destruct Hst as [m live count m' addr Hu Heq|m live m' addr Heq|m live len m' addrs Heq
    |m live live' addr count m' Hperm Heq|m live live' addr m' Hperm Heq|m live live' addrs m' Hperm Heq|m live h Hh].
  - destruct (decide (0 < count ≤ 256)) as [Hc|Hc]; [by eapply sys_inv_alloc|].
    pose proof (alloc_linear_pages_bad m F count (si_inv _ _ _ Hinv) Hu Hc). congruence.
  - eapply sys_inv_alloc; [done|lia|by rewrite <- alloc_page_linear].
  - pose proof (sys_inv_alloc_pages P0 m live F len Hinv) as Hal. rewrite Heq in Hal.
    destruct Hal as (F' & _ & HI). eauto.
  - destruct (sys_inv_free P0 m live live' F addr count) as (m1 & F' & Heq' & HI); [done..|].
    rewrite Heq in Heq'. injection Heq' as <-. eauto.
  - destruct (sys_inv_free P0 m live live' F addr 1) as (m1 & F' & Heq' & HI); [done..|].
    rewrite free_page_linear in Heq. rewrite Heq in Heq'. injection Heq' as <-. eauto.
  - destruct (sys_inv_free_pages P0 m live live' F addrs) as (m1 & F' & Heq' & HI); [done..|].
    rewrite Heq in Heq'. injection Heq' as <-. eauto.
  - exists F. destruct Hinv as [Hi Ha Hl Hd Hn Hp]. split; try done; simpl in *.
    apply inv_set_heap; [done|]. intros i Hf. apply Hh. intros j a Hal Hao Heq.
    assert (0 ≤ i < mcap m ∧ 0 ≤ j < mcap m) as [Hri Hrj].
    { split.
      - destruct Hf as (i0 & k & HF & Hb). destruct Hi as [_ [_ Hwf]].
        destruct (wf_valid _ _ Hwf i0 k HF) as (_ & ? & _ & ?). unfold block_page in Hb. lia.
      - rewrite Forall_forall in Hl. destruct (Hl a Hal) as (_ & (_ & ? & _ & ?) & _).
        unfold owns, block_page in Hao. lia. }
    destruct Hi as [_ [Hrep _]].
    apply get_entry_inj in Heq as ->; [|apply Hrep|done..]. by apply (Hn a j).
Qed.

Definition sys_reachable (m0 : PhysMemoryManager S) : PhysMemoryManager S * list allocation → Prop :=
  rtc sys_step (m0, []).

Lemma sys_inv_reachable m0 F0 x :
  pm_inv m0 F0 → (256 | mcap m0) → sys_reachable m0 x → ∃ F, sys_inv (page_free F0) x F.
Proof.
  intros Hi Ha. apply rtc_ind_r with (P := λ x, ∃ F, sys_inv (page_free F0) x F).
  - exists F0. split; simpl; try done; [by intros a p ?%not_elem_of_nil|]. intros p. split; [by left|].
    by intros [|(a & ?%not_elem_of_nil & _)].
  - intros y z _ Hst [F HF]. by eapply sys_inv_step.
Qed.
End system.
