(* ===== verification/PhysInit.v ===== *)
(** * Initialisation of the memory manager ([add_region] and [new]).

    [add_region] decomposes any page range into blocks and frees them; [new]
    sizes the bitmap from the memory map, lets the storage carve out its own
    memory and adds every segment that is still free. *)
From stdpp Require Import base gmap numbers strings list.
From S2P Require Import Prelude.
From S2P Require Import KernelHeader.
From S2P Require Import VirtManager.
From S2P Require Import Mutex.
From S2P Require Import FreeList.
From S2P Require Import PhysManager.
From S2P Require Import PhysStorage.
From S2P Require Import BuddySpec.
From S2P Require Import PhysInvariant.
From S2P Require Import PhysCorrect.
From S2P Require Import PhysTheorems.
From S2P Require Import PhysSystem.

#[local] Open Scope Z_scope.

(** ** Regions *)

Definition region_page (index count p : Z) : Prop := index ≤ p < index + count.

(** The order [add_region] chooses divides the index and fits the count. *)
Lemma region_order index count :
  0 ≤ index → 0 < count → uint 64 count →
  let o := Z.min (Z.min (trailing_zeros64 index) (Z.log2 count)) MAX_ORDER in
  0 ≤ o ≤ MAX_ORDER ∧ (2 ^ o | index) ∧ 2 ^ o ≤ count.
Proof.
  intros Hi Hc Hu o. destruct (trailing_zeros64_spec index Hi) as [Ht Hd].
  pose proof (uint64_log2 count Hu Hc) as Hl. destruct (Z.log2_spec count Hc) as [Hlo _].
  assert (0 ≤ o ≤ MAX_ORDER ∧ o ≤ trailing_zeros64 index ∧ o ≤ Z.log2 count) as (Ho & Ho1 & Ho2)
    by (unfold o, MAX_ORDER in *; lia).
  split_and!; [lia|lia|apply (divide_pow2_le _ (trailing_zeros64 index)); [lia|done]|].
  assert (2 ^ o ≤ 2 ^ Z.log2 count) by (apply Z.pow_le_mono_r; lia). lia.
Qed.

Section init.
Context {S : Type} `{StorageLaws S}.
Implicit Types (st : buddy S) (F : blocks).

Abbreviation cap st := (capacity (storage st)).

(** The loop of [add_region] terminates within its fuel and frees exactly
    the region. *)
Lemma add_region_go_ok n st F index count :
  inv st F → 0 ≤ index → 0 ≤ count → (Z.to_nat count ≤ n)%nat → index + count ≤ cap st →
  (∀ p, region_page index count p → buddies_mapped (cap st) p ∧ ¬ page_free F p) →
  ∃ st' F', add_region_go n st index count = Ok st' ∧ inv st' F' ∧ cap st' = cap st ∧
    (∀ p, page_free F' p ↔ page_free F p ∨ region_page index count p).
Proof.
  revert st F index count. induction n as [|n IH]; intros st F index count Hinv Hi Hc Hn Hcap Hr;
    simpl; destruct (Z.ltb_spec 0 count) as [Hpos|Hz]; try lia.
  1, 3: exists st, F; unfold region_page; split_and!; [done..|]; intros p; split; [auto|]; intros []; (done || lia).
  pose proof (capacity_bound _ (rep_storage _ _ (proj1 Hinv))) as Hcb.
  assert (uint 64 count) as Hu by (unfold uint; lia).
  pose proof (uint64_log2 count Hu Hpos) as Hl. unfold leading_zeros64.
  destruct (Z.eqb_spec count 0) as [|_]; [lia|].
  rewrite sub_w_ok by (unfold uint; lia). simpl_res.
  replace (63 - (63 - Z.log2 count)) with (Z.log2 count) by lia.
  destruct (region_order index count Hi Hpos Hu) as (Ho & Hd & Hle).
  set (o := Z.min _ MAX_ORDER) in *. clearbody o. pose proof (pow2_pos o ltac:(lia)) as Hp2.
  assert (∀ p, block_page index o p → region_page index count p) as Hsub
    by (unfold block_page, region_page; lia).
  assert (valid_block (cap st) index o) as Hv by (split_and!; (done || lia)).
  assert (∀ p, block_page index o p → ¬ page_free F p) as Hnf by (intros p Hp; by apply Hr, Hsub).
  destruct (free_block_go_ok (Z.to_nat (MAX_ORDER - o)) st F index o) as (st1 & Hfb & Hrep1 & Hext1);
    [done|done|apply Hr, Hsub, block_page_self; lia|done|done|].
  destruct (free_spec_ok (cap st) (Z.to_nat (MAX_ORDER - o)) F index o) as [Hwf1 Hp1]; [apply Hinv|done..|].
  pose proof (ext_capacity _ _ _ Hext1) as Hcap1.
  unfold free_block. rewrite Hfb. simpl_res. unfold MAX_ORDER in *.
  rewrite shl1_ok by lia. simpl_res. rewrite add_w_ok, sub_w_ok by (unfold uint in *; lia). simpl_res.
  destruct (IH st1 (free_spec (Z.to_nat (8 - o)) F index o) (index + 2 ^ o) (count - 2 ^ o))
    as (st' & F' & Hgo & Hinv' & Hcap' & Hp'); [split; [done|by rewrite Hcap1]|lia|lia|lia|lia| |].
  { intros p Hp. rewrite Hcap1, Hp1. destruct (Hr p) as [Hm Hnp]; [unfold region_page in *; lia|].
    split; [done|]. intros [?|?]; [done|]. unfold region_page, block_page in *. lia. }
  exists st', F'. split_and!; [done|done|congruence|]. intros p. rewrite Hp', Hp1.
  assert (region_page index count p ↔ block_page index o p ∨
    region_page (index + 2 ^ o) (count - 2 ^ o) p) by (unfold block_page, region_page; lia).
  tauto.
Qed.

(** ** The state before any region is added *)

Definition fresh_buddy (s : S) (h : heap) : buddy S :=
  mkBuddy (replicate (Z.to_nat (MAX_ORDER + 1)) null_mut) s h.

(** All bits clear and all lists empty represent no free block at all. *)
Lemma fresh_inv s h :
  storage_ok s → Forall (λ w, w = 0) (get_buddy_map s) → inv (fresh_buddy s h) ∅.
Proof.
  intros Hs Hz. split; [|apply wf_empty]. split; simpl; [done|split|split; [done|]].
  - eapply Forall_impl; [exact Hz|]. intros w ->. done.
  - intros i Hi. rewrite lookup_empty, bool_decide_false by (by intros []).
    unfold bit. destruct (get_buddy_map s !! Z.to_nat (i / 64)) as [w|] eqn:E; [|done].
    rewrite (proj1 (Forall_lookup _ _) Hz _ _ E). apply Z.bits_0.
  - intros k Hk. exists null_mut, []. split.
    + apply (lookup_replicate_2 9). unfold MAX_ORDER in *. lia.
    + split; [split; [done|constructor]|]. intros i. rewrite lookup_empty.
      split; [by intros ?%not_elem_of_nil|done].
Qed.
End init.

(** ** Memory maps *)

Definition in_segs (l : list MemorySegment) (p : Z) : Prop := ∃ s, s ∈ l ∧ seg_page s p.

Definition free_segs (l : list MemorySegment) : list MemorySegment :=
  filter (λ seg, seg_free seg = true) l.

Fixpoint segs_disjoint (l : list MemorySegment) : Prop :=
  match l with
  | [] => True
  | s :: l => (∀ p, seg_page s p → ¬ in_segs l p) ∧ segs_disjoint l
  end.

Lemma in_segs_cons s l p : in_segs (s :: l) p ↔ seg_page s p ∨ in_segs l p.
Proof.
  split.
  - intros (t & [->|Ht]%elem_of_cons & Hp); [by left|right; by exists t].
  - intros [Hp|(t & Ht & Hp)]; [exists s|exists t]; (split; [|done]); rewrite elem_of_cons; auto.
Qed.

Lemma seg_first_div s : seg_first s = start s / 4096.
Proof. unfold seg_first. by rewrite Z.shiftr_div_pow2. Qed.

(** The pages of a segment lie below the end of the segment. *)
Lemma seg_page_bound s p : seg_ok s → seg_page s p →
  0 ≤ p ∧ p * 4096 + 4096 ≤ start s + page_count s * 4096.
Proof.
  unfold seg_page. rewrite seg_first_div. intros ([q Hq] & H0 & Hc & He) Hp.
  rewrite Hq, Z.div_mul in Hp by done. lia.
Qed.

Section regions.
Context {S : Type} `{StorageLaws S}.

(** The loop of [new]: every free segment becomes free pages. *)
Lemma add_segs_ok (l : list MemorySegment) (m : PhysMemoryManager S) F :
  pm_inv m F → Forall seg_ok l → segs_disjoint l →
  (∀ p, in_segs l p → ¬ page_free F p ∧ p < capacity (storage (pm_buddy m)) ∧
                      buddies_mapped (capacity (storage (pm_buddy m))) p) →
  ∃ m' F', foldM (λ m seg, '(m, _) ← add_region m (Z.shiftr (start seg) 12) (page_count seg);
                   mret m) m l = Ok m' ∧ pm_inv m' F' ∧
    capacity (storage (pm_buddy m')) = capacity (storage (pm_buddy m)) ∧
    ∀ p, page_free F' p ↔ page_free F p ∨ in_segs l p.
Proof.
  revert m F. induction l as [|s l IH]; intros m F [Hl Hinv] Hok Hd Hp; simpl.
  - exists m, F. split_and!; try done. intros p. split; [auto|]. intros [|(t & ?%not_elem_of_nil & _)]; done.
  - apply Forall_cons in Hok as [Hs Hok]. destruct Hd as [Hd1 Hd].
    pose proof Hs as (Ha & Hs0 & Hc & He).
    assert (∀ p, region_page (Z.shiftr (start s) 12) (page_count s) p ↔ seg_page s p) as Hreg by done.
    assert (seg_first s + page_count s ≤ capacity (storage (pm_buddy m)) ∨ page_count s = 0) as Hcap.
    { destruct (Z.eq_dec (page_count s) 0) as [|Hne]; [by right|left].
      destruct (Hp (seg_first s + page_count s - 1)) as (_ & Hlt & _); [|lia].
      apply in_segs_cons. left. unfold seg_page. lia. }
    assert (∃ st1 F1, add_region_go (Z.to_nat (page_count s)) (pm_buddy m) (seg_first s) (page_count s)
        = Ok st1 ∧ inv st1 F1 ∧ capacity (storage st1) = capacity (storage (pm_buddy m)) ∧
        ∀ p, page_free F1 p ↔ page_free F p ∨ seg_page s p) as (st1 & F1 & Hgo & Hinv1 & Hcap1 & Hp1).
    { destruct Hcap as [Hcap|Hz].
      - apply add_region_go_ok; [done| |done|done|done|].
        + rewrite seg_first_div. apply Z.div_pos; lia.
        + intros p Hps. destruct (Hp p) as (? & ? & ?); [apply in_segs_cons; by left|done].
      - rewrite Hz. exists (pm_buddy m), F. split_and!; try done. unfold seg_page. rewrite Hz.
        intros p. split; [auto|]. intros []; (done || lia). }
    assert (add_region m (Z.shiftr (start s) 12) (page_count s) =
      Ok (mkPhysMemoryManager SpinLock_new st1, tt)) as ->.
    { apply locked_op_ok; [done|]. unfold no_result. fold (seg_first s). by rewrite Hgo. }
    simpl_res. destruct (IH (mkPhysMemoryManager SpinLock_new st1) F1) as (m' & F' & -> & Hinv' & Hcap' & Hp').
    { done. } { done. } { done. }
    { intros p Hps. simpl. rewrite Hcap1, Hp1. destruct (Hp p) as (? & ? & ?); [apply in_segs_cons; by right|].
      split_and!; [|done|done]. intros [?|Hsp]; [done|]. by apply (Hd1 p). }
    exists m', F'. split_and!; [done|done|by rewrite Hcap'|]. intros p. rewrite Hp', Hp1, in_segs_cons. tauto.
Qed.
End regions.

(** ** Sizing and placing the bitmap *)

Lemma max_address_ok (l : list MemorySegment) :
  Forall seg_ok l → l ≠ [] →
  ∃ a, max_address l = Ok a ∧ uint 64 a ∧
    ∀ s, s ∈ l → start s + page_count s * 4096 ≤ a.
Proof.
  intros Hok Hne. unfold max_address.
  destruct (foldM_inv (λ acc s, b ← mul_w 64 (page_count s) 4096; e ← add_w 64 (start s) b; mret (acc ++ [e]))
    (λ d acc, acc = (λ s, start s + page_count s * 4096) <$> d) l [] []) as (ends & -> & ->); [done| |].
  { intros d s r acc Heq ->. assert (seg_ok s) as (_ & H0 & Hc & He).
    { rewrite Forall_forall in Hok. apply Hok. simpl in Heq. rewrite Heq. set_solver +. }
    eexists. rewrite mul_w_ok by (unfold uint; lia). simpl_res.
    rewrite add_w_ok by (unfold uint; lia). split; [done|]. by rewrite fmap_app. }
  destruct l as [|s0 l]; [done|]. simpl_res. simpl. clear Hne.
  apply Forall_cons in Hok as [(_ & H0 & Hc & He) Hok].
  assert (∀ l a, Forall seg_ok l → uint 64 a →
    let m := fold_left Z.max ((λ s, start s + page_count s * 4096) <$> l) a in
    uint 64 m ∧ a ≤ m ∧ ∀ s, s ∈ l → start s + page_count s * 4096 ≤ m) as Hmax.
  { clear. induction l as [|s l IH]; intros a Hok Ha; simpl;
      [split; [done|]; split; [lia|]; by intros s ?%not_elem_of_nil|].
    apply Forall_cons in Hok as [(_ & H0 & Hc & He) Hok].
    destruct (IH (Z.max a (start s + page_count s * 4096)) Hok) as (Hu & Hle & Hl); [unfold uint in *; lia|].
    split; [done|]. split; [etrans; [|exact Hle]; lia|].
    intros t [->|Ht]%elem_of_cons; [etrans; [|exact Hle]; lia|auto]. }
  destruct (Hmax l (start s0 + page_count s0 * 4096)) as (Hu & Hle & Hl); [done|unfold uint; lia|].
  eexists. split; [done|]. split; [done|]. intros s [->|Hs]%elem_of_cons; auto.
Qed.

Lemma free_segs_cons s l :
  free_segs (s :: l) = if seg_free s then s :: free_segs l else free_segs l.
Proof. unfold free_segs. rewrite filter_cons. by destruct (seg_free s). Qed.

(** Carving takes the pages from one free segment and changes nothing else. *)
Lemma carve_ok n (l : list MemorySegment) :
  0 ≤ n → Forall seg_ok l → segs_disjoint (free_segs l) →
  (∃ s, s ∈ l ∧ seg_free s = true ∧ n ≤ page_count s) →
  ∃ a l', carve n l = Ok (a, l') ∧ Forall seg_ok l' ∧ segs_disjoint (free_segs l') ∧
    (4096 | a) ∧ (∀ p, region_page (a / 4096) n p → in_segs (free_segs l) p) ∧
    ∀ p, in_segs (free_segs l') p ↔ in_segs (free_segs l) p ∧ ¬ region_page (a / 4096) n p.
Proof.
  intros Hn. induction l as [|s l IH]; intros Hok Hd (t & Ht & Hft & Hnt);
    [by apply not_elem_of_nil in Ht|].
  apply Forall_cons in Hok as [Hs Hok]. rewrite free_segs_cons in Hd. simpl.
  destruct (seg_free s && (n <=? page_count s)) eqn:E.
  - apply andb_true_iff in E as [Hf Hle%Z.leb_le]. rewrite Hf in Hd. destruct Hd as [Hd1 Hd].
    pose proof Hs as ([q Hq] & H0 & Hc & He).
    rewrite mul_w_ok by (unfold uint; lia). simpl_res. rewrite add_w_ok by (unfold uint; lia). simpl_res.
    rewrite sub_w_ok by (unfold uint; lia). simpl_res.
    set (s' := mkMemorySegment _ _ _). exists (start s), (s' :: l).
    assert (seg_free s' = true) as Hf' by done.
    assert (∀ p, seg_page s' p ↔ seg_page s p ∧ ¬ region_page (start s / 4096) n p) as Hs'.
    { intros p. unfold seg_page, region_page. rewrite !seg_first_div. simpl.
      rewrite Hq, <- Z.mul_add_distr_r, !Z.div_mul by done. lia. }
    rewrite !free_segs_cons, Hf, Hf'.
    assert (∀ p, region_page (start s / 4096) n p → seg_page s p) as Hr.
    { intros p. unfold seg_page, region_page. rewrite seg_first_div. lia. }
    split_and!; [done| | |by exists q| |].
    + constructor; [|done]. split_and!; simpl; [exists (q + n); lia|lia|lia|lia].
    + split; [|done]. intros p [Hp _]%Hs'. by apply Hd1.
    + intros p Hp. apply in_segs_cons. auto.
    + intros p. rewrite !in_segs_cons, Hs'. specialize (Hd1 p). specialize (Hr p). tauto.
  - destruct IH as (a & l' & -> & Hok' & Hd' & Ha & Hin & Hiff); [done| | |].
    { destruct (seg_free s); [apply Hd|done]. }
    { exists t. split; [|done]. apply elem_of_cons in Ht as [->|]; [|done].
      rewrite Hft in E. simpl in E. apply Z.leb_gt in E. lia. }
    simpl_res. exists a, (s :: l'). rewrite !free_segs_cons.
    split_and!; [done|by constructor| |done| |]; destruct (seg_free s) eqn:Hf; try done.
    + destruct Hd as [Hd1 Hd]. split; [|done]. intros p Hp [Hp' _]%Hiff. by apply (Hd1 p).
    + intros p Hp. apply in_segs_cons. auto.
    + destruct Hd as [Hd1 Hd]. intros p. rewrite !in_segs_cons, Hiff.
      specialize (Hd1 p). specialize (Hin p). tauto.
Qed.

(** ** [PhysMemoryManager::new] *)

Lemma new_ok {S} `{StorageLaws S} h mm top (s : S) mm' :
  max_address mm = Ok top → storage_new (Z.shiftr top 12) mm = Ok (s, mm') →
  storage_ok s → Forall (λ w, w = 0) (get_buddy_map s) →
  Forall seg_ok mm' → segs_disjoint (free_segs mm') →
  (∀ p, in_segs (free_segs mm') p → p < capacity s ∧ buddies_mapped (capacity s) p) →
  ∃ m F, new h mm = Ok (m, mm') ∧ pm_inv m F ∧ capacity (storage (pm_buddy m)) = capacity s ∧
    ∀ p, page_free F p ↔ in_segs (free_segs mm') p.
Proof.
  intros Hmax Hnew Hs Hz Hok Hd Hp. unfold new. rewrite Hmax. simpl_res. rewrite Hnew. simpl_res.
  assert (∀ p, ¬ page_free ∅ p) as Hempty by (intros p (i & k & HF & _); by rewrite lookup_empty in HF).
  assert (Forall seg_ok (free_segs mm')) as Hok' 
    by (apply Forall_forall; intros t [_ Ht]%list_elem_of_filter; by eapply Forall_forall).
  destruct (add_segs_ok (free_segs mm') (mkPhysMemoryManager SpinLock_new (fresh_buddy s h)) ∅)
    as (m & F & Hfold & Hinv & Hcap & Hpages); [split; [done|by apply fresh_inv]|done|done| |].
  { intros p Hps. destruct (Hp p Hps). by split_and!. }
  unfold free_segs, fresh_buddy in Hfold. rewrite Hfold. simpl_res.
  exists m, F. split_and!; [done|done|done|]. intros p. rewrite Hpages. split; [|auto].
  intros [?|?]; [by destruct (Hempty p)|done].
Qed.

(** The bitmap [InlineStorage::new] makes for memory ending at [top]. *)
Definition inline_words (top : Z) : Z := (Z.shiftr top 12 + 63) / 64.
Definition inline_pages (top : Z) : Z := (inline_words top * 8 + 4095) / 4096.

Lemma inline_words_range top : uint 64 top →
  0 ≤ inline_words top ≤ 2 ^ 47 ∧ top / 4096 ≤ 64 * inline_words top.
Proof.
  intros Hu. unfold inline_words, uint in *. rewrite Z.shiftr_div_pow2 by lia. change (2 ^ 12) with 4096.
  assert (0 ≤ top / 4096) by (apply Z.div_pos; lia).
  assert (top / 4096 < 2 ^ 52) by (apply Z.div_lt_upper_bound; lia).
  pose proof (Z.div_mod (top / 4096 + 63) 64 ltac:(lia)).
  pose proof (Z.mod_pos_bound (top / 4096 + 63) 64 ltac:(lia)).
  assert ((top / 4096 + 63) / 64 ≤ 2 ^ 47) by (apply Z.div_le_upper_bound; lia).
  assert (0 ≤ (top / 4096 + 63) / 64) by (apply Z.div_pos; lia). lia.
Qed.

Lemma inline_new_ok base mm top a mm' :
  uint 64 top → carve (inline_pages top) mm = Ok (a, mm') →
  InlineStorage_new base (Z.shiftr top 12) mm =
    Ok (mkInlineStorage (phys_to_virt base a) (replicate (Z.to_nat (inline_words top)) 0), mm').
Proof.
  intros Hu Hc. destruct (inline_words_range top Hu) as [Hw _]. unfold InlineStorage_new.
  assert (0 ≤ Z.shiftr top 12 < 2 ^ 52).
  { unfold uint in Hu. rewrite Z.shiftr_div_pow2 by lia.
    split; [apply Z.div_pos|apply Z.div_lt_upper_bound]; lia. }
  rewrite add_w_ok by (unfold uint; lia). simpl_res. fold (inline_words top).
  rewrite mul_w_ok by (unfold uint; lia). simpl_res.
  rewrite add_w_ok by (unfold uint; lia). simpl_res. fold (inline_pages top). by rewrite Hc.
Qed.

(** What [new] needs from the machine: a memory map the bootloader made, a
    base whose mirror can represent every frame the bitmap covers, room for
    the bitmap, and a bitmap that covers whole blocks of the largest order. *)
Record boot_ok (base top : Z) (mm : list MemorySegment) : Prop := mkBootOk {
  bo_segs : Forall seg_ok mm;
  bo_disjoint : segs_disjoint (free_segs mm);
  bo_max : max_address mm = Ok top;
  bo_base : uint 64 base ∧ 0 < base;
  bo_mirror : ∀ i, 0 ≤ i < 64 * inline_words top → representable base (i * 4096);
  bo_room : ∃ s, s ∈ mm ∧ seg_free s = true ∧ inline_pages top ≤ page_count s;
  bo_aligned : (4 | inline_words top);
}.

Section inline_new.
Context (base : Z).

#[local] Instance boot_storage : PhysManagerStorage InlineStorage := InlineStorage_storage base.
#[local] Instance boot_laws : StorageLaws InlineStorage := InlineStorage_laws base.

Lemma inline_new_pages h top mm :
  boot_ok base top mm →
  ∃ m F a mm', new h mm = Ok (m, mm') ∧ pm_inv m F ∧
    capacity (storage (pm_buddy m)) = 64 * inline_words top ∧ (256 | capacity (storage (pm_buddy m))) ∧
    Forall seg_ok mm' ∧
    (∀ p, region_page (a / 4096) (inline_pages top) p → in_segs (free_segs mm) p) ∧
    ∀ p, page_free F p ↔ in_segs (free_segs mm) p ∧ ¬ region_page (a / 4096) (inline_pages top) p.
Proof.
  intros [Hok Hd Hmax [Hub Hb0] Hmir Hroom Hal].
  destruct (max_address_ok mm Hok) as (top' & Hmax' & Hu & Hends).
  { intros ->. by destruct Hroom as (s & ?%not_elem_of_nil & _). }
  rewrite Hmax in Hmax'. injection Hmax' as <-.
  destruct (inline_words_range top Hu) as [Hw Hcov].
  assert (0 ≤ inline_pages top) as Hip by (apply Z.div_pos; lia).
  destruct (carve_ok _ mm Hip Hok Hd Hroom) as (a & mm' & Hc & Hok' & Hd' & _ & Hin & Hiff).
  set (s := mkInlineStorage (phys_to_virt base a) (replicate (Z.to_nat (inline_words top)) 0)).
  assert (capacity s = 64 * inline_words top) as Hcap.
  { unfold capacity. simpl. rewrite length_replicate. lia. }
  assert (256 | 64 * inline_words top) as H256 by (destruct Hal as [q ->]; exists q; lia).
  destruct (new_ok h mm top s mm') as (m & F & Hnew & Hinv & Hcm & Hp); [done|by apply inline_new_ok| | |done|done| |].
  - split; [done|]. split; [done|]. intros i Hi. apply Hmir. rewrite <- Hcap. exact Hi.
  - apply Forall_replicate. done.
  - intros p [Hp _]%Hiff. rewrite Hcap. destruct Hp as (t & Ht & Hp).
    assert (t ∈ mm) as Htm by (by apply list_elem_of_filter in Ht as [_ ?]).
    rewrite Forall_forall in Hok. destruct (seg_page_bound t p (Hok t Htm) Hp) as [Hp0 Hp1].
    specialize (Hends t Htm). assert (p < top / 4096) as Hlt.
    { assert (p + 1 ≤ top / 4096); [|lia]. apply Z.div_le_lower_bound; lia. }
    split; [lia|]. apply (buddies_mapped_aligned _ p 0); [done|].
    split_and!; unfold MAX_ORDER; [lia|lia|lia|apply Z.divide_1_l|lia].
  - exists m, F, a, mm'. split; [done|]. split; [done|]. rewrite Hcm, Hcap.
    split_and!; [done|done|done|done|]. intros p. by rewrite Hp, Hiff.
Qed.

(** C6: on a sane memory map, initialisation returns a manager whose free
    pages are exactly the pages of the free segments, less the pages the
    bitmap was placed in (which came from a free segment); the invariant
    holds and every buddy of every block is covered by the bitmap. *)
Theorem inline_new_correct h top mm :
  boot_ok base top mm →
  ∃ m F a mm', new h mm = Ok (m, mm') ∧ pm_inv m F ∧ (256 | capacity (storage (pm_buddy m))) ∧
    (∀ p, region_page (a / 4096) (inline_pages top) p → in_segs (free_segs mm) p) ∧
    ∀ p, page_free F p ↔ in_segs (free_segs mm) p ∧ ¬ region_page (a / 4096) (inline_pages top) p.
Proof.
  intros Hb. destruct (inline_new_pages h top mm Hb) as (m & F & a & mm' & ? & ? & _ & ? & _ & ? & ?).
  by exists m, F, a, mm'.
Qed.
End inline_new.

(** A machine with 1 MiB of free memory and the mirror of a single PML4 entry. *)
Definition demo_base : Z := 18446743523953737728.
Definition demo_map : list MemorySegment := [mkMemorySegment 0 256 Free].

Lemma demo_boot_ok : boot_ok demo_base 1048576 demo_map.
Proof.
  split.
  - repeat constructor; simpl; [by exists 0|lia..].
  - simpl. split; [|done]. by intros p _ (s & ?%not_elem_of_nil & _).
  - done.
  - done.
  - intros i Hi. change (64 * inline_words 1048576) with 256 in Hi.
    apply (representable_low _ _ 39); [lia|by exists 33554431|done|lia].
  - exists (mkMemorySegment 0 256 Free). split_and!; [by left|done|done].
  - by exists 1.
Qed.

Lemma inline_new_correct_witness :
  boot_ok demo_base 1048576 demo_map ∧
  ∃ (m : PhysMemoryManager InlineStorage) F a mm',
    new (H := boot_storage demo_base) ∅ demo_map = Ok (m, mm') ∧
    pm_inv (H := boot_storage demo_base) (H0 := boot_laws demo_base) m F ∧
    (256 | capacity (H := boot_storage demo_base) (storage (pm_buddy m))) ∧
    (∀ p, region_page (a / 4096) (inline_pages 1048576) p → in_segs (free_segs demo_map) p) ∧
    ∀ p, page_free F p ↔
      in_segs (free_segs demo_map) p ∧ ¬ region_page (a / 4096) (inline_pages 1048576) p.
Proof. split; [exact demo_boot_ok|]. apply (inline_new_correct demo_base ∅ 1048576 demo_map demo_boot_ok). Defined.

(** Without the alignment of the bitmap initialisation can panic: here the top
    block of 192 pages of memory has a buddy that the bitmap does not
    cover. *)
Example inline_new_buddy_out_of_bounds :
  new (H := boot_storage demo_base) ∅
    [mkMemorySegment 0 1 Free; mkMemorySegment (128 * 4096) 64 Free] = Err PanicBounds.
Proof. vm_compute. reflexivity. Qed.
