(* ===== verification/PhysSafety.v ===== *)
(** * Safety of the memory manager as its clients see it.

    The closing theorems of the memory manager: the system of clients of
    [PhysSystem], the batch operations, the sizes that cannot be served, the
    bitmaps whose last block cannot be freed, and the concrete states at which the theorems of [PhysTheorems] apply. *)
From stdpp Require Import base gmap numbers strings list.
From S2P Require Import Prelude.
From S2P Require Import KernelHeader.
From S2P Require Import Mutex.
From S2P Require Import FreeList.
From S2P Require Import PhysManager.
From S2P Require Import BuddySpec.
From S2P Require Import PhysInvariant.
From S2P Require Import PhysCorrect.
From S2P Require Import PhysTheorems.
From S2P Require Import PhysSystem.
From S2P Require Import PhysInit.
From S2P Require Import PhysTests.

#[local] Open Scope Z_scope.

(** The bytes a client may use. *)
Definition covers (a : allocation) (x : Z) : Prop := a.1 ≤ x < a.1 + a.2 * 4096.

Lemma covers_owns c a x : live_ok c a → covers a x → owns a (x / 4096).
Proof.
  intros ([Hc _] & _ & Ha) Hx. unfold covers, owns, block_page, alloc_order in *.
  assert (a.2 ≤ 2 ^ Z.log2_up a.2) as Hle.
  { destruct (Z.eq_dec a.2 1) as [->|]; [done|]. apply Z.log2_up_spec. lia. }
  rewrite Ha in Hx. split; [apply Z.div_le_lower_bound; lia|].
  assert (x / 4096 < alloc_index a + a.2); [|lia]. apply Z.div_lt_upper_bound; lia.
Qed.

Section safety.
Context {S : Type} `{StorageLaws S}.
Implicit Types (m : PhysMemoryManager S) (F : blocks).

Abbreviation mcap m := (capacity (storage (pm_buddy m))).

(** C1: from a manager that satisfies the allocator's invariant and whose
    bitmap covers a multiple of 256 pages, whatever clients do (allocate a
    block, a page or a batch of pages, free what they own by any of the three
    methods, write anything to their own memory), in every reachable state no
    byte belongs to two live allocations, every page of the initial free
    memory is either free or in a live allocation, the lock is released, and
    freeing any live allocation, or any batch of live single pages,
    succeeds. *)
Theorem system_safety m0 F0 m live :
  pm_inv m0 F0 → (256 | mcap m0) → sys_reachable m0 (m, live) →
  (∀ a b rest x, live ≡ₚ a :: b :: rest → covers a x → ¬ covers b x) ∧
  (∃ F, pm_inv m F ∧ ∀ p, page_free F0 p ↔ page_free F p ∨ ∃ a, a ∈ live ∧ owns a p) ∧
  (∀ a rest, live ≡ₚ a :: rest → ∃ m', free_linear_pages m a.1 a.2 = Ok (m', tt)) ∧
  (∀ addrs rest, live ≡ₚ single_pages addrs ++ rest → ∃ m', free_pages m addrs = Ok (m', tt)).
Proof.
  intros Hi Ha Hr. destruct (sys_inv_reachable m0 F0 (m, live) Hi Ha Hr) as [F HI].
  split_and!.
  - intros a b rest x Hp Hxa Hxb. destruct HI as [_ _ Hl Hd _ _]; simpl in *.
    rewrite Hp in Hl, Hd. apply Forall_cons in Hl as [Hla [Hlb _]%Forall_cons].
    destruct Hd as [Hd _]. apply (Hd b (x / 4096)); [by left|by eapply covers_owns..].
  - exists F. split; [apply HI|apply HI].
  - intros [addr count] rest Hp.
    destruct (sys_inv_free (page_free F0) m live rest F addr count HI Hp) as (m' & F' & Heq & _). eauto.
  - intros addrs rest Hp.
    destruct (sys_inv_free_pages (page_free F0) m live rest F addrs HI Hp) as (m' & F' & Heq & _). eauto.
Qed.

(** C36: a request for zero pages or for more than one block of the largest
    order is not served: the size computation underflows, or the free-list
    array is indexed out of bounds. *)
Theorem alloc_linear_pages_bad_size m F count :
  pm_inv m F → uint 64 count → count = 0 ∨ 256 < count →
  alloc_linear_pages m count = Err (if count =? 0 then PanicOverflow else PanicBounds).
Proof.
  intros Hi Hu Hc. apply (alloc_linear_pages_bad m F); [done..|]. lia.
Qed.

(** ** A bitmap that does not cover whole blocks of the largest order *)

Lemma pos_trailing_zeros_ge o p : 0 ≤ o → (2 ^ o | Zpos p) → o ≤ pos_trailing_zeros p.
Proof.
  revert o. induction p as [p IH|p IH|]; intros o Ho Hd; cbn [pos_trailing_zeros].
  2:{ destruct (Z.eq_dec o 0) as [->|Hne]; [pose proof (proj1 (pos_trailing_zeros_spec p)); lia|].
      assert (o - 1 ≤ pos_trailing_zeros p); [|lia]. apply IH; [lia|]. destruct Hd as [q Hq]. exists q.
      replace o with (o - 1 + 1) in Hq by lia. rewrite Z.pow_add_r in Hq by lia. lia. }
  all: destruct (Z.eq_dec o 0) as [->|Hne]; [done|exfalso]; apply (divide_pow2_le 1 o) in Hd; [|lia];
    destruct Hd as [q Hq]; lia.
Qed.

Lemma trailing_zeros64_ge o x : 0 ≤ o ≤ 64 → 0 ≤ x → (2 ^ o | x) → o ≤ trailing_zeros64 x.
Proof. intros Ho Hx Hd. destruct x as [|p|p]; cbn; [lia|apply pos_trailing_zeros_ge; [lia|done]|lia]. Qed.

(** Giving the manager one aligned block of an order below the largest whose
    buddy the bitmap does not cover: every way to do it panics. *)
Lemma beyond_bitmap m i k :
  locked (pm_lock m) = false → 0 ≤ k < MAX_ORDER → 0 ≤ i → (2 ^ k | i) → mcap m ≤ buddy_of i k →
  free_linear_pages m (i * 4096) (2 ^ k) = Err PanicBounds ∧ add_region m i (2 ^ k) = Err PanicBounds.
Proof.
  intros Hl Hk Hi Hd Hb. unfold MAX_ORDER in Hk. pose proof (pow2_pos k ltac:(lia)) as Hp.
  assert (2 ^ k < 2 ^ 64) by (apply Z.pow_lt_mono_r; lia).
  pose proof (free_block_out_of_bitmap (pm_buddy m) i k Hk Hb) as Hf. split.
  - apply locked_op_err; [done|]. rewrite get_size_order_ok by (unfold uint; lia). simpl_res.
    rewrite Z.log2_up_pow2, addr_to_index, Hf by lia. done.
  - apply locked_op_err; [done|]. destruct (Z.to_nat (2 ^ k)) as [|n] eqn:E; [lia|]. cbn [add_region_go].
    destruct (Z.ltb_spec 0 (2 ^ k)); [|lia]. unfold leading_zeros64.
    destruct (Z.eqb_spec (2 ^ k) 0) as [|_]; [lia|]. rewrite Z.log2_pow2 by lia.
    rewrite sub_w_ok by (unfold uint; lia). simpl_res. pose proof (trailing_zeros64_ge k i ltac:(lia) Hi Hd).
    replace (Z.min _ MAX_ORDER) with k by (unfold MAX_ORDER; lia). by rewrite Hf.
Qed.

(** C35: the bitmap covers whole words of 64 pages, but the allocator needs it
    to cover whole blocks of 256.  For every manager whose lock is free and
    whose bitmap covers some number of pages that is not a multiple of 256,
    the last 64 or 128 pages form an aligned block inside the bitmap that can
    neither be added at initialisation nor freed: the bitmap is indexed out
    of bounds. *)
Theorem unaligned_bitmap_panics m :
  locked (pm_lock m) = false → 0 < mcap m → ¬ (256 | mcap m) →
  ∃ k, (k = 6 ∨ k = 7) ∧ valid_block (mcap m) (mcap m - 2 ^ k) k ∧
    free_linear_pages m ((mcap m - 2 ^ k) * 4096) (2 ^ k) = Err PanicBounds ∧
    add_region m (mcap m - 2 ^ k) (2 ^ k) = Err PanicBounds.
Proof.
  intros Hl Hc Hn.
  assert (∃ k, (k = 6 ∨ k = 7) ∧ (2 ^ (k + 1) | mcap m - 2 ^ k) ∧ 2 ^ k ≤ mcap m) as (k & Hk & Hd & Hle).
  { unfold capacity in *. set (w := Z.of_nat _) in *. pose proof (Z.div_mod w 4 ltac:(lia)) as Hw.
    pose proof (Z.mod_pos_bound w 4 ltac:(lia)) as Hr. pose proof (Z.div_pos w 4 ltac:(lia) ltac:(lia)).
    set (q := w / 4) in *. set (r := w mod 4) in *. clearbody q r.
    assert (r = 0 ∨ r = 1 ∨ r = 2 ∨ r = 3) as [Hz|[Hz|[Hz|Hz]]] by lia.
    - destruct Hn. exists q. lia.
    - exists 6. split; [by left|]. split; [exists (2 * q); lia|lia].
    - exists 7. split; [by right|]. split; [exists q; lia|lia].
    - exists 6. split; [by left|]. split; [exists (2 * q + 1); lia|lia]. }
  assert (0 ≤ k < MAX_ORDER) as Hk8 by (unfold MAX_ORDER; lia).
  assert (2 ^ k | mcap m - 2 ^ k) as Hd' by (apply (divide_pow2_le k (k + 1)); [lia|done]).
  exists k. split; [done|]. split; [split_and!; (done || lia)|].
  apply beyond_bitmap; [done|done|lia|done|]. rewrite buddy_lower by (done || lia). lia.
Qed.

(** ** Batches of single pages *)

Lemma block_page_0 i p : block_page i 0 p ↔ p = i.
Proof. unfold block_page. lia. Qed.

Lemma alloc_loop_ok (l : list nat) (st : buddy S) F out :
  inv st F →
  match foldM alloc_one (st, out) l with
  | Ok (st', out') => ∃ F' ps, inv st' F' ∧ capacity (storage st') = capacity (storage st) ∧
      out' = out ++ ((λ p, p * 4096) <$> ps) ∧ length ps = length l ∧ NoDup ps ∧
      (∀ p, p ∈ ps → page_free F p) ∧ (∀ p, page_free F' p ↔ page_free F p ∧ p ∉ ps)
  | Err e => e = PanicMsg "Out of physical memory" ∧
      ∃ ps : list Z, (length ps < length l)%nat ∧ ∀ p, page_free F p → p ∈ ps
  end.
Proof.
  revert st F out. induction l as [|x l IH]; intros st F out Hinv; simpl.
  - exists F, []. split_and!; [done|done|by rewrite app_nil_r|done|constructor|by intros ? ?%not_elem_of_nil|].
    intros p. split; [intros; split; [done|apply not_elem_of_nil]|tauto].
  - change (alloc_one (st, out) x) with
      ('(st', i) ← alloc_block st 0; mret (st', out ++ [index_to_addr i])).
    unfold alloc_block.
    destruct (alloc_block_go_ok (Z.to_nat (MAX_ORDER - 0)) st F 0) as [(st1 & i & -> & Ha)|[-> Hex]];
      [done|unfold MAX_ORDER; lia|done| |].
    + simpl_res. destruct (allocated_pages st F 0 st1 i) as (F1 & Hinv1 & Hv & Hpre & Hp1 & Hext); [done|lia|done|].
      pose proof (capacity_bound _ (rep_storage _ _ (proj1 Hinv))).
      pose proof (valid_range _ _ _ Hv). pose proof (ext_capacity _ _ _ Hext) as Hcap1.
      setoid_rewrite block_page_0 in Hpre. setoid_rewrite block_page_0 in Hp1.
      specialize (IH st1 F1 (out ++ [index_to_addr i]) Hinv1).
      change (mret (st1, out ++ [index_to_addr i])) with (Ok (st1, out ++ [index_to_addr i])). simpl_res.
      destruct (foldM alloc_one _ l) as [[st' out']|e].
      * destruct IH as (F' & ps & Hi' & Hc' & -> & Hlen & Hnd & Hin & Hp').
        exists F', (i :: ps). rewrite fmap_cons, <- app_assoc, index_to_addr_small by (unfold uint; lia).
        assert (i ∉ ps) by (by intros [_ ?]%Hin%Hp1).
        split_and!; [done|congruence|done|simpl; congruence|by constructor| |].
        -- intros p [->|[? _]%Hin%Hp1]%elem_of_cons; auto.
        -- intros p. rewrite Hp', Hp1, not_elem_of_cons. tauto.
      * destruct IH as (-> & ps & Hlen & Hall). split; [done|]. exists (i :: ps).
        split; [simpl; lia|]. intros p Hp. rewrite elem_of_cons.
        destruct (decide (p = i)); [by left|right]. apply Hall. by apply Hp1.
    + split; [done|]. exists []. split; [simpl; lia|]. intros p (j & k & HF & _).
      specialize (Hex j k HF). simpl in Hex.
      pose proof (wf_valid _ _ (proj2 Hinv) j k HF) as [? _]. lia.
Qed.

(** C10: [alloc_pages] hands out as many distinct free pages as requested, or
    panics because there are fewer free pages than that. *)
Theorem alloc_pages_correct m F len :
  pm_inv m F →
  match alloc_pages m len with
  | Ok (m', addrs) => ∃ F' ps, pm_inv m' F' ∧ addrs = ((λ p, p * 4096) <$> ps) ∧
      length ps = len ∧ NoDup ps ∧
      (∀ p, p ∈ ps → page_free F p) ∧ (∀ p, page_free F' p ↔ page_free F p ∧ p ∉ ps)
  | Err e => e = PanicMsg "Out of physical memory" ∧
      ∃ ps : list Z, (length ps < len)%nat ∧ ∀ p, page_free F p → p ∈ ps
  end.
Proof.
  intros [Hl Hinv]. pose proof (alloc_loop_ok (seq 0 len) (pm_buddy m) F [] Hinv) as Hloop.
  rewrite length_seq in Hloop.
  unfold alloc_pages.
  destruct (foldM alloc_one (pm_buddy m, []) (seq 0 len)) as [[st' out']|e] eqn:E.
  - rewrite (locked_op_ok m (λ st, foldM alloc_one (st, []) (seq 0 len)) _ _ Hl E). destruct Hloop as (F' & ps & ? & ? & ? & ? & ? & ? & ?).
    exists F', ps. split_and!; done.
  - by rewrite (locked_op_err m (λ st, foldM alloc_one (st, []) (seq 0 len)) _ Hl E).
Qed.

Lemma free_loop_ok ps (st : buddy S) F :
  inv st F → (256 | capacity (storage st)) → NoDup ps →
  (∀ p, p ∈ ps → 0 ≤ p < capacity (storage st) ∧ ¬ page_free F p) →
  ∃ st' F', foldM (λ st addr, free_block st (Z.shiftr addr 12) 0) st ((λ p, p * 4096) <$> ps) = Ok st' ∧
    inv st' F' ∧ ∀ p, page_free F' p ↔ page_free F p ∨ p ∈ ps.
Proof.
  revert st F. induction ps as [|p ps IH]; intros st F Hinv Hal Hnd Hps.
  { exists st, F. split_and!; [done|done|]. intros q. rewrite elem_of_nil. tauto. }
  apply NoDup_cons in Hnd as [Hp Hnd]. destruct (Hps p) as [Hr Hnf]; [left|].
  assert (valid_block (capacity (storage st)) p 0) as Hv
    by (split_and!; unfold MAX_ORDER; [lia|lia|lia|apply Z.divide_1_l|lia]).
  assert (∀ q, block_page p 0 q → ¬ page_free F q) as Hblk by (by intros q ->%block_page_0).
  destruct (free_block_go_ok (Z.to_nat (MAX_ORDER - 0)) st F p 0) as (st1 & Hf & Hrep & Hext);
    [done|done|by eapply buddies_mapped_aligned|done|done|].
  destruct (free_spec_ok (capacity (storage st)) (Z.to_nat (MAX_ORDER - 0)) F p 0) as [Hwf Hp1];
    [apply Hinv|done|done|done|].
  pose proof (ext_capacity _ _ _ Hext) as Hcap.
  destruct (IH st1 (free_spec (Z.to_nat (MAX_ORDER - 0)) F p 0)) as (st' & F' & Hfold & Hinv' & Hp').
  - split; [done|]. by rewrite Hcap.
  - by rewrite Hcap.
  - done.
  - intros q Hq. rewrite Hcap, Hp1, block_page_0. destruct (Hps q) as [Hqr Hqn]; [by right|].
    split; [done|]. intros [?| ->]; done.
  - exists st', F'. rewrite fmap_cons. cbn [foldM]. rewrite addr_to_index.
    assert (free_block st p 0 = Ok st1) as -> by exact Hf. simpl_res. split_and!; [done|done|]. intros q. rewrite Hp', Hp1, block_page_0, elem_of_cons.
    tauto.
Qed.

(** C11: on a manager that satisfies the invariant and whose bitmap covers a
    multiple of 256 pages, a batch of pages can be given back in any order:
    [free_pages] succeeds on every permutation of what [alloc_pages] handed
    out, and then exactly the pages that were free before are free again. *)
Theorem alloc_pages_free_pages m F len m' addrs addrs' :
  pm_inv m F → (256 | mcap m) → alloc_pages m len = Ok (m', addrs) → addrs' ≡ₚ addrs →
  ∃ m'' F'', free_pages m' addrs' = Ok (m'', tt) ∧ pm_inv m'' F'' ∧
    ∀ p, page_free F'' p ↔ page_free F p.
Proof.
  intros [Hl Hinv] Hal Ha Hperm. pose proof (alloc_loop_ok (seq 0 len) (pm_buddy m) F [] Hinv) as Hloop.
  unfold alloc_pages in Ha.
  destruct (foldM alloc_one (pm_buddy m, []) (seq 0 len)) as [[st' out']|e] eqn:E;
    [|by rewrite (locked_op_err m (λ st, foldM alloc_one (st, []) (seq 0 len)) _ Hl E) in Ha].
  rewrite (locked_op_ok m (λ st, foldM alloc_one (st, []) (seq 0 len)) _ _ Hl E) in Ha.
  injection Ha as <- <-. destruct Hloop as (F' & ps & Hinv' & Hcap & -> & _ & Hnd & Hin & Hp').
  destruct (Permutation_map_inv _ _ Hperm) as (ps' & -> & Hps).
  destruct (free_loop_ok ps' st' F') as (st'' & F'' & Hf & Hinv'' & Hp'').
  - done.
  - by rewrite Hcap.
  - by rewrite <- Hps.
  - intros p Hp. rewrite <- Hps in Hp. rewrite Hcap. split; [|by intros [_ ?]%Hp'].
    destruct (Hin p Hp) as (j & k & HF & Hb). destruct Hinv as [_ Hwf].
    destruct (wf_valid _ _ Hwf j k HF) as (_ & ? & _ & ?). unfold block_page in Hb. lia.
  - exists (mkPhysMemoryManager SpinLock_new st''), F''. split_and!.
    + apply locked_op_ok; [done|]. unfold no_result. cbn [pm_buddy].
      change (map (λ p, p * 4096) ps') with ((λ p, p * 4096) <$> ps'). by rewrite Hf.
    + done.
    + intros p. rewrite Hp'', Hp'. rewrite <- Hps. destruct (decide (p ∈ ps)); [|tauto].
      split; [|tauto]. intros _. by apply Hin.
Qed.
End safety.

(** ** Concrete states *)

(** A backend of four bitmap words (256 pages), and the manager that [new]
    makes for one free segment of 256 pages. *)
Definition demo_storage : TestStorage := mkTestStorage (replicate 4 0) test_memory.

Definition demo : PhysMemoryManager TestStorage :=
  match new ∅ demo_map with
  | Ok (m, _) => m
  | Err _ => mkPhysMemoryManager SpinLock_new (fresh_buddy demo_storage ∅)
  end.

Lemma demo_storage_ok : storage_ok demo_storage ∧ Forall (λ w, w = 0) (get_buddy_map demo_storage).
Proof. split; [split; vm_compute; reflexivity|]. repeat constructor. Qed.

Lemma demo_inv : ∃ F, pm_inv demo F ∧ (256 | capacity (storage (pm_buddy demo))) ∧
  ∀ p, page_free F p ↔ 0 ≤ p < 256.
Proof.
  destruct demo_storage_ok as [Hs Hz].
  destruct (new_ok ∅ demo_map 1048576 demo_storage demo_map) as (m & F & Hnew & Hinv & Hcap & Hp).
  - done.
  - done.
  - done.
  - done.
  - apply (bo_segs _ _ _ demo_boot_ok).
  - apply (bo_disjoint _ _ _ demo_boot_ok).
  - intros p (s & Hs' & Hp). apply list_elem_of_singleton in Hs' as ->.
    change (0 ≤ p < 0 + 256) in Hp. change (capacity demo_storage) with 256. split; [lia|].
    unfold buddies_mapped. rewrite Z.div_small by lia. lia.
  - exists F. unfold demo. rewrite Hnew. split; [done|]. rewrite Hcap. split; [by exists 1|].
    intros p. rewrite Hp. split.
    + intros (s & ->%list_elem_of_singleton & Hs'). exact Hs'.
    + intros Hr. exists (mkMemorySegment 0 256 Free). split; [by left|exact Hr].
Qed.

Lemma free_block_correct_witness :
  ∃ st' F', free_block (fresh_buddy demo_storage ∅) 7 0 = Ok st' ∧ inv st' F' ∧
    (∀ p, page_free F' p ↔ page_free ∅ p ∨ block_page 7 0 p) ∧
    extends (page_free F') (fresh_buddy demo_storage ∅) st'.
Proof.
  destruct demo_storage_ok as [Hs Hz]. apply (free_block_correct (fresh_buddy demo_storage ∅) ∅ 7 0).
  - by apply fresh_inv.
  - split_and!; [done..|by exists 7|done].
  - done.
  - intros p _ (i & k & HF & _). by rewrite lookup_empty in HF.
Defined.

Lemma alloc_block_correct_witness :
  ∃ F, inv (pm_buddy demo) F ∧
  match alloc_block (pm_buddy demo) 3 with
  | Ok (st', i) =>
      ¬ exhausted F 3 ∧
      ∃ F', inv st' F' ∧ valid_block (capacity (storage (pm_buddy demo))) i 3 ∧
        (∀ p, block_page i 3 p → page_free F p) ∧
        (∀ p, page_free F' p ↔ page_free F p ∧ ¬ block_page i 3 p) ∧
        extends (page_free F') (pm_buddy demo) st'
  | Err e => e = PanicMsg "Out of physical memory" ∧ exhausted F 3
  end.
Proof.
  destruct demo_inv as (F & [_ Hinv] & _). exists F. split; [exact Hinv|].
  apply (alloc_block_correct (pm_buddy demo) F 3 Hinv). unfold MAX_ORDER. lia.
Defined.

Lemma alloc_free_roundtrip_witness :
  ∃ F st' st'', inv (pm_buddy demo) F ∧ alloc_block (pm_buddy demo) 3 = Ok (st', 0) ∧
    free_block st' 0 3 = Ok st'' ∧ inv st'' F.
Proof.
  destruct demo_inv as (F & [_ Hinv] & _). exists F.
  destruct (alloc_block (pm_buddy demo) 3) as [[st' i]|e] eqn:E.
  - assert (i = 0) as -> by (vm_compute in E; congruence).
    destruct (alloc_free_roundtrip (pm_buddy demo) F 3 st' 0) as (st'' & Hf & Hi);
      [exact Hinv|unfold MAX_ORDER; lia|exact E|vm_compute; congruence|].
    exists st', st''. split; [exact Hinv|]. split; [reflexivity|]. split; [exact Hf|exact Hi].
  - exfalso. vm_compute in E. congruence.
Defined.

Lemma system_safety_witness :
  ∃ F0 m live, pm_inv demo F0 ∧ sys_reachable demo (m, live) ∧ length live = 4%nat ∧
    (∀ a b rest x, live ≡ₚ a :: b :: rest → covers a x → ¬ covers b x) ∧
    (∃ F, pm_inv m F ∧ ∀ p, page_free F0 p ↔ page_free F p ∨ ∃ a, a ∈ live ∧ owns a p) ∧
    (∀ a rest, live ≡ₚ a :: rest → ∃ m', free_linear_pages m a.1 a.2 = Ok (m', tt)) ∧
    (∀ addrs rest, live ≡ₚ single_pages addrs ++ rest → ∃ m', free_pages m addrs = Ok (m', tt)).
Proof.
  destruct demo_inv as (F0 & Hinv & Hal & _). exists F0.
  destruct (alloc_linear_pages demo 3) as [[m1 a1]|] eqn:E1; [|exfalso; vm_compute in E1; congruence].
  destruct (alloc_page m1) as [[m2 a2]|] eqn:E2;
    [|exfalso; vm_compute in E1; injection E1 as <- <-; vm_compute in E2; congruence].
  destruct (alloc_pages m2 2) as [[m3 as3]|] eqn:E3;
    [|exfalso; vm_compute in E1; injection E1 as <- <-; vm_compute in E2; injection E2 as <- <-;
      vm_compute in E3; congruence].
  assert (length as3 = 2%nat) as Hlen.
  { vm_compute in E1. injection E1 as <- <-. vm_compute in E2. injection E2 as <- <-.
    vm_compute in E3. injection E3 as _ <-. reflexivity. }
  assert (sys_reachable demo (m3, single_pages as3 ++ [(a2, 1); (a1, 3)])) as Hr.
  { eapply rtc_l; [apply (sys_alloc_linear _ _ 3); [split; vm_compute; congruence|exact E1]|].
    eapply rtc_l; [apply sys_alloc_page; exact E2|].
    eapply rtc_l; [apply (sys_alloc_pages _ _ 2); exact E3|]. apply rtc_refl. }
  exists m3, (single_pages as3 ++ [(a2, 1); (a1, 3)]). split; [exact Hinv|]. split; [exact Hr|].
  split; [rewrite length_app; unfold single_pages; rewrite length_fmap, Hlen; reflexivity|].
  exact (system_safety demo F0 m3 _ Hinv Hal Hr).
Defined.

Lemma alloc_linear_pages_bad_size_witness :
  ∃ F, pm_inv demo F ∧ alloc_linear_pages demo 257 = Err PanicBounds.
Proof.
  destruct demo_inv as (F & Hinv & _). exists F. split; [exact Hinv|].
  apply (alloc_linear_pages_bad_size demo F 257 Hinv); [split; vm_compute; congruence|right; lia].
Defined.

Lemma unaligned_bitmap_panics_witness :
  let m := mkPhysMemoryManager SpinLock_new (fresh_buddy (mkTestStorage (replicate 3 0) test_memory) ∅) in
  ∃ k, (k = 6 ∨ k = 7) ∧ valid_block 192 (192 - 2 ^ k) k ∧
    free_linear_pages m ((192 - 2 ^ k) * 4096) (2 ^ k) = Err PanicBounds ∧
    add_region m (192 - 2 ^ k) (2 ^ k) = Err PanicBounds.
Proof.
  intros m. change 192 with (capacity (storage (pm_buddy m))).
  apply (unaligned_bitmap_panics m); [reflexivity|reflexivity|].
  intros [q Hq]. change (192 = q * 256) in Hq. lia.
Defined.

Lemma alloc_pages_correct_witness :
  ∃ F, pm_inv demo F ∧
  match alloc_pages demo 5 with
  | Ok (m', addrs) => ∃ F' ps, pm_inv m' F' ∧ addrs = ((λ p, p * 4096) <$> ps) ∧
      length ps = 5%nat ∧ NoDup ps ∧
      (∀ p, p ∈ ps → page_free F p) ∧ (∀ p, page_free F' p ↔ page_free F p ∧ p ∉ ps)
  | Err e => e = PanicMsg "Out of physical memory" ∧
      ∃ ps : list Z, (length ps < 5)%nat ∧ ∀ p, page_free F p → p ∈ ps
  end.
Proof.
  destruct demo_inv as (F & Hinv & _). exists F. split; [exact Hinv|].
  exact (alloc_pages_correct demo F 5 Hinv).
Defined.

Lemma alloc_pages_free_pages_witness :
  ∃ F m' addrs m'' F'', pm_inv demo F ∧ alloc_pages demo 3 = Ok (m', addrs) ∧
    free_pages m' (reverse addrs) = Ok (m'', tt) ∧ pm_inv m'' F'' ∧
    ∀ p, page_free F'' p ↔ page_free F p.
Proof.
  destruct demo_inv as (F & Hinv & Hal & _).
  destruct (alloc_pages demo 3) as [[m' addrs]|] eqn:E; [|exfalso; vm_compute in E; congruence].
  destruct (alloc_pages_free_pages demo F 3 m' addrs (reverse addrs) Hinv Hal E (reverse_Permutation addrs))
    as (m'' & F'' & H1 & H2 & H3).
  exists F, m', addrs, m'', F''.
  split; [exact Hinv|]. split; [reflexivity|]. split; [exact H1|]. split; [exact H2|exact H3].
Defined.
