(* ===== verification/PhysConcurrent.v ===== *)
(** * Threads sharing the memory manager.

    [PhysSystem] runs the operations of the manager one after the other.  Here
    any number of threads call the public methods of one manager
    ([kernel/src/memory/phys_manager.rs]) at the same time: a call spins on
    the manager's [SpinLock] ([kernel/src/mutex.rs]), runs its body with the
    guard held, and drops the guard.  Every attempt on the lock, every body
    and every release is a step; between any two of them other threads may
    step, and clients write to the pages they own.  A body is one step: what
    it reads and writes is either protected by the lock or in free pages
    ([PhysTheorems], [extends]), which no client writes to.

    A thread that panics never drops its guard.  What its body has done by
    then is not known, and need not be: nobody gets the lock any more. *)
From stdpp Require Import base gmap numbers strings list.
From S2P Require Import Prelude.
From S2P Require Import KernelHeader.
From S2P Require Import Mutex.
From S2P Require Import FreeList.
From S2P Require Import PhysManager.
From S2P Require Import BuddySpec.
From S2P Require Import PhysInvariant.
From S2P Require Import PhysTheorems.
From S2P Require Import PhysSystem.
From S2P Require Import PhysInit.
From S2P Require Import PhysTests.
From S2P Require Import PhysSafety.

#[local] Open Scope Z_scope.

(** The public methods a thread can call. *)
Inductive call :=
  | AllocLinear (count : Z)
  | AllocPage
  | AllocPages (len : nat)
  | FreeLinear (addr count : Z)
  | FreePage (addr : Z)
  | FreePages (addrs : list Z).

(** What the client hands back with a call. *)
Definition handed (c : call) : list allocation :=
  match c with
  | AllocLinear _ | AllocPage | AllocPages _ => []
  | FreeLinear addr count => [(addr, count)]
  | FreePage addr => [(addr, 1)]
  | FreePages addrs => single_pages addrs
  end.

(** The size asked for is a [u64]; any value is allowed. *)
Definition call_ok (c : call) : Prop :=
  match c with AllocLinear count => uint 64 count | _ => True end.

(** The panics of a call: none when it frees; an allocation panics for lack
    of memory, and [alloc_linear_pages] also for a size it cannot serve. *)
Definition refused (c : call) (e : failure) : Prop :=
  match c with
  | AllocLinear count =>
      e = if decide (0 < count ≤ 256) then PanicMsg "Out of physical memory"
          else if count =? 0 then PanicOverflow else PanicBounds
  | AllocPage | AllocPages _ => e = PanicMsg "Out of physical memory"
  | FreeLinear _ _ | FreePage _ | FreePages _ => False
  end.

Section concurrent.
Context {S : Type} `{StorageLaws S}.
Implicit Types (m : PhysMemoryManager S) (st : buddy S).

Abbreviation cap st := (capacity (storage st)).

(** The body of a method, and what its client gets. *)
Definition body (c : call) (st : buddy S) : res (buddy S * list allocation) :=
  match c with
  | AllocLinear count =>
      ord ← get_size_order count;
      '(st, i) ← alloc_block st ord;
      mret (st, [(index_to_addr i, count)])
  | AllocPage =>
      '(st, i) ← alloc_block st 0;
      mret (st, [(index_to_addr i, 1)])
  | AllocPages len =>
      '(st, addrs) ← foldM alloc_one (st, []) (seq 0 len);
      mret (st, single_pages addrs)
  | FreeLinear addr count =>
      ord ← get_size_order count;
      st ← free_block st (Z.shiftr addr 12) ord;
      mret (st, [])
  | FreePage addr =>
      st ← free_block st (Z.shiftr addr 12) 0;
      mret (st, [])
  | FreePages addrs =>
      st ← foldM (λ st addr, free_block st (Z.shiftr addr 12) 0) st addrs;
      mret (st, [])
  end.

(** Where a thread is: outside the manager, in [lock]'s loop, holding the
    guard before or after the body, or panicked. *)
Inductive tpc :=
  | Idle
  | Spinning (c : call)
  | Inside (c : call)
  | Leaving (got : list allocation)
  | Dead (c : call) (e : failure).

Record thread := mkThread { t_pc : tpc; t_owned : list allocation }.

Record pool := mkPool { p_lock : SpinLock; p_buddy : buddy S; p_threads : list thread }.

Definition with_heap (st : buddy S) (h : heap) : buddy S := mkBuddy (free_lists st) (storage st) h.

Inductive pool_step : pool → pool → Prop :=
  | pool_call l st ts t owned owned' c :
      ts !! t = Some (mkThread Idle owned) → call_ok c → owned ≡ₚ handed c ++ owned' →
      pool_step (mkPool l st ts) (mkPool l st (<[t := mkThread (Spinning c) owned']> ts))
  | pool_acquire l l' st ts t owned c :
      ts !! t = Some (mkThread (Spinning c) owned) → try_lock l = (true, l') →
      pool_step (mkPool l st ts) (mkPool l' st (<[t := mkThread (Inside c) owned]> ts))
  | pool_spin l l' st ts t owned c :
      ts !! t = Some (mkThread (Spinning c) owned) → try_lock l = (false, l') →
      pool_step (mkPool l st ts) (mkPool l' st ts)
  | pool_body l st st' ts t owned c got :
      ts !! t = Some (mkThread (Inside c) owned) → body c st = Ok (st', got) →
      pool_step (mkPool l st ts) (mkPool l st' (<[t := mkThread (Leaving got) owned]> ts))
  | pool_panic l st st' ts t owned c e :
      ts !! t = Some (mkThread (Inside c) owned) → body c st = Err e →
      pool_step (mkPool l st ts) (mkPool l st' (<[t := mkThread (Dead c e) owned]> ts))
  | pool_leave l st ts t owned got :
      ts !! t = Some (mkThread (Leaving got) owned) →
      pool_step (mkPool l st ts) (mkPool (unlock l) st (<[t := mkThread Idle (got ++ owned)]> ts))
  | pool_write l st ts t th h :
      ts !! t = Some th →
      (∀ p, (∀ i a, a ∈ t_owned th → owns a i → p ≠ get_entry (storage st) i) → h !! p = b_heap st !! p) →
      pool_step (mkPool l st ts) (mkPool l (with_heap st h) ts).

Definition pool_reachable m (n : nat) : pool → Prop :=
  rtc pool_step (mkPool (pm_lock m) (pm_buddy m) (replicate n (mkThread Idle []))).

(** The guard is with this thread. *)
Definition has_guard (th : thread) : bool :=
  match t_pc th with Inside _ | Leaving _ | Dead _ _ => true | _ => false end.

Definition is_dead (th : thread) : bool :=
  match t_pc th with Dead _ _ => true | _ => false end.

(** The allocations of a thread: its own, the one it is handing back, and the
    one it is about to get. *)
Definition held (th : thread) : list allocation :=
  match t_pc th with
  | Idle => []
  | Spinning c | Inside c | Dead c _ => handed c
  | Leaving got => got
  end ++ t_owned th.

Definition live (w : pool) : list allocation := concat (held <$> p_threads w).

(** ** The bodies are those of the methods *)

(** The method with the lock, as the sequential development has it. *)
Definition method m (c : call) : res (PhysMemoryManager S * list allocation) :=
  match c with
  | AllocLinear count => '(m, addr) ← alloc_linear_pages m count; mret (m, [(addr, count)])
  | AllocPage => '(m, addr) ← alloc_page m; mret (m, [(addr, 1)])
  | AllocPages len => '(m, addrs) ← alloc_pages m len; mret (m, single_pages addrs)
  | FreeLinear addr count => '(m, _) ← free_linear_pages m addr count; mret (m, [])
  | FreePage addr => '(m, _) ← free_page m addr; mret (m, [])
  | FreePages addrs => '(m, _) ← free_pages m addrs; mret (m, [])
  end.

Lemma locked_op_map {A B} m (f : buddy S → res (buddy S * A)) (g : A → B) :
  ('(m, a) ← locked_op m f; mret (m, g a)) = locked_op m (λ st, '(st, a) ← f st; mret (st, g a)).
Proof.
  unfold locked_op, with_guard. destruct (lock_spin 1 (pm_lock m)) as [l|]; [|done]. simpl_res.
  by destruct (f (pm_buddy m)) as [[st a]|].
Qed.

Lemma locked_op_ext {A} m (f g : buddy S → res (buddy S * A)) :
  f (pm_buddy m) = g (pm_buddy m) → locked_op m f = locked_op m g.
Proof. unfold locked_op. by intros ->. Qed.

Lemma method_body m c : method m c = locked_op m (body c).
Proof.
  destruct c as [count| |len|addr count|addr|addrs]; cbn [method]; [unfold alloc_linear_pages|unfold alloc_page
    |unfold alloc_pages|unfold free_linear_pages|unfold free_page|unfold free_pages];
    rewrite locked_op_map; apply locked_op_ext; cbn [body]; unfold no_result.
  - destruct (get_size_order count) as [ord|]; [|done]. simpl_res.
    by destruct (alloc_block (pm_buddy m) ord) as [[st i]|].
  - by destruct (alloc_block (pm_buddy m) 0) as [[st i]|].
  - by destruct (foldM alloc_one _ _) as [[st addrs]|].
  - destruct (get_size_order count) as [ord|]; [|done]. simpl_res.
    by destruct (free_block (pm_buddy m) (Z.shiftr addr 12) ord).
  - by destruct (free_block (pm_buddy m) (Z.shiftr addr 12) 0).
  - by destruct (foldM _ _ addrs).
Qed.

Lemma method_unlocked st c :
  method (unlocked st) c = ('(st, got) ← body c st; mret (unlocked st, got)).
Proof. rewrite method_body. unfold locked_op, with_guard. cbn. by destruct (body c st) as [[st' got]|]. Qed.

Lemma body_alloc P0 st rest F count :
  sys_inv P0 (unlocked st, rest) F → uint 64 count →
  match alloc_linear_pages (unlocked st) count with
  | Ok (m', addr) => ∃ F', sys_inv P0 (m', (addr, count) :: rest) F'
  | Err e => refused (AllocLinear count) e
  end.
Proof.
  intros HI Hu. cbn [refused]. case_decide as Hc.
  - destruct (alloc_linear_pages _ count) as [[m' addr]|e] eqn:E; [by eapply sys_inv_alloc|].
    destruct (alloc_linear_pages_pages _ F count (si_inv _ _ _ HI) Hc) as [(? & ? & ? & E' & _)|[E' _]];
      cbn [fst] in E'; congruence.
  - by rewrite (alloc_linear_pages_bad (unlocked st) F count (si_inv _ _ _ HI) Hu Hc).
Qed.

(** Run with the lock held, a body keeps the invariant of the sequential
    system; only an allocation can panic. *)
Lemma body_ok P0 st c rest F :
  sys_inv P0 (unlocked st, handed c ++ rest) F → call_ok c →
  match body c st with
  | Ok (st', got) => ∃ F', sys_inv P0 (unlocked st', got ++ rest) F'
  | Err e => refused c e
  end.
Proof.
  intros HI Hc. pose proof (method_unlocked st c) as Hm.
  assert (match method (unlocked st) c with
    | Ok (m', got) => ∃ F', sys_inv P0 (m', got ++ rest) F'
    | Err e => refused c e
    end) as Hpost.
  { destruct c as [count| |len|addr count|addr|addrs]; cbn [method handed app call_ok] in *.
    - pose proof (body_alloc P0 st rest F count HI Hc) as Hb.
      by destruct (alloc_linear_pages _ _) as [[m' a]|e].
    - pose proof (body_alloc P0 st rest F 1 HI ltac:(unfold uint; lia)) as Hb. rewrite alloc_page_linear.
      by destruct (alloc_linear_pages _ _) as [[m' a]|e].
    - pose proof (sys_inv_alloc_pages P0 _ rest F len HI) as Hb.
      destruct (alloc_pages _ _) as [[m' addrs]|e]; [|done]. destruct Hb as (F' & _ & HI'). by exists F'.
    - destruct (sys_inv_free P0 _ _ rest F addr count HI) as (m' & F' & -> & HI'); [done|]. by exists F'.
    - destruct (sys_inv_free P0 _ _ rest F addr 1 HI) as (m' & F' & E & HI'); [done|].
      rewrite free_page_linear, E. by exists F'.
    - destruct (sys_inv_free_pages P0 _ _ rest F addrs HI) as (m' & F' & -> & HI'); [done|]. by exists F'. }
  rewrite Hm in Hpost. by destruct (body c st) as [[st' got]|e].
Qed.

(** ** The invariant *)

(** Replacing one thread. *)
Lemma live_split l st ts t th : ts !! t = Some th →
  ∃ rest, live (mkPool l st ts) ≡ₚ held th ++ rest ∧
    ∀ l' st' th', live (mkPool l' st' (<[t := th']> ts)) ≡ₚ held th' ++ rest.
Proof.
  intros Ht. exists (concat (held <$> take t ts) ++ concat (held <$> drop (Datatypes.S t) ts)).
  unfold live. cbn [p_threads]. split.
  - rewrite <- (take_drop_middle ts t th Ht) at 1. rewrite fmap_app, fmap_cons, concat_app. cbn. solve_Permutation.
  - intros l' st' th'. rewrite insert_take_drop by (by eapply lookup_lt_Some).
    rewrite fmap_app, fmap_cons, concat_app. cbn. solve_Permutation.
Qed.

(** The lock is taken exactly when one thread, and only one, has the guard. *)
Definition guard_inv (l : SpinLock) (ts : list thread) : Prop :=
  if locked l
  then ∃ t th, ts !! t = Some th ∧ has_guard th = true ∧
    ∀ t' th', ts !! t' = Some th' → has_guard th' = true → t' = t
  else ∀ t th, ts !! t = Some th → has_guard th = false.

(** The allocations never overlap, and lie in the memory [P0]. *)
Definition live_inv (P0 : Z → Prop) (l : list allocation) : Prop :=
  (∃ c, Forall (live_ok c) l) ∧ disjoint_live l ∧ ∀ a p, a ∈ l → owns a p → P0 p.

#[local] Instance live_inv_perm P0 : Proper ((≡ₚ) ==> iff) (live_inv P0).
Proof. intros l l' Hl. unfold live_inv. by setoid_rewrite Hl. Qed.

(** Nobody panicked and the manager is in order, or somebody did in an
    allocation, and nobody uses the manager any more. *)
Definition in_order (P0 : Z → Prop) (w : pool) : Prop :=
  (∃ F, sys_inv P0 (unlocked (p_buddy w), live w) F) ∧ Forall (λ th, is_dead th = false) (p_threads w).

Definition poisoned (P0 : Z → Prop) (w : pool) : Prop :=
  (∃ t c e owned, p_threads w !! t = Some (mkThread (Dead c e) owned) ∧ refused c e) ∧
  live_inv P0 (live w).

Definition waiting_ok (th : thread) : Prop :=
  match t_pc th with Spinning c | Inside c => call_ok c | _ => True end.

Record pool_inv (P0 : Z → Prop) (w : pool) : Prop := mkPoolInv {
  pi_guard : guard_inv (p_lock w) (p_threads w);
  pi_calls : Forall waiting_ok (p_threads w);
  pi_manager : in_order P0 w ∨ poisoned P0 w;
}.

Lemma in_order_live P0 w : in_order P0 w → live_inv P0 (live w).
Proof.
  intros [[F [_ _ Hl Hd _ Hp]] _]. cbn [fst snd] in *. split; [eauto|]. split; [done|].
  intros a p Ha Ho. apply Hp. eauto.
Qed.

(** *** Who has the guard *)

Lemma guard_owner l ts t th : guard_inv l ts → ts !! t = Some th → has_guard th = true →
  locked l = true ∧ ∀ t' th', ts !! t' = Some th' → has_guard th' = true → t' = t.
Proof.
  unfold guard_inv. intros Hg Ht Hh. destruct (locked l); [|by rewrite (Hg t th Ht) in Hh].
  split; [done|]. destruct Hg as (t0 & th0 & Ht0 & Hh0 & Hu). intros t' th' Ht' Hh'.
  by rewrite (Hu t' th' Ht' Hh'), (Hu t th Ht Hh).
Qed.

Lemma guard_same l ts t th th' : guard_inv l ts → ts !! t = Some th → has_guard th' = has_guard th →
  guard_inv l (<[t := th']> ts).
Proof.
  intros Hg Ht He. unfold guard_inv in *.
  assert (∀ t1 th1, <[t := th']> ts !! t1 = Some th1 → ∃ th2, ts !! t1 = Some th2 ∧ has_guard th2 = has_guard th1) as Hi.
  { intros t1 th1 [(<- & <- & _)|[_ ?]]%list_lookup_insert_Some; eauto. }
  destruct (locked l).
  - destruct Hg as (t0 & th0 & Ht0 & Hh0 & Hu).
    assert (∃ th1, <[t := th']> ts !! t0 = Some th1 ∧ has_guard th1 = true) as (th1 & Ht1 & Hh1).
    { destruct (decide (t = t0)) as [<-|Hne].
      - exists th'. rewrite list_lookup_insert_eq by (by eapply lookup_lt_Some). split; [done|congruence].
      - exists th0. by rewrite list_lookup_insert_ne. }
    exists t0, th1. split_and!; [done..|]. intros t' th2 (th3 & H3 & E)%Hi Hh. apply (Hu t' th3); [done|congruence].
  - intros t1 th1 (th2 & H2 & <-)%Hi. by eapply Hg.
Qed.

Lemma guard_take l ts t th th' : guard_inv l ts → locked l = false → ts !! t = Some th →
  has_guard th' = true → guard_inv (mkSpinLock true) (<[t := th']> ts).
Proof.
  unfold guard_inv. intros Hg Hl Ht Hh. rewrite Hl in Hg. cbn [locked]. exists t, th'.
  rewrite list_lookup_insert_eq by (by eapply lookup_lt_Some). split_and!; [done..|].
  intros t1 th1 [(<- & <- & _)|[_ E]]%list_lookup_insert_Some Hh1; [done|]. by rewrite (Hg t1 th1 E) in Hh1.
Qed.

Lemma guard_drop l ts t th th' : guard_inv l ts → ts !! t = Some th → has_guard th = true →
  has_guard th' = false → guard_inv (unlock l) (<[t := th']> ts).
Proof.
  intros Hg Ht Hh Hh'. destruct (guard_owner _ _ _ _ Hg Ht Hh) as [_ Hu]. unfold guard_inv. cbn.
  intros t1 th1 [(<- & <- & _)|[Hne E]]%list_lookup_insert_Some; [done|].
  destruct (has_guard th1) eqn:E1; [|done]. by destruct Hne; rewrite (Hu t1 th1 E E1).
Qed.

(** Nobody else uses the manager while it is in order. *)
Lemma guard_in_order P0 w t th : pool_inv P0 w → p_threads w !! t = Some th → has_guard th = true →
  is_dead th = false → in_order P0 w.
Proof.
  intros [Hg _ [Ho|[(t1 & c & e & owned & Hd & _) _]]] Ht Hh Hn; [done|].
  destruct (guard_owner _ _ _ _ Hg Ht Hh) as [_ Hu]. rewrite (Hu t1 _ Hd eq_refl) in Hd. by simplify_eq.
Qed.

(** *** The steps *)

(** A thread that moves on with the same allocations. *)
Lemma manager_move P0 l l' st ts t th th' :
  in_order P0 (mkPool l st ts) ∨ poisoned P0 (mkPool l st ts) → ts !! t = Some th →
  is_dead th = false → is_dead th' = false → held th' ≡ₚ held th →
  in_order P0 (mkPool l' st (<[t := th']> ts)) ∨ poisoned P0 (mkPool l' st (<[t := th']> ts)).
Proof.
  intros Hm Ht Hd Hd' Hh. destruct (live_split l st ts t th Ht) as (rest & E & E').
  specialize (E' l' st th'). rewrite Hh, <- E in E'. destruct Hm as [[[F HI] Ha]|[(t1 & c & e & owned & Ht1 & Hc) Hl]].
  - left. split; [exists F; by eapply sys_inv_perm|]. by apply Forall_insert.
  - right. split; [|by rewrite E']. exists t1, c, e, owned. split; [|done]. cbn [p_threads] in *.
    rewrite list_lookup_insert_ne; [done|]. intros ->. by simplify_eq.
Qed.

Lemma pool_inv_body P0 l st st' ts t owned c got :
  pool_inv P0 (mkPool l st ts) → ts !! t = Some (mkThread (Inside c) owned) → body c st = Ok (st', got) →
  pool_inv P0 (mkPool l st' (<[t := mkThread (Leaving got) owned]> ts)).
Proof.
  intros HP Ht Hb. destruct (guard_in_order P0 _ t _ HP Ht eq_refl eq_refl) as [[F HI] Ha].
  destruct HP as [Hg Hw _]. cbn [p_lock p_buddy p_threads] in *.
  destruct (live_split l st ts t _ Ht) as (rest & E & E'). split; cbn [p_lock p_buddy p_threads].
  - by eapply guard_same.
  - by apply Forall_insert.
  - left. split; [|by apply Forall_insert].
    apply (sys_inv_perm _ _ _ _ _ E) in HI. unfold held in HI. cbn [t_pc t_owned] in HI.
    rewrite <- app_assoc in HI. pose proof (body_ok P0 st c (owned ++ rest) F HI) as Hbo. rewrite Hb in Hbo.
    destruct Hbo as [F' HI']; [apply (proj1 (Forall_lookup _ _) Hw t _ Ht)|]. exists F'.
    eapply sys_inv_perm; [|exact HI']. rewrite E'. unfold held. cbn. by rewrite <- app_assoc.
Qed.

Lemma pool_inv_panic P0 l st st' ts t owned c e :
  pool_inv P0 (mkPool l st ts) → ts !! t = Some (mkThread (Inside c) owned) → body c st = Err e →
  pool_inv P0 (mkPool l st' (<[t := mkThread (Dead c e) owned]> ts)).
Proof.
  intros HP Ht Hb. pose proof (guard_in_order P0 _ t _ HP Ht eq_refl eq_refl) as Ho.
  pose proof (in_order_live _ _ Ho) as Hl. destruct Ho as [[F HI] Ha].
  destruct HP as [Hg Hw _]. cbn [p_lock p_buddy p_threads] in *.
  destruct (live_split l st ts t _ Ht) as (rest & E & E'). split; cbn [p_lock p_buddy p_threads].
  - by eapply guard_same.
  - by apply Forall_insert.
  - right. apply (sys_inv_perm _ _ _ _ _ E) in HI. unfold held in HI. cbn [t_pc t_owned] in HI.
    rewrite <- app_assoc in HI. pose proof (body_ok P0 st c (owned ++ rest) F HI) as Hbo. rewrite Hb in Hbo.
    split.
    + exists t, c, e, owned. split; [|by apply Hbo, (proj1 (Forall_lookup _ _) Hw t _ Ht)]. cbn. apply list_lookup_insert_eq. by eapply lookup_lt_Some.
    + rewrite E'. by rewrite E in Hl.
Qed.

Lemma pool_inv_write P0 l st ts t th h :
  pool_inv P0 (mkPool l st ts) → ts !! t = Some th →
  (∀ p, (∀ i a, a ∈ t_owned th → owns a i → p ≠ get_entry (storage st) i) → h !! p = b_heap st !! p) →
  pool_inv P0 (mkPool l (with_heap st h) ts).
Proof.
  intros [Hg Hw [[[F HI] Ha]|Hp]] Ht Hh; split; try done; [left|by right]. split; [|done].
  apply (sys_inv_step P0 _ (set_heap (unlocked st) h, live (mkPool l st ts)) F HI).
  apply sys_client_write. intros p Hp. apply Hh. intros i a Hel Ho. apply (Hp i a); [|done].
  destruct (live_split l st ts t th Ht) as (rest & -> & _). unfold held. rewrite !elem_of_app. auto.
Qed.

Lemma pool_inv_step P0 w w' : pool_inv P0 w → pool_step w w' → pool_inv P0 w'.
Proof.
  intros HP Hst. destruct Hst as [l st ts t owned owned' c Ht Hc Hown|l l' st ts t owned c Ht Hl
    |l l' st ts t owned c Ht Hl|l st st' ts t owned c got Ht Hb|l st st' ts t owned c e Ht Hb
    |l st ts t owned got Ht|l st ts t th h Ht Hh]; [| | |by eapply pool_inv_body|by eapply pool_inv_panic|
    |by eapply pool_inv_write]; destruct HP as [Hg Hw Hm]; cbn [p_lock p_buddy p_threads] in *.
  - split; cbn [p_lock p_buddy p_threads]; [by eapply guard_same|by apply Forall_insert|].
    eapply manager_move; [exact Hm|exact Ht|done|done|]. unfold held. cbn. by rewrite Hown.
  - assert (locked l = false ∧ l' = mkSpinLock true) as [Hl0 ->]
      by (cbn in Hl; unfold SpinLock_try_lock in Hl; destruct (locked l); simplify_eq; done).
    split; cbn [p_lock p_buddy p_threads]; [by eapply guard_take| |by eapply manager_move].
    apply Forall_insert; [done|]. exact (proj1 (Forall_lookup _ _) Hw t _ Ht).
  - assert (l' = l) as ->; [|by split].
    cbn in Hl. unfold SpinLock_try_lock in Hl. destruct l as [[]]; by simplify_eq.
  - split; cbn [p_lock p_buddy p_threads]; [by eapply guard_drop|by apply Forall_insert|].
    by eapply manager_move.
Qed.

Lemma live_start l st n : live (mkPool l st (replicate n (mkThread Idle []))) = [].
Proof. unfold live. cbn [p_threads]. by induction n. Qed.

Lemma pool_inv_reachable m n F w :
  pm_inv m F → (256 | cap (pm_buddy m)) → pool_reachable m n w → pool_inv (page_free F) w.
Proof.
  intros [Hl Hi] Ha Hr. assert (pool_inv (page_free F) (mkPool (pm_lock m) (pm_buddy m) (replicate n (mkThread Idle [])))) as Hstart.
  { split; cbn [p_lock p_buddy p_threads].
    - unfold guard_inv. rewrite Hl. by intros t th [-> _]%lookup_replicate.
    - by apply Forall_replicate.
    - left. split; [|by apply Forall_replicate]. exists F.
      rewrite live_start. split; cbn; try done; [by intros a p ?%not_elem_of_nil|]. intros p. split; [by left|].
      by intros [|(a & ?%not_elem_of_nil & _)]. }
  revert Hstart. induction Hr; eauto using pool_inv_step.
Qed.
(** ** What the threads can rely on *)

(** Who has the guard and did not panic can go on. *)
Lemma holder_steps w t th : p_threads w !! t = Some th → has_guard th = true → is_dead th = false →
  ∃ w', pool_step w w' ∧ p_threads w' !! t ≠ Some th.
Proof.
  destruct w as [l st ts], th as [pc owned]. cbn [p_threads]. intros Ht Hg Hd. apply lookup_lt_Some in Ht as Hlt.
  destruct pc as [|c|c|got|c e]; try done.
  - destruct (body c st) as [[st' got]|e] eqn:Hb.
    + eexists. split; [by eapply pool_body|]. cbn. by rewrite list_lookup_insert_eq.
    + eexists. split; [by eapply (pool_panic _ _ st)|]. cbn. by rewrite list_lookup_insert_eq.
  - eexists. split; [by eapply pool_leave|]. cbn. by rewrite list_lookup_insert_eq.
Qed.

(** Who panicked stays where it is. *)
Lemma dead_stays w w' t c e owned : rtc pool_step w w' →
  p_threads w !! t = Some (mkThread (Dead c e) owned) →
  p_threads w' !! t = Some (mkThread (Dead c e) owned).
Proof.
  induction 1 as [|w1 w2 w3 Hst _ IH]; [done|]. intros Ht. apply IH. clear IH.
  destruct Hst; cbn [p_threads] in *; try done.
  all: rewrite list_lookup_insert_ne; [done|]; intros ->; by simplify_eq.
Qed.

(** C2: any number of threads call the six public methods (with any [u64] as
    the size of an allocation) on a manager that satisfies the allocator's
    invariant and whose bitmap covers a multiple of 256 pages.  However their
    steps interleave: at most one thread has the manager's guard, and while
    one spins the lock is free or its holder can finish; no byte belongs to
    two allocations, those still being handed over included; every page of
    the free memory is free or in an allocation as long as no thread
    panicked; a thread that frees never panics, one that allocates panics
    only for lack of memory or, in [alloc_linear_pages], for a request of 0
    or more than 256 pages; and after a panic no other thread ever gets the
    guard again. *)
Theorem concurrent_safety m0 F0 n w :
  pm_inv m0 F0 → (256 | cap (pm_buddy m0)) → pool_reachable m0 n w →
  (∀ t1 t2 th1 th2, p_threads w !! t1 = Some th1 → p_threads w !! t2 = Some th2 →
     has_guard th1 = true → has_guard th2 = true → t1 = t2) ∧
  (∀ a b rest x, live w ≡ₚ a :: b :: rest → PhysSafety.covers a x → ¬ PhysSafety.covers b x) ∧
  (Forall (λ th, is_dead th = false) (p_threads w) →
     (∃ F, inv (p_buddy w) F ∧ ∀ p, page_free F0 p ↔ page_free F p ∨ ∃ a, a ∈ live w ∧ owns a p) ∧
     (∀ t c owned, p_threads w !! t = Some (mkThread (Spinning c) owned) →
        locked (p_lock w) = false ∨
        ∃ t' th' w', p_threads w !! t' = Some th' ∧ has_guard th' = true ∧
          pool_step w w' ∧ p_threads w' !! t' ≠ Some th')) ∧
  (∀ t c owned e, p_threads w !! t = Some (mkThread (Dead c e) owned) →
     refused c e ∧
     ∀ w' t' th', rtc pool_step w w' → p_threads w' !! t' = Some th' → has_guard th' = true → t' = t).
Proof.
  intros Hi Ha Hr. pose proof (pool_inv_reachable m0 n F0 w Hi Ha Hr) as [Hg Hw Hm]. split_and!.
  - intros t1 t2 th1 th2 H1 H2 G1 G2. destruct (guard_owner _ _ _ _ Hg H2 G2) as [_ Hu]. by eapply Hu.
  - assert (live_inv (page_free F0) (live w)) as ([c Hl] & Hd & _) by (destruct Hm as [?|[_ ?]]; [by apply in_order_live|done]).
    intros a b rest x Hp Hxa Hxb. rewrite Hp in Hl, Hd. apply Forall_cons in Hl as [Hla [Hlb _]%Forall_cons].
    destruct Hd as [Hd _]. apply (Hd b (x / 4096)); [by left|by eapply covers_owns..].
  - intros Halive. split.
    + destruct Hm as [[[F [[_ HF] _ _ _ _ Hp]] _]|[(t & c & e & owned & Ht & _) _]]; [by exists F|].
      by apply (proj1 (Forall_lookup _ _) Halive) in Ht.
    + intros t c owned _. unfold guard_inv in Hg. destruct (locked (p_lock w)); [right|by left].
      destruct Hg as (t' & th' & Ht & Hh & _). exists t', th'.
      destruct (holder_steps w t' th') as (w' & ? & ?); try done; [|by exists w'].
      by apply (proj1 (Forall_lookup _ _) Halive) in Ht.
  - intros t c owned e Ht. split.
    2:{ intros w' t' th' Hw' Ht' Hh'. apply (dead_stays w w') in Ht; [|done].
        destruct (pool_inv_reachable m0 n F0 w' Hi Ha) as [Hg' _ _]; [unfold pool_reachable; by transitivity w|].
        destruct (guard_owner _ _ _ _ Hg' Ht eq_refl) as [_ Hu]. by eapply Hu. }
    destruct Hm as [[_ Halive]|[(t1 & c1 & e1 & owned1 & Ht1 & Hc1) _]].
    + by apply (proj1 (Forall_lookup _ _) Halive) in Ht.
    + destruct (guard_owner _ _ _ _ Hg Ht eq_refl) as [_ Hu]. rewrite (Hu t1 _ Ht1 eq_refl) in Ht1. by simplify_eq.
Qed.
End concurrent.

(** ** Witness: a thread that allocates while another one spins *)

Lemma concurrent_safety_witness :
  ∃ F0 st a, pm_inv demo F0 ∧
    pool_reachable demo 2
      (mkPool (mkSpinLock true) st [mkThread (Leaving [(a, 3)]) []; mkThread (Spinning AllocPage) []]) ∧
    (∃ F, inv st F ∧ ∀ p, page_free F0 p ↔ page_free F p ∨ owns (a, 3) p).
Proof.
  destruct demo_inv as (F0 & Hinv & Hal & _). exists F0.
  destruct (body (AllocLinear 3) (pm_buddy demo)) as [[st got]|] eqn:E; [|exfalso; vm_compute in E; congruence].
  assert (got = [(0, 3)]) as -> by (vm_compute in E; congruence). exists st, 0.
  assert (pool_reachable demo 2
    (mkPool (mkSpinLock true) st [mkThread (Leaving [(0, 3)]) []; mkThread (Spinning AllocPage) []])) as Hr.
  { eapply rtc_l; [apply (pool_call _ _ _ 0 [] [] (AllocLinear 3)); [reflexivity|split; vm_compute; congruence|reflexivity]|].
    eapply rtc_l; [apply (pool_acquire _ (mkSpinLock true) _ _ 0 [] (AllocLinear 3)); vm_compute; reflexivity|].
    eapply rtc_l; [apply (pool_call _ _ _ 1 [] [] AllocPage); [reflexivity|exact I|reflexivity]|].
    eapply rtc_l; [apply (pool_spin _ (mkSpinLock true) _ _ 1 [] AllocPage); reflexivity|].
    eapply rtc_l; [apply (pool_body _ _ st _ 0 [] (AllocLinear 3) [(0, 3)]); [reflexivity|exact E]|].
    apply rtc_refl. }
  split; [exact Hinv|]. split; [exact Hr|].
  destruct (concurrent_safety demo F0 2 _ Hinv Hal Hr) as (_ & _ & Hp & _).
  destruct Hp as [(F & HF & Hp) _]; [repeat constructor|]. exists F. split; [exact HF|].
  intros p. specialize (Hp p). change (live _) with [(0, 3)] in Hp. rewrite owned_cons in Hp. rewrite Hp.
  split; [intros [Hf|[Ho|(b & Hb & _)]]|intros [Hf|Ho]]; [left; exact Hf|right; exact Ho| |left; exact Hf|right; left; exact Ho].
  exfalso. exact (not_elem_of_nil b Hb).
Defined.
