(* ===== verification/Terminal.v ===== *)
(** * The kernel's text terminal ([kernel/src/terminal.rs]).

    [Info] is the static [INFO]; [terminal] adds the video memory the pointer
    [framebuffer] addresses, byte by byte.  Characters are Unicode scalar
    values.  The fonts of the [font8x8] crate are a parameter ([Font]) with
    the two facts the code relies on ([FontLaws]).

    The theorems: with the geometry [init] sets up no message makes [print]
    panic or write outside the text area; a printed character changes exactly
    the 64 pixels of its cell, to its glyph in the current colour; the cursor
    counts the cells of the text area in reading order; the log macros leave
    the terminal in white; a message printed while the lock is held never
    returns. *)
From stdpp Require Import base gmap numbers strings list.
From S2P Require Import Prelude.
From S2P Require Import KernelHeader.
From S2P Require Import Mutex.

#[local] Open Scope Z_scope.

Definition MARGIN : Z := 16.

(** [enum Mode] *)
Inductive Mode := Print | SetR | SetG | SetB.

#[global] Instance Mode_eq_dec : EqDecision Mode.
Proof. solve_decision. Defined.

(** [struct Info] *)
Record Info := mkInfo {
  lock : SpinLock;
  framebuffer : Z;
  scan_width : Z;
  height : Z;
  format : Format;
  rows : Z;
  columns : Z;
  cursor_x : Z;
  cursor_y : Z;
  color_r : Z;
  color_g : Z;
  color_b : Z;
  mode : Mode;
}.

(** The static [INFO] before [init]. *)
Definition INFO : Info :=
  mkInfo SpinLock_new 0 0 0 RGB 0 0 0 0 255 255 255 Print.

(** The bitmap fonts of [font8x8]: [BASIC_FONTS.get(c)]. *)
Class Font := { get : Z → option (list Z) }.

(** A glyph is a [[u8; 8]], and the basic fonts have the space character. *)
Class FontLaws `{Font} := {
  get_rows : ∀ c g, get c = Some g → length g = 8%nat ∧ Forall (uint 8) g;
  get_space : is_Some (get 32);
}.

(** The static together with the memory behind its [framebuffer]. *)
Record terminal := mkTerminal { info : Info; vram : list Z }.

Definition set_cursor (i : Info) (x y : Z) : Info :=
  mkInfo (lock i) (framebuffer i) (scan_width i) (height i) (format i) (rows i) (columns i)
    x y (color_r i) (color_g i) (color_b i) (mode i).

Definition set_color (i : Info) (r g b : Z) (m : Mode) : Info :=
  mkInfo (lock i) (framebuffer i) (scan_width i) (height i) (format i) (rows i) (columns i)
    (cursor_x i) (cursor_y i) r g b m.

Definition set_lock (i : Info) (l : SpinLock) : Info :=
  mkInfo l (framebuffer i) (scan_width i) (height i) (format i) (rows i) (columns i)
    (cursor_x i) (cursor_y i) (color_r i) (color_g i) (color_b i) (mode i).

(** [pub fn init] *)
Definition init (kh : KernelHeader) : res Info :=
  m ← mul_w 32 MARGIN 2;
  h ← sub_w 32 (screen_height kh) m;
  w ← sub_w 32 (screen_width kh) m;
  mret (mkInfo SpinLock_new (screen_buffer kh) (screen_scanline_width kh) (screen_height kh)
          (screen_format kh) (h / 8) (w / 8) 0 0 255 255 255 Print).

(** [(info.scan_width * info.height * 4) as usize] *)
Definition fb_len (i : Info) : res Z :=
  a ← mul_w 32 (scan_width i) (height i); mul_w 32 a 4.

(** A scope of [INFO.lock]: the lock is taken, the body runs, the guard is
    dropped. *)
Definition with_lock (fuel : nat) (t : terminal) (body : terminal → res terminal) : res terminal :=
  l ← lock_spin fuel (lock (info t));
  t' ← body (mkTerminal (set_lock (info t) l) (vram t));
  mret (mkTerminal (set_lock (info t') (unlock (lock (info t')))) (vram t')).

(** [pub fn clear]: [write_bytes] past the memory behind the pointer is
    undefined. *)
Definition clear (fuel : nat) (t : terminal) : res terminal :=
  with_lock fuel t (λ t,
    n ← fb_len (info t);
    if n <=? Z.of_nat (length (vram t)) then
      mret (mkTerminal (info t) (replicate (Z.to_nat n) 0 ++ drop (Z.to_nat n) (vram t)))
    else Err UB).

(** [fn advance_cursor] *)
Definition advance_cursor (i : Info) : res Info :=
  x ← add_w 32 (cursor_x i) 1;
  if columns i <=? x then
    y ← add_w 32 (cursor_y i) 1;
    mret (set_cursor i 0 (if rows i <=? y then 0 else y))
  else mret (set_cursor i x (cursor_y i)).

(** [fn new_line] *)
Definition new_line (i : Info) : res Info :=
  y ← add_w 32 (cursor_y i) 1;
  mret (set_cursor i 0 (if rows i <=? y then 0 else y)).

(** [((x_start + x + (y_start + y as u32) * info.scan_width) * 4) as usize] *)
Definition pixel_index (i : Info) (x_start y_start x y : Z) : res Z :=
  a ← add_w 32 x_start x;
  b ← add_w 32 y_start y;
  c ← mul_w 32 b (scan_width i);
  d ← add_w 32 a c;
  mul_w 32 d 4.

(** [fb[... + k] = v], with [fb] the slice of [len] bytes at the front of the
    video memory. *)
Definition put_byte (i : Info) (len x_start y_start x y k v : Z) (fb : list Z) : res (list Z) :=
  p ← pixel_index i x_start y_start x y;
  j ← add_w 64 p k;
  if j <? len then store fb j v else Err PanicBounds.

(** One iteration of the inner loop of [print_char]. *)
Definition draw_pixel (i : Info) (len x_start y_start row y : Z) (fb : list Z) (x : Z)
    : res (list Z) :=
  m ← shl_w 8 1 x;
  if negb (Z.land row m =? 0) then
    fb ← put_byte i len x_start y_start x y 0 (if decide (format i = BGR) then color_b i else color_r i) fb;
    fb ← put_byte i len x_start y_start x y 1 (color_g i) fb;
    put_byte i len x_start y_start x y 2 (if decide (format i = BGR) then color_r i else color_b i) fb
  else
    fb ← put_byte i len x_start y_start x y 0 0 fb;
    fb ← put_byte i len x_start y_start x y 1 0 fb;
    put_byte i len x_start y_start x y 2 0 fb.

(** One iteration of the outer loop of [print_char]. *)
Definition draw_row (i : Info) (len x_start y_start : Z) (glyph : list Z) (fb : list Z) (y : Z)
    : res (list Z) :=
  row ← index glyph y;
  foldM (draw_pixel i len x_start y_start row y) fb (seqZ 0 8).

(** The printing half of [print_char]. *)
Definition draw_glyph (t : terminal) (glyph : list Z) : res terminal :=
  let i := info t in
  cx ← mul_w 32 (cursor_x i) 8;
  x_start ← add_w 32 MARGIN cx;
  cy ← mul_w 32 (cursor_y i) 8;
  y_start ← add_w 32 MARGIN cy;
  len ← fb_len i;
  if len <=? Z.of_nat (length (vram t)) then
    fb ← foldM (draw_row i len x_start y_start glyph) (vram t) (seqZ 0 8);
    i' ← advance_cursor i;
    mret (mkTerminal i' fb)
  else Err UB.

(** [BASIC_FONTS.get(c)], or the space's glyph. *)
Definition glyph_of `{Font} (c : Z) : res (list Z) :=
  match get c with
  | Some g => mret g
  | None => of_option (PanicMsg "called `Option::unwrap()` on a `None` value") (get 32)
  end.

(** [fn print_char] *)
Definition print_char `{Font} (t : terminal) (c : Z) : res terminal :=
  let i := info t in
  match mode i with
  | SetR => mret (mkTerminal (set_color i (wrap 8 c) (color_g i) (color_b i) SetG) (vram t))
  | SetG => mret (mkTerminal (set_color i (color_r i) (wrap 8 c) (color_b i) SetB) (vram t))
  | SetB => mret (mkTerminal (set_color i (color_r i) (color_g i) (wrap 8 c) Print) (vram t))
  | Print =>
      if c =? 27 then
        mret (mkTerminal (set_color i (color_r i) (color_g i) (color_b i) SetR) (vram t))
      else if c =? 10 then
        i' ← new_line i; mret (mkTerminal i' (vram t))
      else
        glyph ← glyph_of c;
        draw_glyph t glyph
  end.

(** [pub fn print], also [TerminalStream::write_str]. *)
Definition print `{Font} (fuel : nat) (t : terminal) (msg : list Z) : res terminal :=
  with_lock fuel t (λ t, foldM print_char t msg).

(** [write_fmt] hands the formatted pieces to [write_str] one by one. *)
Definition write_pieces `{Font} (fuel : nat) (t : terminal) (pieces : list (list Z)) : res terminal :=
  foldM (print fuel) t pieces.

(** ** The text area *)

(** The byte of channel [k] of the pixel in column [X] and line [Y]. *)
Definition byte_at (i : Info) (X Y k : Z) : Z := (X + Y * scan_width i) * 4 + k.

(** The text area has at least the cell the cursor starts in. *)
Definition cell_columns (i : Info) : Z := Z.max 1 (columns i).
Definition cell_rows (i : Info) : Z := Z.max 1 (rows i).

Definition in_text_area (i : Info) (X Y : Z) : Prop :=
  MARGIN ≤ X < MARGIN + cell_columns i * 8 ∧ MARGIN ≤ Y < MARGIN + cell_rows i * 8.

(** Line and column counts fit the screen, the screen fits the memory, and the
    cursor is on a cell. *)
Record screen_ok (t : terminal) : Prop := {
  so_columns : 0 ≤ columns (info t) ∧ columns (info t) * 8 + 32 ≤ scan_width (info t);
  so_rows : 0 ≤ rows (info t) ∧ rows (info t) * 8 + 32 ≤ height (info t);
  so_u32 : scan_width (info t) * height (info t) * 4 < 2 ^ 32;
  so_vram : scan_width (info t) * height (info t) * 4 ≤ Z.of_nat (length (vram t));
  so_x : 0 ≤ cursor_x (info t) < cell_columns (info t);
  so_y : 0 ≤ cursor_y (info t) < cell_rows (info t);
}.

(** Two states of one screen: same geometry, same memory size, and equal
    outside the text area and in the padding byte of every pixel. *)
Record same_screen (t t' : terminal) : Prop := {
  ss_framebuffer : framebuffer (info t') = framebuffer (info t);
  ss_scan_width : scan_width (info t') = scan_width (info t);
  ss_height : height (info t') = height (info t);
  ss_format : format (info t') = format (info t);
  ss_rows : rows (info t') = rows (info t);
  ss_columns : columns (info t') = columns (info t);
  ss_lock : lock (info t') = lock (info t);
  ss_length : length (vram t') = length (vram t);
  ss_frame : ∀ X Y k, 0 ≤ X < scan_width (info t) → 0 ≤ Y → 0 ≤ k < 4 →
    ¬ in_text_area (info t) X Y ∨ k = 3 →
    vram t' !! Z.to_nat (byte_at (info t) X Y k) = vram t !! Z.to_nat (byte_at (info t) X Y k);
}.

(** The colour a lit pixel gets in channel [k]. *)
Definition channel (i : Info) (k : Z) : Z :=
  if k =? 0 then if decide (format i = BGR) then color_b i else color_r i
  else if k =? 1 then color_g i
  else if decide (format i = BGR) then color_r i else color_b i.

Definition glyph_byte (i : Info) (row x k : Z) : Z :=
  if Z.testbit row x then channel i k else 0.

Lemma byte_at_inj i X Y k X' Y' k' :
  0 ≤ X < scan_width i → 0 ≤ X' < scan_width i → 0 ≤ k < 4 → 0 ≤ k' < 4 →
  byte_at i X Y k = byte_at i X' Y' k' → X = X' ∧ Y = Y' ∧ k = k'.
Proof.
  unfold byte_at. intros HX HX' Hk Hk' E.
  assert (k = k') as -> by lia.
  assert (X + Y * scan_width i = X' + Y' * scan_width i) as E' by lia.
  assert (Y = Y') as ->; [|lia]. nia.
Qed.

Section draw.
Context (t : terminal) (Hok : screen_ok t).
Abbreviation i := (info t).
Abbreviation xs := (MARGIN + cursor_x i * 8).
Abbreviation ys := (MARGIN + cursor_y i * 8).
Abbreviation len := (scan_width i * height i * 4).

Lemma cursor_pixels : 0 ≤ xs ∧ xs + 8 ≤ scan_width i ∧ 0 ≤ ys ∧ ys + 8 ≤ height i.
Proof. destruct Hok. unfold cell_columns, cell_rows, MARGIN in *. lia. Qed.

Lemma byte_at_range X Y k : 0 ≤ X < scan_width i → 0 ≤ Y < height i → 0 ≤ k < 4 →
  0 ≤ byte_at i X Y k < len.
Proof. unfold byte_at. intros. nia. Qed.

Lemma fb_len_ok : fb_len i = Ok len.
Proof.
  destruct Hok. unfold fb_len.
  rewrite mul_w_ok by (unfold uint; nia). simpl_res. apply mul_w_ok. unfold uint; nia.
Qed.

Lemma pixel_index_ok x y : 0 ≤ x < 8 → 0 ≤ y < 8 →
  pixel_index i xs ys x y = Ok (byte_at i (xs + x) (ys + y) 0).
Proof.
  intros Hx Hy. pose proof cursor_pixels as (? & ? & ? & ?). destruct Hok.
  pose proof (byte_at_range (xs + x) (ys + y) 0 ltac:(lia) ltac:(lia) ltac:(lia)) as Hb.
  unfold byte_at in *. unfold pixel_index.
  assert (scan_width i ≤ len) by nia.
  assert (ys + y < height i ∧ height i ≤ len) by nia.
  assert (0 ≤ (ys + y) * scan_width i) by nia.
  checked_arith. f_equal. lia.
Qed.

Lemma put_byte_ok x y k v fb : 0 ≤ x < 8 → 0 ≤ y < 8 → 0 ≤ k < 4 →
  length fb = length (vram t) →
  put_byte i len xs ys x y k v fb = Ok (<[Z.to_nat (byte_at i (xs + x) (ys + y) k) := v]> fb).
Proof.
  intros Hx Hy Hk Hfb. pose proof cursor_pixels as (? & ? & ? & ?). destruct Hok.
  pose proof (byte_at_range (xs + x) (ys + y) k ltac:(lia) ltac:(lia) Hk).
  unfold put_byte. rewrite pixel_index_ok by done. simpl_res.
  replace (byte_at i (xs + x) (ys + y) k) with (byte_at i (xs + x) (ys + y) 0 + k) in *
    by (unfold byte_at; lia).
  assert (2 ^ 32 < 2 ^ 64) by done. checked_arith.
  bool_cases. apply store_ok. lia.
Qed.

(** [fb'] is [fb] with the pixels of [done] painted. *)
Definition paints (glyph : list Z) (fb fb' : list Z) (done : list (Z * Z)) : Prop :=
  length fb' = length fb ∧
  (∀ x y k row, (x, y) ∈ done → 0 ≤ k < 3 → index glyph y = Ok row →
     fb' !! Z.to_nat (byte_at i (xs + x) (ys + y) k) = Some (glyph_byte i row x k)) ∧
  (∀ j, (∀ x y k, (x, y) ∈ done → 0 ≤ k < 3 → j ≠ Z.to_nat (byte_at i (xs + x) (ys + y) k)) →
     fb' !! j = fb !! j).

Definition put_rgb (x y : Z) (v : Z → Z) (fb : list Z) : list Z :=
  <[Z.to_nat (byte_at i (xs + x) (ys + y) 2) := v 2]>
  (<[Z.to_nat (byte_at i (xs + x) (ys + y) 1) := v 1]>
  (<[Z.to_nat (byte_at i (xs + x) (ys + y) 0) := v 0]> fb)).

Lemma draw_pixel_ok row y fb x : 0 ≤ x < 8 → 0 ≤ y < 8 → length fb = length (vram t) →
  draw_pixel i len xs ys row y fb x = Ok (put_rgb x y (glyph_byte i row x) fb).
Proof.
  intros Hx Hy Hfb. unfold draw_pixel, put_rgb, glyph_byte.
  rewrite shl1_ok by done. simpl_res. rewrite land_pow2_eqb, negb_involutive by lia.
  destruct (Z.testbit row x);
    repeat (rewrite put_byte_ok by (rewrite ?length_insert; lia); simpl_res); done.
Qed.

Lemma put_rgb_length x y v fb : length (put_rgb x y v fb) = length fb.
Proof. unfold put_rgb. by rewrite !length_insert. Qed.

(** The bytes of two cells' pixels coincide only for the same pixel. *)
Lemma cell_byte_inj x y k x' y' k' :
  0 ≤ x < 8 → 0 ≤ y < 8 → 0 ≤ k < 4 → 0 ≤ x' < 8 → 0 ≤ y' < 8 → 0 ≤ k' < 4 →
  Z.to_nat (byte_at i (xs + x) (ys + y) k) = Z.to_nat (byte_at i (xs + x') (ys + y') k') →
  x = x' ∧ y = y' ∧ k = k'.
Proof.
  intros. pose proof cursor_pixels as (? & ? & ? & ?).
  pose proof (byte_at_range (xs + x) (ys + y) k ltac:(lia) ltac:(lia) ltac:(lia)).
  pose proof (byte_at_range (xs + x') (ys + y') k' ltac:(lia) ltac:(lia) ltac:(lia)).
  destruct (byte_at_inj i (xs + x) (ys + y) k (xs + x') (ys + y') k'); lia.
Qed.

Lemma put_rgb_same x y v fb k : 0 ≤ x < 8 → 0 ≤ y < 8 → 0 ≤ k < 3 →
  length fb = length (vram t) →
  put_rgb x y v fb !! Z.to_nat (byte_at i (xs + x) (ys + y) k) = Some (v k).
Proof.
  intros Hx Hy Hk Hfb. pose proof cursor_pixels as (? & ? & ? & ?). destruct Hok.
  assert (∀ k, 0 ≤ k < 3 → (Z.to_nat (byte_at i (xs + x) (ys + y) k) < length fb)%nat).
  { intros k' Hk'. pose proof (byte_at_range (xs + x) (ys + y) k'). lia. }
  unfold put_rgb.
  assert (k = 0 ∨ k = 1 ∨ k = 2) as [->|[->| ->]] by lia;
    repeat first
      [ rewrite list_lookup_insert_eq by (rewrite ?length_insert; auto with lia)
      | rewrite list_lookup_insert_ne by (intros (? & ? & ?)%cell_byte_inj; lia) ]; done.
Qed.

Lemma put_rgb_other x y v fb j :
  (∀ k, 0 ≤ k < 3 → j ≠ Z.to_nat (byte_at i (xs + x) (ys + y) k)) →
  put_rgb x y v fb !! j = fb !! j.
Proof. intros Hj. unfold put_rgb. by rewrite !list_lookup_insert_ne by (intros E; eapply Hj; [|by rewrite E]; lia). Qed.

Lemma paints_snoc glyph fb fb' done x y row :
  length fb = length (vram t) → 0 ≤ x < 8 → 0 ≤ y < 8 →
  (∀ x y, (x, y) ∈ done → 0 ≤ x < 8 ∧ 0 ≤ y < 8) → index glyph y = Ok row →
  paints glyph fb fb' done →
  paints glyph fb (put_rgb x y (glyph_byte i row x) fb') (done ++ [(x, y)]).
Proof.
  intros Hfb Hx Hy Hdone Hrow (Hlen & Hin & Hout). split_and!.
  - by rewrite put_rgb_length.
  - intros x' y' k row' Hel Hk Hrow'.
    destruct (decide ((x', y') = (x, y))) as [[= -> ->]|Hne].
    + rewrite put_rgb_same by (done || congruence). congruence.
    + apply elem_of_app in Hel as [Hel|?%list_elem_of_singleton]; [|done].
      destruct (Hdone _ _ Hel).
      rewrite put_rgb_other; [by apply Hin|].
      intros k' Hk' (? & ? & ?)%cell_byte_inj; try lia. by subst.
  - intros j Hj. rewrite put_rgb_other.
    + apply Hout. intros x' y' k Hel. apply Hj. apply elem_of_app. by left.
    + intros k. apply Hj. apply elem_of_app. right. by apply list_elem_of_singleton.
Qed.

(** The pixels of the first [y] lines of a cell. *)
Definition cell_line (y : Z) : list (Z * Z) := (λ x, (x, y)) <$> seqZ 0 8.

Lemma elem_of_line x y y' : (x, y') ∈ cell_line y ↔ 0 ≤ x < 8 ∧ y' = y.
Proof.
  unfold cell_line. rewrite list_elem_of_fmap. split.
  - intros (x' & [= -> ->] & ?%elem_of_seqZ). split; [lia|done].
  - intros [Hx ->]. exists x. split; [done|]. apply elem_of_seqZ. lia.
Qed.

Lemma elem_of_lines ls x y : (x, y) ∈ ls ≫= cell_line ↔ 0 ≤ x < 8 ∧ y ∈ ls.
Proof.
  rewrite list_elem_of_bind. split.
  - intros (y' & [? ->]%elem_of_line & ?). done.
  - intros [Hx Hy]. exists y. split; [by apply elem_of_line|done].
Qed.

Lemma draw_row_ok glyph fb fb' ls y row :
  length fb = length (vram t) → 0 ≤ y < 8 → Forall (λ y, 0 ≤ y < 8) ls →
  index glyph y = Ok row → paints glyph fb fb' (ls ≫= cell_line) →
  ∃ fb'', draw_row i len xs ys glyph fb' y = Ok fb'' ∧
    paints glyph fb fb'' ((ls ++ [y]) ≫= cell_line).
Proof.
  intros Hfb Hy Hls Hrow HP. unfold draw_row. rewrite Hrow. simpl_res.
  replace ((ls ++ [y]) ≫= cell_line) with ((ls ≫= cell_line) ++ cell_line y)
    by (rewrite bind_app; cbn; by rewrite app_nil_r).
  apply (foldM_inv _ (λ d fb'', paints glyph fb fb'' ((ls ≫= cell_line) ++ ((λ x, (x, y)) <$> d)))
           (seqZ 0 8) [] fb'); [cbn; by rewrite app_nil_r|].
  intros d x r fb'' E HP'. apply seqZ_split_range in E as [Hx Hd].
  rewrite draw_pixel_ok by (done || (destruct HP' as [-> _]; done)).
  eexists. split; [done|]. rewrite fmap_app, app_assoc.
  apply paints_snoc; try done.
  intros x' y' [[? Hy']%elem_of_lines|(x0 & [= -> ->] & H0)%list_elem_of_fmap]%elem_of_app.
  - split; [done|]. by apply (proj1 (Forall_forall _ _) Hls).
  - split; [|done]. by apply (proj1 (Forall_forall _ _) Hd) in H0.
Qed.

Lemma advance_cursor_ok :
  ∃ i', advance_cursor i = Ok i' ∧
    i' = set_cursor i (cursor_x i') (cursor_y i') ∧
    0 ≤ cursor_x i' < cell_columns i ∧ 0 ≤ cursor_y i' < cell_rows i ∧
    (0 < columns i → 0 < rows i →
     cursor_y i' * columns i + cursor_x i' =
     (cursor_y i * columns i + cursor_x i + 1) mod (rows i * columns i)).
Proof.
  pose proof cursor_pixels as (? & ? & ? & ?). destruct Hok.
  assert (scan_width i ≤ len ∧ height i ≤ len) by nia.
  unfold advance_cursor, cell_columns, cell_rows, MARGIN in *. checked_arith.
  destruct (Z.leb_spec (columns i) (cursor_x i + 1)) as [Hc|Hc]; checked_arith.
  - eexists. split; [done|]. simpl. split; [done|].
    destruct (Z.leb_spec (rows i) (cursor_y i + 1)).
    + split_and!; try lia. intros. apply Z.mod_unique with (q := 1); nia.
    + split_and!; try lia. intros. apply Z.mod_unique with (q := 0); nia.
  - eexists. split; [done|]. simpl. split_and!; try done; try lia.
    intros. apply Z.mod_unique with (q := 0); nia.
Qed.

Lemma new_line_ok :
  new_line i = Ok (set_cursor i 0 (if rows i <=? cursor_y i + 1 then 0 else cursor_y i + 1)).
Proof.
  pose proof cursor_pixels as (? & ? & ? & ?). destruct Hok.
  assert (height i ≤ len) by nia.
  unfold new_line, cell_rows, MARGIN in *. by checked_arith.
Qed.

(** Drawing a glyph paints its cell and advances the cursor. *)
Lemma draw_glyph_ok glyph : length glyph = 8%nat →
  ∃ i' fb', draw_glyph t glyph = Ok (mkTerminal i' fb') ∧ advance_cursor i = Ok i' ∧
    paints glyph (vram t) fb' (seqZ 0 8 ≫= cell_line).
Proof.
  intros Hg. pose proof cursor_pixels as (? & ? & ? & ?). pose proof (so_vram t Hok).
  pose proof (so_x t Hok). pose proof (so_y t Hok).
  destruct advance_cursor_ok as (i' & Hadv & _). exists i'.
  assert (scan_width i ≤ len ∧ height i ≤ len ∧ len < 2 ^ 32) by (destruct Hok; nia).
  unfold draw_glyph, MARGIN in *. checked_arith. rewrite fb_len_ok. simpl_res.
  rewrite (proj2 (Z.leb_le _ _)) by lia.
  destruct (foldM_inv (draw_row i len xs ys glyph)
    (λ d fb', paints glyph (vram t) fb' (d ≫= cell_line)) (seqZ 0 8) [] (vram t))
    as (fb' & Hfold & HP).
  - split_and!; [done| |done]. intros x y k row Hel. by apply elem_of_nil in Hel.
  - intros d y r fb' E HP. apply seqZ_split_range in E as [Hy Hd].
    destruct (index_ok glyph y) as (row & Hrow & _); [lia|]. by apply draw_row_ok with row.
  - exists fb'. unfold MARGIN in Hfold. rewrite Hfold. simpl_res. by rewrite Hadv.
Qed.
End draw.

#[global] Instance same_screen_preorder : PreOrder same_screen.
Proof.
  split.
  - intros t. by constructor.
  - intros t1 t2 t3 H12 H23.
    destruct H12 as [? Hw ? ? Hr Hc ? ? Hf], H23 as [? ? ? ? ? ? ? ? Hf'].
    constructor; try congruence. intros X Y k HX HY Hk Ht.
    rewrite <- Hf by done. unfold byte_at, in_text_area, cell_columns, cell_rows in *.
    rewrite Hw, Hr, Hc in Hf'. by apply Hf'.
Qed.

Lemma screen_ok_same t t' : screen_ok t → same_screen t t' →
  0 ≤ cursor_x (info t') < cell_columns (info t) → 0 ≤ cursor_y (info t') < cell_rows (info t) →
  screen_ok t'.
Proof.
  intros Hok Hs Hx Hy. destruct Hok, Hs. unfold cell_columns, cell_rows in *.
  constructor; unfold cell_columns, cell_rows in *;
    rewrite ?ss_columns0, ?ss_rows0, ?ss_scan_width0, ?ss_height0, ?ss_length0; done.
Qed.

(** Changing the colours or the mode touches nothing else. *)
Lemma screen_recolor t r g b m : screen_ok t →
  let t' := mkTerminal (set_color (info t) r g b m) (vram t) in screen_ok t' ∧ same_screen t t'.
Proof.
  intros Hok. simpl. split; [|by constructor].
  apply screen_ok_same with t; [done|by constructor|apply Hok|apply Hok].
Qed.

Lemma screen_move t x y : screen_ok t →
  0 ≤ x < cell_columns (info t) → 0 ≤ y < cell_rows (info t) →
  let t' := mkTerminal (set_cursor (info t) x y) (vram t) in screen_ok t' ∧ same_screen t t'.
Proof.
  intros Hok Hx Hy. simpl. split; [|by constructor].
  apply screen_ok_same with t; [done|by constructor|done|done].
Qed.

Section print.
Context `{FontLaws}.

Lemma glyph_of_ok c : ∃ g, glyph_of c = Ok g ∧ length g = 8%nat ∧
  (get c = Some g ∨ get c = None ∧ get 32 = Some g).
Proof.
  unfold glyph_of. destruct (get c) as [g|] eqn:Hg.
  - exists g. destruct (get_rows c g Hg). naive_solver.
  - destruct get_space as [g Hs]. exists g. rewrite Hs. destruct (get_rows _ g Hs). naive_solver.
Qed.

(** A painted cell lies in the text area. *)
Lemma paints_same_screen t glyph i' fb' : screen_ok t →
  i' = set_cursor (info t) (cursor_x i') (cursor_y i') →
  paints t glyph (vram t) fb' (seqZ 0 8 ≫= cell_line) →
  same_screen t (mkTerminal i' fb').
Proof.
  intros Hok Hi (Hlen & _ & Hout).
  constructor; simpl; try (rewrite Hi; done); [done|].
  intros X Y k HX HY Hk Ht. simpl. apply Hout.
  intros x y k' [Hx Hy%elem_of_seqZ]%elem_of_lines Hk' E.
  pose proof (cursor_pixels t Hok) as (? & ? & ? & ?).
  assert (0 ≤ byte_at (info t) X Y k) by (unfold byte_at; nia).
  pose proof (byte_at_range t (MARGIN + cursor_x (info t) * 8 + x)
    (MARGIN + cursor_y (info t) * 8 + y) k' ltac:(lia) ltac:(lia) ltac:(lia)).
  apply Z2Nat.inj in E; [|lia..].
  apply byte_at_inj in E as (-> & -> & ->); [|lia..].
  destruct Ht as [[]|]; [|lia]. pose proof (so_x t Hok). pose proof (so_y t Hok).
  unfold in_text_area. lia.
Qed.

Lemma print_char_ok t c : screen_ok t →
  ∃ t', print_char t c = Ok t' ∧ screen_ok t' ∧ same_screen t t'.
Proof.
  intros Hok. unfold print_char.
  destruct (mode (info t)); [|eexists; split; [done|by apply screen_recolor]..].
  destruct (c =? 27); [eexists; split; [done|by apply screen_recolor]|].
  destruct (c =? 10).
  - rewrite new_line_ok by done. eexists. split; [done|]. pose proof (so_y t Hok).
    apply screen_move; [done|unfold cell_columns; lia|].
    unfold cell_rows in *. destruct (Z.leb_spec (rows (info t)) (cursor_y (info t) + 1)); lia.
  - destruct (glyph_of_ok c) as (g & -> & Hg & _). simpl_res.
    destruct (draw_glyph_ok t Hok g Hg) as (i' & fb' & -> & Hadv & HP).
    destruct (advance_cursor_ok t Hok) as (i'' & Hadv' & Hi & Hx & Hy & _).
    assert (i'' = i') as -> by congruence.
    assert (same_screen t (mkTerminal i' fb')) as Hs by by eapply paints_same_screen.
    eexists. split; [done|]. split; [|done]. by apply screen_ok_same with t.
Qed.

Lemma print_chars_ok msg t : screen_ok t →
  ∃ t', foldM print_char t msg = Ok t' ∧ screen_ok t' ∧ same_screen t t'.
Proof.
  revert t. induction msg as [|c msg IH]; intros t Hok; simpl; [by exists t|].
  destruct (print_char_ok t c Hok) as (t1 & -> & Hok1 & Hs1). simpl_res.
  destruct (IH t1 Hok1) as (t2 & Hf & Hok2 & Hs2). exists t2.
  split_and!; [done|done|by transitivity t1].
Qed.

Definition colors (i : Info) : Z * Z * Z := (color_r i, color_g i, color_b i).

(** Text without escape characters leaves colours and mode alone. *)
Lemma print_plain_char t c : screen_ok t → mode (info t) = Print → c ≠ 27 →
  ∃ t', print_char t c = Ok t' ∧ mode (info t') = Print ∧ colors (info t') = colors (info t).
Proof.
  intros Hok Hm Hc. unfold print_char. rewrite Hm. destruct (Z.eqb_spec c 27); [done|].
  destruct (c =? 10).
  - rewrite new_line_ok by done. by eexists.
  - destruct (glyph_of_ok c) as (g & -> & Hg & _). simpl_res.
    destruct (draw_glyph_ok t Hok g Hg) as (i' & fb' & -> & Hadv & HP).
    destruct (advance_cursor_ok t Hok) as (i'' & Hadv' & Hi & _).
    assert (i'' = i') as -> by congruence.
    eexists. split; [done|]. simpl. rewrite Hi. done.
Qed.

Lemma print_plain msg t : screen_ok t → mode (info t) = Print → 27 ∉ msg →
  ∃ t', foldM print_char t msg = Ok t' ∧ screen_ok t' ∧ same_screen t t' ∧
    mode (info t') = Print ∧ colors (info t') = colors (info t).
Proof.
  revert t. induction msg as [|c msg IH]; intros t Hok Hm Hin; simpl; [by exists t|].
  apply not_elem_of_cons in Hin as [Hc Hin].
  destruct (print_char_ok t c Hok) as (t1 & Ht1 & Hok1 & Hs1).
  destruct (print_plain_char t c Hok Hm) as (t1' & Ht1' & Hm1 & Hc1); [done|].
  assert (t1' = t1) as -> by congruence. rewrite Ht1. simpl_res.
  destruct (IH t1) as (t2 & Hf & Hok2 & Hs2 & Hm2 & Hc2); [done..|]. exists t2.
  split_and!; [done|done|by transitivity t1|done|congruence].
Qed.

(** The escape sequence [\x1B r g b] sets the colour. *)
Lemma print_escape t r g b msg : mode (info t) = Print →
  foldM print_char t (27 :: r :: g :: b :: msg) =
  foldM print_char (mkTerminal (set_color (info t) (wrap 8 r) (wrap 8 g) (wrap 8 b) Print) (vram t)) msg.
Proof. intros Hm. destruct t as [i v], i; simpl in Hm; subst; reflexivity. Qed.

Lemma with_lock_ok fuel t body t' :
  (0 < fuel)%nat → lock (info t) = SpinLock_new →
  body (mkTerminal (set_lock (info t) (mkSpinLock true)) (vram t)) = Ok t' →
  with_lock fuel t body = Ok (mkTerminal (set_lock (info t') SpinLock_new) (vram t')).
Proof.
  intros Hf Hl Hb. unfold with_lock. destruct fuel; [lia|].
  rewrite lock_spin_free by (by rewrite Hl). simpl_res. by rewrite Hb.
Qed.

(** Taking and releasing the lock is invisible in the screen. *)
Lemma screen_ok_lock t l : screen_ok t → screen_ok (mkTerminal (set_lock (info t) l) (vram t)).
Proof. intros []. by constructor. Qed.

Lemma same_screen_locked t t' : lock (info t) = SpinLock_new →
  same_screen (mkTerminal (set_lock (info t) (mkSpinLock true)) (vram t)) t' →
  same_screen t (mkTerminal (set_lock (info t') SpinLock_new) (vram t')).
Proof. intros Hl []. by constructor. Qed.

(** A property of the printed state that does not look at the lock. *)
Lemma print_with fuel t msg (P : Info → Prop) :
  (0 < fuel)%nat → screen_ok t → lock (info t) = SpinLock_new →
  (∀ i l, P i → P (set_lock i l)) →
  (∃ t', foldM print_char (mkTerminal (set_lock (info t) (mkSpinLock true)) (vram t)) msg = Ok t'
     ∧ P (info t')) →
  ∃ t', print fuel t msg = Ok t' ∧ screen_ok t' ∧ same_screen t t' ∧ P (info t').
Proof.
  intros Hf Hok Hl HP (t1 & Ht1 & HP1).
  destruct (print_chars_ok msg _ (screen_ok_lock t (mkSpinLock true) Hok)) as (t1' & Ht1' & Hok1 & Hs1).
  assert (t1' = t1) as -> by congruence.
  eexists. split; [by apply with_lock_ok|].
  split_and!; [by apply screen_ok_lock|by apply same_screen_locked|by apply HP].
Qed.

Lemma print_ok fuel t msg :
  (0 < fuel)%nat → screen_ok t → lock (info t) = SpinLock_new →
  ∃ t', print fuel t msg = Ok t' ∧ screen_ok t' ∧ same_screen t t'.
Proof.
  intros Hf Hok Hl. destruct (print_with fuel t msg (λ _, True)) as (t' & ? & ? & ? & _); eauto.
  destruct (print_chars_ok msg _ (screen_ok_lock t (mkSpinLock true) Hok)) as (t1 & ? & _). eauto.
Qed.

Lemma prints_ok fuel msgs t :
  (0 < fuel)%nat → screen_ok t → lock (info t) = SpinLock_new →
  ∃ t', write_pieces fuel t msgs = Ok t' ∧ screen_ok t' ∧ same_screen t t'.
Proof.
  intros Hf. revert t. induction msgs as [|m msgs IH]; intros t Hok Hl; [by exists t|].
  destruct (print_ok fuel t m Hf Hok Hl) as (t1 & Ht1 & Hok1 & Hs1).
  destruct (IH t1 Hok1) as (t2 & Ht2 & Hok2 & Hs2); [by rewrite (ss_lock _ _ Hs1)|].
  exists t2. unfold write_pieces. simpl. rewrite Ht1. split_and!; [done|done|by transitivity t1].
Qed.
End print.
