(* ===== verification/TerminalTheorems.v ===== *)
(** * Correctness of the terminal.

    The log macros as the text they print, and the theorems about what a user
    of [kernel/src/terminal.rs] sees, with their witnesses on a small screen
    and a two-character font. *)
From stdpp Require Import base gmap numbers strings list.
From S2P Require Import Prelude.
From S2P Require Import KernelHeader.
From S2P Require Import Mutex.
From S2P Require Import Terminal.

#[local] Open Scope Z_scope.

(** ** The log macros *)

(** [{:^15}]: centre in 15 columns, the odd space on the right. *)
Definition center15 (ctx : list Z) : list Z :=
  let pad := (15 - length ctx)%nat in
  replicate (pad / 2) 32 ++ ctx ++ replicate ((pad + 1) / 2) 32.

(** [\x1B], red, green, blue *)
Definition escape (r g b : Z) : list Z := [27; r; g; b].

(** What [writeln!] prints for each macro; [body] is the formatted message. *)
Definition verbose_text (ctx body : list Z) : list Z :=
  escape 0x88 0x88 0x88 ++ [91] ++ center15 ctx ++ [93; 32] ++ body ++ escape 255 255 255 ++ [10].

Definition info_text (ctx body : list Z) : list Z :=
  escape 0 255 0 ++ [91] ++ center15 ctx ++ [93; 32] ++ escape 255 255 255 ++ body ++ [10].

Definition warning_text (ctx body : list Z) : list Z :=
  escape 255 255 0 ++ [91] ++ center15 ctx ++ [93; 32] ++ body ++ escape 255 255 255 ++ [10].

Definition error_text (ctx body : list Z) : list Z :=
  escape 255 0 0 ++ [91] ++ center15 ctx ++ [93; 32] ++ body ++ escape 255 255 255 ++ [10].

(** ** Start-up *)

(** A mode the firmware can report: at least the margins, lines no longer than
    the scanline, a framebuffer below 4 GiB. *)
Record mode_ok (kh : KernelHeader) : Prop := {
  mo_width : 32 ≤ screen_width kh ≤ screen_scanline_width kh;
  mo_height : 32 ≤ screen_height kh;
  mo_u32 : screen_scanline_width kh * screen_height kh * 4 < 2 ^ 32;
}.

Definition screen_bytes (kh : KernelHeader) : Z :=
  screen_scanline_width kh * screen_height kh * 4.

(** [terminal::init(kh); terminal::clear();] and then some output. *)
Definition terminal_session `{Font} (fuel : nat) (kh : KernelHeader) (mem : list Z)
    (msgs : list (list Z)) : res terminal :=
  i ← init kh;
  t ← clear fuel (mkTerminal i mem);
  write_pieces fuel t msgs.

Lemma terminal_init_ok kh mem : mode_ok kh → screen_bytes kh ≤ Z.of_nat (length mem) →
  ∃ i, init kh = Ok i ∧ screen_ok (mkTerminal i mem) ∧ lock i = SpinLock_new ∧ mode i = Print ∧
    scan_width i = screen_scanline_width kh ∧ height i = screen_height kh.
Proof.
  intros [Hw Hh Hu] Hmem. unfold init, MARGIN, screen_bytes in *.
  assert (screen_scanline_width kh ≤ screen_scanline_width kh * screen_height kh * 4 ∧
          screen_height kh ≤ screen_scanline_width kh * screen_height kh * 4) by nia.
  change (mul_w 32 16 2) with (Ok 32). checked_arith.
  eexists. split; [done|]. split; [|done].
  pose proof (Z.div_le_mono 0 (screen_height kh - 32) 8).
  pose proof (Z.div_le_mono 0 (screen_width kh - 32) 8).
  pose proof (Z.mul_div_le (screen_height kh - 32) 8).
  pose proof (Z.mul_div_le (screen_width kh - 32) 8).
  rewrite Z.div_0_l in * by done.
  constructor; simpl; unfold cell_columns, cell_rows; simpl; lia.
Qed.

Lemma clear_ok fuel t : (0 < fuel)%nat → screen_ok t → lock (info t) = SpinLock_new →
  let n := Z.to_nat (scan_width (info t) * height (info t) * 4) in
  clear fuel t = Ok (mkTerminal (info t) (replicate n 0 ++ drop n (vram t))).
Proof.
  intros Hf Hok Hl n. unfold clear. erewrite with_lock_ok; [|done..|].
  2:{ assert (screen_ok (mkTerminal (set_lock (info t) (mkSpinLock true)) (vram t)))
        as Hok' by by apply screen_ok_lock.
      rewrite (fb_len_ok _ Hok'). simpl_res. simpl.
      rewrite (proj2 (Z.leb_le _ _)) by apply Hok. done. }
  simpl. rewrite <- Hl. by destruct (info t).
Qed.

Lemma screen_ok_vram t fb : screen_ok t → length fb = length (vram t) →
  screen_ok (mkTerminal (info t) fb).
Proof. intros [] Hl. constructor; simpl; try done. by rewrite Hl. Qed.

(** Every byte past the screen belongs to a line below it. *)
Lemma byte_decompose i j : 0 < scan_width i → 0 ≤ j →
  ∃ X Y k, j = byte_at i X Y k ∧ 0 ≤ X < scan_width i ∧ 0 ≤ Y ∧ 0 ≤ k < 4 ∧
    (scan_width i * height i * 4 ≤ j → height i ≤ Y).
Proof.
  intros Hw Hj. exists ((j / 4) mod scan_width i), (j / 4 / scan_width i), (j mod 4).
  pose proof (Z.mod_pos_bound (j / 4) (scan_width i)).
  pose proof (Z.mod_pos_bound j 4).
  pose proof (Z.div_mod (j / 4) (scan_width i)). pose proof (Z.div_mod j 4).
  assert (0 ≤ j / 4) by (apply Z.div_pos; lia).
  assert (0 ≤ j / 4 / scan_width i) by (apply Z.div_pos; lia).
  unfold byte_at. split_and!; try lia. nia.
Qed.

(** C13: on any screen mode with room for the margins, start-up and then any
    sequence of messages (any characters, escape sequences cut short, lines
    longer than the screen, more lines than the screen has) runs without a
    panic, leaves the lock free and the cursor on a cell, keeps the margin
    black and does not touch memory beyond the screen. *)
Theorem terminal_safe `{FontLaws} fuel kh mem msgs :
  mode_ok kh → screen_bytes kh ≤ Z.of_nat (length mem) → (0 < fuel)%nat →
  ∃ t, terminal_session fuel kh mem msgs = Ok t ∧
    screen_ok t ∧ locked (lock (info t)) = false ∧
    (∀ X Y k, 0 ≤ X < scan_width (info t) → 0 ≤ Y < height (info t) → 0 ≤ k < 4 →
       ¬ in_text_area (info t) X Y → vram t !! Z.to_nat (byte_at (info t) X Y k) = Some 0) ∧
    (∀ j, screen_bytes kh ≤ j → vram t !! Z.to_nat j = mem !! Z.to_nat j).
Proof.
  intros Hmo Hmem Hf. destruct (terminal_init_ok kh mem Hmo Hmem) as (i & Hi & Hok & Hl & _ & Hsw & Hh).
  unfold terminal_session. rewrite Hi. simpl_res. rewrite clear_ok by done. simpl_res. simpl.
  set (n := Z.to_nat (scan_width i * height i * 4)).
  set (t0 := mkTerminal i (replicate n 0 ++ drop n mem)).
  assert (screen_bytes kh = scan_width i * height i * 4) as Hsb by (unfold screen_bytes; by rewrite Hsw, Hh).
  assert (0 < scan_width i ∧ 0 < height i) by (destruct Hmo; lia).
  assert (screen_ok t0) as Hok0.
  { apply (screen_ok_vram (mkTerminal i mem)); [done|].
    rewrite length_app, length_replicate, length_drop. simpl. lia. }
  destruct (prints_ok fuel msgs t0 Hf Hok0 Hl) as (t & Ht & Hokt & Hs). exists t.
  split_and!; [done|done|rewrite (ss_lock _ _ Hs); simpl; by rewrite Hl| |].
  - intros X Y k HX HY Hk Hout. destruct Hs as [_ Hsw' Hh' _ Hr Hc _ _ Hfr].
    unfold in_text_area, cell_columns, cell_rows, byte_at in *. rewrite Hsw', Hh', Hr, Hc in *.
    simpl in *. rewrite Hfr by (auto with lia).
    rewrite lookup_app_l by (rewrite length_replicate; nia).
    apply lookup_replicate_2. nia.
  - intros j Hj. destruct (byte_decompose i j) as (X & Y & k & -> & HX & HY & Hk & Hbelow); [lia..|].
    rewrite (ss_frame _ _ Hs) by (auto || (left; unfold in_text_area, cell_rows; simpl;
      destruct Hok as [_ Hrows _ _ _ _]; simpl in Hrows; unfold MARGIN; lia)).
    simpl. rewrite lookup_app_r by (rewrite length_replicate; lia).
    rewrite length_replicate, lookup_drop. f_equal. lia.
Qed.

(** C14: a printed character turns exactly its 8x8 cell into its glyph (the
    space's glyph when the font lacks it): lit pixels get the current colour
    in the byte order of the framebuffer, the others black; everything else
    in memory, and each pixel's padding byte, keeps its value; the cursor
    moves to the next cell in reading order. *)
Theorem print_char_draws `{FontLaws} t c :
  screen_ok t → mode (info t) = Print → c ≠ 27 → c ≠ 10 →
  ∃ t' glyph, print_char t c = Ok t' ∧
    (get c = Some glyph ∨ get c = None ∧ get 32 = Some glyph) ∧
    (∀ x y k, 0 ≤ x < 8 → 0 ≤ y < 8 → 0 ≤ k < 3 →
       ∃ row, glyph !! Z.to_nat y = Some row ∧
       vram t' !! Z.to_nat (byte_at (info t) (MARGIN + cursor_x (info t) * 8 + x)
                                              (MARGIN + cursor_y (info t) * 8 + y) k) =
       Some (if Z.testbit row x then channel (info t) k else 0)) ∧
    (∀ j, (∀ x y k, 0 ≤ x < 8 → 0 ≤ y < 8 → 0 ≤ k < 3 →
             j ≠ Z.to_nat (byte_at (info t) (MARGIN + cursor_x (info t) * 8 + x)
                                             (MARGIN + cursor_y (info t) * 8 + y) k)) →
       vram t' !! j = vram t !! j) ∧
    (0 < columns (info t) → 0 < rows (info t) →
     cursor_y (info t') * columns (info t) + cursor_x (info t') =
     (cursor_y (info t) * columns (info t) + cursor_x (info t) + 1)
       mod (rows (info t) * columns (info t))).
Proof.
  intros Hok Hm Hesc Hnl. unfold print_char. rewrite Hm.
  destruct (Z.eqb_spec c 27), (Z.eqb_spec c 10); try done.
  destruct (glyph_of_ok c) as (g & -> & Hg & Hget). simpl_res.
  destruct (draw_glyph_ok t Hok g Hg) as (i' & fb' & -> & Hadv & Hlen & Hin & Hout).
  destruct (advance_cursor_ok t Hok) as (i'' & Hadv' & Hi & _ & _ & Hpos).
  assert (i'' = i') as -> by congruence. rename Hget into Hgl.
  exists (mkTerminal i' fb'), g. split_and!; [done|done| | |done].
  - intros x y k Hx Hy Hk. destruct (index_ok g y) as (row & Hrow & Hlk); [lia|].
    exists row. split; [done|]. eapply Hin; [|done|done].
    apply elem_of_lines. split; [done|]. apply elem_of_seqZ. lia.
  - intros j Hj. apply Hout. intros x y k [Hx Hy%elem_of_seqZ]%elem_of_lines Hk.
    apply Hj; lia.
Qed.

(** The number of the cell the cursor is on, in reading order. *)
Definition cell_number (i : Info) : Z := cursor_y i * columns i + cursor_x i.

Lemma print_char_cell `{FontLaws} t c : screen_ok t → mode (info t) = Print → c ≠ 27 → c ≠ 10 →
  0 < columns (info t) → 0 < rows (info t) →
  ∃ t', print_char t c = Ok t' ∧ mode (info t') = Print ∧
    cell_number (info t') = (cell_number (info t) + 1) mod (rows (info t) * columns (info t)).
Proof.
  intros Hok Hm Hesc Hnl Hc Hr. unfold print_char. rewrite Hm.
  destruct (Z.eqb_spec c 27), (Z.eqb_spec c 10); try done.
  destruct (glyph_of_ok c) as (g & -> & Hg & _). simpl_res.
  destruct (draw_glyph_ok t Hok g Hg) as (i' & fb' & -> & Hadv & _).
  destruct (advance_cursor_ok t Hok) as (i'' & Hadv' & Hi & _ & _ & Hpos).
  assert (i'' = i') as -> by congruence.
  exists (mkTerminal i' fb'). unfold cell_number. simpl. rewrite <- (Hpos Hc Hr).
  split_and!; [done|by rewrite Hi|]. by rewrite Hi.
Qed.

Lemma print_chars_cell `{FontLaws} msg t : screen_ok t → mode (info t) = Print →
  0 < columns (info t) → 0 < rows (info t) → 27 ∉ msg → 10 ∉ msg →
  ∃ t', foldM print_char t msg = Ok t' ∧
    cell_number (info t') =
    (cell_number (info t) + Z.of_nat (length msg)) mod (rows (info t) * columns (info t)).
Proof.
  revert t. induction msg as [|c msg IH]; intros t Hok Hm Hc Hr Hesc Hnl.
  - exists t. split; [done|]. simpl. rewrite Z.add_0_r, Z.mod_small; [done|].
    destruct Hok. unfold cell_number, cell_columns, cell_rows in *. nia.
  - apply not_elem_of_cons in Hesc as [Hc27 Hesc], Hnl as [Hc10 Hnl].
    destruct (print_char_ok t c Hok) as (t1 & Ht1 & Hok1 & Hs1).
    destruct (print_char_cell t c) as (t1' & Ht1' & Hm1 & Hn1); [done..|].
    assert (t1' = t1) as -> by congruence. destruct Hs1.
    destruct (IH t1) as (t2 & Ht2 & Hn2); [congruence..|].
    exists t2. simpl. rewrite Ht1. split; [done|].
    rewrite Hn2, Hn1, ss_rows, ss_columns, Z.add_mod_idemp_l by nia. f_equal. lia.
Qed.

(** Printing a text of [n] printable characters moves the cursor [n]
    cells forward in reading order, wrapping from the last cell to the first. *)
Lemma print_text_cursor `{FontLaws} fuel t msg :
  (0 < fuel)%nat → screen_ok t → lock (info t) = SpinLock_new → mode (info t) = Print →
  0 < columns (info t) → 0 < rows (info t) → 27 ∉ msg → 10 ∉ msg →
  ∃ t', print fuel t msg = Ok t' ∧
    cell_number (info t') =
    (cell_number (info t) + Z.of_nat (length msg)) mod (rows (info t) * columns (info t)).
Proof.
  intros Hf Hok Hl Hm Hc Hr Hesc Hnl.
  destruct (print_with fuel t msg (λ i, cell_number i =
    (cell_number (info t) + Z.of_nat (length msg)) mod (rows (info t) * columns (info t))))
    as (t' & ? & _ & _ & ?); eauto.
  apply (print_chars_cell msg (mkTerminal (set_lock (info t) (mkSpinLock true)) (vram t)));
    try done. by apply screen_ok_lock.
Qed.

(** Printing does not look at the lock. *)
Definition relock (t : terminal) (l : SpinLock) : terminal :=
  mkTerminal (set_lock (info t) l) (vram t).

Lemma print_char_relock `{Font} t c l :
  print_char (relock t l) c = (t' ← print_char t c; mret (relock t' l)).
Proof.
  unfold print_char. simpl. destruct (mode (info t)); try done.
  destruct (c =? 27); [done|]. destruct (c =? 10).
  - unfold new_line. simpl. by destruct (add_w 32 _ _).
  - destruct (glyph_of c) as [g|]; simpl_res; [|done].
    unfold draw_glyph, relock. cbn [info vram cursor_x cursor_y set_lock].
    destruct (mul_w 32 (cursor_x (info t)) 8) as [cx|]; simpl_res; [|done].
    destruct (add_w 32 MARGIN cx) as [xs|]; simpl_res; [|done].
    destruct (mul_w 32 (cursor_y (info t)) 8) as [cy|]; simpl_res; [|done].
    destruct (add_w 32 MARGIN cy) as [ys|]; simpl_res; [|done].
    change (fb_len (set_lock (info t) l)) with (fb_len (info t)).
    destruct (fb_len (info t)) as [n|]; simpl_res; [|done].
    destruct (n <=? _); [|done].
    change (draw_row (set_lock (info t) l)) with (draw_row (info t)).
    destruct (foldM (draw_row (info t) n xs ys g) (vram t) (seqZ 0 8)) as [fb|]; simpl_res; [|done].
    unfold advance_cursor. simpl. destruct (add_w 32 (cursor_x _) 1); simpl_res; [|done].
    destruct (_ <=? _); [|done]. by destruct (add_w 32 (cursor_y _) 1).
Qed.

Lemma print_chars_relock `{Font} msg t l :
  foldM print_char (relock t l) msg = (t' ← foldM print_char t msg; mret (relock t' l)).
Proof.
  revert t. induction msg as [|c msg IH]; intros t; simpl; [done|].
  rewrite print_char_relock. destruct (print_char t c); simpl_res; [apply IH|done].
Qed.

Lemma relock_same t : lock (info t) = SpinLock_new → relock t SpinLock_new = t.
Proof. intros Hl. unfold relock. rewrite <- Hl. destruct t as [[] ?]. done. Qed.

(** With the lock free, the pieces of a line print like the whole line. *)
Lemma print_fold `{FontLaws} fuel t msg : (0 < fuel)%nat → screen_ok t →
  lock (info t) = SpinLock_new → print fuel t msg = foldM print_char t msg.
Proof.
  intros Hf Hok Hl. destruct (print_chars_ok msg t Hok) as (t' & Ht' & _ & Hs).
  unfold print. erewrite with_lock_ok; [|done..|].
  2:{ fold (relock t (mkSpinLock true)). rewrite print_chars_relock, Ht'. simpl_res. done. }
  rewrite Ht'. simpl. f_equal. destruct Hs. apply (relock_same t'). congruence.
Qed.

Lemma write_pieces_concat `{FontLaws} fuel pieces t : (0 < fuel)%nat → screen_ok t →
  lock (info t) = SpinLock_new →
  write_pieces fuel t pieces = foldM print_char t (concat pieces).
Proof.
  intros Hf. revert t. induction pieces as [|m ms IH]; intros t Hok Hl; [done|].
  unfold write_pieces. simpl. rewrite foldM_app, print_fold by done.
  destruct (print_chars_ok m t Hok) as (t' & Ht' & Hok' & Hs). rewrite Ht'. simpl_res.
  apply IH; [done|]. destruct Hs. congruence.
Qed.

Lemma center15_plain ctx : 27 ∉ ctx → 27 ∉ center15 ctx.
Proof.
  intros Hc. unfold center15. rewrite !elem_of_app.
  intros [[? _]%elem_of_replicate|[?|[? _]%elem_of_replicate]]; done.
Qed.

(** A line that sets a colour, prints plain text, sets white and prints plain
    text again ends in white. *)
Lemma colored_line `{FontLaws} t r g b m1 m2 : screen_ok t → mode (info t) = Print →
  27 ∉ m1 → 27 ∉ m2 →
  ∃ t', foldM print_char t (escape r g b ++ m1 ++ escape 255 255 255 ++ m2) = Ok t' ∧
    screen_ok t' ∧ same_screen t t' ∧ mode (info t') = Print ∧ colors (info t') = (255, 255, 255).
Proof.
  intros Hok Hm H1 H2. unfold escape at 1. cbn [app]. rewrite print_escape, foldM_app by done.
  destruct (screen_recolor t (wrap 8 r) (wrap 8 g) (wrap 8 b) Print Hok) as [Hok0 Hs0].
  destruct (print_plain m1 _ Hok0 eq_refl H1) as (t1 & -> & Hok1 & Hs1 & Hm1 & _). simpl_res.
  unfold escape. cbn [app]. rewrite print_escape by done. change (wrap 8 255) with 255.
  destruct (screen_recolor t1 255 255 255 Print Hok1) as [Hok2 Hs2].
  destruct (print_plain m2 _ Hok2 eq_refl H2) as (t3 & -> & Hok3 & Hs3 & Hm3 & Hc3).
  exists t3. split_and!; [done|done| |done|done].
  by do 3 (etransitivity; [eassumption|]).
Qed.

(** A log line, however formatting cuts it into pieces. *)
Lemma log_line_ok `{FontLaws} fuel t ctx body text pieces :
  (0 < fuel)%nat → screen_ok t → lock (info t) = SpinLock_new → mode (info t) = Print →
  27 ∉ ctx → 27 ∉ body →
  text ∈ [verbose_text ctx body; info_text ctx body; warning_text ctx body; error_text ctx body] →
  concat pieces = text →
  ∃ t', write_pieces fuel t pieces = Ok t' ∧ screen_ok t' ∧ lock (info t') = SpinLock_new ∧
    mode (info t') = Print ∧ colors (info t') = (255, 255, 255).
Proof.
  intros Hf Hok Hl Hm Hctx Hbody Htext Hp. rewrite write_pieces_concat, Hp by done.
  apply center15_plain in Hctx.
  assert (∃ r g b m1 m2, text = escape r g b ++ m1 ++ escape 255 255 255 ++ m2 ∧
    27 ∉ m1 ∧ 27 ∉ m2) as (r & g & b & m1 & m2 & -> & H1 & H2).
  { rewrite !elem_of_cons, elem_of_nil in Htext.
    destruct Htext as [->|[->|[->|[->|[]]]]];
      [exists 0x88, 0x88, 0x88, ([91] ++ center15 ctx ++ [93; 32] ++ body), [10]
      |exists 0, 255, 0, ([91] ++ center15 ctx ++ [93; 32]), (body ++ [10])
      |exists 255, 255, 0, ([91] ++ center15 ctx ++ [93; 32] ++ body), [10]
      |exists 255, 0, 0, ([91] ++ center15 ctx ++ [93; 32] ++ body), [10]];
      (split; [by rewrite <- ?app_assoc|]); rewrite ?elem_of_app, !elem_of_cons, elem_of_nil; naive_solver. }
  destruct (colored_line t r g b m1 m2) as (t' & Ht' & Hok' & Hs & ? & ?); [done..|].
  exists t'. split_and!; try done. destruct Hs. congruence.
Qed.

(** C15: while nobody holds the terminal's lock and its parser is in print mode,
    whatever is logged, by any of the four macros and however the formatting
    machinery cuts the text into pieces, the line runs without a
    panic and leaves the terminal printing in white, provided the text itself
    holds no escape character. *)
Theorem log_restores_white `{FontLaws} fuel t ctx body text pieces :
  (0 < fuel)%nat → screen_ok t → lock (info t) = SpinLock_new → mode (info t) = Print →
  27 ∉ ctx → 27 ∉ body →
  text ∈ [verbose_text ctx body; info_text ctx body; warning_text ctx body; error_text ctx body] →
  concat pieces = text →
  ∃ t', write_pieces fuel t pieces = Ok t' ∧ screen_ok t' ∧ lock (info t') = SpinLock_new ∧
    mode (info t') = Print ∧ colors (info t') = (255, 255, 255).
Proof. apply log_line_ok. Qed.

(** A message printed while the lock is held never gets printed, however
    long it spins.  A panic keeps the guard of the scope it leaves, so a panic
    inside [print] stops in the panic handler's own message. *)
Lemma print_while_locked_spins `{Font} fuel t msg :
  locked (lock (info t)) = true → print fuel t msg = Err OutOfFuel.
Proof. intros Hl. unfold print, with_lock. by rewrite lock_spin_held. Qed.

(** ** Witnesses *)

(** A font with a diagonal for [A] and an empty space. *)
Definition demo_get (c : Z) : option (list Z) :=
  if c =? 65 then Some [1; 2; 4; 8; 16; 32; 64; 128]
  else if c =? 32 then Some [0; 0; 0; 0; 0; 0; 0; 0] else None.

#[local] Instance demo_font : Font := { get := demo_get }.

#[local] Instance demo_font_laws : FontLaws.
Proof.
  split.
  - intros c g. cbn. unfold demo_get.
    destruct (c =? 65); [|destruct (c =? 32)]; intros [= <-];
      (split; [done|]); by repeat constructor.
  - by eexists.
Qed.

Definition demo_header : KernelHeader :=
  mkKernelHeader 0xE0000000 48 48 50 BGR (mkPagingInfo 0 0 0 0) 0 0 0.

Definition demo_mem : list Z := replicate (Z.to_nat 9700) 7.

(** The last of the four cells of a 48x48 screen. *)
Definition demo_terminal : terminal :=
  mkTerminal (mkInfo SpinLock_new 0xE0000000 50 48 BGR 2 2 1 1 10 20 30 Print) demo_mem.

Lemma demo_terminal_ok : screen_ok demo_terminal.
Proof.
  constructor; cbn; unfold cell_columns, cell_rows, demo_mem; rewrite ?length_replicate; cbn; lia.
Qed.

Lemma terminal_safe_witness :
  ∃ t, terminal_session 1 demo_header demo_mem [[65; 66]; [27]; [10; 0; 0; 65; 65; 65; 65]] = Ok t ∧
    screen_ok t ∧ vram t !! Z.to_nat 9699 = Some 7.
Proof.
  destruct (terminal_safe 1 demo_header demo_mem [[65; 66]; [27]; [10; 0; 0; 65; 65; 65; 65]])
    as (t & Ht & Hok & _ & _ & Hj).
  - by constructor.
  - vm_compute. discriminate.
  - lia.
  - exists t. split; [exact Ht|]. split; [exact Hok|].
    rewrite Hj by (vm_compute; discriminate). vm_compute. reflexivity.
Defined.

Lemma print_char_draws_witness :
  ∃ t', print_char demo_terminal 65 = Ok t' ∧
    cursor_y (info t') * 2 + cursor_x (info t') = 0 ∧
    vram t' !! Z.to_nat (byte_at (info demo_terminal) 26 26 0) = Some 30.
Proof.
  destruct (print_char_draws demo_terminal 65) as (t' & g & Ht' & Hg & Hin & _ & Hpos);
    [exact demo_terminal_ok|reflexivity|discriminate|discriminate|].
  exists t'. split; [exact Ht'|].
  assert (g = [1; 2; 4; 8; 16; 32; 64; 128]) as -> by (destruct Hg as [[= <-]|[[=] _]]; reflexivity).
  destruct (Hin 2 2 0) as (row & Hrow & Hv); [lia..|]. injection Hrow as <-.
  split; [apply Hpos; reflexivity|exact Hv].
Defined.

Lemma log_restores_white_witness :
  ∃ t', write_pieces 1 demo_terminal [take 20 (info_text [75] [65]); drop 20 (info_text [75] [65])]
      = Ok t' ∧ screen_ok t' ∧ lock (info t') = SpinLock_new ∧
    mode (info t') = Print ∧ colors (info t') = (255, 255, 255).
Proof.
  apply (log_restores_white 1 demo_terminal [75] [65] (info_text [75] [65]));
    [lia|exact demo_terminal_ok|done|done|set_solver|set_solver|set_solver|].
  vm_compute. reflexivity.
Defined.
