(* ===== verification/Paging.v ===== *)
(** * The boot page table ([bootloader/src/paging.rs], and its second half in
    [kernel/src/arch/x86_64/virt_manager.rs]).

    The table is one buffer of pages from the firmware, written as a slice of
    64-bit words; what [allocate_pages] returns (an address, and the words
    that happen to be there) is a parameter.  [walk] is the translation the
    processor makes with such a table, after the AMD64 manual the source
    cites (volume 2, section 5.3); it is the specification, not code. *)
From stdpp Require Import base gmap numbers strings list.
From S2P Require Import Prelude.
From S2P Require Import KernelHeader.
From S2P Require Import VirtManager.

#[local] Open Scope Z_scope.

Definition PML_P : Z := 0x1.
Definition PML_RW : Z := 0x2.
Definition PML4_ADDR_MASK : Z := 0x000FFFFFFFFFF000.
Definition PML4_ENTRY_BASE : Z := Z.lor PML_P PML_RW.
Definition PDPE_ADDR_MASK : Z := 0x000FFFFFFFFFF000.
Definition PDPE_ENTRY_BASE : Z := Z.lor PML_P PML_RW.
Definition PDE_ADDR_MASK : Z := 0x000FFFFFFFE00000.
Definition PDE_ENTRY_BASE : Z := Z.lor (Z.lor PML_P PML_RW) 0x80.

(** [BootServices::allocate_pages(AnyPages, LOADER_DATA, n)]: the address of
    [n] fresh pages and the words that are in them, or a failure. *)
Class PageSource := { allocate_pages : Z → option (Z * list Z) }.

(** What UEFI promises: whole pages, inside the physical address space. *)
Class PageSourceLaws `{PageSource} := {
  pages_aligned : ∀ n p ws, allocate_pages n = Some (p, ws) → (4096 | p);
  pages_range : ∀ n p ws, allocate_pages n = Some (p, ws) → 0 ≤ p ∧ p + n * 4096 ≤ 2 ^ 52;
  pages_words : ∀ n p ws, allocate_pages n = Some (p, ws) → Z.of_nat (length ws) = n * 512;
}.

(** How many entries and pages a table for [physical_size] bytes needs. *)
Record table_size := mkTableSize {
  ts_pml4_entries : Z;
  ts_pdp_entries : Z;
  ts_pd_entries : Z;
  ts_pml4_pages : Z;
  ts_pdp_pages : Z;
  ts_pd_pages : Z;
  ts_alloc_pages : Z;
}.

Definition pages_for (entries : Z) : res Z :=
  b ← mul_w 64 entries 8; b ← add_w 64 b 4095; mret (b / 4096).

Definition size_tables (physical_size : Z) : res table_size :=
  let physical_size := Z.land physical_size 0x00007FFFFFFFFFFF in
  pml4_entries ← add_w 64 (Z.shiftr physical_size 39) 1;
  pdp_entries ← add_w 64 (Z.shiftr physical_size 30) 1;
  pd_entries ← add_w 64 (Z.shiftr physical_size 21) 1;
  pml4_pages ← pages_for pml4_entries;
  pdp_pages ← pages_for pdp_entries;
  pd_pages ← pages_for pd_entries;
  a ← add_w 64 pml4_pages pdp_pages;
  alloc_pages ← add_w 64 a pd_pages;
  mret (mkTableSize pml4_entries pdp_entries pd_entries pml4_pages pdp_pages pd_pages alloc_pages).

(** [page_buffer[k] = v]: the slice claims [alloc_pages * 4096] words; a store
    within the slice but past the words of the allocation is undefined. *)
Definition put_entry (ts : table_size) (ws : list Z) (k v : Z) : res (list Z) :=
  n ← mul_w 64 (ts_alloc_pages ts) 4096;
  if n <=? k then Err PanicBounds
  else if k <? Z.of_nat (length ws) then store ws k v else Err UB.

(** [for pml4_entry in 0..pml4_entries] *)
Definition fill_pml4 (ts : table_size) (ptr : Z) (ws : list Z) (pml4_entry : Z) : res (list Z) :=
  a ← mul_w 64 pml4_entry 4096;
  b ← mul_w 64 (ts_pml4_pages ts) 4096;
  ab ← add_w 64 a b;
  entry_addr ← add_w 64 ab ptr;
  if negb (Z.land entry_addr PML4_ADDR_MASK =? entry_addr)
  then Err (PanicMsg "PML4 Address field misaligned")
  else
    let entry := Z.lor entry_addr PML4_ENTRY_BASE in
    ws ← put_entry ts ws pml4_entry entry;
    h ← sub_w 64 512 (ts_pml4_entries ts);
    k ← add_w 64 h pml4_entry;
    put_entry ts ws k entry.

(** [for pdp_entry in 0..pdp_entries] *)
Definition fill_pdp (ts : table_size) (ptr : Z) (ws : list Z) (pdp_entry : Z) : res (list Z) :=
  a ← mul_w 64 pdp_entry 4096;
  b ← mul_w 64 (ts_pml4_pages ts) 4096;
  ab ← add_w 64 a b;
  c ← mul_w 64 (ts_pdp_pages ts) 4096;
  abc ← add_w 64 ab c;
  entry_addr ← add_w 64 abc ptr;
  if negb (Z.land entry_addr PDPE_ADDR_MASK =? entry_addr)
  then Err (PanicMsg "PDP Address field misaligned")
  else
    s ← mul_w 64 (ts_pml4_pages ts) 512;
    k ← add_w 64 s pdp_entry;
    put_entry ts ws k (Z.lor entry_addr PDPE_ENTRY_BASE).

(** [for pd_entry in 0..pd_entries] *)
Definition fill_pd (ts : table_size) (ws : list Z) (pd_entry : Z) : res (list Z) :=
  entry_addr ← shl_w 64 pd_entry 21;
  if negb (Z.land entry_addr PDE_ADDR_MASK =? entry_addr)
  then Err (PanicMsg "PD Address field misaligned")
  else
    s ← mul_w 64 (ts_pml4_pages ts) 512;
    s' ← mul_w 64 (ts_pdp_pages ts) 512;
    s'' ← add_w 64 s s';
    k ← add_w 64 s'' pd_entry;
    put_entry ts ws k (Z.lor entry_addr PDE_ENTRY_BASE).

(** [HIGH_MEM_BASE = 0xFFFF_0000_0000_0000 | ((512 - pml4_entries) << 39)] *)
Definition high_mem_base (pml4_entries : Z) : res Z :=
  h ← sub_w 64 512 pml4_entries;
  h ← shl_w 64 h 39;
  mret (Z.lor 0xFFFF000000000000 h).

(** [ptr_to_kernelspace] *)
Definition ptr_to_kernelspace (HIGH_MEM_BASE ptr : Z) : Z := Z.lor ptr HIGH_MEM_BASE.

(** The effects of [platform::init]: the static it sets, the structure it
    fills, the table in memory and the value of [cr3]. *)
Record paging := mkPaging {
  pg_base : Z;
  pg_info : PagingInfo;
  pg_words : list Z;
  pg_cr3 : Z;
}.

(** [platform::init] *)
Definition platform_init `{PageSource} (physical_size : Z) : res paging :=
  ts ← size_tables physical_size;
  if negb (ts_pml4_pages ts =? 1)
  then Err (PanicMsg "PML4 larger than one page, should be impossible")
  else
    '(ptr, ws) ← of_option (PanicMsg "Failed to allocate buffer for page table")
                   (allocate_pages (ts_alloc_pages ts));
    ws ← foldM (fill_pml4 ts ptr) ws (seqZ 0 (ts_pml4_entries ts));
    ws ← foldM (fill_pdp ts ptr) ws (seqZ 0 (ts_pdp_entries ts));
    ws ← foldM (fill_pd ts) ws (seqZ 0 (ts_pd_entries ts));
    base ← high_mem_base (ts_pml4_entries ts);
    mret (mkPaging base
      (mkPagingInfo (ptr_to_kernelspace base ptr) (ts_pdp_pages ts) (ts_pd_pages ts)
         (ts_pml4_entries ts))
      ws ptr).

(** The loop of [init] over the firmware's memory map, a list of
    [(phys_start, page_count)]: the highest end address. *)
Definition physical_end (mmap : list (Z * Z)) : res Z :=
  foldM (λ size '(phys_start, page_count),
    b ← mul_w 64 page_count 4096;
    e ← add_w 64 phys_start b;
    mret (if size <? e then e else size)) 0 mmap.

(** What the firmware answers to the calls of [init]: the map's size before
    and after its buffer was allocated, the buffer, the map, and whether
    freeing the buffer succeeds. *)
Record firmware := mkFirmware {
  fw_size1 : Z;
  fw_size2 : Z;
  fw_buffer : option Z;
  fw_map : option (list (Z * Z));
  fw_freed : bool;
}.

(** [pub fn init] *)
Definition init `{PageSource} (fw : firmware) : res paging :=
  a ← add_w 64 (fw_size1 fw) 4095;
  mmap_pages ← add_w 64 (a / 4096) 1;
  _ ← of_option (PanicMsg "Failed to allocate space for memory map") (fw_buffer fw);
  b ← add_w 64 (fw_size2 fw) 4095;
  let mmap_pages_2 := b / 4096 in
  if negb (mmap_pages_2 <=? mmap_pages)
  then Err (PanicMsg "MemoryMap unexpectedly expanded too much")
  else
    mmap ← of_option (PanicMsg "Failed to retrieve memory map") (fw_map fw);
    physical_size ← physical_end mmap;
    p ← platform_init physical_size;
    if fw_freed fw then mret p else Err (PanicMsg "Failed to free memory map buffer").

(** ** The processor's translation *)

(** A 64-bit word of the table at a physical address. *)
Definition read_word (ptr : Z) (ws : list Z) (a : Z) : option Z :=
  if (ptr <=? a) && ((a - ptr) mod 8 =? 0) then ws !! Z.to_nat ((a - ptr) / 8) else None.

Definition write_word (ptr : Z) (ws : list Z) (a v : Z) : option (list Z) :=
  if (ptr <=? a) && ((a - ptr) mod 8 =? 0) && ((a - ptr) / 8 <? Z.of_nat (length ws))
  then Some (<[Z.to_nat ((a - ptr) / 8) := v]> ws) else None.

(** Bits 63 to 47 are equal. *)
Definition canonical (va : Z) : bool :=
  (Z.shiftr va 47 =? 0) || (Z.shiftr va 47 =? Z.ones 17).

(** A present and writable entry's address bits. *)
Definition table_entry (mask : Z) (large : bool) (e : Z) : option Z :=
  if Z.testbit e 0 && Z.testbit e 1 && Bool.eqb (Z.testbit e 7) large
  then Some (Z.land e mask) else None.

(** Four-level translation with 2 MiB pages, for writing. *)
Definition walk (ptr : Z) (ws : list Z) (cr3 va : Z) : option Z :=
  if canonical va then
    e4 ← read_word ptr ws (cr3 + 8 * Z.land (Z.shiftr va 39) 511);
    a3 ← table_entry 0x000FFFFFFFFFF000 false e4;
    e3 ← read_word ptr ws (a3 + 8 * Z.land (Z.shiftr va 30) 511);
    a2 ← table_entry 0x000FFFFFFFFFF000 false e3;
    e2 ← read_word ptr ws (a2 + 8 * Z.land (Z.shiftr va 21) 511);
    a1 ← table_entry 0x000FFFFFFFE00000 true e2;
    Some (a1 + Z.land va (Z.ones 21))
  else None.

(** ** The kernel's half: [arch::virt_manager::init] *)

(** One store through the virtual address of the table, translated by the
    table it changes; [cr3] still is the bootloader's. *)
Definition clear_slot (ptr cr3 pml4 : Z) (ws : list Z) (i : Z) : res (list Z) :=
  a ← of_option UB (walk ptr ws cr3 (pml4 + 8 * i));
  of_option UB (write_word ptr ws a 0).

(** The low PML4 entries are zeroed and [cr3] reloaded with the table's
    physical address. *)
Definition virt_manager_init (ptr cr3 HIGH_MEM_BASE : Z) (pi : PagingInfo) (ws : list Z)
    : res (list Z * Z) :=
  ws ← foldM (clear_slot ptr cr3 (page_buffer pi)) ws (seqZ 0 (pml4_entries pi));
  mret (ws, virt_to_phys HIGH_MEM_BASE (page_buffer pi)).
