(* ===== verification/PagingTheorems.v ===== *)
(** * What the boot page table maps.

    [filled] says which words the three loops of [platform_init] leave in the
    table; [walk_filled] is the only place where the processor's translation
    is unfolded; the theorems combine the two.  The kernel's removal of the
    identity mapping ([virt_manager_init]) is here too. *)
From stdpp Require Import base gmap numbers strings list.
From S2P Require Import Prelude.
From S2P Require Import KernelHeader.
From S2P Require Import VirtManager.
From S2P Require Import Paging.

#[local] Open Scope Z_scope.

(** ** Sizes *)

(** The part of the physical size the table covers. *)
Definition covered (s : Z) : Z := s mod 2 ^ 47.

Definition sizes (s : Z) : table_size :=
  let z := covered s in
  mkTableSize (z / 2 ^ 39 + 1) (z / 2 ^ 30 + 1) (z / 2 ^ 21 + 1)
    1 (z / 2 ^ 39 + 1) (z / 2 ^ 30 + 1) (1 + (z / 2 ^ 39 + 1) + (z / 2 ^ 30 + 1)).

Lemma pages_for_ok q : 0 ≤ q < 2 ^ 32 → pages_for (q + 1) = Ok (q / 512 + 1).
Proof.
  intros Hq. unfold pages_for. checked_arith. f_equal.
  replace ((q + 1) * 8 + 4095) with (q * 8 + 7 + 1 * 4096) by lia.
  rewrite Z.div_add by lia. f_equal.
  replace 4096 with (8 * 512) by lia. rewrite <- Z.div_div by lia.
  replace (q * 8 + 7) with (7 + q * 8) by lia. by rewrite Z.div_add by lia.
Qed.

Lemma covered_range s : 0 ≤ covered s < 2 ^ 47.
Proof. by apply Z.mod_pos_bound. Qed.

Lemma covered_ranges s : 0 ≤ covered s / 2 ^ 39 < 256 ∧ 0 ≤ covered s / 2 ^ 30 < 2 ^ 17 ∧
  0 ≤ covered s / 2 ^ 21 < 2 ^ 26.
Proof.
  pose proof (covered_range s).
  split_and!; try (apply Z.div_pos; lia); apply Z.div_lt_upper_bound; lia.
Qed.

Lemma size_tables_ok s : 0 ≤ s → size_tables s = Ok (sizes s).
Proof.
  intros Hs. pose proof (covered_ranges s) as (? & ? & ?). unfold size_tables.
  change 0x00007FFFFFFFFFFF with (Z.ones 47). rewrite Z.land_ones by lia.
  fold (covered s). rewrite !Z.shiftr_div_pow2 by lia.
  checked_arith.
  rewrite !pages_for_ok by lia. simpl_res.
  assert (covered s / 2 ^ 39 / 512 = 0) as -> by (apply Z.div_small; lia).
  rewrite (Z.div_div _ (2 ^ 30) 512), (Z.div_div _ (2 ^ 21) 512) by lia.
  change (2 ^ 30 * 512) with (2 ^ 39). change (2 ^ 21 * 512) with (2 ^ 30).
  checked_arith. done.
Qed.

(** ** Entries *)

(** A bit field [[l, h)] of an aligned address is the address. *)
Lemma land_field a l h : 0 ≤ l ≤ h → (2 ^ l | a) → uint h a →
  Z.land a (Z.shiftl (Z.ones (h - l)) l) = a.
Proof.
  intros Hlh [q ->] Ha. apply Z.bits_inj'. intros n Hn. rewrite Z.land_spec.
  destruct (Z.lt_ge_cases n l); [by rewrite Z.mul_pow2_bits_low by lia|].
  rewrite Z.shiftl_spec by lia.
  destruct (Z.lt_ge_cases n h).
  - rewrite Z.ones_spec_low by lia. apply andb_true_r.
  - rewrite (testbit_high h) by done. done.
Qed.

(** Flags below the field do not disturb it. *)
Lemma land_field_lor a f l h : 0 ≤ l ≤ h → (2 ^ l | a) → uint h a → uint l f →
  Z.land (Z.lor a f) (Z.shiftl (Z.ones (h - l)) l) = a.
Proof.
  intros Hlh Ha Hu Hf. rewrite Z.land_lor_distr_l, land_field by done.
  replace (Z.land f _) with 0; [apply Z.lor_0_r|].
  symmetry. apply Z.bits_inj'. intros n Hn. rewrite Z.land_spec, Z.bits_0, Z.shiftl_spec by lia.
  destruct (Z.lt_ge_cases n l); [|by rewrite (testbit_high l f)].
  rewrite (Z.testbit_neg_r _ (n - l)) by lia. apply andb_false_r.
Qed.

Lemma testbit_below a l n : (2 ^ l | a) → 0 ≤ n < l → Z.testbit a n = false.
Proof. intros [q ->] Hn. by rewrite Z.mul_pow2_bits_low by lia. Qed.

Lemma table_entry_ok a : (4096 | a) → uint 52 a →
  table_entry 0x000FFFFFFFFFF000 false (Z.lor a 3) = Some a.
Proof.
  intros Ha Hu. unfold table_entry. change 4096 with (2 ^ 12) in Ha.
  rewrite !Z.lor_spec, !(testbit_below a 12) by (done || lia). simpl.
  change 0x000FFFFFFFFFF000 with (Z.shiftl (Z.ones (52 - 12)) 12).
  rewrite land_field_lor by (done || lia). done.
Qed.

Lemma page_entry_ok a : (2 ^ 21 | a) → uint 52 a →
  table_entry 0x000FFFFFFFE00000 true (Z.lor a 131) = Some a.
Proof.
  intros Ha Hu. unfold table_entry.
  rewrite !Z.lor_spec, !(testbit_below a 21) by (done || lia). simpl.
  change 0x000FFFFFFFE00000 with (Z.shiftl (Z.ones (52 - 21)) 21).
  rewrite land_field_lor by (done || lia). done.
Qed.

(** ** The filled table *)

(** The lower levels of a table at [ptr] with [n4] top-level entries: [n3] and
    [n2] entries. *)
Record lower_filled (ptr n4 n3 n2 : Z) (ws : list Z) : Prop := {
  f_pdp : ∀ k, 0 ≤ k < n3 →
    ws !! Z.to_nat (512 + k) = Some (Z.lor (ptr + 4096 * (1 + n4 + k)) 3);
  f_pd : ∀ k, 0 ≤ k < n2 →
    ws !! Z.to_nat (512 * (1 + n4) + k) = Some (Z.lor (k * 2 ^ 21) 131);
}.

(** A top-level entry for the [k]-th 512 GiB. *)
Definition top_entry (ptr k : Z) : Z := Z.lor (ptr + 4096 * (1 + k)) 3.

Record filled (ptr n4 n3 n2 : Z) (ws : list Z) : Prop := {
  f_low : ∀ k, 0 ≤ k < n4 → ws !! Z.to_nat k = Some (top_entry ptr k);
  f_high : ∀ k, 0 ≤ k < n4 → ws !! Z.to_nat (512 - n4 + k) = Some (top_entry ptr k);
  f_lower : lower_filled ptr n4 n3 n2 ws;
}.

Section table.
Context (s ptr : Z).
Abbreviation z := (covered s).
Abbreviation n4 := (z / 2 ^ 39 + 1).
Abbreviation n3 := (z / 2 ^ 30 + 1).
Abbreviation n2 := (z / 2 ^ 21 + 1).
Implicit Types ws : list Z.

Lemma entry_counts : 1 ≤ n4 ≤ 256 ∧ 1 ≤ n3 ≤ 2 ^ 17 ∧ 1 ≤ n2 ≤ 2 ^ 26 ∧
  n3 ≤ 512 * n4 ∧ n2 ≤ 512 * n3.
Proof.
  pose proof (covered_ranges s) as (? & ? & ?).
  replace (2 ^ 39) with (2 ^ 30 * 512) by done. rewrite <- Z.div_div by done.
  replace (2 ^ 30) with (2 ^ 21 * 512) by done. rewrite <- !Z.div_div by done.
  replace (2 ^ 39) with (2 ^ 21 * 512 * 512) in * by done.
  replace (2 ^ 30) with (2 ^ 21 * 512) in * by done. rewrite <- !Z.div_div in * by done.
  pose proof (Z.mod_pos_bound (z / 2 ^ 21) 512). pose proof (Z.div_mod (z / 2 ^ 21) 512).
  pose proof (Z.mod_pos_bound (z / 2 ^ 21 / 512) 512). pose proof (Z.div_mod (z / 2 ^ 21 / 512) 512).
  lia.
Qed.

Lemma high_mem_base_ok : high_mem_base n4 = Ok (2 ^ 64 - n4 * 2 ^ 39).
Proof.
  pose proof entry_counts. unfold high_mem_base. checked_arith.
  rewrite shl_w_ok by (unfold uint; lia). simpl_res. change (2 ^ 64) with (0xFFFF000000000000 + 512 * 2 ^ 39).
  unfold mret, res_ret. f_equal. rewrite lor_add_disjoint; [lia|].
  apply Z.bits_inj'. intros n Hn. rewrite Z.land_spec, Z.bits_0.
  change 0xFFFF000000000000 with (65535 * 2 ^ 48).
  destruct (Z.lt_ge_cases n 48); [by rewrite Z.mul_pow2_bits_low by lia|].
  rewrite (testbit_high 48 ((512 - n4) * 2 ^ 39)); [apply andb_false_r|unfold uint; lia|done].
Qed.
Context (Hal : (4096 | ptr)) (Hp0 : 0 ≤ ptr) (Hp1 : ptr + (1 + n4 + n3) * 4096 ≤ 2 ^ 52).

Lemma put_entry_ok ws k v : Z.of_nat (length ws) = (1 + n4 + n3) * 512 →
  0 ≤ k < Z.of_nat (length ws) → put_entry (sizes s) ws k v = Ok (<[Z.to_nat k := v]> ws).
Proof.
  intros Hl Hk. pose proof entry_counts. unfold put_entry, sizes. simpl ts_alloc_pages.
  checked_arith. destruct (Z.leb_spec ((1 + n4 + n3) * 4096) k); [lia|].
  destruct (Z.ltb_spec k (Z.of_nat (length ws))); [|lia]. by apply store_ok.
Qed.

Lemma addr_field a : (4096 | a) → 0 ≤ a < 2 ^ 52 → (Z.land a 0x000FFFFFFFFFF000 =? a) = true.
Proof.
  intros Ha Hr. apply Z.eqb_eq. change 4096 with (2 ^ 12) in Ha.
  change 0x000FFFFFFFFFF000 with (Z.shiftl (Z.ones (52 - 12)) 12). by apply land_field.
Qed.

Lemma fill_pml4_ok ws k : Z.of_nat (length ws) = (1 + n4 + n3) * 512 → 0 ≤ k < n4 →
  fill_pml4 (sizes s) ptr ws k =
  Ok (put_all [512 - n4; 0] k (Z.lor (ptr + 4096 * (1 + k)) 3) ws).
Proof.
  intros Hl Hk. pose proof entry_counts. unfold fill_pml4.
  cbn [sizes ts_pml4_pages ts_pml4_entries]. cbv zeta. checked_arith.
  replace (k * 4096 + 1 * 4096 + ptr) with (ptr + 4096 * (1 + k)) by lia.
  unfold PML4_ADDR_MASK. rewrite addr_field; [| |lia].
  2:{ apply Z.divide_add_r; [done|]. apply Z.divide_factor_l. }
  cbn [negb]. rewrite put_entry_ok by lia. checked_arith.
  rewrite put_entry_ok by (rewrite ?length_insert; lia). done.
Qed.

Lemma fill_pdp_ok ws k : Z.of_nat (length ws) = (1 + n4 + n3) * 512 → 0 ≤ k < n3 →
  fill_pdp (sizes s) ptr ws k =
  Ok (put_all [512] k (Z.lor (ptr + 4096 * (1 + n4 + k)) 3) ws).
Proof.
  intros Hl Hk. pose proof entry_counts. unfold fill_pdp.
  cbn [sizes ts_pml4_pages ts_pdp_pages]. cbv zeta. checked_arith.
  replace (k * 4096 + 1 * 4096 + n4 * 4096 + ptr) with (ptr + 4096 * (1 + n4 + k)) by lia.
  unfold PDPE_ADDR_MASK. rewrite addr_field; [| |lia].
  2:{ apply Z.divide_add_r; [done|]. apply Z.divide_factor_l. }
  cbn [negb]. checked_arith. rewrite put_entry_ok by lia. done.
Qed.

Lemma fill_pd_ok ws k : Z.of_nat (length ws) = (1 + n4 + n3) * 512 → 0 ≤ k < n2 →
  fill_pd (sizes s) ws k = Ok (put_all [512 * (1 + n4)] k (Z.lor (k * 2 ^ 21) 131) ws).
Proof.
  intros Hl Hk. pose proof entry_counts. unfold fill_pd.
  rewrite shl_w_ok by (unfold uint; lia). simpl_res.
  cbn [sizes ts_pml4_pages ts_pdp_pages]. cbv zeta.
  change PDE_ADDR_MASK with (Z.shiftl (Z.ones (52 - 21)) 21).
  rewrite land_field; [| |apply Z.divide_factor_r|unfold uint]; [|lia..].
  rewrite Z.eqb_refl. cbn [negb]. checked_arith.
  replace (1 * 512 + n4 * 512 + k) with (512 * (1 + n4) + k) by lia.
  rewrite put_entry_ok by lia. done.
Qed.
(** The three loops fill the table, keep its size and leave the top-level slots
    in the middle as they were. *)
Lemma fill_ok ws : Z.of_nat (length ws) = (1 + n4 + n3) * 512 →
  ∃ ws1 ws2 ws3,
    foldM (fill_pml4 (sizes s) ptr) ws (seqZ 0 n4) = Ok ws1 ∧
    foldM (fill_pdp (sizes s) ptr) ws1 (seqZ 0 n3) = Ok ws2 ∧
    foldM (fill_pd (sizes s)) ws2 (seqZ 0 n2) = Ok ws3 ∧
    length ws3 = length ws ∧ filled ptr n4 n3 n2 ws3 ∧
    ∀ j, n4 ≤ j < 512 - n4 → ws3 !! Z.to_nat j = ws !! Z.to_nat j.
Proof.
  intros Hl. pose proof entry_counts as Hc.
  destruct (fill_loop [512 - n4; 0] (λ k, Z.lor (ptr + 4096 * (1 + k)) 3) n4
    (fill_pml4 (sizes s) ptr) ws) as (ws1 & Hf1 & Hl1 & Hin1 & Hout1).
  { intros ws' k Hl' Hk. apply fill_pml4_ok; lia. }
  { intros o k [->|[->|[]%elem_of_nil]%elem_of_cons]%elem_of_cons Hk; lia. }
  { intros o o' k k' [->|[->|[]%elem_of_nil]%elem_of_cons]%elem_of_cons
      [->|[->|[]%elem_of_nil]%elem_of_cons]%elem_of_cons; lia. }
  destruct (fill_loop [512] (λ k, Z.lor (ptr + 4096 * (1 + n4 + k)) 3) n3
    (fill_pdp (sizes s) ptr) ws1) as (ws2 & Hf2 & Hl2 & Hin2 & Hout2).
  { intros ws' k Hl' Hk. apply fill_pdp_ok; lia. }
  { intros o k ->%list_elem_of_singleton Hk; lia. }
  { intros o o' k k' ->%list_elem_of_singleton ->%list_elem_of_singleton; lia. }
  destruct (fill_loop [512 * (1 + n4)] (λ k, Z.lor (k * 2 ^ 21) 131) n2
    (fill_pd (sizes s)) ws2) as (ws3 & Hf3 & Hl3 & Hin3 & Hout3).
  { intros ws' k Hl' Hk. apply fill_pd_ok; lia. }
  { intros o k ->%list_elem_of_singleton Hk; lia. }
  { intros o o' k k' ->%list_elem_of_singleton ->%list_elem_of_singleton; lia. }
  exists ws1, ws2, ws3. split_and!; [done|done|done|congruence| |].
  2:{ intros j Hj. rewrite Hout3, Hout2 by (intros o k' ->%list_elem_of_singleton; lia). apply Hout1.
      intros o k' [->|[->|[]%elem_of_nil]%elem_of_cons]%elem_of_cons; lia. }
  constructor.
  - intros k Hk. rewrite Hout3, Hout2 by (intros o k' ->%list_elem_of_singleton; lia).
    apply (Hin1 0); [clear; set_solver|done].
  - intros k Hk. rewrite Hout3, Hout2 by (intros o k' ->%list_elem_of_singleton; lia).
    apply (Hin1 (512 - n4)); [clear; set_solver|done].
  - split.
    + intros k Hk. rewrite Hout3 by (intros o k' ->%list_elem_of_singleton; lia).
      apply (Hin2 512); [clear; set_solver|done].
    + intros k Hk. apply (Hin3 (512 * (1 + n4))); [clear; set_solver|done].
Qed.

End table.

(** [platform_init] returns, with a filled table. *)
Lemma platform_init_ok `{PageSourceLaws} s ptr ws : 0 ≤ s →
  allocate_pages (ts_alloc_pages (sizes s)) = Some (ptr, ws) →
  let n4 := covered s / 2 ^ 39 + 1 in
  ∃ p, platform_init s = Ok p ∧ pg_cr3 p = ptr ∧ length (pg_words p) = length ws ∧
    pg_base p = 2 ^ 64 - n4 * 2 ^ 39 ∧
    pg_info p = mkPagingInfo (ptr_to_kernelspace (pg_base p) ptr) n4 (covered s / 2 ^ 30 + 1) n4 ∧
    filled ptr n4 (covered s / 2 ^ 30 + 1) (covered s / 2 ^ 21 + 1) (pg_words p) ∧
    ∀ j, n4 ≤ j < 512 - n4 → pg_words p !! Z.to_nat j = ws !! Z.to_nat j.
Proof.
  intros Hs Ha n4. pose proof (pages_aligned _ _ _ Ha) as Hal.
  pose proof (pages_range _ _ _ Ha) as [Hp0 Hp1]. pose proof (pages_words _ _ _ Ha) as Hl.
  cbn in Hp1, Hl. destruct (fill_ok s ptr Hal Hp0 Hp1 ws Hl) as (ws1 & ws2 & ws3 & H1 & H2 & H3 & Hlen & Hf & Hmid).
  unfold platform_init. rewrite size_tables_ok by done. simpl_res.
  change (negb (ts_pml4_pages (sizes s) =? 1)) with false. cbv iota. rewrite Ha. cbn [of_option].
  simpl_res.
  change (ts_pml4_entries (sizes s)) with (covered s / 2 ^ 39 + 1).
  change (ts_pdp_entries (sizes s)) with (covered s / 2 ^ 30 + 1).
  change (ts_pd_entries (sizes s)) with (covered s / 2 ^ 21 + 1).
  rewrite H1. simpl_res. rewrite H2. simpl_res. rewrite H3. simpl_res.
  unfold n4. rewrite (high_mem_base_ok s). simpl_res. by eexists.
Qed.

(** ** Translation *)

Lemma read_word_ok ptr ws k : 0 ≤ k → read_word ptr ws (ptr + 8 * k) = ws !! Z.to_nat k.
Proof.
  intros Hk. unfold read_word. rewrite (proj2 (Z.leb_le _ _)) by lia.
  replace (ptr + 8 * k - ptr) with (k * 8) by lia.
  by rewrite Z.mod_mul, Z.div_mul by done.
Qed.

Lemma slot_index va n : 0 ≤ n → Z.land (Z.shiftr va n) 511 = (va / 2 ^ n) mod 512.
Proof. intros Hn. change 511 with (Z.ones 9). by rewrite Z.land_ones, Z.shiftr_div_pow2. Qed.

(** Addresses that agree below bit 39 have the same lower indices. *)
Lemma low_index va pa n : 0 ≤ n → n + 9 ≤ 39 → va mod 2 ^ 39 = pa mod 2 ^ 39 →
  (va / 2 ^ n) mod 512 = (pa / 2 ^ n) mod 512.
Proof.
  intros Hn Hn9 E. rewrite <- !slot_index by done. apply Z.bits_inj'. intros m Hm.
  rewrite !Z.land_spec, !Z.shiftr_spec by done.
  destruct (Z.lt_ge_cases m 9).
  - rewrite <- (Z.mod_pow2_bits_low va 39), <- (Z.mod_pow2_bits_low pa 39) by lia. by rewrite E.
  - change 511 with (Z.ones 9). rewrite Z.ones_spec_high by lia. by rewrite !andb_false_r.
Qed.

Lemma page_offset va pa : va mod 2 ^ 39 = pa mod 2 ^ 39 → Z.land va (Z.ones 21) = pa mod 2 ^ 21.
Proof.
  intros E. rewrite <- Z.land_ones by lia. apply Z.bits_inj'. intros m Hm.
  rewrite !Z.land_spec. destruct (Z.lt_ge_cases m 21).
  - rewrite <- (Z.mod_pow2_bits_low va 39), <- (Z.mod_pow2_bits_low pa 39) by lia. by rewrite E.
  - rewrite Z.ones_spec_high by lia. by rewrite !andb_false_r.
Qed.

Lemma div_step a n : 0 ≤ n → 0 ≤ a → a / 2 ^ n = 512 * (a / 2 ^ (n + 9)) + (a / 2 ^ n) mod 512.
Proof.
  intros Hn Ha. rewrite Z.pow_add_r, <- Z.div_div by lia. change (2 ^ 9) with 512.
  by apply Z.div_mod.
Qed.

Record table_ok (ptr n4 n3 n2 : Z) : Prop := {
  to_aligned : (4096 | ptr);
  to_range : 0 ≤ ptr ∧ ptr + (1 + n4 + n3) * 4096 ≤ 2 ^ 52;
  to_counts : 1 ≤ n4 ≤ 256 ∧ 1 ≤ n3 ≤ 512 * n4 ∧ 1 ≤ n2 ≤ 512 * n3 ∧ n2 ≤ 2 ^ 26;
}.

(** With the lower levels filled, an address whose top-level slot holds the
    entry of [pa] and that agrees with [pa] below bit 39 translates to [pa]. *)
Lemma walk_filled ptr n4 n3 n2 ws va pa :
  table_ok ptr n4 n3 n2 → lower_filled ptr n4 n3 n2 ws → canonical va = true →
  0 ≤ pa < n2 * 2 ^ 21 →
  ws !! Z.to_nat ((va / 2 ^ 39) mod 512) = Some (top_entry ptr (pa / 2 ^ 39)) →
  pa / 2 ^ 39 < n4 → pa / 2 ^ 30 < n3 →
  va mod 2 ^ 39 = pa mod 2 ^ 39 →
  walk ptr ws ptr va = Some pa.
Proof.
  intros [Hal [Hp0 Hp1] Hc] [Hpdp Hpd] Hcan Hpa Htop H4 H3 E. unfold walk. rewrite Hcan.
  rewrite !slot_index by lia. rewrite (low_index va pa 30), (low_index va pa 21) by (done || lia).
  rewrite read_word_ok by (apply Z.mod_pos_bound; lia). rewrite Htop. cbn [mbind option_bind].
  assert (0 ≤ pa / 2 ^ 39 ∧ 0 ≤ pa / 2 ^ 30 ∧ 0 ≤ pa / 2 ^ 21) as (? & ? & ?)
    by (split_and!; apply Z.div_pos; lia).
  assert (pa / 2 ^ 21 < n2) by (apply Z.div_lt_upper_bound; lia).
  pose proof (Z.mod_pos_bound (pa / 2 ^ 30) 512). pose proof (Z.mod_pos_bound (pa / 2 ^ 21) 512).
  pose proof (div_step pa 30 ltac:(lia) ltac:(lia)) as E30. change (30 + 9) with 39 in E30.
  pose proof (div_step pa 21 ltac:(lia) ltac:(lia)) as E21. change (21 + 9) with 30 in E21.
  assert (∀ k, (4096 | ptr + 4096 * k)) as Hdiv
    by (intros k; apply Z.divide_add_r; [done|apply Z.divide_factor_l]).
  unfold top_entry. rewrite table_entry_ok by (done || (unfold uint; lia)). cbn [mbind option_bind].
  replace (ptr + 4096 * (1 + pa / 2 ^ 39) + 8 * ((pa / 2 ^ 30) mod 512))
    with (ptr + 8 * (512 + pa / 2 ^ 30)) by lia.
  rewrite read_word_ok, Hpdp by lia. cbn [mbind option_bind].
  rewrite table_entry_ok by (done || (unfold uint; lia)). cbn [mbind option_bind].
  replace (ptr + 4096 * (1 + n4 + pa / 2 ^ 30) + 8 * ((pa / 2 ^ 21) mod 512))
    with (ptr + 8 * (512 * (1 + n4) + pa / 2 ^ 21)) by lia.
  rewrite read_word_ok, Hpd by lia. cbn [mbind option_bind].
  rewrite page_entry_ok; [|apply Z.divide_factor_r|unfold uint; lia]. cbn [mbind option_bind].
  rewrite (page_offset va pa E). f_equal. pose proof (Z.div_mod pa (2 ^ 21)). lia.
Qed.

(** Physical addresses the table knows. *)
Definition mapped (n4 n3 n2 pa : Z) : Prop :=
  0 ≤ pa < n2 * 2 ^ 21 ∧ pa / 2 ^ 39 < n4 ∧ pa / 2 ^ 30 < n3.

Lemma mapped_below s pa : 0 ≤ pa < (covered s / 2 ^ 21 + 1) * 2 ^ 21 →
  mapped (covered s / 2 ^ 39 + 1) (covered s / 2 ^ 30 + 1) (covered s / 2 ^ 21 + 1) pa.
Proof.
  intros Hpa. split; [done|].
  assert (pa / 2 ^ 21 ≤ covered s / 2 ^ 21).
  { assert (pa / 2 ^ 21 < covered s / 2 ^ 21 + 1); [apply Z.div_lt_upper_bound; lia|lia]. }
  replace (2 ^ 39) with (2 ^ 21 * 2 ^ 18) by done. replace (2 ^ 30) with (2 ^ 21 * 2 ^ 9) by done.
  rewrite <- !Z.div_div by done.
  pose proof (Z.div_le_mono (pa / 2 ^ 21) (covered s / 2 ^ 21) (2 ^ 18)).
  pose proof (Z.div_le_mono (pa / 2 ^ 21) (covered s / 2 ^ 21) (2 ^ 9)). lia.
Qed.

Lemma mapped_bound n4 n3 n2 pa : mapped n4 n3 n2 pa → 0 ≤ pa < n4 * 2 ^ 39.
Proof.
  intros (Hpa & H4 & _). pose proof (Z.div_mod pa (2 ^ 39)).
  pose proof (Z.mod_pos_bound pa (2 ^ 39)). lia.
Qed.

Lemma canonical_low va : 0 ≤ va < 2 ^ 47 → canonical va = true.
Proof.
  intros Hva. unfold canonical. rewrite Z.shiftr_div_pow2, Z.div_small by lia. done.
Qed.

Lemma canonical_high va : 2 ^ 64 - 2 ^ 47 ≤ va < 2 ^ 64 → canonical va = true.
Proof.
  intros Hva. unfold canonical. rewrite Z.shiftr_div_pow2 by lia.
  assert (va / 2 ^ 47 = Z.ones 17) as ->; [|done].
  symmetry. apply Z.div_unique with (va - (2 ^ 64 - 2 ^ 47)); [left; lia|].
  change (Z.ones 17) with (2 ^ 17 - 1). lia.
Qed.

Section walks.
Context (ptr n4 n3 n2 : Z) (Hto : table_ok ptr n4 n3 n2).
Implicit Types (ws : list Z) (pa : Z).

(** The identity half. *)
Lemma walk_identity ws pa : filled ptr n4 n3 n2 ws → mapped n4 n3 n2 pa →
  walk ptr ws ptr pa = Some pa.
Proof.
  intros Hf Hpa. pose proof (mapped_bound _ _ _ _ Hpa) as Hb. pose proof (to_counts _ _ _ _ Hto).
  destruct Hpa as (Hpa & H4 & H3).
  assert (0 ≤ pa / 2 ^ 39) by (apply Z.div_pos; lia).
  eapply walk_filled; [done|by apply f_lower|apply canonical_low; lia|done| |done|done|done].
  rewrite Z.mod_small by lia. apply (f_low _ _ _ _ _ Hf). lia.
Qed.

(** The mirror at the end of the address space. *)
Lemma walk_mirror ws pa :
  (∀ k, 0 ≤ k < n4 → ws !! Z.to_nat (512 - n4 + k) = Some (top_entry ptr k)) →
  lower_filled ptr n4 n3 n2 ws → mapped n4 n3 n2 pa →
  walk ptr ws ptr (2 ^ 64 - n4 * 2 ^ 39 + pa) = Some pa.
Proof.
  intros Hh Hl Hpa. pose proof (mapped_bound _ _ _ _ Hpa) as Hb. pose proof (to_counts _ _ _ _ Hto).
  destruct Hpa as (Hpa & H4 & H3).
  assert (0 ≤ pa / 2 ^ 39) by (apply Z.div_pos; lia).
  replace (2 ^ 64 - n4 * 2 ^ 39 + pa) with (pa + (2 ^ 25 - n4) * 2 ^ 39) by lia.
  eapply walk_filled; [done|done|apply canonical_high; lia|done| |done|done|].
  - rewrite Z.div_add by done.
    replace ((pa / 2 ^ 39 + (2 ^ 25 - n4)) mod 512) with (512 - n4 + pa / 2 ^ 39)
      by (apply Z.mod_unique with 65535; lia).
    apply Hh. lia.
  - by rewrite Z.mod_add.
Qed.

(** A top-level slot of the lower half without the present bit. *)
Lemma walk_absent ws va e : 0 ≤ va < 2 ^ 47 → ws !! Z.to_nat (va / 2 ^ 39) = Some e →
  Z.testbit e 0 = false → walk ptr ws ptr va = None.
Proof.
  intros Hva H0 He. assert (0 ≤ va / 2 ^ 39) by (apply Z.div_pos; lia).
  assert (va / 2 ^ 39 < 256) by (apply Z.div_lt_upper_bound; lia).
  unfold walk. rewrite canonical_low, (slot_index va 39), (Z.mod_small (va / 2 ^ 39)) by lia.
  rewrite read_word_ok, H0 by lia. unfold table_entry. cbn [mbind option_bind]. by rewrite He.
Qed.

(** Zeroing the low half through the mirror: slot by slot, the walk that finds
    the table uses only entries that stay. *)
Lemma clear_slots_ok ws :
  Z.of_nat (length ws) = (1 + n4 + n3) * 512 →
  filled ptr n4 n3 n2 ws → (∀ i, 0 ≤ i < n4 → mapped n4 n3 n2 (ptr + 8 * i)) →
  ∃ ws', foldM (clear_slot ptr ptr (2 ^ 64 - n4 * 2 ^ 39 + ptr)) ws (seqZ 0 n4) = Ok ws' ∧
    length ws' = length ws ∧ (∀ k, 0 ≤ k < n4 → ws' !! Z.to_nat k = Some 0) ∧
    (∀ j, n4 ≤ j → ws' !! Z.to_nat j = ws !! Z.to_nat j).
Proof.
  intros Hl Hf Hm. pose proof (to_counts _ _ _ _ Hto) as Hc.
  destruct (foldM_inv (clear_slot ptr ptr (2 ^ 64 - n4 * 2 ^ 39 + ptr)) (λ d ws',
    length ws' = length ws ∧ (∀ k, k ∈ d → 0 ≤ k → ws' !! Z.to_nat k = Some 0) ∧
    (∀ j, n4 ≤ j → ws' !! Z.to_nat j = ws !! Z.to_nat j)) (seqZ 0 n4) [] ws)
    as (ws' & Hws' & Hlen' & H0 & Hsame).
  - split_and!; [done| |done]. intros k Hk. by apply elem_of_nil in Hk.
  - intros d k r ws' E (Hlen & H0 & Hsame). apply seqZ_split_range in E as [Hk _].
    eexists. unfold clear_slot. split.
    + replace (2 ^ 64 - n4 * 2 ^ 39 + ptr + 8 * k) with (2 ^ 64 - n4 * 2 ^ 39 + (ptr + 8 * k)) by lia.
      rewrite walk_mirror; [| | |by apply Hm].
      * cbn [of_option]. simpl_res. unfold write_word.
        replace (ptr + 8 * k - ptr) with (k * 8) by lia. rewrite Z.mod_mul, Z.div_mul by done.
        rewrite (proj2 (Z.leb_le _ _)), (proj2 (Z.ltb_lt _ _)) by lia. done.
      * intros i Hi. rewrite Hsame by lia. apply (f_high _ _ _ _ _ Hf). lia.
      * destruct (f_lower _ _ _ _ _ Hf) as [Hpdp Hpd].
        split; intros i Hi; rewrite Hsame by lia; auto.
    + split_and!; [by rewrite length_insert| |].
      * intros i Hi Hi0. destruct (decide (i = k)) as [->|].
        -- apply list_lookup_insert_eq. lia.
        -- rewrite list_lookup_insert_ne by lia. apply H0; [|done].
           apply elem_of_app in Hi as [|?%list_elem_of_singleton]; done.
      * intros j Hj. rewrite list_lookup_insert_ne by lia. by apply Hsame.
  - exists ws'. split_and!; [done|done| |done]. intros k Hk. apply H0; [|lia]. apply elem_of_seqZ. lia.
Qed.
End walks.

Lemma sizes_table_ok `{PageSourceLaws} s ptr ws : 
  allocate_pages (ts_alloc_pages (sizes s)) = Some (ptr, ws) →
  table_ok ptr (covered s / 2 ^ 39 + 1) (covered s / 2 ^ 30 + 1) (covered s / 2 ^ 21 + 1).
Proof.
  intros Ha. pose proof (entry_counts s). split.
  - by eapply pages_aligned.
  - by apply (pages_range _ _ _ Ha).
  - lia.
Qed.

(** ** The memory map *)

Lemma physical_end_ok mmap : (∀ a n, (a, n) ∈ mmap → 0 ≤ a ∧ 0 ≤ n ∧ a + n * 4096 < 2 ^ 64) →
  ∃ s, physical_end mmap = Ok s ∧ 0 ≤ s ∧
    (∀ a n, (a, n) ∈ mmap → a + n * 4096 ≤ s) ∧
    (s = 0 ∨ ∃ a n, (a, n) ∈ mmap ∧ s = a + n * 4096).
Proof.
  intros Hok. destruct (foldM_inv (λ size '(phys_start, page_count),
    b ← mul_w 64 page_count 4096; e ← add_w 64 phys_start b;
    mret (if size <? e then e else size))
    (λ d s, 0 ≤ s ∧ (∀ a n, (a, n) ∈ d → a + n * 4096 ≤ s) ∧
       (s = 0 ∨ ∃ a n, (a, n) ∈ d ∧ s = a + n * 4096)) mmap [] 0) as (s & Hs & HP).
  - split_and!; [done| |by left]. intros a n Hel. by apply elem_of_nil in Hel.
  - intros d [a n] r s E (H0 & Hle & Hex).
    destruct (Hok a n) as (Ha & Hn & Hr); [simpl in E; rewrite E; set_solver|].
    checked_arith. eexists. split; [done|].
    destruct (Z.ltb_spec s (a + n * 4096)); (split_and!; [lia| |]).
    + intros a' n' [Hel|[= -> ->]%list_elem_of_singleton]%elem_of_app; [|lia].
      specialize (Hle a' n' Hel). lia.
    + right. exists a, n. set_solver.
    + intros a' n' [Hel|[= -> ->]%list_elem_of_singleton]%elem_of_app; [auto|lia].
    + destruct Hex as [|(a' & n' & Hel & ?)]; [by left|]. right. exists a', n'. set_solver.
  - exists s. done.
Qed.

(** ** Theorems *)

(** A firmware that answers every call, whose map grows by at most a page
    while its buffer is allocated, and whose segments end below 2^47. *)
Record firmware_ok (fw : firmware) (mmap : list (Z * Z)) : Prop := {
  fo_buffer : is_Some (fw_buffer fw);
  fo_map : fw_map fw = Some mmap;
  fo_freed : fw_freed fw = true;
  fo_sizes : 0 ≤ fw_size1 fw ∧ 0 ≤ fw_size2 fw ≤ fw_size1 fw + 4096 ∧ fw_size1 fw < 2 ^ 63;
  fo_segments : ∀ a n, (a, n) ∈ mmap → 0 ≤ a ∧ 0 ≤ n ∧ a + n * 4096 < 2 ^ 47;
}.

Lemma covered_small s : 0 ≤ s < 2 ^ 47 → covered s = s.
Proof. intros. by apply Z.mod_small. Qed.

Lemma below_last_page s pa : 0 ≤ s < 2 ^ 47 → 0 ≤ pa ≤ s →
  0 ≤ pa < (covered s / 2 ^ 21 + 1) * 2 ^ 21.
Proof.
  intros Hs Hpa. rewrite covered_small by done.
  pose proof (Z.div_mod s (2 ^ 21)). pose proof (Z.mod_pos_bound s (2 ^ 21)). lia.
Qed.

Lemma init_runs `{PageSource} fw mmap s p : firmware_ok fw mmap → physical_end mmap = Ok s →
  platform_init s = Ok p → init fw = Ok p.
Proof.
  intros [[b Hb] Hmap Hfreed Hsz _] Hs Hp. unfold init.
  assert (0 ≤ (fw_size1 fw + 4095) / 4096 ≤ 2 ^ 52).
  { split; [apply Z.div_pos; lia|]. apply Z.div_le_upper_bound; lia. }
  checked_arith. rewrite Hb. cbn [of_option]. checked_arith.
  assert ((fw_size2 fw + 4095) / 4096 ≤ (fw_size1 fw + 4095) / 4096 + 1).
  { rewrite <- Z.div_add by done. apply Z.div_le_mono; lia. }
  rewrite (proj2 (Z.leb_le _ _)) by done. cbn [negb].
  rewrite Hmap. cbn [of_option]. simpl_res. rewrite Hs. simpl_res. rewrite Hp. simpl_res.
  by rewrite Hfreed.
Qed.

(** C17: the page table the bootloader builds, whatever was in its buffer
    before, maps every byte of every segment of the firmware's memory map
    twice and writable: at its physical address and at the same offset above
    [HIGH_MEM_BASE]. *)
Theorem boot_paging_maps_memory `{PageSourceLaws} fw mmap :
  firmware_ok fw mmap → (∀ n, 0 ≤ n ≤ 2 ^ 18 → is_Some (allocate_pages n)) →
  ∃ p, init fw = Ok p ∧
    ∀ a n pa, (a, n) ∈ mmap → a ≤ pa < a + n * 4096 →
      walk (pg_cr3 p) (pg_words p) (pg_cr3 p) pa = Some pa ∧
      walk (pg_cr3 p) (pg_words p) (pg_cr3 p) (pg_base p + pa) = Some pa.
Proof.
  intros Hfw Halloc. destruct (physical_end_ok mmap) as (s & Hs & Hs0 & Hle & Hex).
  { intros a n Hel. destruct (fo_segments _ _ Hfw a n Hel). lia. }
  assert (0 ≤ s < 2 ^ 47) as Hs47.
  { destruct Hex as [->|(a & n & Hel & ->)]; [lia|]. pose proof (fo_segments _ _ Hfw a n Hel). lia. }
  destruct (Halloc (ts_alloc_pages (sizes s))) as [[ptr ws] Ha].
  { pose proof (covered_ranges s). cbn. lia. }
  destruct (platform_init_ok s ptr ws Hs0 Ha) as (p & Hp & Hcr3 & _ & Hbase & _ & Hf & _).
  exists p. split; [by eapply init_runs|]. intros a n pa Hel Hpa.
  destruct (fo_segments _ _ Hfw a n Hel). specialize (Hle a n Hel).
  pose proof (mapped_below s pa (below_last_page s pa Hs47 ltac:(lia))) as Hm.
  apply sizes_table_ok in Ha as Hto. rewrite Hcr3, Hbase. split.
  - by eapply walk_identity.
  - eapply walk_mirror; [done|apply Hf|apply Hf|done].
Qed.

Section mirror.
Context `{PageSourceLaws} (s ptr : Z) (ws : list Z).
Abbreviation n4 := (covered s / 2 ^ 39 + 1).
Context (Hs : 0 ≤ s < 2 ^ 47) (Ha : allocate_pages (ts_alloc_pages (sizes s)) = Some (ptr, ws)).
Context (k : Z) (Hk : 0 ≤ k) (Hn4 : n4 = 2 ^ k).

Lemma base_representable pa : 0 ≤ pa < n4 * 2 ^ 39 → representable (2 ^ 64 - n4 * 2 ^ 39) pa.
Proof using Hk Hn4.
  intros Hpa. pose proof (covered_ranges s) as (? & _ & _).
  assert (k ≤ 8) by (apply (Z.pow_le_mono_r_iff 2); lia).
  rewrite Hn4, <- Z.pow_add_r in * by lia.
  assert (2 ^ (k + 39) ≤ 2 ^ 64) by (apply Z.pow_le_mono_r; lia).
  apply representable_low with (k + 39); [lia| |lia|done].
  apply Z.divide_sub_r; [|done]. exists (2 ^ (64 - (k + 39))).
  rewrite <- Z.pow_add_r by lia. f_equal. lia.
Qed.

Lemma kernelspace_add pa : 0 ≤ pa < n4 * 2 ^ 39 →
  ptr_to_kernelspace (2 ^ 64 - n4 * 2 ^ 39) pa = 2 ^ 64 - n4 * 2 ^ 39 + pa.
Proof using Hk Hn4.
  intros Hpa. change ptr_to_kernelspace with phys_to_virt.
  rewrite phys_to_virt_add by by apply base_representable. lia.
Qed.

Lemma below_bound pa : 0 ≤ pa ≤ s → 0 ≤ pa < n4 * 2 ^ 39.
Proof using Hs.
  intros Hpa. eapply mapped_bound, (mapped_below s), below_last_page; [exact Hs|done].
Qed.

(** A kernel-space pointer in the finished table. *)
Lemma kernelspace_walk p pa : platform_init s = Ok p → 0 ≤ pa ≤ s →
  pg_cr3 p = ptr ∧ pg_base p = 2 ^ 64 - n4 * 2 ^ 39 ∧
  ptr_to_kernelspace (pg_base p) pa = pg_base p + pa ∧ pg_base p + pa < 2 ^ 64 ∧
  walk (pg_cr3 p) (pg_words p) (pg_cr3 p) (ptr_to_kernelspace (pg_base p) pa) = Some pa ∧
  virt_to_phys (pg_base p) (ptr_to_kernelspace (pg_base p) pa) = pa.
Proof using All.
  intros Hp Hpa.
  destruct (platform_init_ok s ptr ws (proj1 Hs) Ha) as (p' & Hp' & Hcr3 & _ & Hbase & _ & Hf & _).
  assert (p' = p) as -> by congruence. apply below_bound in Hpa as Hb.
  pose proof (covered_ranges s).
  rewrite Hcr3, Hbase, kernelspace_add by done. split_and!; [done|done|done|lia| |].
  - eapply walk_mirror; [by eapply sizes_table_ok|apply Hf|apply Hf|].
    by apply mapped_below, below_last_page.
  - rewrite <- kernelspace_add by done.
    apply virt_to_phys_to_virt; [|by apply base_representable]. unfold uint. lia.
Qed.

(** C18: when the number of PML4 entries is a power of two, the kernel-space
    pointer of every physical address translates back to it, in the
    processor's table and by the kernel's own [virt_to_phys]. *)
Theorem kernelspace_pointers :
  ∃ p, platform_init s = Ok p ∧ ∀ pa, 0 ≤ pa ≤ s →
    walk (pg_cr3 p) (pg_words p) (pg_cr3 p) (ptr_to_kernelspace (pg_base p) pa) = Some pa ∧
    virt_to_phys (pg_base p) (ptr_to_kernelspace (pg_base p) pa) = pa.
Proof using All.
  destruct (platform_init_ok s ptr ws (proj1 Hs) Ha) as (p & Hp & _).
  exists p. split; [done|]. intros pa Hpa. by apply kernelspace_walk.
Qed.

(** What unmapping does to the table of the bootloader. *)
Lemma unmap_identity :
  ptr + (1 + n4 + (covered s / 2 ^ 30 + 1)) * 4096 ≤ s →
  ∃ p ws', platform_init s = Ok p ∧
    virt_manager_init ptr (pg_cr3 p) (pg_base p) (pg_info p) (pg_words p) = Ok (ws', ptr) ∧
    length ws' = length ws ∧
    (∀ j, 0 ≤ j < n4 → ws' !! Z.to_nat j = Some 0) ∧
    (∀ j, n4 ≤ j < 512 - n4 → ws' !! Z.to_nat j = ws !! Z.to_nat j) ∧
    (∀ pa, 0 ≤ pa ≤ s → walk ptr ws' ptr (phys_to_virt (pg_base p) pa) = Some pa).
Proof using All.
  intros Hmem.
  destruct (platform_init_ok s ptr ws (proj1 Hs) Ha) as (p & Hp & Hcr3 & Hlen & Hbase & Hinfo & Hf & Hmid).
  pose proof (sizes_table_ok s ptr ws Ha) as Hto.
  pose proof (pages_range _ _ _ Ha) as [Hp0 _]. pose proof (pages_words _ _ _ Ha) as Hwords.
  cbn in Hwords. pose proof (covered_ranges s) as (? & ? & ?).
  assert (0 ≤ ptr < n4 * 2 ^ 39) as Hptr by (apply below_bound; lia).
  destruct (clear_slots_ok ptr n4 (covered s / 2 ^ 30 + 1) (covered s / 2 ^ 21 + 1) Hto (pg_words p))
    as (ws' & Hws' & Hlen' & Hzero & Hsame); [by rewrite Hlen|done| |].
  { intros i Hi. apply mapped_below, below_last_page; [done|]. lia. }
  exists p, ws'. split; [done|]. unfold virt_manager_init.
  rewrite Hinfo, Hcr3, Hbase. cbn [page_buffer pml4_entries].
  rewrite kernelspace_add by done. rewrite Hws'. simpl_res.
  split_and!; [|congruence|done|intros j Hj; rewrite Hsame by lia; by apply Hmid|].
  - do 2 f_equal. rewrite <- kernelspace_add by done.
    apply virt_to_phys_to_virt; [unfold uint; lia|by apply base_representable].
  - intros pa Hpa. apply below_bound in Hpa as Hb.
    change phys_to_virt with ptr_to_kernelspace. rewrite kernelspace_add by done.
    eapply walk_mirror; [done| | |by apply mapped_below, below_last_page].
    + intros i Hi. rewrite Hsame by lia. apply (f_high _ _ _ _ _ Hf). lia.
    + destruct (f_lower _ _ _ _ _ Hf) as [Hpdp Hpd].
      split; intros i Hi; rewrite Hsame by lia; auto.
Qed.

(** Which addresses of the lower half are then unmapped: those of the cleared
    slots, and those of the slots that were not present in the buffer the
    firmware handed out. *)
Lemma unmapped_walk ws' :
  Z.of_nat (length ws) = (1 + n4 + (covered s / 2 ^ 30 + 1)) * 512 →
  (∀ j, 0 ≤ j < n4 → ws' !! Z.to_nat j = Some 0) →
  (∀ j, n4 ≤ j < 512 - n4 → ws' !! Z.to_nat j = ws !! Z.to_nat j) →
  ∀ va, 0 ≤ va < 2 ^ 47 →
    (∀ e, n4 ≤ va / 2 ^ 39 → ws !! Z.to_nat (va / 2 ^ 39) = Some e → Z.testbit e 0 = false) →
    walk ptr ws' ptr va = None.
Proof using All.
  intros Hlen Hzero Hmid va Hva He. pose proof (covered_ranges s) as (? & ? & ?).
  assert (0 ≤ va / 2 ^ 39) by (apply Z.div_pos; lia).
  assert (va / 2 ^ 39 < 256) by (apply Z.div_lt_upper_bound; lia).
  destruct (Z.lt_ge_cases (va / 2 ^ 39) n4) as [Hlt|Hge].
  - eapply walk_absent; [done|by apply Hzero|done].
  - destruct (lookup_lt_is_Some_2 ws (Z.to_nat (va / 2 ^ 39))) as [e E]; [lia|].
    eapply (walk_absent _ _ _ e); [done| |by apply He]. rewrite Hmid; [done|]. lia.
Qed.

(** C19: on a machine whose memory (page table included) ends below 128 TiB and
    takes a power of two of PML4 entries, the kernel's virtual memory manager
    removes the identity mapping: its stores go through the mirror, hit the
    table's first entries, and leave every kernel-space pointer translating as
    before.  The slots between the two mappings are never written: they still
    hold the words of the buffer the firmware handed out, so an address of
    the lower half is unmapped when it lies below the end of the identity
    mapping or its slot was not present in that buffer. *)
Theorem identity_unmapped :
  ptr + (1 + n4 + (covered s / 2 ^ 30 + 1)) * 4096 ≤ s →
  ∃ p ws', platform_init s = Ok p ∧
    virt_manager_init ptr (pg_cr3 p) (pg_base p) (pg_info p) (pg_words p) = Ok (ws', ptr) ∧
    (∀ pa, 0 ≤ pa ≤ s → walk ptr ws' ptr (phys_to_virt (pg_base p) pa) = Some pa) ∧
    (∀ va, 0 ≤ va < n4 * 2 ^ 39 → walk ptr ws' ptr va = None) ∧
    (∀ j, n4 ≤ j < 512 - n4 → ws' !! Z.to_nat j = ws !! Z.to_nat j) ∧
    (∀ va e, n4 * 2 ^ 39 ≤ va < 2 ^ 47 → ws !! Z.to_nat (va / 2 ^ 39) = Some e →
       Z.testbit e 0 = false → walk ptr ws' ptr va = None).
Proof using All.
  intros Hmem. destruct (unmap_identity Hmem) as (p & ws' & Hp & Hvm & Hlen & Hzero & Hmid & Hhigh).
  pose proof (pages_words _ _ _ Ha) as Hwords. pose proof (covered_ranges s) as (? & _ & _).
  assert (n4 * 2 ^ 39 ≤ 2 ^ 47) by lia.
  exists p, ws'. split_and!; [done|done|done| |done|].
  - intros va Hva. apply unmapped_walk; [done|done|done|lia|]. intros e Hle.
    assert (va / 2 ^ 39 < n4) by (apply Z.div_lt_upper_bound; lia). lia.
  - intros va e Hva He Hb. apply unmapped_walk; [done|done|done|lia|]. intros e' _ E. by simplify_eq.
Qed.
End mirror.

(** C37: with three PML4 entries (memory that ends between 1 TiB and 1.5 TiB)
    the kernel-space pointer of physical address 512 GiB is the one of
    physical address 0, and the processor translates it to 0. *)
Theorem kernelspace_pointers_collide `{PageSourceLaws} s :
  2 ^ 40 ≤ s < 2 ^ 40 + 2 ^ 39 → is_Some (allocate_pages (ts_alloc_pages (sizes s))) →
  ∃ p, platform_init s = Ok p ∧
    ptr_to_kernelspace (pg_base p) (2 ^ 39) = ptr_to_kernelspace (pg_base p) 0 ∧
    walk (pg_cr3 p) (pg_words p) (pg_cr3 p) (ptr_to_kernelspace (pg_base p) (2 ^ 39)) = Some 0.
Proof.
  intros Hs [[ptr ws] Ha].
  destruct (platform_init_ok s ptr ws ltac:(lia) Ha) as (p & Hp & Hcr3 & _ & Hbase & _ & Hf & _).
  apply sizes_table_ok in Ha as Hto.
  assert (covered s / 2 ^ 39 = 2) as E.
  { rewrite covered_small by lia. symmetry. apply Z.div_unique with (s - 2 ^ 40); lia. }
  rewrite E in *.
  exists p. rewrite Hcr3, Hbase. split_and!; [done|done|].
  change (ptr_to_kernelspace _ _) with (2 ^ 64 - (2 + 1) * 2 ^ 39 + 0).
  eapply walk_mirror; [done|apply Hf|apply Hf|].
  rewrite <- E at 1. apply mapped_below. pose proof (covered_ranges s). lia.
Qed.

(** ** Witnesses: a firmware that hands out garbage-filled pages at 2 MiB *)

#[local] Instance demo_source : PageSource := {
  allocate_pages n :=
    if (0 <=? n) && (n <=? 2 ^ 18)
    then Some (0x200000, replicate (Z.to_nat (n * 512)) 0xDEADBEEF) else None;
}.

#[local] Instance demo_source_laws : PageSourceLaws.
Proof.
  split; intros n p ws; unfold allocate_pages, demo_source; cbn;
    destruct (Z.leb_spec 0 n), (Z.leb_spec n (2 ^ 18)); cbn; intros E;
    try discriminate E; injection E as <- <-.
  - by exists 512.
  - lia.
  - rewrite length_replicate. lia.
Qed.

Definition demo_mmap : list (Z * Z) := [(0, 160); (0x100000, 4096)].
Definition demo_firmware : firmware := mkFirmware 480 528 (Some 0x10000) (Some demo_mmap) true.

Lemma demo_firmware_ok : firmware_ok demo_firmware demo_mmap.
Proof.
  split; try done.
  intros a n [[= -> ->]|[[= -> ->]|[]%elem_of_nil]%elem_of_cons]%elem_of_cons; lia.
Qed.

Lemma boot_paging_maps_memory_witness :
  ∃ p, init demo_firmware = Ok p ∧
    walk (pg_cr3 p) (pg_words p) (pg_cr3 p) 0x123456 = Some 0x123456 ∧
    walk (pg_cr3 p) (pg_words p) (pg_cr3 p) (pg_base p + 0x123456) = Some 0x123456.
Proof.
  destruct (boot_paging_maps_memory demo_firmware demo_mmap) as (p & Hp & Hmap).
  - exact demo_firmware_ok.
  - intros n Hn. unfold allocate_pages, demo_source. cbn. destruct (Z.leb_spec 0 n), (Z.leb_spec n (2 ^ 18)); cbn; [by eexists|lia..].
  - exists p. split; [exact Hp|]. apply (Hmap 0x100000 4096 0x123456); [|lia].
    right. left.
Defined.

Lemma kernelspace_pointers_witness :
  ∃ p, platform_init 0x1000000 = Ok p ∧ ∀ pa, 0 ≤ pa ≤ 0x1000000 →
    walk (pg_cr3 p) (pg_words p) (pg_cr3 p) (ptr_to_kernelspace (pg_base p) pa) = Some pa ∧
    virt_to_phys (pg_base p) (ptr_to_kernelspace (pg_base p) pa) = pa.
Proof.
  apply (kernelspace_pointers 0x1000000 0x200000 (replicate (Z.to_nat (3 * 512)) 0xDEADBEEF)) with 0;
    [lia|reflexivity|lia|reflexivity].
Defined.

Lemma identity_unmapped_witness :
  ∃ p ws', platform_init 0x1000000 = Ok p ∧
    virt_manager_init 0x200000 (pg_cr3 p) (pg_base p) (pg_info p) (pg_words p) = Ok (ws', 0x200000) ∧
    (∀ pa, 0 ≤ pa ≤ 0x1000000 →
       walk 0x200000 ws' 0x200000 (phys_to_virt (pg_base p) pa) = Some pa) ∧
    (∀ va, 0 ≤ va < 1 * 2 ^ 39 → walk 0x200000 ws' 0x200000 va = None) ∧
    (∀ j, 1 ≤ j < 512 - 1 →
       ws' !! Z.to_nat j = replicate (Z.to_nat (3 * 512)) 0xDEADBEEF !! Z.to_nat j) ∧
    (∀ va e, 1 * 2 ^ 39 ≤ va < 2 ^ 47 →
       replicate (Z.to_nat (3 * 512)) 0xDEADBEEF !! Z.to_nat (va / 2 ^ 39) = Some e →
       Z.testbit e 0 = false → walk 0x200000 ws' 0x200000 va = None).
Proof.
  apply (identity_unmapped 0x1000000 0x200000 (replicate (Z.to_nat (3 * 512)) 0xDEADBEEF)) with 0;
    [lia|reflexivity|lia|reflexivity|vm_compute; discriminate].
Defined.

Lemma kernelspace_pointers_collide_witness :
  ∃ p, platform_init (2 ^ 40) = Ok p ∧
    ptr_to_kernelspace (pg_base p) (2 ^ 39) = ptr_to_kernelspace (pg_base p) 0 ∧
    walk (pg_cr3 p) (pg_words p) (pg_cr3 p) (ptr_to_kernelspace (pg_base p) (2 ^ 39)) = Some 0.
Proof. apply (kernelspace_pointers_collide (2 ^ 40)); [lia|by eexists]. Defined.
