(* ===== verification/Bytes.v ===== *)
(** * Byte memory.

    Structures that the program lays over raw memory are bytes, little endian.
    An access past the memory behind a pointer is undefined behaviour. *)
From stdpp Require Import base gmap numbers strings list.
From S2P Require Import Prelude.

#[local] Open Scope Z_scope.

Fixpoint le_bytes (n : nat) (x : Z) : list Z :=
  match n with O => [] | S n => x mod 256 :: le_bytes n (x / 256) end.

Fixpoint from_le (l : list Z) : Z :=
  match l with [] => 0 | b :: l => b + 256 * from_le l end.

Definition slice (mem : list Z) (off n : nat) : list Z := take n (drop off mem).

(** Overwrite [length bs] bytes at [off]; past the memory it is undefined. *)
Definition write_slice (mem : list Z) (off : nat) (bs : list Z) : res (list Z) :=
  if decide (off + length bs ≤ length mem)%nat
  then Ok (take off mem ++ bs ++ drop (off + length bs) mem) else Err UB.

(** Read an [n]-byte little-endian integer. *)
Definition read_le (mem : list Z) (off : Z) (n : nat) : res Z :=
  if (0 <=? off) && (off + Z.of_nat n <=? Z.of_nat (length mem))
  then Ok (from_le (slice mem (Z.to_nat off) n)) else Err UB.

(** Read and write byte ranges; [zero_range] is [write_bytes(0, n)]. *)
Definition bytes_in (mem : list Z) (off n : Z) : bool :=
  (0 <=? off) && (0 <=? n) && (off + n <=? Z.of_nat (length mem)).

Definition read_bytes (mem : list Z) (off n : Z) : res (list Z) :=
  if bytes_in mem off n then Ok (slice mem (Z.to_nat off) (Z.to_nat n)) else Err UB.

Definition write_range (mem : list Z) (off : Z) (bs : list Z) : res (list Z) :=
  if bytes_in mem off (Z.of_nat (length bs)) then write_slice mem (Z.to_nat off) bs else Err UB.

Definition zero_range (mem : list Z) (off n : Z) : res (list Z) :=
  if bytes_in mem off n then write_range mem off (replicate (Z.to_nat n) 0) else Err UB.

(** ** Lemmas *)

Lemma from_le_bytes n x : 0 ≤ x → from_le (le_bytes n x) = x mod 256 ^ Z.of_nat n.
Proof.
  revert x. induction n as [|n IH]; intros x Hx; [by rewrite Z.mod_1_r|].
  cbn [le_bytes from_le]. rewrite IH by (apply Z.div_pos; lia).
  rewrite Nat2Z.inj_succ, Z.pow_succ_r by lia.
  rewrite Z.rem_mul_r by (pose proof (Z.pow_pos_nonneg 256 (Z.of_nat n)); lia). done.
Qed.

Lemma length_le_bytes n x : length (le_bytes n x) = n.
Proof. revert x. induction n; intros x; simpl; auto. Qed.

Lemma write_slice_ok mem off bs : (off + length bs ≤ length mem)%nat →
  ∃ mem', write_slice mem off bs = Ok mem' ∧ length mem' = length mem ∧
    ∀ j, mem' !! j = if decide (off ≤ j < off + length bs)%nat then bs !! (j - off)%nat else mem !! j.
Proof.
  intros Hle. unfold write_slice. rewrite decide_True by done. eexists. split; [done|]. split.
  - rewrite !length_app, length_take, length_drop. lia.
  - intros j. destruct (decide _) as [Hj|Hj].
    + rewrite lookup_app_r, length_take, lookup_app_l by (rewrite ?length_take; lia).
      f_equal. lia.
    + destruct (decide (j < off)%nat).
      * rewrite lookup_app_l by (rewrite length_take; lia). by apply lookup_take_lt.
      * rewrite lookup_app_r, length_take, lookup_app_r by (rewrite ?length_take; lia).
        rewrite lookup_drop. f_equal. lia.
Qed.

Lemma lookup_slice mem off n j :
  slice mem off n !! j = if decide (j < n)%nat then mem !! (off + j)%nat else None.
Proof.
  unfold slice. destruct (decide _).
  - by rewrite lookup_take_lt, lookup_drop.
  - apply lookup_take_ge. lia.
Qed.

Lemma foldM_fmap {A B C} (f : C → B → res C) (g : A → B) c l :
  foldM f c (g <$> l) = foldM (λ c a, f c (g a)) c l.
Proof.
  revert c. induction l as [|a l IH]; intros c; [done|]. cbn.
  destruct (f c (g a)); simpl_res; [apply IH|done].
Qed.

Lemma bytes_in_true mem off n : bytes_in mem off n = true ↔
  0 ≤ off ∧ 0 ≤ n ∧ off + n ≤ Z.of_nat (length mem).
Proof. unfold bytes_in. rewrite !andb_true_iff, !Z.leb_le. lia. Qed.

(** Lookups after a write, by [Z] offsets. *)
Lemma write_range_ok mem off bs : 0 ≤ off → off + Z.of_nat (length bs) ≤ Z.of_nat (length mem) →
  ∃ mem', write_range mem off bs = Ok mem' ∧ length mem' = length mem ∧
    ∀ j, 0 ≤ j → mem' !! Z.to_nat j =
      if decide (off ≤ j < off + Z.of_nat (length bs)) then bs !! Z.to_nat (j - off)
      else mem !! Z.to_nat j.
Proof.
  intros H0 Hle. unfold write_range. rewrite (proj2 (bytes_in_true _ _ _)) by lia.
  destruct (write_slice_ok mem (Z.to_nat off) bs) as (mem' & -> & Hl & Hlk); [lia|].
  exists mem'. split_and!; [done|done|]. intros j Hj. rewrite Hlk.
  destruct (decide (off ≤ j < off + Z.of_nat (length bs))).
  - rewrite decide_True by lia. f_equal. lia.
  - by rewrite decide_False by lia.
Qed.

Lemma zero_range_ok mem off n : 0 ≤ off → 0 ≤ n → off + n ≤ Z.of_nat (length mem) →
  ∃ mem', zero_range mem off n = Ok mem' ∧ length mem' = length mem ∧
    ∀ j, 0 ≤ j → mem' !! Z.to_nat j =
      if decide (off ≤ j < off + n) then Some 0 else mem !! Z.to_nat j.
Proof.
  intros H0 Hn Hle. unfold zero_range. rewrite (proj2 (bytes_in_true _ _ _)) by lia.
  destruct (write_range_ok mem off (replicate (Z.to_nat n) 0)) as (mem' & -> & Hl & Hlk);
    [done|rewrite length_replicate; lia|].
  exists mem'. split_and!; [done|done|]. intros j Hj. rewrite Hlk by done.
  rewrite length_replicate, Z2Nat.id by done.
  destruct (decide _); [|done]. apply lookup_replicate_2. lia.
Qed.

Lemma read_bytes_ok mem off n : 0 ≤ off → 0 ≤ n → off + n ≤ Z.of_nat (length mem) →
  ∃ bs, read_bytes mem off n = Ok bs ∧ Z.of_nat (length bs) = n ∧
    ∀ i, 0 ≤ i < n → bs !! Z.to_nat i = mem !! Z.to_nat (off + i).
Proof.
  intros H0 Hn Hle. unfold read_bytes. rewrite (proj2 (bytes_in_true _ _ _)) by lia.
  eexists. split; [done|]. split.
  - unfold slice. rewrite length_take, length_drop. lia.
  - intros i Hi. rewrite lookup_slice, decide_True by lia. f_equal. lia.
Qed.

(** Reading depends on the bytes read only. *)
Lemma read_le_ext mem mem' off n : length mem' = length mem →
  (∀ j, off ≤ j < off + Z.of_nat n → mem' !! Z.to_nat j = mem !! Z.to_nat j) →
  read_le mem' off n = read_le mem off n.
Proof.
  intros Hl He. unfold read_le. rewrite Hl. destruct (Z.leb_spec 0 off); [|done]. cbn [andb].
  destruct (_ <=? _) eqn:Hle; [|done]. do 2 f_equal. apply list_eq. intros i.
  rewrite !lookup_slice. destruct (decide _); [|done].
  rewrite <- (Nat2Z.id i), <- !Z2Nat.inj_add by lia. apply He. lia.
Qed.

(** A stored integer reads back. *)
Lemma read_le_written mem mem' off n x : 0 ≤ off → 0 ≤ x < 256 ^ Z.of_nat n →
  write_range mem off (le_bytes n x) = Ok mem' → read_le mem' off n = Ok x.
Proof.
  intros H0 Hx Hw. unfold write_range in Hw.
  destruct (bytes_in mem off _) eqn:Hr; [|done]. apply bytes_in_true in Hr as (_ & _ & Hr).
  rewrite length_le_bytes in Hr.
  destruct (write_slice_ok mem (Z.to_nat off) (le_bytes n x)) as (m & Hm & Hl & Hlk);
    [rewrite length_le_bytes; lia|].
  assert (m = mem') as -> by congruence. unfold read_le.
  rewrite (proj2 (Z.leb_le _ _)), (proj2 (Z.leb_le _ _)) by lia. cbn [andb].
  replace (slice mem' (Z.to_nat off) n) with (le_bytes n x).
  - rewrite from_le_bytes, Z.mod_small by lia. done.
  - apply list_eq. intros i. rewrite lookup_slice. destruct (decide _).
    + rewrite Hlk, length_le_bytes, decide_True by lia. f_equal. lia.
    + apply lookup_ge_None_2. rewrite length_le_bytes. lia.
Qed.
