(* ===== verification/Gdt.v ===== *)
(** * Segment descriptors and task state segments
      ([kernel/src/arch/x86_64/gdt.rs]).

    The descriptor table is the 64-bit slots behind the pointer [GDT], the
    task state segments are the [Tss] structures behind [TSS]; both start
    with whatever the allocated pages held.  [decode_code] and [decode_tss]
    read descriptors the way the AMD64 manual says the processor does
    (volume 2, section 4.8).

    For one core, the configuration [init_platform] uses, the table is what
    the processor needs.  For more cores it is not: each TSS descriptor takes
    two slots but they are written one slot apart, and only the first TSS is
    initialised. *)
From stdpp Require Import base gmap numbers strings list.
From S2P Require Import Prelude.

#[local] Open Scope Z_scope.

Definition SELECTOR_NULL : Z := 0.
Definition SELECTOR_KERNEL_CODE : Z := 8.
Definition SELECTOR_USER_CODE : Z := Z.lor 16 3.

(** [(1 << 43) | (1 << 44) | (1 << 47) | (1 << 53)] *)
Definition DESC_CODE_BASE : Z :=
  Z.lor (Z.lor (Z.lor (Z.shiftl 1 43) (Z.shiftl 1 44)) (Z.shiftl 1 47)) (Z.shiftl 1 53).

Definition DESC_USER_DPL : Z := Z.shiftl 3 45.

(** [GDTEntry::null] and [GDTEntry::new_code] *)
Definition GDTEntry_null : Z := 0.
Definition GDTEntry_new_code (user_mode : bool) : Z :=
  if user_mode then Z.lor DESC_CODE_BASE DESC_USER_DPL else DESC_CODE_BASE.

(** [struct Tss], 104 bytes packed *)
Record Tss := mkTss {
  reserved0 : Z; rsp0 : Z; rsp1 : Z; rsp2 : Z; reserved1 : Z;
  ist1 : Z; ist2 : Z; ist3 : Z; ist4 : Z; ist5 : Z; ist6 : Z; ist7 : Z;
  reserved2 : Z; reserved3 : Z;
}.

Definition size_of_Tss : Z := 4 + 3 * 8 + 8 + 7 * 8 + 8 + 4.
Definition size_of_GDTEntry : Z := 8.

Definition zero_tss : Tss := mkTss 0 0 0 0 0 0 0 0 0 0 0 0 0 0.

(** [struct GDTEntryTSS], 16 bytes packed *)
Record GDTEntryTSS := mkGDTEntryTSS {
  limit0 : Z;
  base0 : Z;
  base1 : Z;
  type_dpl_p : Z;
  limi1 : Z;
  base2 : Z;
  base3 : Z;
  tss_reserved : Z;
}.

(** The packed fields in memory order, as the two slots they fill. *)
Definition tss_entry_slots (e : GDTEntryTSS) : Z * Z :=
  (limit0 e + Z.shiftl (base0 e) 16 + Z.shiftl (base1 e) 32 + Z.shiftl (type_dpl_p e) 40 +
     Z.shiftl (limi1 e) 48 + Z.shiftl (base2 e) 56,
   base3 e + Z.shiftl (tss_reserved e) 32).

(** The descriptor of the TSS at [tss_ptr]. *)
Definition tss_entry (tss_ptr : Z) : res GDTEntryTSS :=
  limit ← sub_w 16 (wrap 16 size_of_Tss) 1;
  mret (mkGDTEntryTSS limit (wrap 16 tss_ptr) (wrap 8 (Z.shiftr tss_ptr 16)) 0x89 0
          (wrap 8 (Z.shiftr tss_ptr 24)) (wrap 32 (Z.shiftr tss_ptr 32)) 0).

(** [ptr.offset(i).write(v)]: undefined past the memory behind the pointer. *)
Definition write_at {A} (l : list A) (i : Z) (v : A) : res (list A) :=
  if (0 <=? i) && (i <? Z.of_nat (length l)) then Ok (<[Z.to_nat i := v]> l) else Err UB.

(** The pages [init] asks for. *)
Definition num_gdt_pages (num_cores : Z) : res Z :=
  a ← mul_w 64 num_cores 2;
  b ← add_w 64 3 a;
  c ← mul_w 64 b size_of_GDTEntry;
  d ← add_w 64 c 4095;
  mret (d / 4096).

Definition num_tss_pages (num_cores : Z) : res Z :=
  a ← mul_w 64 num_cores size_of_Tss;
  b ← add_w 64 a 4095;
  mret (b / 4096).

(** One iteration of the loop over the cores. *)
Definition init_tss (tss_mem : Z) (mem : list Z * list Tss) (i : Z) : res (list Z * list Tss) :=
  let '(gdt, tss) := mem in
  e ← tss_entry (wrap 64 (tss_mem + i * size_of_Tss));
  let '(lo, hi) := tss_entry_slots e in
  gdt ← write_at gdt (3 + i) lo;
  gdt ← write_at gdt (3 + i + 1) hi;
  tss ← write_at tss 0 zero_tss;
  mret (gdt, tss).

(** [pub fn init], on the memory of the two allocations *)
Definition init (num_cores tss_mem : Z) (gdt : list Z) (tss : list Tss) : res (list Z * list Tss) :=
  gdt ← write_at gdt 0 GDTEntry_null;
  gdt ← write_at gdt 1 (GDTEntry_new_code false);
  gdt ← write_at gdt 2 (GDTEntry_new_code true);
  foldM (init_tss tss_mem) (gdt, tss) (seqZ 0 num_cores).

(** [struct Gdtr] *)
Record Gdtr := mkGdtr { gdtr_limit : Z; gdtr_base : Z }.

(** [pub fn init_core]: the operand of [lgdt], the code selector the far
    return loads, and the operand of [ltr]. *)
Definition init_core (GDT core_id : Z) : res (Gdtr * Z * Z) :=
  a ← mul_w 16 2 (wrap 16 core_id);
  b ← add_w 16 5 a;
  c ← mul_w 16 b 8;
  limit ← sub_w 16 c 1;
  d ← mul_w 64 core_id 2;
  e ← add_w 64 3 d;
  sel ← mul_w 64 e 8;
  mret (mkGdtr limit GDT, SELECTOR_KERNEL_CODE, wrap 16 sel).

(** [pub fn set_ist1] *)
Definition set_ist1 (tss : list Tss) (core_id val : Z) : res (list Tss) :=
  t ← (if 0 <=? core_id then of_option UB (tss !! Z.to_nat core_id) else Err UB);
  write_at tss core_id
    (mkTss (reserved0 t) (rsp0 t) (rsp1 t) (rsp2 t) (reserved1 t) val (ist2 t) (ist3 t) (ist4 t)
       (ist5 t) (ist6 t) (ist7 t) (reserved2 t) (reserved3 t)).

(** ** What the processor reads *)

(** The slot a selector names, if the table's limit covers it. *)
Definition selected (g : Gdtr) (gdt : list Z) (sel bytes : Z) : option Z :=
  if Z.land sel 0xFFF8 + bytes - 1 <=? gdtr_limit g then gdt !! Z.to_nat (Z.shiftr sel 3) else None.

(** A present 64-bit code segment and its privilege level. *)
Definition decode_code (d : Z) : option Z :=
  if Z.testbit d 47 && Z.testbit d 44 && Z.testbit d 43 && Z.testbit d 53 && negb (Z.testbit d 54)
  then Some (Z.land (Z.shiftr d 45) 3) else None.

(** A present, available 64-bit TSS: base and limit. *)
Definition decode_tss (lo hi : Z) : option (Z * Z) :=
  if Z.land (Z.shiftr lo 40) 0xFF =? 0x89 then
    Some (Z.land (Z.shiftr lo 16) 0xFFFFFF + Z.shiftl (Z.land (Z.shiftr lo 56) 0xFF) 24 +
            Z.shiftl (Z.land hi 0xFFFFFFFF) 32,
          Z.land lo 0xFFFF + Z.shiftl (Z.land (Z.shiftr lo 48) 0xF) 16)
  else None.

(** What [ltr sel] makes the task register point to. *)
Definition load_tss (g : Gdtr) (gdt : list Z) (sel : Z) : option (Z * Z) :=
  lo ← selected g gdt sel 16;
  hi ← gdt !! Z.to_nat (Z.shiftr sel 3 + 1);
  decode_tss lo hi.

(** ** Theorems *)

Ltac fields_lia := Z.to_euclidean_division_equations; lia.

Lemma tss_entry_eq p : tss_entry p =
  Ok (mkGDTEntryTSS 103 (p mod 2 ^ 16) (Z.shiftr p 16 mod 2 ^ 8) 0x89 0 (Z.shiftr p 24 mod 2 ^ 8)
        (Z.shiftr p 32 mod 2 ^ 32) 0).
Proof. reflexivity. Qed.

Lemma write_at_ok {A} (l : list A) i v : 0 ≤ i < Z.of_nat (length l) →
  write_at l i v = Ok (<[Z.to_nat i := v]> l).
Proof.
  intros Hi. unfold write_at.
  by rewrite (proj2 (Z.leb_le _ _)), (proj2 (Z.ltb_lt _ _)) by lia.
Qed.

Ltac write_slots :=
  repeat first
    [ rewrite bind_Ok
    | rewrite write_at_ok by (rewrite ?length_insert; cbn [length]; lia) ].

(** The pages asked for have room for what is written, for any number of
    cores that fits the limit field. *)
Lemma gdt_pages_enough n : 0 ≤ n < 2 ^ 12 →
  ∃ g t, num_gdt_pages n = Ok g ∧ num_tss_pages n = Ok t ∧
    3 + 2 * n ≤ g * 512 ∧ n * size_of_Tss ≤ t * 4096.
Proof.
  intros Hn. unfold num_gdt_pages, num_tss_pages, size_of_GDTEntry.
  change size_of_Tss with 104. checked_arith. do 2 eexists. split_and!; [done|done|fields_lia..].
Qed.

(** The two slots of the descriptor of the TSS at [p]. *)
Definition tss_lo (p : Z) : Z :=
  103 + p mod 2 ^ 16 * 2 ^ 16 + p / 2 ^ 16 mod 2 ^ 8 * 2 ^ 32 + 0x89 * 2 ^ 40 +
    p / 2 ^ 24 mod 2 ^ 8 * 2 ^ 56.
Definition tss_hi (p : Z) : Z := p / 2 ^ 32 mod 2 ^ 32.

Lemma init_tss_ok tss_mem gdt tss i : 0 ≤ i → uint 64 (tss_mem + i * 104) →
  5 + i ≤ Z.of_nat (length gdt) → 1 ≤ Z.of_nat (length tss) →
  init_tss tss_mem (gdt, tss) i =
  Ok (<[Z.to_nat (4 + i) := tss_hi (tss_mem + i * 104)]>
        (<[Z.to_nat (3 + i) := tss_lo (tss_mem + i * 104)]> gdt), <[0%nat := zero_tss]> tss).
Proof.
  intros Hi Hp Hg Ht. unfold init_tss. change size_of_Tss with 104.
  unfold wrap. rewrite (Z.mod_small _ (2 ^ 64)) by exact Hp.
  rewrite tss_entry_eq. simpl_res. unfold tss_entry_slots.
  cbn [limit0 base0 base1 type_dpl_p limi1 base2 base3 tss_reserved].
  rewrite !Z.shiftl_mul_pow2, !Z.shiftr_div_pow2 by lia. write_slots.
  unfold mret, res_ret, tss_lo, tss_hi. replace (3 + i + 1) with (4 + i) by lia.
  do 3 f_equal; [lia|]. f_equal. lia.
Qed.

(** The descriptor's scattered base and limit read back as written. *)
Lemma tss_slots_decode p : uint 64 p → decode_tss (tss_lo p) (tss_hi p) = Some (p, size_of_Tss - 1).
Proof.
  intros Hp. unfold decode_tss, tss_lo, tss_hi, uint in *.
  rewrite !Z.shiftl_mul_pow2, !Z.shiftr_div_pow2 by lia.
  change 0xFF with (Z.ones 8). change 0xFFFFFF with (Z.ones 24). change 0xFFFFFFFF with (Z.ones 32).
  change 0xFFFF with (Z.ones 16). change 0xF with (Z.ones 4).
  rewrite !Z.land_ones by lia.
  set (b0 := p mod 2 ^ 16). set (b1 := p / 2 ^ 16 mod 2 ^ 8). set (b2 := p / 2 ^ 24 mod 2 ^ 8).
  set (b3 := p / 2 ^ 32 mod 2 ^ 32).
  assert (0 ≤ b0 < 2 ^ 16) by by apply Z.mod_pos_bound.
  assert (0 ≤ b1 < 2 ^ 8) by by apply Z.mod_pos_bound.
  assert (0 ≤ b2 < 2 ^ 8) by by apply Z.mod_pos_bound.
  assert (0 ≤ b3 < 2 ^ 32) by by apply Z.mod_pos_bound.
  assert (p = b0 + b1 * 2 ^ 16 + b2 * 2 ^ 24 + b3 * 2 ^ 32) as Ep by (unfold b0, b1, b2, b3; fields_lia).
  clearbody b0 b1 b2 b3. subst p. change (size_of_Tss - 1) with 103.
  assert (((103 + b0 * 2 ^ 16 + b1 * 2 ^ 32 + 137 * 2 ^ 40 + b2 * 2 ^ 56) / 2 ^ 40) mod 2 ^ 8 = 137)
    as -> by fields_lia.
  rewrite Z.eqb_refl. do 2 f_equal; fields_lia.
Qed.

(** An upper half is not a descriptor, and a lower half used as an upper half
    puts limit and base bits into the address. *)
Lemma decode_tss_hi p hi : decode_tss (tss_hi p) hi = None.
Proof.
  unfold decode_tss, tss_hi. pose proof (Z.mod_pos_bound (p / 2 ^ 32) (2 ^ 32)).
  rewrite Z.shiftr_div_pow2, (Z.div_small _ (2 ^ 40)) by lia. done.
Qed.

Lemma decode_tss_overwritten p q : 0 ≤ p → p / 2 ^ 32 mod 2 ^ 16 ≠ 103 →
  decode_tss (tss_lo p) (tss_lo q) ≠ Some (p, size_of_Tss - 1).
Proof.
  intros Hp Hne. unfold decode_tss. destruct (_ =? _); [|done]. intros [= E _]. apply Hne.
  rewrite <- E. unfold tss_lo. rewrite !Z.shiftl_mul_pow2, !Z.shiftr_div_pow2 by lia.
  change 0xFF with (Z.ones 8). change 0xFFFFFF with (Z.ones 24). change 0xFFFFFFFF with (Z.ones 32).
  rewrite !Z.land_ones by lia.
  set (x := _ / 2 ^ 16 mod 2 ^ 24). set (y := _ / 2 ^ 56 mod 2 ^ 8).
  assert (0 ≤ x < 2 ^ 24) by by apply Z.mod_pos_bound.
  assert (0 ≤ y < 2 ^ 8) by by apply Z.mod_pos_bound.
  clearbody x y. generalize (q mod 2 ^ 16), (q / 2 ^ 16 mod 2 ^ 8), (q / 2 ^ 24 mod 2 ^ 8).
  intros a b c. fields_lia.
Qed.

(** The tables of one core, whatever the memory held. *)
Lemma init_one_core tss_mem g0 g1 g2 g3 g4 gdt t0 tss : uint 64 tss_mem →
  init 1 tss_mem (g0 :: g1 :: g2 :: g3 :: g4 :: gdt) (t0 :: tss) =
  Ok (GDTEntry_null :: GDTEntry_new_code false :: GDTEntry_new_code true ::
        tss_lo tss_mem :: tss_hi tss_mem :: gdt, zero_tss :: tss).
Proof.
  intros Hp. unfold init. write_slots. change (seqZ 0 1) with [0]. cbn [foldM].
  rewrite init_tss_ok by (rewrite ?length_insert; unfold uint in *; cbn [length]; lia).
  replace (tss_mem + 0 * 104) with tss_mem by lia. reflexivity.
Qed.

(** C23: with the one core the kernel starts, whatever the allocated memory
    held: the selectors name a null, a kernel and a user code segment, the
    task register finds the TSS with its whole base address and its size, the
    TSS is zeroed, and setting its first interrupt stack changes that field
    only. *)
Theorem gdt_single_core GDT tss_mem gdt tss stack :
  uint 64 tss_mem → 5 ≤ Z.of_nat (length gdt) → 1 ≤ Z.of_nat (length tss) →
  ∃ gdt' tss' g cs tr,
    init 1 tss_mem gdt tss = Ok (gdt', tss') ∧ init_core GDT 0 = Ok (g, cs, tr) ∧
    selected g gdt' SELECTOR_NULL 8 = Some 0 ∧
    (selected g gdt' cs 8 ≫= decode_code) = Some 0 ∧
    (selected g gdt' SELECTOR_USER_CODE 8 ≫= decode_code) = Some 3 ∧
    load_tss g gdt' tr = Some (tss_mem, size_of_Tss - 1) ∧
    set_ist1 tss' 0 stack =
      Ok (<[0%nat := mkTss 0 0 0 0 0 stack 0 0 0 0 0 0 0 0]> tss).
Proof.
  intros Hp Hg Ht.
  destruct gdt as [|g0 [|g1 [|g2 [|g3 [|g4 gdt]]]]]; try (cbn in Hg; lia).
  destruct tss as [|t0 tss]; [cbn in Ht; lia|].
  rewrite init_one_core by done. do 5 eexists. split; [reflexivity|]. split; [reflexivity|].
  split_and!; [reflexivity..| |reflexivity].
  exact (tss_slots_decode tss_mem Hp).
Qed.

(** C39: with two cores the table is wrong: the second core's TSS descriptor is
    written over the upper half of the first one's, the slot the second core
    loads its task register from does not hold a TSS descriptor, and the
    second core's TSS keeps whatever the memory held. *)
Theorem gdt_two_cores_broken GDT tss_mem gdt tss :
  0 ≤ tss_mem < 2 ^ 64 - 104 → tss_mem / 2 ^ 32 mod 2 ^ 16 ≠ 103 →
  7 ≤ Z.of_nat (length gdt) → 2 ≤ Z.of_nat (length tss) →
  ∃ gdt' tss' g0 g1 cs tr0 tr1,
    init 2 tss_mem gdt tss = Ok (gdt', tss') ∧
    init_core GDT 0 = Ok (g0, cs, tr0) ∧ init_core GDT 1 = Ok (g1, cs, tr1) ∧
    load_tss g0 gdt' tr0 ≠ Some (tss_mem, size_of_Tss - 1) ∧
    load_tss g1 gdt' tr1 = None ∧
    tss' !! 1%nat = tss !! 1%nat.
Proof.
  intros Hp Hne Hg Ht.
  destruct gdt as [|g0 [|g1 [|g2 [|g3 [|g4 [|g5 [|g6 gdt]]]]]]]; try (simpl in Hg; lia).
  destruct tss as [|t0 [|t1 tss]]; try (simpl in Ht; lia).
  unfold init. write_slots. change (seqZ 0 2) with [0; 1]. cbn [foldM].
  do 2 (rewrite init_tss_ok by (rewrite ?length_insert; unfold uint; cbn [length]; lia); simpl_res).
  do 7 eexists. split; [reflexivity|]. split; [reflexivity|]. split; [reflexivity|].
  replace (tss_mem + 0 * 104) with tss_mem by lia.
  split_and!; [| |reflexivity].
  - apply (decode_tss_overwritten tss_mem (tss_mem + 1 * 104)); [lia|done].
  - apply (decode_tss_hi (tss_mem + 1 * 104)).
Qed.

(** ** Witnesses *)

Lemma gdt_single_core_witness :
  ∃ gdt' tss' g cs tr,
    init 1 0xFFFFFF8000123000 (replicate 512 7) [zero_tss; zero_tss] = Ok (gdt', tss') ∧
    init_core 0xFFFFFF8000122000 0 = Ok (g, cs, tr) ∧
    load_tss g gdt' tr = Some (0xFFFFFF8000123000, 103).
Proof.
  destruct (gdt_single_core 0xFFFFFF8000122000 0xFFFFFF8000123000 (replicate 512 7)
    [zero_tss; zero_tss] 0xFFFFFF8000200000) as (gdt' & tss' & g & cs & tr & H1 & H2 & _ & _ & _ & H3 & _).
  - vm_compute. split; [discriminate|reflexivity].
  - vm_compute. discriminate.
  - vm_compute. discriminate.
  - exists gdt', tss', g, cs, tr. split; [exact H1|]. split; [exact H2|exact H3].
Defined.

Lemma gdt_two_cores_broken_witness :
  ∃ gdt' tss' g0 g1 cs tr0 tr1,
    init 2 0xFFFFFF8000123000 (replicate 512 7) [zero_tss; mkTss 9 9 9 9 9 9 9 9 9 9 9 9 9 9] =
      Ok (gdt', tss') ∧
    init_core 0xFFFFFF8000122000 0 = Ok (g0, cs, tr0) ∧
    init_core 0xFFFFFF8000122000 1 = Ok (g1, cs, tr1) ∧
    load_tss g0 gdt' tr0 ≠ Some (0xFFFFFF8000123000, size_of_Tss - 1) ∧
    load_tss g1 gdt' tr1 = None ∧
    tss' !! 1%nat = Some (mkTss 9 9 9 9 9 9 9 9 9 9 9 9 9 9).
Proof.
  apply (gdt_two_cores_broken 0xFFFFFF8000122000 0xFFFFFF8000123000 (replicate 512 7)
    [zero_tss; mkTss 9 9 9 9 9 9 9 9 9 9 9 9 9 9]);
    [lia|vm_compute; discriminate|vm_compute; discriminate|vm_compute; discriminate].
Defined.
