(* ===== verification/Interrupt.v ===== *)
(** * The interrupt descriptor table
      ([kernel/src/arch/x86_64/interrupt/mod.rs] with the two tables
      [isrs.rs] and [set_isrs.rs] it includes).

    Memory is the bytes from the pointer [IDT] on.  The addresses the linker
    gives the 256 stubs are a parameter.  [gate] reads a descriptor the way
    the AMD64 manual says the processor does (volume 2, section 4.8.4). *)
From stdpp Require Import base gmap numbers strings list.
From S2P Require Import Prelude.
From S2P Require Import Bytes.
From S2P Require Import Gdt.

#[local] Open Scope Z_scope.

(** ** The included tables *)

(** One line [isr!(isr_stub_<name>, <number>)], with or without [error]. *)
Record isr_line := mkIsr { isr_name : Z; isr_number : Z; isr_error : bool }.

#[global] Instance isr_line_eq_dec : EqDecision isr_line.
Proof. solve_decision. Defined.

#[local] Abbreviation isr n k := (mkIsr n k false) (only parsing).
#[local] Abbreviation err n k := (mkIsr n k true) (only parsing).

(** [isrs.rs]: the stubs that are generated. *)
Definition isrs_lo : list isr_line :=
  [
   isr 0 0; isr 1 1; isr 2 2; isr 3 3; isr 4 4; isr 5 5; isr 6 6; isr 7 7;
   err 8 8; isr 9 9; err 10 10; err 11 11; err 12 12; err 13 13; err 14 14; isr 15 15;
   isr 16 16; err 17 17; isr 18 18; isr 19 19; isr 20 20; isr 21 21; isr 22 22; isr 23 23;
   isr 24 24; isr 25 25; isr 26 26; isr 27 27; isr 28 28; isr 29 29; isr 30 30; isr 31 31;
   isr 32 32; isr 33 33; isr 34 34; isr 35 35; isr 36 36; isr 37 37; isr 38 38; isr 39 39;
   isr 40 40; isr 41 41; isr 42 42; isr 43 43; isr 44 44; isr 45 45; isr 46 46; isr 47 47;
   isr 48 48; isr 49 49; isr 50 50; isr 51 51; isr 52 52; isr 53 53; isr 54 54; isr 55 55;
   isr 56 56; isr 57 57; isr 58 58; isr 59 59; isr 60 60; isr 61 61; isr 62 62; isr 63 63;
   isr 64 64; isr 65 65; isr 66 66; isr 67 67; isr 68 68; isr 69 69; isr 70 70; isr 71 71;
   isr 72 72; isr 73 73; isr 74 74; isr 75 75; isr 76 76; isr 77 77; isr 78 78; isr 79 79;
   isr 80 80; isr 81 81; isr 82 82; isr 83 83; isr 84 84; isr 85 85; isr 86 86; isr 87 87;
   isr 88 88; isr 89 89; isr 90 90; isr 91 91; isr 92 92; isr 93 93; isr 94 94; isr 95 95;
   isr 96 96; isr 97 97; isr 98 98; isr 99 99; isr 100 100; isr 101 101; isr 102 102; isr 103 103;
   isr 104 104; isr 105 105; isr 106 106; isr 107 107; isr 108 108; isr 109 109; isr 110 110; isr 111 111;
   isr 112 112; isr 113 113; isr 114 114; isr 115 115; isr 116 116; isr 117 117; isr 118 118; isr 119 119;
   isr 120 120; isr 121 121; isr 122 122; isr 123 123; isr 124 124; isr 125 125; isr 126 126; isr 127 127].

Definition isrs_hi : list isr_line :=
  [
   isr 128 128; isr 129 129; isr 130 130; isr 131 131; isr 132 132; isr 133 133; isr 134 134; isr 135 135;
   isr 136 136; isr 137 137; isr 138 138; isr 139 139; isr 140 140; isr 141 141; isr 142 142; isr 143 143;
   isr 144 144; isr 145 145; isr 146 146; isr 147 147; isr 148 148; isr 149 149; isr 150 150; isr 151 151;
   isr 152 152; isr 153 153; isr 154 154; isr 155 155; isr 156 156; isr 157 157; isr 158 158; isr 159 159;
   isr 160 160; isr 161 161; isr 162 162; isr 163 163; isr 164 164; isr 165 165; isr 166 166; isr 167 167;
   isr 168 168; isr 169 169; isr 170 170; isr 171 171; isr 172 172; isr 173 173; isr 174 174; isr 175 175;
   isr 176 176; isr 177 177; isr 178 178; isr 179 179; isr 180 180; isr 181 181; isr 182 182; isr 183 183;
   isr 184 184; isr 185 185; isr 186 186; isr 187 187; isr 188 188; isr 189 189; isr 190 190; isr 191 191;
   isr 192 192; isr 193 193; isr 194 194; isr 195 195; isr 196 196; isr 197 197; isr 198 198; isr 199 199;
   isr 200 200; isr 201 201; isr 202 202; isr 203 203; isr 204 204; isr 205 205; isr 206 206; isr 207 207;
   isr 208 208; isr 209 209; isr 210 210; isr 211 211; isr 212 212; isr 213 213; isr 214 214; isr 215 215;
   isr 216 216; isr 217 217; isr 218 218; isr 219 219; isr 220 220; isr 221 221; isr 222 222; isr 223 223;
   isr 224 224; isr 225 225; isr 226 226; isr 227 227; isr 228 228; isr 229 229; isr 230 230; isr 231 231;
   isr 232 232; isr 233 233; isr 234 234; isr 235 235; isr 236 236; isr 237 237; isr 238 238; isr 239 239;
   isr 240 240; isr 241 241; isr 242 242; isr 243 243; isr 244 244; isr 245 245; isr 246 246; isr 247 247;
   isr 248 248; isr 249 249; isr 250 250; isr 251 251; isr 252 252; isr 253 253; isr 254 254; isr 255 255].

(** [set_isrs.rs]: the stubs that are registered. *)
Definition set_isrs_lo : list isr_line :=
  [
   isr 0 0; isr 1 1; isr 2 2; isr 3 3; isr 4 4; isr 5 5; isr 6 6; isr 7 7;
   err 8 8; isr 9 9; err 10 10; err 11 11; err 12 12; err 13 13; err 14 14; isr 15 15;
   isr 16 16; err 17 17; isr 18 18; isr 19 19; isr 20 20; isr 21 21; isr 22 22; isr 23 23;
   isr 24 24; isr 25 25; isr 26 26; isr 27 27; isr 28 28; isr 29 29; isr 30 30; isr 31 31;
   isr 32 32; isr 33 33; isr 34 34; isr 35 35; isr 36 36; isr 37 37; isr 38 38; isr 39 39;
   isr 40 40; isr 41 41; isr 42 42; isr 43 43; isr 44 44; isr 45 45; isr 46 46; isr 47 47;
   isr 48 48; isr 49 49; isr 50 50; isr 51 51; isr 52 52; isr 53 53; isr 54 54; isr 55 55;
   isr 56 56; isr 57 57; isr 58 58; isr 59 59; isr 60 60; isr 61 61; isr 62 62; isr 63 63;
   isr 64 64; isr 65 65; isr 66 66; isr 67 67; isr 68 68; isr 69 69; isr 70 70; isr 71 71;
   isr 72 72; isr 73 73; isr 74 74; isr 75 75; isr 76 76; isr 77 77; isr 78 78; isr 79 79;
   isr 80 80; isr 81 81; isr 82 82; isr 83 83; isr 84 84; isr 85 85; isr 86 86; isr 87 87;
   isr 88 88; isr 89 89; isr 90 90; isr 91 91; isr 92 92; isr 93 93; isr 94 94; isr 95 95;
   isr 96 96; isr 97 97; isr 98 98; isr 99 99; isr 100 100; isr 101 101; isr 102 102; isr 103 103;
   isr 104 104; isr 105 105; isr 106 106; isr 107 107; isr 108 108; isr 109 109; isr 110 110; isr 111 111;
   isr 112 112; isr 113 113; isr 114 114; isr 115 115; isr 116 116; isr 117 117; isr 118 118; isr 119 119;
   isr 120 120; isr 121 121; isr 122 122; isr 123 123; isr 124 124; isr 125 125; isr 126 126; isr 127 127].

Definition set_isrs_hi : list isr_line :=
  [
   isr 128 128; isr 129 129; isr 130 130; isr 131 131; isr 132 132; isr 133 133; isr 134 134; isr 135 135;
   isr 136 136; isr 137 137; isr 138 138; isr 139 139; isr 140 140; isr 141 141; isr 142 142; isr 143 143;
   isr 144 144; isr 145 145; isr 146 146; isr 147 147; isr 148 148; isr 149 149; isr 150 150; isr 151 151;
   isr 152 152; isr 153 153; isr 154 154; isr 155 155; isr 156 156; isr 157 157; isr 158 158; isr 159 159;
   isr 160 160; isr 161 161; isr 162 162; isr 163 163; isr 164 164; isr 165 165; isr 166 166; isr 167 167;
   isr 168 168; isr 169 169; isr 170 170; isr 171 171; isr 172 172; isr 173 173; isr 174 174; isr 175 175;
   isr 176 176; isr 177 177; isr 178 178; isr 179 179; isr 180 180; isr 181 181; isr 182 182; isr 183 183;
   isr 184 184; isr 185 185; isr 186 186; isr 187 187; isr 188 188; isr 189 189; isr 190 190; isr 191 191;
   isr 192 192; isr 193 193; isr 194 194; isr 195 195; isr 196 196; isr 197 197; isr 198 198; isr 199 199;
   isr 200 200; isr 201 201; isr 202 202; isr 203 203; isr 204 204; isr 205 205; isr 206 206; isr 207 207;
   isr 208 208; isr 209 209; isr 210 210; isr 211 211; isr 212 212; isr 213 213; isr 214 214; isr 215 215;
   isr 216 216; isr 217 217; isr 218 218; isr 219 219; isr 220 220; isr 221 221; isr 222 222; isr 223 223;
   isr 224 224; isr 225 225; isr 226 226; isr 227 227; isr 228 228; isr 229 229; isr 230 230; isr 231 231;
   isr 232 232; isr 233 233; isr 234 234; isr 235 235; isr 236 236; isr 237 237; isr 238 238; isr 239 239;
   isr 240 240; isr 241 241; isr 242 242; isr 243 243; isr 244 244; isr 245 245; isr 246 246; isr 247 247;
   isr 248 248; isr 249 249; isr 250 250; isr 251 251; isr 252 252; isr 253 253; isr 254 254; isr 255 255].

Definition isrs : list isr_line := isrs_lo ++ isrs_hi.
Definition set_isrs : list isr_line := set_isrs_lo ++ set_isrs_hi.

(** ** Entries in memory *)

(** [struct IDTEntry], 16 bytes packed *)
Record IDTEntry := mkIDTEntry {
  offset_low : Z;
  target_selector : Z;
  ist : Z;
  idt_type_dpl_p : Z;
  offset_mid : Z;
  offset_high : Z;
  idt_reserved : Z;
}.

Definition size_of_IDTEntry : Z := 16.

(** The packed little-endian layout. *)
Definition entry_bytes (e : IDTEntry) : list Z :=
  le_bytes 2 (offset_low e) ++ le_bytes 2 (target_selector e) ++ le_bytes 1 (ist e) ++
  le_bytes 1 (idt_type_dpl_p e) ++ le_bytes 2 (offset_mid e) ++ le_bytes 4 (offset_high e) ++
  le_bytes 4 (idt_reserved e).

(** [ptr.write_bytes(val, count)] for a [*mut IDTEntry]: [count] entries. *)
Definition write_bytes (mem : list Z) (val count : Z) : res (list Z) :=
  write_slice mem 0 (replicate (Z.to_nat (count * size_of_IDTEntry)) val).

(** [fn set_idt_entry] *)
Definition set_idt_entry (mem : list Z) (index handler : Z) : res (list Z) :=
  write_slice mem (Z.to_nat (index * size_of_IDTEntry))
    (entry_bytes (mkIDTEntry (wrap 16 handler) SELECTOR_KERNEL_CODE 1 0x8E
                    (wrap 16 (Z.shiftr handler 16)) (wrap 32 (Z.shiftr handler 32)) 0)).

(** [pub fn init], on the memory from the allocated page on; [stub_addr n] is
    the address of [isr_stub_n]. *)
Definition init (stub_addr : Z → Z) (mem : list Z) : res (list Z) :=
  mem ← write_bytes mem 0 4096;
  foldM (λ mem l, set_idt_entry mem (isr_number l) (stub_addr (isr_name l))) mem set_isrs.

(** [struct IDTDesc], and the part of [init_core] that loads it *)
Record IDTDesc := mkIDTDesc { idt_limit : Z; idt_address : Z }.
Definition idt_desc (IDT : Z) : IDTDesc := mkIDTDesc 4095 IDT.

(** The top of the 16 KiB interrupt stack [init_core] hands to [set_ist1]. *)
Definition ist1_top (int_stack : Z) : res Z :=
  s ← mul_w 64 4 4096; add_w 64 int_stack s.

(** ** What the processor reads *)

Record gate_desc := mkGate { gate_offset : Z; gate_selector : Z; gate_ist : Z; gate_type : Z }.

(** The gate of vector [v], if the table's limit covers it. *)
Definition gate (d : IDTDesc) (mem : list Z) (v : Z) : option gate_desc :=
  let b := slice mem (Z.to_nat (v * 16)) 16 in
  if (v * 16 + 15 <=? idt_limit d) && bool_decide (length b = 16%nat) then
    Some (mkGate
      (from_le (slice b 0 2) + Z.shiftl (from_le (slice b 6 2)) 16 +
         Z.shiftl (from_le (slice b 8 4)) 32)
      (from_le (slice b 2 2)) (from_le (slice b 4 1) mod 8) (from_le (slice b 5 1)))
  else None.

Definition stub_entry (handler : Z) : list Z :=
  entry_bytes (mkIDTEntry (wrap 16 handler) SELECTOR_KERNEL_CODE 1 0x8E
                 (wrap 16 (Z.shiftr handler 16)) (wrap 32 (Z.shiftr handler 32)) 0).

Lemma length_stub_entry h : length (stub_entry h) = 16%nat.
Proof. reflexivity. Qed.

(** The table lists the vectors 0 to 255, each with its own stub. *)
Lemma set_isrs_all : (λ l, (isr_number l, isr_name l)) <$> set_isrs = (λ v, (v, v)) <$> seqZ 0 256.
Proof. vm_compute. reflexivity. Qed.

(** The state after registering some of the stubs. *)
Definition registered (stub_addr : Z → Z) (mem mem' : list Z) (done : list Z) : Prop :=
  length mem' = length mem ∧
  (∀ v, v ∈ done → 0 ≤ v < 256 → slice mem' (Z.to_nat (v * 16)) 16 = stub_entry (stub_addr v)) ∧
  (∀ j : nat, 4096 ≤ Z.of_nat j → mem' !! j = mem !! j).

Lemma set_idt_entry_ok stub_addr mem mem' done v :
  0 ≤ v < 256 → 4096 ≤ Z.of_nat (length mem) → registered stub_addr mem mem' done →
  ∃ mem'', set_idt_entry mem' v (stub_addr v) = Ok mem'' ∧
    registered stub_addr mem mem'' (done ++ [v]).
Proof.
  intros Hv Hm (Hl & Hin & Hout). unfold set_idt_entry, size_of_IDTEntry.
  fold (stub_entry (stub_addr v)).
  destruct (write_slice_ok mem' (Z.to_nat (v * 16)) (stub_entry (stub_addr v)))
    as (mem'' & -> & Hl' & Hlk); [rewrite length_stub_entry; lia|].
  rewrite length_stub_entry in Hlk. exists mem''. split; [done|]. split_and!; [congruence| |].
  - intros u Hu Hur. apply list_eq. intros j. rewrite lookup_slice.
    destruct (decide (j < 16)%nat) as [Hj|Hj].
    + rewrite Hlk. destruct (decide (u = v)) as [->|Hne].
      * rewrite decide_True by lia. f_equal. lia.
      * rewrite decide_False by lia.
        apply elem_of_app in Hu as [Hu|?%list_elem_of_singleton]; [|done].
        rewrite <- (Hin u Hu Hur), lookup_slice, decide_True by done. done.
    + symmetry. apply lookup_ge_None_2. rewrite length_stub_entry. lia.
  - intros j Hj. rewrite Hlk, decide_False by lia. by apply Hout.
Qed.

(** [init] returns, zeroes 65536 bytes and registers every stub in the first
    4096 of them. *)
Lemma idt_init_ok stub_addr mem : 65536 ≤ Z.of_nat (length mem) →
  ∃ mem', init stub_addr mem = Ok mem' ∧ length mem' = length mem ∧
    (∀ v, 0 ≤ v < 256 → slice mem' (Z.to_nat (v * 16)) 16 = stub_entry (stub_addr v)) ∧
    (∀ j : nat, 4096 ≤ Z.of_nat j < 65536 → mem' !! j = Some 0) ∧
    (∀ j : nat, 65536 ≤ Z.of_nat j → mem' !! j = mem !! j).
Proof.
  intros Hm. unfold init, write_bytes.
  set (zeros := replicate (Z.to_nat (4096 * size_of_IDTEntry)) 0).
  assert (Z.of_nat (length zeros) = 65536) as Hz by (unfold zeros; by rewrite length_replicate).
  destruct (write_slice_ok mem 0 zeros) as (mem1 & -> & Hl1 & Hlk1); [lia|]. simpl_res.
  rewrite <- (foldM_fmap (λ m nv, set_idt_entry m nv.1 (stub_addr nv.2)) (λ l, (isr_number l, isr_name l))).
  rewrite set_isrs_all, foldM_fmap. cbn [fst snd].
  destruct (foldM_inv (λ m v, set_idt_entry m v (stub_addr v)) (λ d m, registered stub_addr mem1 m d)
    (seqZ 0 256) [] mem1) as (mem' & Hf & Hl & Hin & Hout).
  - split_and!; [done| |done]. intros v Hv. apply elem_of_nil in Hv. destruct Hv.
  - intros d v r m E HR. apply seqZ_split_range in E as [Hv _].
    apply set_idt_entry_ok; [done|lia|done].
  - exists mem'. split_and!; [done|congruence| | |].
    + intros v Hv. apply Hin; [|done]. apply elem_of_seqZ. lia.
    + intros j Hj. rewrite Hout, Hlk1, decide_True by lia. apply lookup_replicate_2.
      unfold size_of_IDTEntry. lia.
    + intros j Hj. rewrite Hout, Hlk1, decide_False by lia. done.
Qed.

(** The handler's address survives being cut into three fields. *)
Lemma gate_stub_entry d mem v h : 0 ≤ v → v * 16 + 15 ≤ idt_limit d → uint 64 h →
  slice mem (Z.to_nat (v * 16)) 16 = stub_entry h →
  gate d mem v = Some (mkGate h SELECTOR_KERNEL_CODE 1 0x8E).
Proof.
  intros Hv Hlim Hh Hs. unfold gate. rewrite Hs, (proj2 (Z.leb_le _ _)) by done.
  rewrite bool_decide_eq_true_2 by apply length_stub_entry. cbn [andb].
  assert (0 ≤ h mod 2 ^ 16 < 2 ^ 16) by by apply Z.mod_pos_bound.
  assert (0 ≤ h / 2 ^ 16 mod 2 ^ 16 < 2 ^ 16) by by apply Z.mod_pos_bound.
  assert (0 ≤ h / 2 ^ 32 mod 2 ^ 32 < 2 ^ 32) by by apply Z.mod_pos_bound.
  unfold stub_entry, entry_bytes, wrap.
  cbn [offset_low target_selector ist idt_type_dpl_p offset_mid offset_high idt_reserved].
  rewrite !Z.shiftr_div_pow2, !Z.shiftl_mul_pow2 by lia.
  change (slice _ 0 2) with (le_bytes 2 (h mod 2 ^ 16)).
  change (slice _ 6 2) with (le_bytes 2 (h / 2 ^ 16 mod 2 ^ 16)).
  change (slice _ 8 4) with (le_bytes 4 (h / 2 ^ 32 mod 2 ^ 32)).
  rewrite !from_le_bytes by lia. cbn [Z.of_nat Pos.of_succ_nat Pos.succ].
  do 2 f_equal. unfold uint in Hh. fields_lia.
Qed.

(** C24: after [init] on a buffer of the 64 KiB it clears, with the limit
    [init_core] loads, every one of the 256 vectors has a present interrupt gate that runs its own stub, with the
    stub's whole 64-bit address, in the kernel code segment, on interrupt
    stack 1. *)
Lemma idt_complete stub_addr mem IDT :
  65536 ≤ Z.of_nat (length mem) → (∀ v, uint 64 (stub_addr v)) →
  ∃ mem', init stub_addr mem = Ok mem' ∧
    ∀ v, 0 ≤ v < 256 →
      gate (idt_desc IDT) mem' v = Some (mkGate (stub_addr v) SELECTOR_KERNEL_CODE 1 0x8E).
Proof.
  intros Hm Ha. destruct (idt_init_ok stub_addr mem Hm) as (mem' & Hi & _ & Hs & _).
  exists mem'. split; [done|]. intros v Hv.
  apply gate_stub_entry; [lia|cbn; lia|done|by apply Hs].
Qed.

Lemma idt_complete_witness :
  let stub_addr v := wrap 64 (0xFFFF800000100000 + 16 * v) in
  ∃ mem', init stub_addr (replicate 65536 0xAB) = Ok mem' ∧
    gate (idt_desc 0xFFFF800000200000) mem' 14 = Some (mkGate 0xFFFF8000001000E0 SELECTOR_KERNEL_CODE 1 0x8E).
Proof.
  intros stub_addr.
  destruct (idt_complete stub_addr (replicate 65536 0xAB) 0xFFFF800000200000) as (mem' & Hi & Hg).
  - rewrite length_replicate. vm_compute. discriminate.
  - intros v. apply Z.mod_pos_bound. reflexivity.
  - exists mem'. split; [exact Hi|]. exact (Hg 14 ltac:(lia)).
Defined.

(** [init] also zeroes the fifteen pages behind the one it allocated,
    whoever they belong to: [write_bytes] counts entries of 16 bytes, not
    bytes. *)
Theorem idt_init_clobbers_next_pages stub_addr page next :
  Z.of_nat (length page) = 4096 → 15 * 4096 ≤ Z.of_nat (length next) →
  ∃ mem', init stub_addr (page ++ next) = Ok mem' ∧
    ∀ j : nat, Z.of_nat j < 15 * 4096 → drop (length page) mem' !! j = Some 0.
Proof.
  intros Hp Hn. destruct (idt_init_ok stub_addr (page ++ next)) as (mem' & Hi & _ & _ & H0 & _).
  { rewrite length_app. lia. }
  exists mem'. split; [done|]. intros j Hj. rewrite lookup_drop. apply H0. lia.
Qed.

(** ** Witnesses *)

Definition demo_stub_addr (v : Z) : Z := wrap 64 (0xFFFFFF8000300000 + 64 * v).

Lemma idt_init_clobbers_next_pages_witness :
  ∃ mem', init demo_stub_addr (replicate (Z.to_nat 4096) 1 ++ replicate (Z.to_nat 61440) 2) = Ok mem' ∧
    drop (Z.to_nat 4096) mem' !! 0%nat = Some 0.
Proof.
  destruct (idt_init_clobbers_next_pages demo_stub_addr (replicate (Z.to_nat 4096) 1)
    (replicate (Z.to_nat 61440) 2)) as (mem' & Hi & H0).
  - rewrite length_replicate. reflexivity.
  - rewrite length_replicate. lia.
  - exists mem'. split; [exact Hi|]. rewrite length_replicate in H0. apply (H0 0%nat). lia.
Defined.
