(* ===== verification/Fmt.v ===== *)
(** * Text and output ([core::fmt] as far as the code uses it).

    Numbers as the code formats them, and the writer: a computation that puts
    out events as it goes, the lines of a log or what a console is sent, up to
    its panic if there is one. *)
From stdpp Require Import base gmap numbers strings list.
From Stdlib Require Import Ascii.
From S2P Require Import Prelude.

#[local] Open Scope Z_scope.

(** ** Formatting *)

(** The characters of a literal. *)
Definition chars (s : string) : list Z := (λ a, Z.of_N (N_of_ascii a)) <$> String.list_ascii_of_string s.

(** The digits of a number, most significant first; 64 rounds are enough for
    any base and any 64-bit number. *)
Fixpoint digits (fuel : nat) (base n : Z) : list Z :=
  match fuel with
  | O => []
  | S fuel => if n <? base then [n] else digits fuel base (n / base) ++ [n mod base]
  end.

Definition digit_char (d : Z) : Z := if d <? 10 then 48 + d else 55 + d.

(** [{}] of an integer *)
Definition fmt_dec (n : Z) : list Z := digit_char <$> digits 64 10 n.

(** [{:#0wX}]: upper case, with prefix, padded with zeros to [w] characters *)
Definition fmt_hex (w : nat) (n : Z) : list Z :=
  let ds := digit_char <$> digits 64 16 n in
  chars "0x" ++ replicate (w - 2 - length ds) 48 ++ ds.

(** The number a row of digits stands for. *)
Definition digits_value (base : Z) (ds : list Z) : Z := fold_left (λ v d, v * base + d) ds 0.

Lemma digits_ok fuel base n : 2 ≤ base → 0 ≤ n < base ^ Z.of_nat fuel → (0 < fuel)%nat →
  digits_value base (digits fuel base n) = n.
Proof.
  intros Hb. revert n. induction fuel as [|fuel IH]; intros n Hn Hf; [lia|]. cbn [digits].
  destruct (Z.ltb_spec n base) as [Hlt|Hge]; [done|].
  rewrite Nat2Z.inj_succ, Z.pow_succ_r in Hn by lia.
  assert (1 ≤ n / base) by (apply Z.div_le_lower_bound; lia).
  assert (n / base < base ^ Z.of_nat fuel) by (apply Z.div_lt_upper_bound; lia).
  destruct fuel as [|fuel]; [cbn in *; lia|].
  unfold digits_value in *. rewrite fold_left_app, IH by lia. cbn. rewrite (Z.div_mod n base) at 3 by lia. lia.
Qed.

Lemma digits_range fuel base n : 2 ≤ base → 0 ≤ n → Forall (λ d, 0 ≤ d < base) (digits fuel base n).
Proof.
  intros Hb. revert n. induction fuel as [|fuel IH]; intros n Hn; cbn [digits]; [constructor|].
  destruct (Z.ltb_spec n base); [by repeat constructor; lia|].
  apply Forall_app. split; [apply IH, Z.div_pos; lia|]. constructor; [|constructor].
  by apply Z.mod_pos_bound; lia.
Qed.

(** ** Computations with output *)

Record writer (W A : Type) := mkLogged { lg_lines : list W; lg_res : res A }.
Arguments mkLogged {W A} lg_lines lg_res.
Arguments lg_lines {W A} w.
Arguments lg_res {W A} w.

#[global] Instance writer_ret {W} : MRet (writer W) := λ A a, mkLogged [] (Ok a).
#[global] Instance writer_bind {W} : MBind (writer W) := λ A B f m,
  match lg_res m with
  | Ok a => let r := f a in mkLogged (lg_lines m ++ lg_lines r) (lg_res r)
  | Err e => mkLogged (lg_lines m) (Err e)
  end.

(** A computation without output. *)
Definition quiet {W A} (m : res A) : writer W A := mkLogged [] m.

(** One event. *)
Definition say {W} (l : W) : writer W unit := mkLogged [l] (Ok ()).

(** A [for] loop with output. *)
Fixpoint foldL {W A B} (f : B → A → writer W B) (b : B) (l : list A) : writer W B :=
  match l with
  | [] => mret b
  | a :: l => b' ← f b a; foldL f b' l
  end.

(** The result does not depend on the output. *)
Lemma lg_res_bind {W A B} (m : writer W A) (f : A → writer W B) :
  lg_res (m ≫= f) = (a ← lg_res m; lg_res (f a)).
Proof. unfold mbind, writer_bind. by destruct (lg_res m). Qed.

Lemma lg_res_quiet {W A} (m : res A) : lg_res (quiet (W := W) m) = m.
Proof. done. Qed.

Lemma lg_res_ret {W A} (a : A) : lg_res (mret (M := writer W) a) = Ok a.
Proof. done. Qed.

Lemma lg_res_foldL {W A B} (f : B → A → writer W B) (g : B → A → res B) b l :
  (∀ b a, a ∈ l → lg_res (f b a) = g b a) → lg_res (foldL f b l) = foldM g b l.
Proof.
  intros Hfg. revert b. induction l as [|a l IH]; intros b; [done|]. cbn [foldL foldM].
  rewrite lg_res_bind, Hfg by left. destruct (g b a) as [b'|]; [|done].
  simpl_res. apply IH. intros. apply Hfg. by right.
Qed.
