(* ===== verification/Log.v ===== *)
(** * Log lines (the macros of [kernel/src/terminal.rs]).

    A log line is a level, a context and a formatted body.  [log] prints one
    line.  The initialisers of the kernel interleave their work with log lines;
    [logged] is the writer that collects the lines of a computation in order,
    up to the panic if there is one.  Printing never touches what the
    initialisers work on, so that printing a line where it is written and
    printing all lines afterwards are the same.

    The last section has the panic handler; the other handler that prints on
    its own account is [InterruptStub.isr_default_handler]. *)
From stdpp Require Import base gmap numbers strings list.
From S2P Require Import Prelude.
From S2P Require Import Fmt.
From S2P Require Import KernelHeader.
From S2P Require Import Mutex.
From S2P Require Import Terminal.
From S2P Require Import TerminalTheorems.

#[local] Open Scope Z_scope.

(** ** Lines *)

Inductive level := LVerbose | LInfo | LWarning | LError.

Record line := mkLine { ln_level : level; ln_ctx : list Z; ln_body : list Z }.

(** What [verbose!], [info!], [warning!] and [error!] write. *)
Definition line_text (l : line) : list Z :=
  match ln_level l with
  | LVerbose => verbose_text (ln_ctx l) (ln_body l)
  | LInfo => info_text (ln_ctx l) (ln_body l)
  | LWarning => warning_text (ln_ctx l) (ln_body l)
  | LError => error_text (ln_ctx l) (ln_body l)
  end.

Definition log `{Font} (fuel : nat) (t : terminal) (l : line) : res terminal :=
  write_pieces fuel t [line_text l].

Definition log_all `{Font} (fuel : nat) (t : terminal) (ls : list line) : res terminal :=
  foldM (log fuel) t ls.

(** ** Computations that log *)

Abbreviation logged := (writer line).

Definition log_info (ctx body : string) : logged unit := say (mkLine LInfo (chars ctx) (chars body)).

(** [verbose!] is empty without the feature [verbose-logging]; its arguments
    are then not evaluated either. *)
Definition log_verbose (verbose_logging : bool) (ctx : string) (body : res (list Z)) : logged unit :=
  if verbose_logging then b ← quiet body; say (mkLine LVerbose (chars ctx) b) else mret ().

(** A line that cannot leave the terminal in a colour: no escape character. *)
Definition plain_line (l : line) : Prop := 27 ∉ ln_ctx l ∧ 27 ∉ ln_body l.

Definition plain {A} (m : logged A) : Prop := Forall plain_line (lg_lines m).

Lemma plain_quiet {A} (m : res A) : plain (quiet m).
Proof. constructor. Qed.

Lemma plain_ret {A} (a : A) : plain (mret a).
Proof. constructor. Qed.

Lemma plain_say l : plain_line l → plain (say l).
Proof. intros Hl. constructor; [done|constructor]. Qed.

Lemma plain_bind {A B} (m : logged A) (f : A → logged B) :
  plain m → (∀ a, lg_res m = Ok a → plain (f a)) → plain (m ≫= f).
Proof.
  unfold plain, mbind, writer_bind. intros Hm Hf. destruct (lg_res m) eqn:E; [|done].
  apply Forall_app. split; [done|]. by apply Hf.
Qed.

Lemma plain_foldL_in {A B} (f : B → A → logged B) b l :
  (∀ b a, a ∈ l → plain (f b a)) → plain (foldL f b l).
Proof.
  revert b. induction l as [|a l IH]; intros b Hf; [constructor|]. cbn [foldL].
  apply plain_bind; [apply Hf; by left|]. intros b' _. apply IH. intros. apply Hf. by right.
Qed.

Lemma plain_verbose on ctx body :
  27 ∉ chars ctx → 27 ∉ body → plain (log_verbose on ctx (mret body)).
Proof.
  intros Hc Hb. unfold log_verbose. destruct on; [|constructor].
  apply plain_bind; [constructor|]. intros b [= <-]. by apply plain_say.
Qed.

Lemma lg_res_verbose on ctx body b : (on = true → body = Ok b) →
  lg_res (log_verbose on ctx body) = Ok ().
Proof. intros Hb. unfold log_verbose. destruct on; [|done]. rewrite lg_res_bind. cbn. by rewrite Hb. Qed.

Lemma lg_res_verbose_ret on ctx b : lg_res (log_verbose on ctx (mret b)) = Ok ().
Proof. by apply (lg_res_verbose _ _ _ b). Qed.

Lemma lg_res_info ctx body : lg_res (log_info ctx body) = Ok ().
Proof. done. Qed.

(** Run a logged computation as far as its results are known. *)
Ltac log_res :=
  repeat first [ rewrite lg_res_bind | rewrite lg_res_quiet | rewrite lg_res_info | rewrite lg_res_ret
               | rewrite lg_res_verbose_ret | rewrite bind_Ok | rewrite bind_Err ].

(** Formatted numbers have no escape characters. *)
Lemma digit_char_plain ds : Forall (λ d, 0 ≤ d < 16) ds → 27 ∉ (digit_char <$> ds).
Proof.
  intros Hds (d & Hd & Hel)%list_elem_of_fmap. rewrite Forall_forall in Hds. specialize (Hds d Hel).
  unfold digit_char in Hd. destruct (Z.ltb_spec d 10); lia.
Qed.

Lemma fmt_dec_plain n : 0 ≤ n → 27 ∉ fmt_dec n.
Proof.
  intros Hn. apply digit_char_plain. eapply Forall_impl; [by apply (digits_range 64 10 n)|cbn; lia].
Qed.

Lemma fmt_hex_plain w n : 0 ≤ n → 27 ∉ fmt_hex w n.
Proof.
  intros Hn. unfold fmt_hex. rewrite !elem_of_app. intros [H|[[H _]%elem_of_replicate|H]]; [|done|].
  - by vm_compute in H; repeat (apply elem_of_cons in H as [H|H]; [done|]); apply elem_of_nil in H.
  - revert H. by apply digit_char_plain, (digits_range 64 16 n).
Qed.

Lemma plain_chars s : forallb (λ c, negb (c =? 27)) (chars s) = true → 27 ∉ chars s.
Proof. intros Hs Hel. rewrite forallb_forall in Hs. by specialize (Hs 27 (proj1 (list_elem_of_In _ _) Hel)). Qed.

(** A literal without escape characters. *)
Ltac plain_literal := by apply plain_chars; vm_compute.

Lemma plain_app a b : 27 ∉ a → 27 ∉ b → 27 ∉ a ++ b.
Proof. rewrite elem_of_app. tauto. Qed.

(** Text assembled from literals and numbers. *)
Ltac plain_text :=
  lazymatch goal with
  | |- _ ∉ _ ++ _ => apply plain_app; plain_text
  | |- _ ∉ chars _ => plain_literal
  | |- _ ∉ fmt_hex _ _ => apply fmt_hex_plain; lia
  | |- _ ∉ fmt_dec _ => apply fmt_dec_plain; lia
  end.

Lemma plain_info ctx body : 27 ∉ chars ctx → 27 ∉ chars body → plain (log_info ctx body).
Proof. intros Hc Hb. by apply plain_say. Qed.

(** Plain lines print, one after the other. *)
Definition terminal_ready (t : terminal) : Prop :=
  screen_ok t ∧ lock (info t) = SpinLock_new ∧ mode (info t) = Print.

Lemma log_ok `{FontLaws} fuel t l : (0 < fuel)%nat → terminal_ready t → plain_line l →
  ∃ t', log fuel t l = Ok t' ∧ terminal_ready t' ∧ colors (info t') = (255, 255, 255).
Proof.
  intros Hf (Hok & Hl & Hm) [Hc Hb].
  destruct (log_line_ok fuel t (ln_ctx l) (ln_body l) (line_text l) [line_text l])
    as (t' & Ht' & ? & ? & ? & ?); try done; [|cbn; apply app_nil_r|by exists t'].
  unfold line_text. rewrite !elem_of_cons. destruct (ln_level l); auto.
Qed.

Lemma log_all_ok `{FontLaws} fuel ls t : (0 < fuel)%nat → terminal_ready t → Forall plain_line ls →
  ∃ t', log_all fuel t ls = Ok t' ∧ terminal_ready t' ∧
    (ls ≠ [] → colors (info t') = (255, 255, 255)).
Proof.
  intros Hf. revert t. induction ls as [|l ls IH]; intros t Ht Hls; [by exists t|].
  apply Forall_cons in Hls as [Hl Hls]. destruct (log_ok fuel t l Hf Ht Hl) as (t1 & H1 & Ht1 & Hc1).
  destruct (IH t1 Ht1 Hls) as (t2 & H2 & Ht2 & Hc2).
  exists t2. unfold log_all in *. cbn [foldM]. rewrite H1. simpl_res. split_and!; [done|done|]. intros _.
  destruct ls; [injection H2 as <-; done|by apply Hc2].
Qed.

(** ** The panic handler *)

(** [panic_handler] of [kernel/src/main.rs], up to its endless loop; [text] is
    what [PanicInfo] formats to. *)
Definition panic_handler `{Font} (fuel : nat) (t : terminal) (text : list Z) : res terminal :=
  log fuel t (mkLine LError (chars "===PANIC===") text).

Lemma log_locked `{Font} fuel t l : locked (lock (info t)) = true → log fuel t l = Err OutOfFuel.
Proof. intros Hl. unfold log, write_pieces. cbn [foldM]. by rewrite print_while_locked_spins. Qed.
