(* ===== verification/InterruptStub.v ===== *)
(** * Interrupt entry and return ([isr_common_stub], the stub macro and the
      handler table of [kernel/src/arch/x86_64/interrupt/mod.rs]).

    The naked functions are instruction lists run on a small machine:
    registers, the four values [iretq] restores, and memory as 64-bit words.
    [deliver] is what the processor does before the first instruction of a
    stub (AMD64 manual, volume 2, section 8.9), for gates that switch to
    interrupt stack 1.  What a handler's compiled code does to registers and
    to the stack below its frame is a parameter ([callee]).  Handlers may
    print, so the terminal is part of the state.

    The theorems: whatever a handler puts into the [InterruptInfo] it is given
    becomes the processor state after the return, so the default handler is
    transparent to the interrupted code; it and the panic handler spin forever
    on a held terminal lock; three vectors have stubs of the wrong kind; the
    stack is not aligned the way the ABI wants. *)
From stdpp Require Import base gmap numbers strings list.
From S2P Require Import Prelude.
From S2P Require Import KernelHeader.
From S2P Require Import Mutex.
From S2P Require Import Terminal.
From S2P Require Import TerminalTheorems.
From S2P Require Import Interrupt.
From S2P Require Import Fmt.
From S2P Require Import Log.

#[local] Open Scope Z_scope.

(** ** The machine *)

Inductive reg :=
  | RAX | RBX | RCX | RDX | RSI | RDI | RBP | R8 | R9 | R10 | R11 | R12 | R13 | R14 | R15 | RSP.

#[global] Instance reg_eq_dec : EqDecision reg.
Proof. solve_decision. Defined.

Record machine := mkMachine {
  regs : reg → Z;
  mem : Z → Z;
  rip : Z;
  cs : Z;
  rflags : Z;
  ss : Z;
}.

Definition set_reg (m : machine) (r : reg) (v : Z) : machine :=
  mkMachine (λ r', if decide (r' = r) then v else regs m r') (mem m) (rip m) (cs m) (rflags m) (ss m).

Definition set_word (m : machine) (a v : Z) : machine :=
  mkMachine (regs m) (λ a', if a' =? a then v else mem m a') (rip m) (cs m) (rflags m) (ss m).

Definition push (m : machine) (v : Z) : machine :=
  let sp := wrap 64 (regs m RSP - 8) in set_word (set_reg m RSP sp) sp v.

Definition pop (m : machine) : Z * machine :=
  (mem m (regs m RSP), set_reg m RSP (wrap 64 (regs m RSP + 8))).

(** ** [struct InterruptInfo] *)

Record InterruptInfo := mkInterruptInfo {
  i_r15 : Z; i_r14 : Z; i_r13 : Z; i_r12 : Z; i_r11 : Z; i_r10 : Z; i_r9 : Z; i_r8 : Z;
  i_rbp : Z; i_rdi : Z; i_rsi : Z; i_rdx : Z; i_rcx : Z; i_rbx : Z; i_rax : Z;
  int_number : Z;
  error_code : Z;
  i_rip : Z; i_cs : Z; i_rflags : Z; i_rsp : Z; i_ss : Z;
}.

(** Its [repr(C)] layout: 22 words, the first at the lowest address. *)
Definition info_words (i : InterruptInfo) : list Z :=
  [i_r15 i; i_r14 i; i_r13 i; i_r12 i; i_r11 i; i_r10 i; i_r9 i; i_r8 i;
   i_rbp i; i_rdi i; i_rsi i; i_rdx i; i_rcx i; i_rbx i; i_rax i;
   int_number i; error_code i; i_rip i; i_cs i; i_rflags i; i_rsp i; i_ss i].

Definition info_at (f : Z → Z) (a : Z) : InterruptInfo :=
  mkInterruptInfo (f a) (f (a + 8)) (f (a + 16)) (f (a + 24)) (f (a + 32)) (f (a + 40)) (f (a + 48))
    (f (a + 56)) (f (a + 64)) (f (a + 72)) (f (a + 80)) (f (a + 88)) (f (a + 96)) (f (a + 104))
    (f (a + 112)) (f (a + 120)) (f (a + 128)) (f (a + 136)) (f (a + 144)) (f (a + 152)) (f (a + 160))
    (f (a + 168)).

(** ** The handler table *)

(** A handler changes the structure, and the terminal when it prints. *)
Definition handler : Type := terminal → InterruptInfo → res (terminal * InterruptInfo).

(** The warning of [isr_default_handler]. *)
Definition default_line (i : InterruptInfo) : line :=
  mkLine LWarning (chars "IDT")
    (chars "Interrupt " ++ fmt_hex 2 (int_number i) ++ chars " occured and no handler installed").

(** [isr_default_handler]; [fuel] bounds the turns it spins on the terminal's
    lock. *)
Definition isr_default_handler `{Font} (fuel : nat) : handler := λ t info,
  t ← log fuel t (default_line info);
  mret (t, info).

(** [static mut HANDLERS] *)
Definition HANDLERS `{Font} (fuel : nat) : list handler := replicate 256 (isr_default_handler fuel).

(** [pub fn set_isr_handler] *)
Definition set_isr_handler (HANDLERS : list handler) (index : Z) (h : handler) : res (list handler) :=
  store HANDLERS index h.

(** [isr_common_handler] *)
Definition isr_common_handler (HANDLERS : list handler) : handler := λ t info,
  h ← index HANDLERS (int_number info); h t info.

(** ** The code *)

Inductive instr :=
  | PushReg (r : reg)
  | PushImm (v : Z)
  | PopReg (r : reg)
  | MovRdiRsp
  | SubRsp (n : Z)
  | AddRsp (n : Z)
  | CallCommon
  | Iretq.

(** The common stub. *)
Definition isr_common_stub : list instr :=
  [PushReg RAX; PushReg RBX; PushReg RCX; PushReg RDX; PushReg RSI; PushReg RDI; PushReg RBP;
   PushReg R8; PushReg R9; PushReg R10; PushReg R11; PushReg R12; PushReg R13; PushReg R14; PushReg R15;
   MovRdiRsp;
   SubRsp 8;
   CallCommon;
   AddRsp 8;
   PopReg R15; PopReg R14; PopReg R13; PopReg R12; PopReg R11; PopReg R10; PopReg R9; PopReg R8;
   PopReg RBP; PopReg RDI; PopReg RSI; PopReg RDX; PopReg RCX; PopReg RBX; PopReg RAX;
   AddRsp 16;
   Iretq].

(** The macro [isr!]: the two kinds of stub, up to the jump into the common
    one. *)
Definition isr_stub (l : isr_line) : list instr :=
  (if isr_error l then [PushImm (isr_number l)] else [PushImm 0; PushImm (isr_number l)])
  ++ isr_common_stub.

(** The line of [isrs.rs] that generates the stub of a name, and the stub. *)
Definition stub_line (name : Z) : option isr_line := snd <$> list_find (λ l, isr_name l = name) isrs.

Definition stub_code (name : Z) : option (list instr) := isr_stub <$> stub_line name.

(** Whether that line has [error]: the stub relies on an error code from the
    processor. *)
Definition stub_error (name : Z) : option bool := isr_error <$> stub_line name.

(** What compiled handler code may do besides its effect on the structure:
    change registers, and memory below the stack pointer it is entered with. *)
Record callee := mkCallee {
  c_regs : (reg → Z) → reg → Z;
  c_mem : (Z → Z) → Z → Z;
}.

Definition callee_ok (c : callee) (sp : Z) : Prop :=
  (∀ rs, c_regs c rs RSP = rs RSP) ∧ (∀ f a, sp ≤ a → c_mem c f a = f a).

(** The handler's call: the structure is read and written at [rdi]; every word
    outside it and at or above the stack pointer stays. *)
Definition call_common (hs : list handler) (c : callee) (t : terminal) (m : machine) :
    res (terminal * machine) :=
  let m := push m (rip m) in
  let a := regs m RDI in
  '(t, info) ← isr_common_handler hs t (info_at (mem m) a);
  let f := foldr (λ '(k, v) f a', if a' =? a + 8 * k then v else f a') (mem m)
             (zip (seqZ 0 22) (info_words info)) in
  let m := mkMachine (c_regs c (regs m)) (c_mem c f) (rip m) (cs m) (rflags m) (ss m) in
  mret (t, (pop m).2).

Definition exec1 (hs : list handler) (c : callee) (tm : terminal * machine) (i : instr) :
    res (terminal * machine) :=
  let '(t, m) := tm in
  match i with
  | PushReg r => mret (t, push m (regs m r))
  | PushImm v => mret (t, push m v)
  | PopReg r => let '(v, m) := pop m in mret (t, set_reg m r v)
  | MovRdiRsp => mret (t, set_reg m RDI (regs m RSP))
  | SubRsp n => mret (t, set_reg m RSP (wrap 64 (regs m RSP - n)))
  | AddRsp n => mret (t, set_reg m RSP (wrap 64 (regs m RSP + n)))
  | CallCommon => call_common hs c t m
  | Iretq =>
      let '(ip, m) := pop m in
      let '(s, m) := pop m in
      let '(fl, m) := pop m in
      let '(sp, m) := pop m in
      let '(st, m) := pop m in
      mret (t, mkMachine (λ r, if decide (r = RSP) then sp else regs m r) (mem m) ip s fl st)
  end.

Definition exec (hs : list handler) (c : callee) : terminal * machine → list instr → res (terminal * machine) :=
  foldM (exec1 hs c).

(** ** Delivery *)

(** The exceptions for which the processor pushes an error code (AMD64
    manual, volume 2, table 8-1, with control protection, VMM communication
    and security exceptions). *)
Definition hw_error_code (v : Z) : bool :=
  bool_decide (v ∈ [8; 10; 11; 12; 13; 14; 17; 21; 29; 30]).

Definition deliver (ist1 v code : Z) (m : machine) : machine :=
  let sp := regs m RSP in
  let m := set_reg m RSP ist1 in
  let m := push m (ss m) in
  let m := push m sp in
  let m := push m (rflags m) in
  let m := push m (cs m) in
  let m := push m (rip m) in
  if hw_error_code v then push m code else m.

(** An interrupt from delivery to the return. *)
Definition interrupt (hs : list handler) (c : callee) (ist1 v code : Z) (t : terminal) (m : machine) :
    res (terminal * machine) :=
  match stub_code v with
  | Some p => exec hs c (t, deliver ist1 v code m) p
  | None => Err UB
  end.

(** ** The stack as a list *)

(** [ws] are the words from address [a] up. *)
Definition frame (f : Z → Z) (a : Z) (ws : list Z) : Prop :=
  ∀ i w, ws !! i = Some w → f (a + 8 * Z.of_nat i) = w.

(** The stack pointer, the words above it and the other registers. *)
Definition stk (m : machine) (sp : Z) (ws : list Z) (rs : reg → Z) : Prop :=
  regs m RSP = sp ∧ frame (mem m) sp ws ∧ ∀ r, r ≠ RSP → regs m r = rs r.

Lemma frame_app f a ws ws' : frame f a (ws ++ ws') → frame f a ws.
Proof. intros H i w Hi. apply H. by apply lookup_app_l_Some. Qed.

Lemma frame_tail f a w ws : frame f a (w :: ws) → f a = w ∧ frame f (a + 8) ws.
Proof.
  intros H. split.
  - rewrite <- (H 0%nat w eq_refl). f_equal. lia.
  - intros i w' Hi. rewrite <- (H (S i) w' Hi). f_equal. lia.
Qed.

Lemma push_stk m sp ws rs v : stk m sp ws rs → 8 ≤ sp < 2 ^ 64 →
  stk (push m v) (sp - 8) (v :: ws) rs.
Proof.
  intros (Hsp & Hf & Hr) Hb. unfold push. rewrite Hsp. unfold wrap. rewrite Z.mod_small by lia.
  split_and!; [done| |].
  - intros [|i] w Hi; cbn in Hi |- *.
    + injection Hi as <-. bool_cases.
    + destruct (Z.eqb_spec (sp - 8 + 8 * Z.of_nat (S i)) (sp - 8)); [lia|].
      rewrite <- (Hf i w Hi). f_equal. lia.
  - intros r Hne. cbn. rewrite decide_False by done. by apply Hr.
Qed.

Lemma pop_stk m sp w ws rs : stk m sp (w :: ws) rs → 0 ≤ sp < 2 ^ 64 - 8 →
  (pop m).1 = w ∧ stk (pop m).2 (sp + 8) ws rs.
Proof.
  intros (Hsp & Hf & Hr) Hb. apply frame_tail in Hf as [Hw Hf]. unfold pop. rewrite Hsp. cbn.
  split; [done|]. unfold wrap. rewrite Z.mod_small by lia.
  split_and!; [done|done|]. intros r Hne. cbn. rewrite decide_False by done. by apply Hr.
Qed.

Section run.
Context (hs : list handler) (c : callee) (Q : terminal → machine → Prop).
Implicit Types (t : terminal) (p : list instr) (ws : list Z) (rs : reg → Z).

Definition wp t (m : machine) p : Prop := ∃ t' m', exec hs c (t, m) p = Ok (t', m') ∧ Q t' m'.

Lemma wp_push_reg t m sp ws rs r p : stk m sp ws rs → 8 ≤ sp < 2 ^ 64 → r ≠ RSP →
  (∀ m', stk m' (sp - 8) (rs r :: ws) rs → wp t m' p) → wp t m (PushReg r :: p).
Proof.
  intros Hs Hb Hr Hk. unfold wp, exec. cbn [foldM exec1]. unfold mret, res_ret. simpl_res.
  apply Hk. destruct Hs as (? & ? & Hrs). rewrite Hrs by done. by apply push_stk.
Qed.

Lemma wp_push_imm t m sp ws rs v p : stk m sp ws rs → 8 ≤ sp < 2 ^ 64 →
  (∀ m', stk m' (sp - 8) (v :: ws) rs → wp t m' p) → wp t m (PushImm v :: p).
Proof.
  intros Hs Hb Hk. unfold wp, exec. cbn [foldM exec1]. unfold mret, res_ret. simpl_res.
  apply Hk. by apply push_stk.
Qed.

Lemma wp_pop t m sp w ws rs r p : stk m sp (w :: ws) rs → 0 ≤ sp < 2 ^ 64 - 8 → r ≠ RSP →
  (∀ m', stk m' (sp + 8) ws (λ r', if decide (r' = r) then w else rs r') → wp t m' p) →
  wp t m (PopReg r :: p).
Proof.
  intros Hs Hb Hr Hk. destruct (pop_stk _ _ _ _ _ Hs Hb) as [Hv Hs'].
  unfold wp, exec. cbn [foldM exec1]. destruct (pop m) as [v m'] eqn:Hp. cbn in Hv, Hs'.
  unfold mret, res_ret. simpl_res. apply Hk. subst v. destruct Hs' as (Hsp & Hf & Hrs).
  split_and!; [|done|].
  - cbn. by rewrite decide_False.
  - intros r' Hr'. cbn. destruct (decide (r' = r)); [done|]. by apply Hrs.
Qed.

Lemma wp_mov_rdi t m sp ws rs p : stk m sp ws rs →
  (∀ m', stk m' sp ws (λ r', if decide (r' = RDI) then sp else rs r') → wp t m' p) →
  wp t m (MovRdiRsp :: p).
Proof.
  intros (Hsp & Hf & Hrs) Hk. unfold wp, exec. cbn [foldM exec1]. unfold mret, res_ret. simpl_res.
  apply Hk. rewrite Hsp. split_and!; [done|done|].
  intros r' Hr'. cbn. destruct (decide (r' = RDI)); [done|]. by apply Hrs.
Qed.

Lemma wp_sub t m sp ws rs n p : stk m sp ws rs → 0 ≤ n ≤ sp → sp < 2 ^ 64 →
  (∀ m', regs m' RSP = sp - n → frame (mem m') sp ws → (∀ r, r ≠ RSP → regs m' r = rs r) → wp t m' p) →
  wp t m (SubRsp n :: p).
Proof.
  intros (Hsp & Hf & Hrs) Hn Hb Hk. unfold wp, exec. cbn [foldM exec1]. unfold mret, res_ret. simpl_res.
  rewrite Hsp. unfold wrap. rewrite Z.mod_small by lia. apply Hk; [done|done|].
  intros r' Hr'. cbn. rewrite decide_False by done. by apply Hrs.
Qed.

Lemma wp_add t m sp ws rs n p : regs m RSP = sp → frame (mem m) (sp + n) ws →
  (∀ r, r ≠ RSP → regs m r = rs r) → 0 ≤ sp → 0 ≤ n → sp + n < 2 ^ 64 →
  (∀ m', stk m' (sp + n) ws rs → wp t m' p) → wp t m (AddRsp n :: p).
Proof.
  intros Hsp Hf Hrs H0 Hn Hb Hk. unfold wp, exec. cbn [foldM exec1]. unfold mret, res_ret. simpl_res.
  rewrite Hsp. unfold wrap. rewrite Z.mod_small by lia. apply Hk. split_and!; [done|done|].
  intros r' Hr'. cbn. rewrite decide_False by done. by apply Hrs.
Qed.

Lemma info_at_frame f a info : frame f a (info_words info) → info_at f a = info.
Proof using.
  intros H. destruct info. unfold info_at. f_equal;
    lazymatch goal with
    | |- f (a + ?k) = _ => let i := eval vm_compute in (Z.to_nat (k / 8)) in by apply (H i)
    | |- f a = _ => etransitivity; [|exact (H 0%nat _ eq_refl)]; f_equal; lia
    end.
Qed.

(** Storing a structure word by word. *)
Lemma store_frame f a ws k :
  let g := foldr (λ '(k, v) f a', if a' =? a + 8 * k then v else f a') f
             (zip (seqZ k (Z.of_nat (length ws))) ws) in
  frame g (a + 8 * k) ws.
Proof using.
  revert k. induction ws as [|w ws IH]; intros k; cbn zeta; [by intros i w' Hi|].
  rewrite seqZ_cons by (cbn [length]; lia). cbn [zip zip_with foldr].
  intros [|i] w' Hi; cbn in Hi.
  - injection Hi as <-. bool_cases.
  - destruct (Z.eqb_spec (a + 8 * k + 8 * Z.of_nat (S i)) (a + 8 * k)); [lia|].
    rewrite <- (IH (Z.succ k) i w' Hi).
    replace (Z.pred (Z.of_nat (length (w :: ws)))) with (Z.of_nat (length ws)) by (cbn [length]; lia).
    f_equal. lia.
Qed.

Lemma wp_call t t' m sp info info' p :
  regs m RSP = sp - 8 → regs m RDI = sp → frame (mem m) sp (info_words info) →
  16 ≤ sp < 2 ^ 64 → callee_ok c (sp - 16) → isr_common_handler hs t info = Ok (t', info') →
  (∀ m', regs m' RSP = sp - 8 → frame (mem m') sp (info_words info') → wp t' m' p) →
  wp t m (CallCommon :: p).
Proof using.
  intros Hsp Hdi Hf Hb [Hcr Hcm] Hh Hk.
  unfold wp, exec. cbn [foldM exec1]. unfold call_common, push. rewrite Hsp. unfold wrap.
  rewrite (Z.mod_small (sp - 8 - 8)) by lia.
  cbn [regs mem set_word set_reg]. rewrite decide_False, Hdi by done.
  rewrite (info_at_frame _ sp info).
  2:{ intros i w Hi. cbn. destruct (Z.eqb_spec (sp + 8 * Z.of_nat i) (sp - 8 - 8)); [lia|].
      by apply Hf. }
  rewrite Hh. simpl_res. unfold mret, res_ret. simpl_res. apply Hk.
  - cbn [regs pop snd set_reg]. rewrite decide_True, Hcr by done.
    rewrite decide_True by done. unfold wrap. rewrite Z.mod_small; lia.
  - intros i w Hi. cbn [mem pop snd set_reg].
    rewrite Hcm by lia.
    replace (sp + 8 * Z.of_nat i) with (sp + 8 * 0 + 8 * Z.of_nat i) by lia.
    by apply (store_frame _ sp (info_words info') 0).
Qed.

Lemma wp_iretq t m sp ip s fl sp' st rs : stk m sp [ip; s; fl; sp'; st] rs → 0 ≤ sp < 2 ^ 64 - 40 →
  (∀ m', (∀ r, r ≠ RSP → regs m' r = rs r) → regs m' RSP = sp' → rip m' = ip → cs m' = s →
     rflags m' = fl → ss m' = st → Q t m') → wp t m [Iretq].
Proof using.
  intros Hs Hb Hk. unfold wp, exec. cbn [foldM exec1].
  apply pop_stk in Hs as [H1 Hs]; [|lia]. destruct (pop m) as [ip1 m1]. cbn in H1, Hs.
  apply pop_stk in Hs as [H2 Hs]; [|lia]. destruct (pop m1) as [s1 m2]. cbn in H2, Hs.
  apply pop_stk in Hs as [H3 Hs]; [|lia]. destruct (pop m2) as [fl1 m3]. cbn in H3, Hs.
  apply pop_stk in Hs as [H4 Hs]; [|lia]. destruct (pop m3) as [sp1 m4]. cbn in H4, Hs.
  apply pop_stk in Hs as [H5 Hs]; [|lia]. destruct (pop m4) as [st1 m5]. cbn in H5, Hs.
  subst. eexists t, _. split; [done|]. destruct Hs as (_ & _ & Hrs). apply Hk; try done.
  intros r Hr. cbn. rewrite decide_False by done. by apply Hrs.
Qed.
End run.

(** ** The common stub *)

Definition info_reg (i : InterruptInfo) (r : reg) : Z :=
  match r with
  | RAX => i_rax i | RBX => i_rbx i | RCX => i_rcx i | RDX => i_rdx i | RSI => i_rsi i
  | RDI => i_rdi i | RBP => i_rbp i | R8 => i_r8 i | R9 => i_r9 i | R10 => i_r10 i
  | R11 => i_r11 i | R12 => i_r12 i | R13 => i_r13 i | R14 => i_r14 i | R15 => i_r15 i
  | RSP => i_rsp i
  end.

(** The processor state a structure describes. *)
Definition resumed (info : InterruptInfo) (m : machine) : Prop :=
  (∀ r, regs m r = info_reg info r) ∧
  rip m = i_rip info ∧ cs m = i_cs info ∧ rflags m = i_rflags info ∧ ss m = i_ss info.

Lemma common_stub_ok hs c t t' m sp n e ip s fl sp' st rs info' :
  stk m sp [n; e; ip; s; fl; sp'; st] rs → 136 ≤ sp < 2 ^ 64 - 64 → callee_ok c (sp - 136) →
  isr_common_handler hs t
    (mkInterruptInfo (rs R15) (rs R14) (rs R13) (rs R12) (rs R11) (rs R10) (rs R9) (rs R8) (rs RBP)
       (rs RDI) (rs RSI) (rs RDX) (rs RCX) (rs RBX) (rs RAX) n e ip s fl sp' st) = Ok (t', info') →
  wp hs c (λ t1 m1, t1 = t' ∧ resumed info' m1) t m isr_common_stub.
Proof.
  intros Hs Hb Hc Hh. unfold isr_common_stub.
  do 15 (eapply wp_push_reg; [exact Hs|lia|done|]; clear Hs m; intros m Hs).
  eapply wp_mov_rdi; [exact Hs|]; clear Hs m; intros m Hs.
  replace (sp - 8 - 8 - 8 - 8 - 8 - 8 - 8 - 8 - 8 - 8 - 8 - 8 - 8 - 8 - 8) with (sp - 120) in Hs by lia.
  eapply wp_sub; [exact Hs|lia|lia|]; clear Hs m; intros m Hsp Hf Hrs.
  eapply (wp_call _ _ _ t t' m (sp - 120) _ info');
    [lia|by rewrite Hrs| |lia| |exact Hh|]; [exact Hf| |].
  { by replace (sp - 120 - 16) with (sp - 136) by lia. }
  clear Hsp Hf Hrs m. intros m Hsp Hf.
  eapply (wp_add _ _ _ t' m (sp - 120 - 8) (info_words info') (regs m)); [done| |done|lia|lia|lia|].
  { by replace (sp - 120 - 8 + 8) with (sp - 120) by lia. }
  replace (sp - 120 - 8 + 8) with (sp - 120) by lia. generalize (regs m) as rs'.
  clear Hsp Hf m. intros rs' m Hs. unfold info_words in Hs.
  do 15 (eapply wp_pop; [exact Hs|lia|done|]; clear Hs m; intros m Hs).
  destruct Hs as (Hsp & [_ [_ Hf]%frame_tail]%frame_tail & Hrs).
  eapply wp_add; [exact Hsp| |exact Hrs|lia|lia|lia|].
  { rewrite <- Z.add_assoc in Hf. exact Hf. }
  clear Hsp Hf Hrs m. intros m Hs.
  eapply wp_iretq; [exact Hs|lia|]. clear Hs m. intros m Hrs Hsp Hip Hcs Hfl Hss.
  split; [done|]. split_and!; [|done..]. intros r. destruct r; try (by rewrite Hrs). done.
Qed.

(** ** Theorems *)

(** The structure a handler should see for vector [v]. *)
Definition interrupted (m : machine) (v code : Z) : InterruptInfo :=
  mkInterruptInfo (regs m R15) (regs m R14) (regs m R13) (regs m R12) (regs m R11) (regs m R10)
    (regs m R9) (regs m R8) (regs m RBP) (regs m RDI) (regs m RSI) (regs m RDX) (regs m RCX)
    (regs m RBX) (regs m RAX) v code (rip m) (cs m) (rflags m) (regs m RSP) (ss m).

(** The words delivery puts on the interrupt stack. *)
Lemma deliver_stk ist1 v code m : 48 ≤ ist1 < 2 ^ 64 →
  let ws := [rip m; cs m; rflags m; regs m RSP; ss m] in
  stk (deliver ist1 v code m) (if hw_error_code v then ist1 - 48 else ist1 - 40)
    (if hw_error_code v then code :: ws else ws) (regs m).
Proof.
  intros Hb ws.
  assert (stk (set_reg m RSP ist1) ist1 [] (regs m)) as Hs.
  { split_and!; [done|by intros i w Hi|]. intros r Hr. cbn. by rewrite decide_False. }
  apply (push_stk _ _ _ _ (ss m)) in Hs; [|lia].
  apply (push_stk _ _ _ _ (regs m RSP)) in Hs; [|lia].
  apply (push_stk _ _ _ _ (rflags m)) in Hs; [|lia].
  apply (push_stk _ _ _ _ (cs m)) in Hs; [|lia].
  apply (push_stk _ _ _ _ (rip m)) in Hs; [|lia].
  replace (ist1 - 8 - 8 - 8 - 8 - 8) with (ist1 - 40) in Hs by lia.
  unfold deliver. destruct (hw_error_code v); [|exact Hs].
  apply (push_stk _ _ _ _ code) in Hs; [|lia].
  by replace (ist1 - 40 - 8) with (ist1 - 48) in Hs by lia.
Qed.

(** The lines of [isrs.rs] give every vector the stub of its own number. *)
Lemma stub_error_code v b : stub_error v = Some b → stub_code v = Some (isr_stub (mkIsr v v b)).
Proof.
  assert (Forall (λ l, isr_number l = isr_name l) isrs) as Hn
    by (rewrite <- (bool_decide_spec (Forall _ _)); vm_compute; exact I).
  unfold stub_error, stub_code, stub_line. destruct (list_find _ isrs) as [[i l]|] eqn:E; [|done].
  cbn. intros [= <-]. apply list_find_Some in E as (E & <- & _).
  rewrite Forall_forall in Hn. specialize (Hn l (list_elem_of_lookup_2 _ _ _ E)). destruct l. cbn in *. by subst.
Qed.

(** A stub of the right kind completes the structure. *)
Lemma interrupt_ok hs c ist1 v code t t' m info' :
  stub_error v = Some (hw_error_code v) →
  192 ≤ ist1 < 2 ^ 64 - 64 → callee_ok c (ist1 - 192) →
  isr_common_handler hs t (interrupted m v (if hw_error_code v then code else 0)) = Ok (t', info') →
  ∃ m', interrupt hs c ist1 v code t m = Ok (t', m') ∧ resumed info' m'.
Proof.
  intros He Hb Hc Hh. unfold interrupt. rewrite (stub_error_code v _ He).
  pose proof (deliver_stk ist1 v code m ltac:(lia)) as Hs. cbv zeta in Hs.
  assert (wp hs c (λ t1 m1, t1 = t' ∧ resumed info' m1) t (deliver ist1 v code m)
    (isr_stub (mkIsr v v (hw_error_code v)))) as (t1 & m' & Hm' & -> & Hr); [|by exists m'].
  unfold isr_stub. cbn [isr_error isr_number].
  generalize dependent (deliver ist1 v code m). intros m0 Hs.
  destruct (hw_error_code v); cbn [app].
  - eapply wp_push_imm; [exact Hs|lia|]. clear Hs m0. intros m0 Hs.
    eapply common_stub_ok; [exact Hs|lia| |exact Hh].
    by replace (ist1 - 48 - 8 - 136) with (ist1 - 192) by lia.
  - eapply wp_push_imm; [exact Hs|lia|]. clear Hs m0. intros m0 Hs.
    eapply wp_push_imm; [exact Hs|lia|]. clear Hs m0. intros m0 Hs.
    eapply common_stub_ok; [exact Hs|lia| |exact Hh].
    by replace (ist1 - 40 - 8 - 8 - 136) with (ist1 - 192) by lia.
Qed.

(** C20: for every vector whose stub is of the kind the processor expects, the
    handler installed for it gets the interrupted state, the vector and the
    error code, and the state it leaves in the structure, changed or not, is
    the state the processor resumes with, whatever the compiled handler did to
    registers and to the stack below. *)
Theorem handler_controls_return hs c ist1 v code t t' m h info' :
  0 ≤ v < 256 → stub_error v = Some (hw_error_code v) →
  192 ≤ ist1 < 2 ^ 64 - 64 → callee_ok c (ist1 - 192) →
  hs !! Z.to_nat v = Some h →
  h t (interrupted m v (if hw_error_code v then code else 0)) = Ok (t', info') →
  ∃ m', interrupt hs c ist1 v code t m = Ok (t', m') ∧
    (∀ r, regs m' r = info_reg info' r) ∧
    rip m' = i_rip info' ∧ cs m' = i_cs info' ∧ rflags m' = i_rflags info' ∧ ss m' = i_ss info'.
Proof.
  intros Hv He Hb Hc Hh Hi. apply interrupt_ok; [done|done|done|].
  unfold isr_common_handler. cbn [int_number interrupted].
  rewrite (index_Some _ v h) by (done || lia). done.
Qed.

(** The default handler prints its line and leaves the structure alone. *)
Lemma default_handler_prints `{FontLaws} t i : terminal_ready t → 0 ≤ int_number i →
  ∃ t', log 1 t (default_line i) = Ok t' ∧ isr_default_handler 1 t i = Ok (t', i) ∧ terminal_ready t'.
Proof.
  intros Hr Hi. destruct (log_ok 1 t (default_line i)) as (t' & Ht' & Hr' & _); [lia|done| |].
  - split; [plain_literal|]. unfold default_line. cbn [ln_body]. plain_text.
  - exists t'. unfold isr_default_handler. by rewrite Ht'.
Qed.

(** C21: for every vector whose stub is of the kind the processor expects (so
    not 21, 29 and 30), while nobody holds the terminal's lock: with the table
    as it starts, and after [set_isr_handler] for another vector, an interrupt
    prints the default handler's warning and is otherwise invisible: every
    register, the instruction pointer, the flags and the segments are those of
    the interrupted code. *)
Theorem default_handler_transparent `{FontLaws} c ist1 v w h code t m :
  0 ≤ v < 256 → stub_error v = Some (hw_error_code v) →
  192 ≤ ist1 < 2 ^ 64 - 64 → callee_ok c (ist1 - 192) → 0 ≤ w < 256 → w ≠ v → terminal_ready t →
  ∃ hs t' m', set_isr_handler (HANDLERS 1) w h = Ok hs ∧
    interrupt hs c ist1 v code t m = Ok (t', m') ∧
    log 1 t (default_line (interrupted m v (if hw_error_code v then code else 0))) = Ok t' ∧
    terminal_ready t' ∧
    (∀ r, regs m' r = regs m r) ∧
    rip m' = rip m ∧ cs m' = cs m ∧ rflags m' = rflags m ∧ ss m' = ss m.
Proof.
  intros Hv He Hb Hc Hw Hne Ht. set (i := interrupted m v _).
  destruct (default_handler_prints t i Ht ltac:(cbn; lia)) as (t' & Hlog & Hdef & Ht').
  exists (<[Z.to_nat w := h]> (HANDLERS 1)), t'.
  destruct (interrupt_ok (<[Z.to_nat w := h]> (HANDLERS 1)) c ist1 v code t t' m i)
    as (m' & Hm' & Hr & Hrest); [done..| |].
  - unfold isr_common_handler. cbn [int_number interrupted].
    rewrite (index_Some _ v (isr_default_handler 1)); [exact Hdef|lia|].
    rewrite list_lookup_insert_ne by lia. apply lookup_replicate_2. lia.
  - exists m'. split; [apply store_ok; cbn; lia|]. do 3 (split; [done|]). split; [|done]. intros r. rewrite Hr. by destruct r.
Qed.

(** C16: with the terminal's lock free the panic handler and the default
    interrupt handler print their line and go on; with the lock held, because
    the panic or the interrupt came while a line was being printed, neither
    ever returns, however long it spins: the panic message is never shown and
    the interrupted code never resumes. *)
Theorem handlers_spin_on_held_lock `{FontLaws} t text i :
  (27 ∉ text) → uint 64 (int_number i) →
  (terminal_ready t → ∃ t1 t2, panic_handler 1 t text = Ok t1 ∧ terminal_ready t1 ∧
     isr_default_handler 1 t i = Ok (t2, i) ∧ terminal_ready t2) ∧
  (locked (lock (info t)) = true → ∀ fuel,
     panic_handler fuel t text = Err OutOfFuel ∧ isr_default_handler fuel t i = Err OutOfFuel).
Proof.
  intros Ht [Hi _]. split.
  - intros Hr. unfold panic_handler.
    destruct (log_ok 1 t (mkLine LError (chars "===PANIC===") text)) as (t1 & H1 & Hr1 & _);
      [lia|done|split; [plain_literal|done]|].
    destruct (default_handler_prints t i Hr Hi) as (t2 & _ & H2 & Hr2). by exists t1, t2.
  - intros Hl fuel. unfold panic_handler, isr_default_handler. by rewrite !log_locked.
Qed.

Lemma wrong_stubs v : 0 ≤ v < 256 →
  stub_error v ≠ Some (hw_error_code v) ↔ v = 21 ∨ v = 29 ∨ v = 30.
Proof.
  intros Hv. split.
  - assert (Forall (λ v, stub_error v ≠ Some (hw_error_code v) → v = 21 ∨ v = 29 ∨ v = 30) (seqZ 0 256)) as H
      by (rewrite <- (bool_decide_spec (Forall _ _)); vm_compute; exact I).
    apply (proj1 (Forall_forall _ _) H). apply elem_of_seqZ. lia.
  - by intros [->|[->| ->]].
Qed.


(** The instructions of a stub up to the call. *)
Fixpoint before_call (p : list instr) : list instr :=
  match p with
  | [] | CallCommon :: _ => []
  | i :: p => i :: before_call p
  end.

Lemma common_prefix hs c t m sp ws rs : stk m sp ws rs → 128 ≤ sp < 2 ^ 64 →
  wp hs c (λ t' m', t' = t ∧ regs m' RSP = sp - 128) t m (before_call isr_common_stub).
Proof.
  intros Hs Hb. cbn [before_call isr_common_stub].
  do 15 (eapply wp_push_reg; [exact Hs|lia|done|]; clear Hs m; intros m Hs).
  eapply wp_mov_rdi; [exact Hs|]; clear Hs m; intros m Hs.
  eapply wp_sub; [exact Hs|lia|lia|]; clear Hs m; intros m Hsp _ _.
  exists t, m. split; [done|]. split; [done|]. lia.
Qed.

(** C22: with a 16-byte aligned interrupt stack, the stack pointer at the first
    instruction of the handler is a multiple of 16.  The System V ABI asks for
    a multiple of 16 plus 8 there (aligned before the call): the stub's
    [sub rsp, 8] takes the alignment away. *)
Theorem handler_entered_misaligned hs c ist1 v code t m :
  (16 | ist1) → 192 ≤ ist1 < 2 ^ 64 → 0 ≤ v < 256 → stub_error v = Some (hw_error_code v) →
  ∃ p m', stub_code v = Some p ∧ exec hs c (t, deliver ist1 v code m) (before_call p) = Ok (t, m') ∧
    regs (push m' 0) RSP = ist1 - 192 ∧ regs (push m' 0) RSP mod 16 = 0.
Proof.
  intros [q Hq] Hb Hv He. rewrite (stub_error_code v _ He).
  pose proof (deliver_stk ist1 v code m ltac:(lia)) as Hs. cbv zeta in Hs.
  assert (wp hs c (λ t' m', t' = t ∧ regs m' RSP = ist1 - 184) t (deliver ist1 v code m)
    (before_call (isr_stub (mkIsr v v (hw_error_code v))))) as (t' & m' & Hm' & -> & Hsp).
  { unfold isr_stub. cbn [isr_error isr_number].
    generalize dependent (deliver ist1 v code m). intros m0 Hs.
    destruct (hw_error_code v); cbn [app before_call].
    - eapply wp_push_imm; [exact Hs|lia|]. clear Hs m0. intros m0 Hs.
      destruct (common_prefix hs c t _ _ _ _ Hs ltac:(lia)) as (t1 & m1 & ? & -> & ?). exists t, m1. split_and!; [done|done|lia].
    - eapply wp_push_imm; [exact Hs|lia|]. clear Hs m0. intros m0 Hs.
      eapply wp_push_imm; [exact Hs|lia|]. clear Hs m0. intros m0 Hs.
      destruct (common_prefix hs c t _ _ _ _ Hs ltac:(lia)) as (t1 & m1 & ? & -> & ?). exists t, m1. split_and!; [done|done|lia]. }
  exists (isr_stub (mkIsr v v (hw_error_code v))), m'. split_and!; [done|done|..];
    cbn [push regs set_word set_reg]; rewrite decide_True, Hsp by done; unfold wrap;
    rewrite (Z.mod_small (ist1 - 184 - 8)) by lia; [lia|].
  replace (ist1 - 184 - 8) with ((q - 12) * 16) by lia. by apply Z.mod_mul.
Qed.

(** ** Witnesses *)

Definition demo_machine : machine :=
  mkMachine (λ r, match r with RSP => 0x7000 | RAX => 1 | RBX => 2 | _ => 3 end) (λ _, 0) 0x1234 8 0x202 0.

(** A callee that overwrites every register it may and all memory below. *)
Definition demo_callee (sp : Z) : callee :=
  mkCallee (λ rs r, if decide (r = RSP) then rs RSP else 99) (λ f a, if a <? sp then 77 else f a).

Lemma demo_callee_ok sp : callee_ok (demo_callee sp) sp.
Proof. split; [done|]. intros f a Ha. cbn. by rewrite (proj2 (Z.ltb_ge _ _)). Qed.

(** A handler that skips the faulting instruction. *)
Definition demo_handler : handler := λ t i,
  mret (t, mkInterruptInfo (i_r15 i) (i_r14 i) (i_r13 i) (i_r12 i) (i_r11 i) (i_r10 i) (i_r9 i) (i_r8 i)
    (i_rbp i) (i_rdi i) (i_rsi i) (i_rdx i) (i_rcx i) (i_rbx i) (i_rax i) (int_number i) (error_code i)
    (i_rip i + 2) (i_cs i) (i_rflags i) (i_rsp i) (i_ss i)).

(** The terminal of [TerminalTheorems] is ready to print. *)
Lemma demo_terminal_ready : terminal_ready demo_terminal.
Proof. split; [exact demo_terminal_ok|]. split; reflexivity. Qed.

Lemma handler_controls_return_witness :
  ∃ m', interrupt (replicate 256 demo_handler) (demo_callee 0x8F40) 0x9000 14 6 demo_terminal demo_machine
      = Ok (demo_terminal, m') ∧
    rip m' = 0x1236 ∧ regs m' RBX = 2 ∧ regs m' RSP = 0x7000.
Proof.
  destruct (handler_controls_return (replicate 256 demo_handler) (demo_callee 0x8F40) 0x9000 14 6
    demo_terminal demo_terminal demo_machine demo_handler
    (mkInterruptInfo 3 3 3 3 3 3 3 3 3 3 3 3 3 2 1 14 6 0x1236 8 0x202 0x7000 0))
    as (m' & Hm' & Hr & Hip & _).
  - lia.
  - reflexivity.
  - lia.
  - apply demo_callee_ok.
  - reflexivity.
  - reflexivity.
  - exists m'. split; [exact Hm'|]. split; [exact Hip|]. split; [exact (Hr RBX)|exact (Hr RSP)].
Defined.

Lemma default_handler_transparent_witness :
  ∃ hs t' m', set_isr_handler (HANDLERS (H := demo_font) 1) 3 demo_handler = Ok hs ∧
    interrupt hs (demo_callee 0x8F40) 0x9000 32 0 demo_terminal demo_machine = Ok (t', m') ∧
    terminal_ready t' ∧ (∀ r, regs m' r = regs demo_machine r) ∧ rip m' = rip demo_machine.
Proof.
  destruct (default_handler_transparent (H := demo_font) (H0 := demo_font_laws) (demo_callee 0x8F40) 0x9000
    32 3 demo_handler 0 demo_terminal demo_machine) as (hs & t' & m' & H1 & H2 & _ & H3 & H4 & H5 & _).
  - lia.
  - reflexivity.
  - lia.
  - apply demo_callee_ok.
  - lia.
  - lia.
  - exact demo_terminal_ready.
  - exists hs, t', m'. split; [exact H1|]. split; [exact H2|]. split; [exact H3|]. split; [exact H4|exact H5].
Defined.


Lemma handler_entered_misaligned_witness :
  ∃ p m', stub_code 32 = Some p ∧
    exec (replicate 256 demo_handler) (demo_callee 0) (demo_terminal, deliver 0x9000 32 0 demo_machine)
      (before_call p) = Ok (demo_terminal, m') ∧
    regs (push m' 0) RSP = 0x9000 - 192 ∧ regs (push m' 0) RSP mod 16 = 0.
Proof.
  apply handler_entered_misaligned; [by exists 0x900|lia|lia|reflexivity].
Defined.

Lemma handlers_spin_on_held_lock_witness :
  panic_handler (H := demo_font) 1000 (relock demo_terminal (mkSpinLock true)) (chars "oops")
    = Err OutOfFuel.
Proof.
  apply (handlers_spin_on_held_lock (H := demo_font) (H0 := demo_font_laws)
    (relock demo_terminal (mkSpinLock true)) (chars "oops")
    (mkInterruptInfo 0 0 0 0 0 0 0 0 0 0 0 0 0 0 0 14 0 0 0 0 0 0)).
  - plain_literal.
  - vm_compute. split; [discriminate|reflexivity].
  - reflexivity.
Defined.
