(* ===== verification/PhysLog.v ===== *)
(** * Initialising the memory manager, with its log lines
      ([PhysMemoryManager::new] of [kernel/src/memory/phys_manager.rs]).

    [PhysManager.new] is the work of [new]; here it is interleaved with what
    [new] prints, in the build with and without the feature
    [verbose-logging].  With the feature, [new] also walks every free list to
    count its blocks; the walk is bounded by the number of entries in memory,
    which is enough for a list that is not cyclic. *)
From stdpp Require Import base gmap numbers strings list.
From S2P Require Import Prelude.
From S2P Require Import KernelHeader.
From S2P Require Import Mutex.
From S2P Require Import FreeList.
From S2P Require Import PhysManager.
From S2P Require Import BuddySpec.
From S2P Require Import PhysInvariant.
From S2P Require Import PhysSystem.
From S2P Require Import PhysInit.
From S2P Require Import Fmt.
From S2P Require Import Log.

#[local] Open Scope Z_scope.

(** The [while] loop over one list; [count] is an [i32]. *)
Fixpoint count_entries (fuel : nat) (h : heap) (tmp count : Z) : res Z :=
  match fuel with
  | O => Err OutOfFuel
  | S fuel =>
      if is_null tmp then mret count
      else
        count ← add_w 31 count 1;
        e ← deref h tmp;
        count_entries fuel h (next e) count
  end.

Section new.
Context {S : Type} `{PhysManagerStorage S} (verbose_logging : bool).

(** One free segment: its line, and [add_region]. *)
Definition add_segment (m : PhysMemoryManager S) (entry : MemorySegment) : logged (PhysMemoryManager S) :=
  _ ← log_verbose verbose_logging "PhysManager" (
        b ← mul_w 64 (page_count entry) 4096;
        e ← add_w 64 (start entry) b;
        mret (chars "Free segment " ++ fmt_hex 16 (start entry) ++ chars " - " ++ fmt_hex 16 e ++
              chars "    " ++ fmt_dec (page_count entry)));
  '(m, _) ← quiet (add_region m (Z.shiftr (start entry) 12) (page_count entry));
  mret m.

(** One line of the statistics. *)
Definition count_order (m : PhysMemoryManager S) (_ : unit) (order : Z) : logged unit :=
  head ← quiet (index (free_lists (pm_buddy m)) order);
  count ← quiet (count_entries (Datatypes.S (size (b_heap (pm_buddy m)))) (b_heap (pm_buddy m)) head 0);
  log_verbose verbose_logging "PhysManager" (mret (fmt_dec count ++ chars " regions of order " ++ fmt_dec order)).

(** [pub fn new] *)
Definition new_logged (h : heap) (memory_map : list MemorySegment) :
    logged (PhysMemoryManager S * list MemorySegment) :=
  _ ← log_info "PhysManager" "Starting initialization";
  max_address ← quiet (max_address memory_map);
  _ ← log_verbose verbose_logging "PhysManager" (mret (chars "max_address=" ++ fmt_hex 16 max_address));
  '(s, memory_map) ← quiet (storage_new (Z.shiftr max_address 12) memory_map);
  m ← foldL add_segment
        (mkPhysMemoryManager SpinLock_new (mkBuddy (replicate (Z.to_nat (MAX_ORDER + 1)) null_mut) s h))
        (filter (λ seg, seg_free seg = true) memory_map);
  _ ← (if verbose_logging then foldL (count_order m) () (seqZ 0 (MAX_ORDER + 1)) else mret ());
  _ ← log_info "PhysManager" "Initialized";
  mret (m, memory_map).
End new.

(** ** The counts *)

Lemma count_entries_ok h k pv p l fuel c :
  dseg h k pv p l → (length l < fuel)%nat → 0 ≤ c → c + Z.of_nat (length l) < 2 ^ 31 →
  count_entries fuel h p c = Ok (c + Z.of_nat (length l)).
Proof.
  revert fuel pv p c. induction l as [|q l IH]; intros fuel pv p c Hd Hf Hc Hb;
    (destruct fuel as [|fuel]; [cbn in Hf; lia|]); cbn [count_entries dseg length] in *.
  - subst p. cbn. f_equal. lia.
  - destruct Hd as (-> & Hq & e & He & _ & _ & Hd). unfold is_null, deref.
    rewrite (proj2 (Z.eqb_neq q 0)) by done. rewrite add_w_ok by (unfold uint; lia). simpl_res.
    rewrite He. cbn [of_option]. simpl_res. rewrite (IH fuel q (next e)) by (done || lia). f_equal. lia.
Qed.

(** A list without repetition whose elements are keys of a map is no longer
    than the map. *)
Lemma NoDup_keys_length {V} (h : gmap Z V) l :
  NoDup l → (∀ p, p ∈ l → is_Some (h !! p)) → (length l ≤ size h)%nat.
Proof.
  intros Hn Hl. assert (list_to_set l ⊆ dom h) as Hsub.
  { intros p Hp%elem_of_list_to_set. apply elem_of_dom. by apply Hl. }
  apply subseteq_size in Hsub. by rewrite size_list_to_set, size_dom in Hsub.
Qed.

Lemma NoDup_range_length c (l : list Z) :
  NoDup l → 0 ≤ c → (∀ i, i ∈ l → 0 ≤ i < c) → Z.of_nat (length l) ≤ c.
Proof.
  intros Hn Hc Hl. assert (l ⊆+ seqZ 0 c) as Hsub.
  { apply NoDup_submseteq; [done|]. intros i Hi. apply elem_of_seqZ. specialize (Hl i Hi). lia. }
  apply submseteq_length in Hsub. rewrite length_seqZ in Hsub. lia.
Qed.

Section logged_new.
Context {S : Type} `{StorageLaws S} (verbose_logging : bool).

(** In a represented state every list can be counted. *)
Lemma count_order_ok (m : PhysMemoryManager S) F order :
  pm_inv m F → capacity (storage (pm_buddy m)) < 2 ^ 31 → 0 ≤ order ≤ MAX_ORDER →
  ∃ n, 0 ≤ n ∧ index (free_lists (pm_buddy m)) order ≫=
    (λ head, count_entries (Datatypes.S (size (b_heap (pm_buddy m)))) (b_heap (pm_buddy m)) head 0) = Ok n.
Proof.
  intros [_ [[Hs _ [Hlen HL]] Hwf]] Hcap Ho. destruct (HL order Ho) as (head & l & Hhd & [Hd Hnd] & Hin).
  exists (0 + Z.of_nat (length (get_entry (storage (pm_buddy m)) <$> l))). split; [lia|].
  rewrite (index_Some _ _ head) by (done || lia). simpl_res.
  assert (∀ p, p ∈ get_entry (storage (pm_buddy m)) <$> l → is_Some (b_heap (pm_buddy m) !! p)) as Hk.
  { intros p Hp. destruct (dseg_entry _ _ _ _ _ _ Hd Hp) as (_ & e & He & _). by exists e. }
  pose proof (NoDup_keys_length _ _ Hnd Hk) as Hle.
  assert (Z.of_nat (length l) ≤ capacity (storage (pm_buddy m))) as Hlc.
  { apply NoDup_range_length; [by eapply NoDup_fmap_1|unfold capacity; lia|]. intros i Hi%Hin.
    exact (wf_in_range _ F Hwf i order Hi). }
  rewrite (count_entries_ok _ _ _ _ _ _ _ Hd); [done|lia|lia|]. rewrite length_fmap. lia.
Qed.

Lemma count_order_res (m : PhysMemoryManager S) F order :
  pm_inv m F → capacity (storage (pm_buddy m)) < 2 ^ 31 → 0 ≤ order ≤ MAX_ORDER →
  lg_res (count_order verbose_logging m () order) = Ok () ∧ plain (count_order verbose_logging m () order).
Proof.
  intros Hi Hc Ho. destruct (count_order_ok m F order Hi Hc Ho) as (n & Hn & Hcount).
  apply bind_inv in Hcount as (head & Hhd & Hcount). unfold count_order. split.
  - rewrite lg_res_bind. rewrite lg_res_quiet. rewrite Hhd. simpl_res. rewrite lg_res_bind. rewrite lg_res_quiet.
    rewrite Hcount. simpl_res. by eapply lg_res_verbose.
  - apply plain_bind; [apply plain_quiet|]. intros head' E. rewrite lg_res_quiet in E. assert (head' = head) as -> by congruence.
    apply plain_bind; [apply plain_quiet|]. intros n' E'. rewrite lg_res_quiet in E'. assert (n' = n) as -> by congruence.
    apply plain_verbose; plain_text.
Qed.

(** A segment's line can be formatted, and holds no escape character. *)
Lemma add_segment_ok (m : PhysMemoryManager S) seg : seg_ok seg →
  lg_res (add_segment verbose_logging m seg) =
    ('(m, _) ← add_region m (Z.shiftr (start seg) 12) (page_count seg); mret m) ∧
  plain (add_segment verbose_logging m seg).
Proof.
  intros (_ & Hs0 & Hc & He). unfold add_segment. checked_arith. split.
  - rewrite lg_res_bind. erewrite lg_res_verbose by done. simpl_res. rewrite lg_res_bind. rewrite lg_res_quiet.
    destruct (add_region m _ _) as [[m' []]|]; done.
  - apply plain_bind.
    + apply plain_verbose; plain_text.
    + intros [] _. apply plain_bind; [apply plain_quiet|]. intros [m' []] _. apply plain_ret.
Qed.
End logged_new.

(** [new] with its log lines: the same manager, and plain lines only. *)
Lemma new_logged_ok {S} `{StorageLaws S} verbose_logging h mm (m : PhysMemoryManager S) mm' F :
  Forall seg_ok mm → new h mm = Ok (m, mm') → Forall seg_ok mm' → pm_inv m F →
  (verbose_logging = true → capacity (storage (pm_buddy m)) < 2 ^ 31) →
  lg_res (new_logged (S := S) verbose_logging h mm) = Ok (m, mm') ∧
  plain (new_logged (S := S) verbose_logging h mm) ∧
  lg_lines (new_logged (S := S) verbose_logging h mm) ≠ [].
Proof.
  intros Hok Hnew Hok' Hi Hcap. unfold new in Hnew.
  destruct (max_address_ok mm Hok) as (top & Hmax & Hu & _).
  { intros ->. discriminate Hnew. }
  rewrite Hmax in Hnew. rewrite bind_Ok in Hnew. apply bind_inv in Hnew as ([s mm1] & Hst & Hnew).
  apply bind_inv in Hnew as (m1 & Hfold & [= -> ->]).
  set (segs := filter _ mm') in Hfold.
  assert (∀ seg, seg ∈ segs → seg_ok seg) as Hsegs.
  { intros seg [_ Hel]%list_elem_of_filter. by apply (proj1 (Forall_forall _ _) Hok'). }
  assert (lg_res (foldL (add_segment verbose_logging)
    (mkPhysMemoryManager SpinLock_new (mkBuddy (replicate (Z.to_nat (MAX_ORDER + 1)) null_mut) s h)) segs)
    = Ok m) as Hadd.
  { rewrite <- Hfold. apply lg_res_foldL. intros b a Ha. by apply add_segment_ok, Hsegs. }
  assert (lg_res (if verbose_logging then foldL (count_order verbose_logging m) () (seqZ 0 (MAX_ORDER + 1))
    else mret ()) = Ok ()) as Hcount.
  { destruct verbose_logging; [|done]. erewrite (lg_res_foldL _ (λ _ _, mret ())).
    - generalize (seqZ 0 (MAX_ORDER + 1)). intros l. by induction l.
    - intros [] o Ho%elem_of_seqZ. apply (count_order_res _ m F); [done|by apply Hcap|lia]. }
  unfold new_logged. split_and!.
  - rewrite lg_res_bind. cbn [lg_res log_info say]. simpl_res. rewrite lg_res_bind. rewrite lg_res_quiet.
    rewrite Hmax. simpl_res. rewrite lg_res_bind. erewrite lg_res_verbose by done. simpl_res.
    rewrite lg_res_bind. rewrite lg_res_quiet. rewrite Hst. simpl_res. cbn beta iota. fold segs.
    rewrite lg_res_bind, Hadd. simpl_res.
    rewrite lg_res_bind, Hcount. simpl_res. by rewrite lg_res_bind.
  - apply plain_bind; [by apply plain_info; plain_literal|]. intros [] _.
    apply plain_bind; [apply plain_quiet|]. intros top' E. rewrite lg_res_quiet in E. assert (top' = top) as -> by congruence.
    apply plain_bind. { destruct Hu. apply plain_verbose; plain_text. }
    intros [] _. apply plain_bind; [apply plain_quiet|]. intros [s' mm''] E'. rewrite lg_res_quiet in E'.
    assert (s' = s ∧ mm'' = mm') as [-> ->] by (split; congruence). fold segs.
    apply plain_bind. { apply plain_foldL_in. intros b a Ha. by apply add_segment_ok, Hsegs. }
    intros m' Em. assert (m' = m) as -> by congruence. apply plain_bind.
    { destruct verbose_logging; [|apply plain_ret]. apply plain_foldL_in. intros [] o Ho%elem_of_seqZ.
      apply (count_order_res _ m F); [done|by apply Hcap|lia]. }
    intros [] _. apply plain_bind; [by apply plain_info; plain_literal|]. intros [] _. apply plain_ret.
  - discriminate.
Qed.
