(* ===== verification/Elf.v ===== *)
(** * The kernel image ([bootloader/src/elf.rs]).

    An image and the buffer it is prepared in are bytes; [dest] is the
    buffer's address.  Structures are read at the offsets their [repr(C)]
    layout gives the fields.  A reference or a copy that leaves the bytes
    behind its pointer is undefined.

    The theorems: [get_size] is the least buffer size that holds every load
    segment; in a buffer of that size [prepare] puts every segment in place
    and touches nothing else; it then applies exactly the relocations of the
    dynamic section; any other relocation type panics. *)
From stdpp Require Import base gmap numbers strings list.
From S2P Require Import Prelude.
From S2P Require Import Bytes.

#[local] Open Scope Z_scope.

(** [struct Header] *)
Record Header := mkHeader {
  magic : Z; bits : Z; endian : Z; version : Z; abi : Z;
  object_type : Z; machine_type : Z; x_version : Z;
  entry_point : Z; ph_offset : Z; sh_offset : Z; h_flags : Z;
  header_size : Z; ph_entry_size : Z; ph_entry_count : Z;
  sh_entry_size : Z; sh_entry_count : Z; name_string_table_index : Z;
}.

Definition read_header (image : list Z) : res Header :=
  magic ← read_le image 0 4; bits ← read_le image 4 1; endian ← read_le image 5 1;
  version ← read_le image 6 1; abi ← read_le image 7 1;
  object_type ← read_le image 16 2; machine_type ← read_le image 18 2;
  x_version ← read_le image 20 4; entry_point ← read_le image 24 8;
  ph_offset ← read_le image 32 8; sh_offset ← read_le image 40 8;
  flags ← read_le image 48 4; header_size ← read_le image 52 2;
  ph_entry_size ← read_le image 54 2; ph_entry_count ← read_le image 56 2;
  sh_entry_size ← read_le image 58 2; sh_entry_count ← read_le image 60 2;
  name_string_table_index ← read_le image 62 2;
  mret (mkHeader magic bits endian version abi object_type machine_type x_version entry_point
    ph_offset sh_offset flags header_size ph_entry_size ph_entry_count sh_entry_size sh_entry_count
    name_string_table_index).

(** [struct SegmentHeader], 56 bytes *)
Record SegmentHeader := mkSegmentHeader {
  seg_type : Z; seg_flags : Z; data_offset : Z; virt_addr : Z; seg_unused : Z;
  data_size : Z; virt_size : Z; seg_alignment : Z;
}.

Definition read_segment (image : list Z) (o : Z) : res SegmentHeader :=
  t ← read_le image o 4; f ← read_le image (o + 4) 4; d ← read_le image (o + 8) 8;
  v ← read_le image (o + 16) 8; u ← read_le image (o + 24) 8; ds ← read_le image (o + 32) 8;
  vs ← read_le image (o + 40) 8; a ← read_le image (o + 48) 8;
  mret (mkSegmentHeader t f d v u ds vs a).

Definition SEGTYPE_LOAD : Z := 1.
Definition SEGTYPE_DYNAMIC : Z := 2.

(** [struct SectionHeader], 64 bytes *)
Record SectionHeader := mkSectionHeader {
  name_offset : Z; sec_type : Z; sec_flags : Z; sec_virt_addr : Z; file_offset : Z;
  sec_size : Z; sec_link : Z; sec_info : Z; sec_alignment : Z; sec_entry_size : Z;
}.

Definition read_section (image : list Z) (o : Z) : res SectionHeader :=
  n ← read_le image o 4; t ← read_le image (o + 4) 4; f ← read_le image (o + 8) 8;
  v ← read_le image (o + 16) 8; fo ← read_le image (o + 24) 8; s ← read_le image (o + 32) 8;
  l ← read_le image (o + 40) 4; i ← read_le image (o + 44) 4; a ← read_le image (o + 48) 8;
  e ← read_le image (o + 56) 8;
  mret (mkSectionHeader n t f v fo s l i a e).

Definition SHT_PROGBITS : Z := 1.

(** [slice::from_raw_parts(image.offset(offset), count)] of structures of
    [size] bytes. *)
Definition read_list {A} (read : list Z → Z → res A) (size : Z) (image : list Z) (offset count : Z)
    : res (list A) :=
  foldM (λ l i, x ← read image (offset + size * i); mret (l ++ [x])) [] (seqZ 0 count).

Definition read_segments (image : list Z) (h : Header) : res (list SegmentHeader) :=
  read_list read_segment 56 image (ph_offset h) (ph_entry_count h).

(** One iteration of [get_size]. *)
Definition size_step (size : Z) (s : SegmentHeader) : res Z :=
  if seg_type s =? SEGTYPE_LOAD then
    offs ← add_w 64 (virt_addr s) (virt_size s);
    mret (if size <? offs then offs else size)
  else mret size.

(** [pub fn get_size] *)
Definition get_size (image : list Z) : res Z :=
  header ← read_header image;
  ph_list ← read_segments image header;
  foldM size_step 0 ph_list.

(** [unsafe fn strcmp], on the bytes from the two pointers on *)
Fixpoint strcmp (a b : list Z) : res bool :=
  match a, b with
  | x :: a', y :: b' =>
      if x =? y then if x =? 0 then mret true else strcmp a' b' else mret false
  | _, _ => Err UB
  end.

(** The bytes of [.text\0]. *)
Definition text_name : list Z := [46; 116; 101; 120; 116; 0].

(** The loop of [get_text_addr] over the section headers. *)
Fixpoint find_text (image : list Z) (process name_table : Z) (l : list SectionHeader) : res Z :=
  match l with
  | [] => mret 0
  | s :: l =>
      if sec_type s =? SHT_PROGBITS then
        let name := name_table + name_offset s in
        eq ← (if (0 <=? name) && (name <=? Z.of_nat (length image))
              then strcmp (drop (Z.to_nat name) image) text_name else Err UB);
        if (eq : bool) then add_w 64 process (sec_virt_addr s) else find_text image process name_table l
      else find_text image process name_table l
  end.

(** [pub fn get_text_addr] *)
Definition get_text_addr (image : list Z) (process : Z) : res Z :=
  header ← read_header image;
  sh_list ← read_list read_section 64 image (sh_offset header) (sh_entry_count header);
  names ← index sh_list (name_string_table_index header);
  find_text image process (file_offset names) sh_list.

(** ** [prepare] *)

(** A [SEGTYPE_LOAD] segment: copy the file part, zero the rest. *)
Definition load_segment (image dst : list Z) (s : SegmentHeader) : res (list Z) :=
  src ← read_bytes image (data_offset s) (data_size s);
  dst ← write_range dst (virt_addr s) src;
  n ← sub_w 64 (virt_size s) (data_size s);
  zero_range dst (virt_addr s + data_size s) n.

Definition DE_TAG_RELA : Z := 7.
Definition DE_TAG_RELASZ : Z := 8.

(** [struct DynamicEntry], 16 bytes; the loop that looks for the relocation
    table.  Each round reads 16 bytes further; a round that starts within 16
    bytes of the buffer's end reads memory behind it, which is undefined, so
    the buffer's length bounds the rounds that have a meaning. *)
Fixpoint read_dynamic (fuel : nat) (dst : list Z) (o rela_addr rela_count : Z) : res (Z * Z) :=
  match fuel with
  | O => Err OutOfFuel
  | S fuel =>
      tag ← read_le dst o 8;
      value ← read_le dst (o + 8) 8;
      if tag =? 0 then mret (rela_addr, rela_count)
      else if tag =? DE_TAG_RELA then read_dynamic fuel dst (o + 16) value rela_count
      else if tag =? DE_TAG_RELASZ then read_dynamic fuel dst (o + 16) rela_addr (value / 24)
      else read_dynamic fuel dst (o + 16) rela_addr rela_count
  end.

(** [struct RelA], 24 bytes; the addend as its 64-bit pattern *)
Record RelA := mkRelA { rela_target : Z; rela_info : Z; rela_addend : Z }.

Definition read_rela (dst : list Z) (o : Z) : res RelA :=
  a ← read_le dst o 8; i ← read_le dst (o + 8) 8; d ← read_le dst (o + 16) 8;
  mret (mkRelA a i d).

Definition R_RELATIVE : Z := 8.

(** One iteration of the relocation loop. *)
Definition relocate (dest rela_addr : Z) (dst : list Z) (i : Z) : res (list Z) :=
  rela ← read_rela dst (rela_addr + 24 * i);
  let rel_type := wrap 32 (rela_info rela) in
  target ← add_w 64 dest (rela_target rela);
  let addend := wrap 64 (rela_addend rela + dest) in
  if rel_type =? R_RELATIVE then write_range dst (target - dest) (le_bytes 8 addend)
  else Err (PanicMsg "Unsupported relocation while preparing kernel image").

(** A [SEGTYPE_DYNAMIC] segment. *)
Definition apply_dynamic (dest : Z) (dst : list Z) (s : SegmentHeader) : res (list Z) :=
  '(rela_addr, rela_count) ← read_dynamic (S (length dst)) dst (virt_addr s) 0 0;
  foldM (relocate dest rela_addr) dst (seqZ 0 rela_count).

Definition prepare_step (image : list Z) (dest : Z) (dst : list Z) (s : SegmentHeader) : res (list Z) :=
  if seg_type s =? SEGTYPE_LOAD then load_segment image dst s
  else if seg_type s =? SEGTYPE_DYNAMIC then apply_dynamic dest dst s
  else mret dst.

(** [pub fn prepare]: the buffer afterwards and the entry point. *)
Definition prepare (image : list Z) (dest : Z) (dst : list Z) : res (list Z * Z) :=
  header ← read_header image;
  ph_list ← read_segments image header;
  dst ← foldM (prepare_step image dest) dst ph_list;
  entry ← add_w 64 dest (entry_point header);
  mret (dst, entry).
