(* ===== verification/ElfTheorems.v ===== *)
(** * Correctness of the image loader.

    Loading and relocation of whole images, and the search of the dynamic
    section as a reference on its list of entries. *)
From stdpp Require Import base gmap numbers strings list.
From S2P Require Import Prelude.
From S2P Require Import Bytes.
From S2P Require Import Elf.

#[local] Open Scope Z_scope.

Definition is_load (s : SegmentHeader) : Prop := seg_type s = SEGTYPE_LOAD.
Definition seg_end (s : SegmentHeader) : Z := virt_addr s + virt_size s.

(** The segment covers the buffer's byte [j], and what it puts there. *)
Definition covers (s : SegmentHeader) (j : Z) : Prop := is_load s ∧ virt_addr s ≤ j < seg_end s.

#[global] Instance covers_dec s j : Decision (covers s j).
Proof. unfold covers, is_load. apply _. Defined.

Definition seg_byte (image : list Z) (s : SegmentHeader) (j : Z) : option Z :=
  if j - virt_addr s <? data_size s then image !! Z.to_nat (data_offset s + (j - virt_addr s))
  else Some 0.

(** What a linker produces: the file part lies in the file and is not larger
    than the memory part. *)
Definition seg_ok (image : list Z) (s : SegmentHeader) : Prop :=
  is_load s →
  0 ≤ data_offset s ∧ 0 ≤ virt_addr s ∧ 0 ≤ data_size s ≤ virt_size s ∧ virt_size s < 2 ^ 64 ∧
  data_offset s + data_size s ≤ Z.of_nat (length image).

(** ** [get_size] *)

Lemma size_fold segs n0 n : foldM size_step n0 segs = Ok n →
  n0 ≤ n ∧ (∀ s, s ∈ segs → is_load s → seg_end s ≤ n) ∧
  (n = n0 ∨ ∃ s, s ∈ segs ∧ is_load s ∧ n = seg_end s).
Proof.
  revert n0. induction segs as [|s segs IH]; intros n0; cbn [foldM].
  - intros [= <-]. split_and!; [lia| |by left]. intros s Hs. by apply elem_of_nil in Hs.
  - intros H. inv_bind H as (n1 & H1 & H2). apply IH in H2 as (Hle & Hall & Hex).
    unfold size_step in H1. destruct (Z.eqb_spec (seg_type s) SEGTYPE_LOAD) as [Hl|Hl].
    + inv_bind H1 as (e & He & H1). apply checked_inv in He as [-> _].
      injection H1 as <-. fold (seg_end s) in *.
      destruct (Z.ltb_spec n0 (seg_end s)).
      * split_and!; [lia| |].
        -- intros s' [->|Hs']%elem_of_cons Hl'; [lia|auto].
        -- right. destruct Hex as [->|(s' & ? & ? & ?)]; [exists s|exists s']; set_solver.
      * split_and!; [lia| |].
        -- intros s' [->|Hs']%elem_of_cons Hl'; [lia|auto].
        -- destruct Hex as [->|(s' & ? & ? & ?)]; [by left|right; exists s'; set_solver].
    + injection H1 as <-. split_and!; [lia| |].
      * intros s' [->|Hs']%elem_of_cons Hl'; [done|auto].
      * destruct Hex as [->|(s' & ? & ? & ?)]; [by left|right; exists s'; set_solver].
Qed.

(** [get_size] returns the least buffer size that every load segment fits
    in: the end of the last one in memory, or zero when there is none. *)
Lemma get_size_least image n :
  get_size image = Ok n →
  ∃ header segs, read_header image = Ok header ∧ read_segments image header = Ok segs ∧
    (∀ s, s ∈ segs → is_load s → seg_end s ≤ n) ∧
    (n = 0 ∨ ∃ s, s ∈ segs ∧ is_load s ∧ seg_end s = n).
Proof.
  unfold get_size. intros H. inv_bind H as (h & Hh & H). inv_bind H as (segs & Hs & H).
  apply size_fold in H as (_ & Hall & Hex). exists h, segs. split_and!; [done|done|done|].
  destruct Hex as [->|(s & ? & ? & ->)]; [by left|right; eauto].
Qed.

(** ** Loading *)

Lemma load_segment_ok image dst s : is_load s → seg_ok image s →
  seg_end s ≤ Z.of_nat (length dst) →
  ∃ dst', load_segment image dst s = Ok dst' ∧ length dst' = length dst ∧
    ∀ j, 0 ≤ j → dst' !! Z.to_nat j =
      if decide (covers s j) then seg_byte image s j else dst !! Z.to_nat j.
Proof.
  intros Hl Hok Hend. destruct (Hok Hl) as (Hdo & Hva & Hds & Hvs & Hfile). unfold seg_end in Hend.
  unfold load_segment.
  destruct (read_bytes_ok image (data_offset s) (data_size s)) as (bs & -> & Hbl & Hbs); [lia..|].
  simpl_res.
  destruct (write_range_ok dst (virt_addr s) bs) as (d1 & -> & Hl1 & Hlk1); [lia..|]. simpl_res.
  checked_arith.
  destruct (zero_range_ok d1 (virt_addr s + data_size s) (virt_size s - data_size s))
    as (d2 & -> & Hl2 & Hlk2); [lia..|].
  exists d2. split_and!; [done|congruence|]. intros j Hj. rewrite Hlk2 by done.
  unfold covers, seg_end, seg_byte. destruct (decide (is_load s ∧ _)) as [[_ Hc]|Hc].
  - destruct (Z.ltb_spec (j - virt_addr s) (data_size s)).
    + rewrite decide_False, Hlk1, decide_True, Hbs by lia. done.
    + rewrite decide_True by lia. done.
  - rewrite decide_False, Hlk1, decide_False by naive_solver lia. done.
Qed.

Lemma load_all image dest segs dst :
  Forall (seg_ok image) segs → (∀ s, s ∈ segs → seg_type s ≠ SEGTYPE_DYNAMIC) →
  (∀ s, s ∈ segs → is_load s → seg_end s ≤ Z.of_nat (length dst)) →
  ∃ dst', foldM (prepare_step image dest) dst segs = Ok dst' ∧ length dst' = length dst ∧
    (∀ s j, s ∈ segs → covers s j → 0 ≤ j →
       (∀ s', s' ∈ segs → covers s' j → s' = s) → dst' !! Z.to_nat j = seg_byte image s j) ∧
    (∀ j, 0 ≤ j → (∀ s, s ∈ segs → ¬ covers s j) → dst' !! Z.to_nat j = dst !! Z.to_nat j).
Proof.
  revert dst. induction segs as [|s segs IH]; intros dst Hok Hdyn Hend; cbn [foldM].
  { exists dst. split_and!; [done|done| |done]. intros s j Hs. by apply elem_of_nil in Hs. }
  apply Forall_cons in Hok as [Hs Hok].
  assert (∃ d1, prepare_step image dest dst s = Ok d1 ∧ length d1 = length dst ∧
    ∀ j, 0 ≤ j → d1 !! Z.to_nat j = if decide (covers s j) then seg_byte image s j else dst !! Z.to_nat j)
    as (d1 & -> & Hl1 & Hlk1).
  { unfold prepare_step. destruct (Z.eqb_spec (seg_type s) SEGTYPE_LOAD) as [Hl|Hl].
    - apply load_segment_ok; [done|done|]. apply Hend; [left|done].
    - destruct (Z.eqb_spec (seg_type s) SEGTYPE_DYNAMIC) as [E|_]; [by destruct (Hdyn s); [left|]|].
      exists dst. split_and!; [done|done|]. intros j Hj. rewrite decide_False; [done|]. by intros [? _]. }
  simpl_res. destruct (IH d1) as (d2 & Hf & Hl2 & Hin & Hout); [done| | |].
  { intros s' Hs'. apply Hdyn. by right. }
  { intros s' Hs' Hl'. rewrite Hl1. apply Hend; [by right|done]. }
  exists d2. split_and!; [done|congruence| |].
  - intros s' j Hs' Hc Hj Huniq.
    destruct (decide (Exists (λ t, covers t j) segs)) as [(t & Ht & Hct)%Exists_exists|Hnone].
    + assert (t = s') as -> by (apply Huniq; [by right|done]).
      apply Hin; [done|done|done|]. intros t' Ht' Hct'. apply Huniq; [by right|done].
    + rewrite Exists_exists in Hnone. rewrite Hout; [|done|naive_solver]. rewrite Hlk1 by done.
      apply elem_of_cons in Hs' as [->|Hs']; [by rewrite decide_True|naive_solver].
  - intros j Hj Hnone. rewrite Hout; [|done|]. 2:{ intros t Ht. apply Hnone. by right. }
    rewrite Hlk1 by done. rewrite decide_False; [done|]. apply Hnone. left.
Qed.

(** C25: in a buffer of the size [get_size] asks for, an image without dynamic
    segment is prepared without a panic: every byte covered by one load
    segment is the segment's file byte, or zero past the file part; no other
    byte of the buffer changes; the entry point is relative to the buffer. *)
Theorem prepare_loads image dest dst header segs n :
  read_header image = Ok header → read_segments image header = Ok segs →
  get_size image = Ok n → n ≤ Z.of_nat (length dst) →
  Forall (seg_ok image) segs → (∀ s, s ∈ segs → seg_type s ≠ SEGTYPE_DYNAMIC) →
  uint 64 (dest + entry_point header) →
  ∃ dst', prepare image dest dst = Ok (dst', dest + entry_point header) ∧
    length dst' = length dst ∧
    (∀ s j, s ∈ segs → covers s j → 0 ≤ j →
       (∀ s', s' ∈ segs → covers s' j → s' = s) → dst' !! Z.to_nat j = seg_byte image s j) ∧
    (∀ j, 0 ≤ j → (∀ s, s ∈ segs → ¬ covers s j) → dst' !! Z.to_nat j = dst !! Z.to_nat j).
Proof.
  intros Hh Hs Hn Hlen Hok Hdyn Hentry.
  unfold get_size in Hn. rewrite Hh in Hn. simpl_res. rewrite bind_Ok, Hs, bind_Ok in Hn.
  apply size_fold in Hn as (_ & Hall & _).
  destruct (load_all image dest segs dst) as (dst' & Hf & Hl & Hin & Hout); [done|done| |].
  { intros s Hel Hld. specialize (Hall s Hel Hld). lia. }
  exists dst'. split_and!; [|done..]. unfold prepare.
  rewrite Hh. simpl_res. rewrite Hs. simpl_res. rewrite Hf. simpl_res.
  by rewrite add_w_ok.
Qed.

(** ** Relocation *)

(** A relocation the loader supports: 8 bytes inside the buffer, apart from
    the relocation table at [[ra, ra + 24 rc)]. *)
Definition rela_ok (dest : Z) (dst : list Z) (ra rc : Z) (r : RelA) : Prop :=
  wrap 32 (rela_info r) = R_RELATIVE ∧ 0 ≤ rela_target r ∧
  rela_target r + 8 ≤ Z.of_nat (length dst) ∧ dest + rela_target r < 2 ^ 64 ∧
  (rela_target r + 8 ≤ ra ∨ ra + 24 * rc ≤ rela_target r).

Definition relocated (dest : Z) (r : RelA) : Z := wrap 64 (rela_addend r + dest).

Lemma read_rela_ext dst dst' o : length dst' = length dst →
  (∀ j, o ≤ j < o + 24 → dst' !! Z.to_nat j = dst !! Z.to_nat j) → read_rela dst' o = read_rela dst o.
Proof.
  intros Hl He. unfold read_rela.
  rewrite !(read_le_ext dst dst') by (done || (intros; apply He; lia)). done.
Qed.

Section relocate.
Context (dest : Z) (dst : list Z) (ra rc : Z) (rel : Z → RelA).
Context (Hdest : 0 ≤ dest) (Hra : 0 ≤ ra).
Context (Hread : ∀ i, 0 ≤ i < rc → read_rela dst (ra + 24 * i) = Ok (rel i)).
Context (Hrel : ∀ i, 0 ≤ i < rc → rela_ok dest dst ra rc (rel i)).
Context (Hdisj : ∀ i k, 0 ≤ i < rc → 0 ≤ k < rc → i ≠ k →
  rela_target (rel i) + 8 ≤ rela_target (rel k) ∨ rela_target (rel k) + 8 ≤ rela_target (rel i)).

(** After the relocations of [done]. *)
Definition relocs (done : list Z) (d : list Z) : Prop :=
  length d = length dst ∧
  (∀ i, i ∈ done → 0 ≤ i < rc → read_le d (rela_target (rel i)) 8 = Ok (relocated dest (rel i))) ∧
  (∀ j, 0 ≤ j → (∀ i, 0 ≤ i < rc → ¬ (rela_target (rel i) ≤ j < rela_target (rel i) + 8)) →
     d !! Z.to_nat j = dst !! Z.to_nat j).

Lemma relocate_ok done d i : 0 ≤ i < rc → relocs done d →
  ∃ d', relocate dest ra d i = Ok d' ∧ relocs (done ++ [i]) d'.
Proof using All.
  intros Hi (Hl & Hin & Hout). destruct (Hrel i Hi) as (Hty & Ht0 & Htl & Htd & Htab).
  unfold relocate. rewrite (read_rela_ext dst d), Hread; [|done|done|].
  2:{ intros j Hj. apply Hout; [lia|]. intros k Hk.
      destruct (Hrel k Hk) as (_ & _ & _ & _ & Hk'). nia. }
  simpl_res. checked_arith. cbv zeta. rewrite Hty, Z.eqb_refl.
  replace (dest + rela_target (rel i) - dest) with (rela_target (rel i)) by lia.
  destruct (write_range_ok d (rela_target (rel i)) (le_bytes 8 (relocated dest (rel i))))
    as (d' & Hd' & Hl' & Hlk); [done|rewrite length_le_bytes; lia|].
  exists d'. split; [done|]. rewrite length_le_bytes in Hlk. split_and!; [congruence| |].
  - intros k Hk Hkr. destruct (decide (k = i)) as [->|Hne].
    + eapply read_le_written; [done| |exact Hd']. unfold relocated, wrap.
      change (256 ^ Z.of_nat 8) with (2 ^ 64). by apply Z.mod_pos_bound.
    + rewrite (read_le_ext d d'); [|done|].
      * apply Hin; [|done]. by apply elem_of_app in Hk as [|?%list_elem_of_singleton].
      * intros j Hj. destruct (Hrel k Hkr) as (_ & ? & _). specialize (Hdisj i k Hi Hkr ltac:(done)).
        rewrite Hlk, decide_False by lia. done.
  - intros j Hj Hnone. rewrite Hlk, decide_False by (done || (specialize (Hnone i Hi); lia)).
    by apply Hout.
Qed.

Lemma relocate_all : ∃ d', foldM (relocate dest ra) dst (seqZ 0 rc) = Ok d' ∧ relocs (seqZ 0 rc) d'.
Proof using All.
  apply (foldM_inv (relocate dest ra) relocs (seqZ 0 rc) []).
  - split_and!; [done| |done]. intros i Hel. by apply elem_of_nil in Hel.
  - intros d i r b E HP. apply seqZ_split_range in E as [Hi _]. by apply relocate_ok.
Qed.
End relocate.

Lemma prepare_step_dynamic image dest d s : seg_type s = SEGTYPE_DYNAMIC →
  prepare_step image dest d s = apply_dynamic dest d s.
Proof. intros Hs. unfold prepare_step. by rewrite Hs. Qed.

Lemma prepare_step_other image dest d s : seg_type s ≠ SEGTYPE_LOAD → seg_type s ≠ SEGTYPE_DYNAMIC →
  prepare_step image dest d s = Ok d.
Proof.
  intros H1 H2. unfold prepare_step.
  by destruct (Z.eqb_spec (seg_type s) SEGTYPE_LOAD), (Z.eqb_spec (seg_type s) SEGTYPE_DYNAMIC).
Qed.

(** C26: for an image whose dynamic segment follows its load segments, with
    [dst1] the buffer after loading and [rel] the table of relative
    relocations found there: [prepare] stores the relocated address, addend
    plus buffer address, at every target, and changes no other byte of the
    loaded image. *)
Theorem prepare_relocates image dest dst dst1 header pre dyn post ra rc rel :
  read_header image = Ok header → read_segments image header = Ok (pre ++ dyn :: post) →
  foldM (prepare_step image dest) dst pre = Ok dst1 →
  seg_type dyn = SEGTYPE_DYNAMIC →
  (∀ s, s ∈ post → seg_type s ≠ SEGTYPE_LOAD ∧ seg_type s ≠ SEGTYPE_DYNAMIC) →
  read_dynamic (S (length dst1)) dst1 (virt_addr dyn) 0 0 = Ok (ra, rc) →
  0 ≤ dest → 0 ≤ ra → uint 64 (dest + entry_point header) →
  (∀ i, 0 ≤ i < rc → read_rela dst1 (ra + 24 * i) = Ok (rel i) ∧ rela_ok dest dst1 ra rc (rel i)) →
  (∀ i k, 0 ≤ i < rc → 0 ≤ k < rc → i ≠ k →
     rela_target (rel i) + 8 ≤ rela_target (rel k) ∨ rela_target (rel k) + 8 ≤ rela_target (rel i)) →
  ∃ dst', prepare image dest dst = Ok (dst', dest + entry_point header) ∧
    length dst' = length dst1 ∧
    (∀ i, 0 ≤ i < rc → read_le dst' (rela_target (rel i)) 8 = Ok (relocated dest (rel i))) ∧
    (∀ j, 0 ≤ j → (∀ i, 0 ≤ i < rc → ¬ (rela_target (rel i) ≤ j < rela_target (rel i) + 8)) →
       dst' !! Z.to_nat j = dst1 !! Z.to_nat j).
Proof.
  intros Hh Hs Hpre Hd Hpost Hrd Hdest Hra Hentry Hrel Hdisj.
  destruct (relocate_all dest dst1 ra rc rel Hdest Hra) as (d' & Hd' & Hl & Hin & Hout);
    [intros i Hi; apply (Hrel i Hi)|intros i Hi; apply (Hrel i Hi)|done|].
  assert (foldM (prepare_step image dest) d' post = Ok d') as Hp.
  { clear -Hpost. induction post as [|s post IH]; [done|]. cbn [foldM].
    destruct (Hpost s) as [H1 H2]; [left|]. rewrite prepare_step_other by done.
    apply IH. intros s' Hs'. apply Hpost. by right. }
  exists d'. split_and!; [|done| |done].
  - unfold prepare. rewrite Hh. simpl_res. rewrite Hs. simpl_res. rewrite foldM_app, Hpre. simpl_res.
    cbn [foldM]. rewrite prepare_step_dynamic by done.
    unfold apply_dynamic. rewrite Hrd. simpl_res. rewrite Hd'. simpl_res. rewrite Hp. simpl_res.
    by rewrite add_w_ok.
  - intros i Hi. apply Hin; [|done]. apply elem_of_seqZ. lia.
Qed.

(** ** Termination *)

Definition fuel_free {A} (m : res A) : Prop := m ≠ Err OutOfFuel.

Lemma fuel_free_bind {A B} (m : res A) (f : A → res B) :
  fuel_free m → (∀ a, m = Ok a → fuel_free (f a)) → fuel_free (m ≫= f).
Proof. intros Hm Hf. destruct m as [a|e]; [by apply Hf|]. intros [= ->]. by apply Hm. Qed.

Lemma fuel_free_foldM {A B} (f : B → A → res B) l b :
  (∀ b a, fuel_free (f b a)) → fuel_free (foldM f b l).
Proof.
  intros Hf. revert b. induction l as [|a l IH]; intros b; [done|].
  cbn [foldM]. apply fuel_free_bind; auto.
Qed.

Lemma fuel_free_read_le mem o n : fuel_free (read_le mem o n).
Proof. unfold read_le. by destruct (_ && _). Qed.

Lemma fuel_free_add w x y : fuel_free (add_w w x y).
Proof. unfold add_w, checked. by destruct (in_width _ _). Qed.

Lemma fuel_free_sub w x y : fuel_free (sub_w w x y).
Proof. unfold sub_w, checked. by destruct (in_width _ _). Qed.

Lemma fuel_free_ret {A} (a : A) : fuel_free (mret a).
Proof. done. Qed.

Lemma fuel_free_write_range mem o bs : fuel_free (write_range mem o bs).
Proof. unfold write_range, write_slice. destruct (bytes_in _ _ _); [|done]. by destruct (decide _). Qed.

#[local] Hint Resolve fuel_free_read_le fuel_free_add fuel_free_sub fuel_free_ret fuel_free_write_range : rust.

(** Walk through straight-line code. *)
Ltac fuel_free_steps :=
  repeat (apply fuel_free_bind; [auto with rust|intros ? _]); auto with rust.

(** Every round that continues has read 16 more bytes of the buffer. *)
Lemma read_dynamic_terminates dst fuel o a c :
  (1 ≤ fuel)%nat → o < 0 ∨ Z.of_nat (length dst) - o < Z.of_nat fuel →
  fuel_free (read_dynamic fuel dst o a c).
Proof.
  revert o a c. induction fuel as [|fuel IH]; intros o a c H1 H2; [lia|]. cbn [read_dynamic].
  apply fuel_free_bind; [auto with rust|]. intros tag Ht.
  apply fuel_free_bind; [auto with rust|]. intros value Hv.
  assert (0 ≤ o ∧ o + 16 ≤ Z.of_nat (length dst)) as [Ho Hl].
  { unfold read_le in Ht, Hv.
    destruct (Z.leb_spec 0 o), (Z.leb_spec (o + Z.of_nat 8) (Z.of_nat (length dst))); try done.
    destruct (Z.leb_spec 0 (o + 8)), (Z.leb_spec (o + 8 + Z.of_nat 8) (Z.of_nat (length dst))); try done.
    lia. }
  destruct (tag =? 0); [done|]. destruct (tag =? DE_TAG_RELA); [apply IH; lia|].
  destruct (tag =? DE_TAG_RELASZ); apply IH; lia.
Qed.

Lemma prepare_step_terminates image dest dst s : fuel_free (prepare_step image dest dst s).
Proof.
  unfold prepare_step. destruct (_ =? _); [|destruct (_ =? _); [|done]].
  - unfold load_segment, read_bytes, zero_range. apply fuel_free_bind; [by destruct (bytes_in _ _ _)|].
    intros src _. fuel_free_steps. destruct (bytes_in _ _ _); [auto with rust|done].
  - unfold apply_dynamic. apply fuel_free_bind; [apply read_dynamic_terminates; lia|].
    intros [ra rc] _. apply fuel_free_foldM. intros d i. unfold relocate, read_rela.
    apply fuel_free_bind; [by fuel_free_steps|]. intros r _. fuel_free_steps.
    destruct (_ =? _); [auto with rust|done].
Qed.

(** The fuel of [read_dynamic] never runs out: [prepare] ends with a result,
    with a panic, or where the code leaves the memory of a buffer. *)
Lemma prepare_terminates image dest dst : prepare image dest dst ≠ Err OutOfFuel.
Proof.
  change (fuel_free (prepare image dest dst)). unfold prepare, read_header.
  apply fuel_free_bind; [by fuel_free_steps|]. intros h _.
  apply fuel_free_bind.
  { unfold read_segments, read_list. apply fuel_free_foldM. intros l i. unfold read_segment.
    apply fuel_free_bind; [by fuel_free_steps|done]. }
  intros segs _. apply fuel_free_bind; [apply fuel_free_foldM, prepare_step_terminates|].
  intros d _. by fuel_free_steps.
Qed.

(** ** The dynamic section *)

(** The entries (tag and value) of 16 bytes that fit between [o] and the end of
    the buffer. *)
Definition dynamic_entries (dst : list Z) (o : Z) : list (Z * Z) :=
  (λ j, (from_le (slice dst (Z.to_nat (o + 16 * j)) 8), from_le (slice dst (Z.to_nat (o + 16 * j + 8)) 8)))
    <$> seqZ 0 ((Z.of_nat (length dst) - o) / 16).

(** The last entry with a tag. *)
Definition last_entry (tag : Z) (es : list (Z * Z)) : option (Z * Z) := last (filter (λ e, e.1 = tag) es).

Lemma last_entry_cons tag e es :
  last_entry tag (e :: es) = match last_entry tag es with
    | Some x => Some x | None => if decide (e.1 = tag) then Some e else None end.
Proof.
  unfold last_entry. rewrite filter_cons. destruct (decide (e.1 = tag)).
  - rewrite last_cons. by destruct (last _).
  - by destruct (last _).
Qed.

Lemma dynamic_entries_cons dst o : 0 ≤ o → o + 16 ≤ Z.of_nat (length dst) →
  ∃ t v, read_le dst o 8 = Ok t ∧ read_le dst (o + 8) 8 = Ok v ∧
    dynamic_entries dst o = (t, v) :: dynamic_entries dst (o + 16).
Proof.
  intros H0 Hl. do 2 eexists. unfold read_le.
  rewrite !(proj2 (Z.leb_le _ _)) by lia. cbn [andb]. split; [done|]. split; [done|].
  unfold dynamic_entries. replace ((Z.of_nat (length dst) - o) / 16) with ((Z.of_nat (length dst) - (o + 16)) / 16 + 1).
  2:{ rewrite <- Z.div_add by lia. f_equal. lia. }
  assert (0 ≤ (Z.of_nat (length dst) - (o + 16)) / 16) by (apply Z.div_pos; lia).
  rewrite seqZ_cons by lia. rewrite fmap_cons. f_equal; [by rewrite Z.mul_0_r, Z.add_0_r|].
  replace (Z.pred (_ + 1)) with ((Z.of_nat (length dst) - (o + 16)) / 16) by lia.
  rewrite <- (fmap_add_seqZ 1 0), <- list_fmap_compose. apply list_fmap_ext. intros i j _. cbn [compose].
  by replace (o + 16 * (1 + j)) with (o + 16 + 16 * j) by lia.
Qed.

Lemma dynamic_entries_nil dst o : Z.of_nat (length dst) < o + 16 → dynamic_entries dst o = [].
Proof.
  intros Hl. unfold dynamic_entries. rewrite seqZ_nil; [done|].
  assert ((Z.of_nat (length dst) - o) / 16 < 1); [|lia]. apply Z.div_lt_upper_bound; lia.
Qed.

Lemma read_dynamic_entries fuel dst o a c : 0 ≤ o → Z.of_nat (length dst) - o < Z.of_nat fuel → (1 ≤ fuel)%nat →
  read_dynamic fuel dst o a c =
  match list_find (λ e, e.1 = 0) (dynamic_entries dst o) with
  | Some (n, _) =>
      Ok (from_option snd a (last_entry DE_TAG_RELA (take n (dynamic_entries dst o))),
          from_option (λ e, e.2 / 24) c (last_entry DE_TAG_RELASZ (take n (dynamic_entries dst o))))
  | None => Err UB
  end.
Proof.
  revert o a c. induction fuel as [|fuel IH]; intros o a c H0 Hf H1; [lia|]. cbn [read_dynamic].
  destruct (Z.le_gt_cases (o + 16) (Z.of_nat (length dst))) as [Hin|Hout].
  - destruct (dynamic_entries_cons dst o H0 Hin) as (t & v & Ht & Hv & Hes).
    rewrite Ht. simpl_res. rewrite Hv. simpl_res. rewrite Hes. cbn [list_find].
    destruct (Z.eqb_spec t 0) as [->|Hne]; [done|]. rewrite decide_False by done.
    assert (∀ a c, read_dynamic fuel dst (o + 16) a c = _) as IH' by (intros a' c'; apply IH; lia). clear IH.
    destruct (list_find (λ e, e.1 = 0) (dynamic_entries dst (o + 16))) as [[n e]|]; cbn.
    + rewrite !last_entry_cons. cbn [fst].
      destruct (Z.eqb_spec t DE_TAG_RELA) as [->|Hn1]; [|destruct (Z.eqb_spec t DE_TAG_RELASZ) as [->|Hn2]];
        rewrite IH'; rewrite ?(decide_True _ _ eq_refl), ?decide_False by done;
        by repeat destruct (last_entry _ _).
    + destruct (t =? DE_TAG_RELA); [|destruct (t =? DE_TAG_RELASZ)]; by rewrite IH'.
  - rewrite dynamic_entries_nil by lia. cbn [list_find]. unfold read_le.
    destruct (Z.leb_spec 0 o), (Z.leb_spec (o + Z.of_nat 8) (Z.of_nat (length dst))); try done. cbn [andb]. simpl_res.
    destruct (Z.leb_spec (o + 8 + Z.of_nat 8) (Z.of_nat (length dst))); [lia|].
    by rewrite andb_false_r.
Qed.

(** C27: wherever the dynamic section starts in the buffer, the search for the
    relocation table is the one the ELF format describes: it ends at the first
    entry with tag 0, when there is one before the end of the buffer, within
    the rounds the buffer's length allows, with the value of the last
    [DT_RELA] entry before it and the last [DT_RELASZ] divided by 24 (or 0);
    without such an entry it leaves the buffer, which is undefined. *)
Theorem read_dynamic_reference dst o :
  0 ≤ o →
  read_dynamic (S (length dst)) dst o 0 0 =
  match list_find (λ e, e.1 = 0) (dynamic_entries dst o) with
  | Some (n, _) =>
      Ok (from_option snd 0 (last_entry DE_TAG_RELA (take n (dynamic_entries dst o))),
          from_option (λ e, e.2 / 24) 0 (last_entry DE_TAG_RELASZ (take n (dynamic_entries dst o))))
  | None => Err UB
  end.
Proof. intros H0. apply read_dynamic_entries; lia. Qed.

(** ** Witnesses: a 96-byte program with one relocation *)

Definition demo_header : list Z :=
  [127; 69; 76; 70; 2; 1; 1; 0] ++ replicate 8 0 ++ le_bytes 2 3 ++ le_bytes 2 62 ++ le_bytes 4 1 ++
  le_bytes 8 16 ++ le_bytes 8 64 ++ le_bytes 8 0 ++ le_bytes 4 0 ++ le_bytes 2 64 ++ le_bytes 2 56 ++
  le_bytes 2 2 ++ le_bytes 2 64 ++ le_bytes 2 0 ++ le_bytes 2 0.

Definition demo_segment (t off va ds vs : Z) : list Z :=
  le_bytes 4 t ++ le_bytes 4 0 ++ le_bytes 8 off ++ le_bytes 8 va ++ le_bytes 8 va ++
  le_bytes 8 ds ++ le_bytes 8 vs ++ le_bytes 8 16.

(** A dynamic section, a relocation table with one entry, and its target. *)
Definition demo_data : list Z :=
  le_bytes 8 7 ++ le_bytes 8 48 ++ le_bytes 8 8 ++ le_bytes 8 24 ++ le_bytes 8 0 ++ le_bytes 8 0 ++
  le_bytes 8 72 ++ le_bytes 8 8 ++ le_bytes 8 5 ++ le_bytes 8 0.

Definition demo_static : list Z :=
  demo_header ++ demo_segment 1 176 0 80 96 ++ demo_segment 6 64 64 112 112 ++ demo_data.
Definition demo_dynamic : list Z :=
  demo_header ++ demo_segment 1 176 0 80 96 ++ demo_segment 2 176 0 48 48 ++ demo_data.

Definition demo_load : SegmentHeader := mkSegmentHeader 1 0 176 0 0 80 96 16.
Definition demo_elf_header : Header :=
  mkHeader 1179403647 2 1 1 0 3 62 1 16 64 0 0 64 56 2 64 0 0.

Lemma prepare_loads_witness :
  ∃ dst', prepare demo_static 0x100000 (replicate 100 9) = Ok (dst', 0x100010) ∧
    dst' !! Z.to_nat 0 = Some 7 ∧ dst' !! Z.to_nat 90 = Some 0 ∧ dst' !! Z.to_nat 97 = Some 9.
Proof.
  destruct (prepare_loads demo_static 0x100000 (replicate 100 9) demo_elf_header
    [demo_load; mkSegmentHeader 6 0 64 64 64 112 112 16] 96) as (dst' & Hp & _ & Hin & Hout).
  - vm_compute. reflexivity.
  - vm_compute. reflexivity.
  - vm_compute. reflexivity.
  - vm_compute. discriminate.
  - constructor; [|constructor; [|constructor]]; intros H; [|discriminate].
    repeat split; vm_compute; discriminate.
  - intros s [->|[->|[]%elem_of_nil]%elem_of_cons]%elem_of_cons; discriminate.
  - split; [vm_compute; discriminate|reflexivity].
  - exists dst'. split; [exact Hp|].
    assert (∀ s j, s ∈ [demo_load; mkSegmentHeader 6 0 64 64 64 112 112 16] → covers s j → s = demo_load)
      as Honly by (intros s j [->|[->|[]%elem_of_nil]%elem_of_cons]%elem_of_cons [H _]; [done|discriminate]).
    split; [|split].
    + rewrite (Hin demo_load 0); [reflexivity|left|by repeat split|lia|eauto].
    + rewrite (Hin demo_load 90); [reflexivity|left|by repeat split|lia|eauto].
    + rewrite Hout; [reflexivity|lia|]. intros s Hs Hc. rewrite (Honly s 97 Hs Hc) in Hc.
      destruct Hc as [_ Hc]. vm_compute in Hc. intuition discriminate.
Defined.

Lemma prepare_relocates_witness :
  ∃ dst', prepare demo_dynamic 0x100000 (replicate 100 9) = Ok (dst', 0x100010) ∧
    read_le dst' 72 8 = Ok 0x100005.
Proof.
  destruct (prepare_relocates demo_dynamic 0x100000 (replicate 100 9)
    (demo_data ++ replicate 16 0 ++ replicate 4 9) demo_elf_header
    [demo_load] (mkSegmentHeader 2 0 176 0 0 48 48 16) [] 48 1 (λ _, mkRelA 72 8 5))
    as (dst' & Hp & _ & Hrel & _).
  - vm_compute. reflexivity.
  - vm_compute. reflexivity.
  - vm_compute. reflexivity.
  - reflexivity.
  - intros s Hs. by apply elem_of_nil in Hs.
  - vm_compute. reflexivity.
  - lia.
  - lia.
  - split; [vm_compute; discriminate|reflexivity].
  - intros i Hi. assert (i = 0) as -> by lia. split; [vm_compute; reflexivity|].
    split; [reflexivity|]. cbn. lia.
  - lia.
  - exists dst'. split; [exact Hp|]. apply (Hrel 0). lia.
Defined.

(** A section with two tables announced, of which the later one counts, and an
    unknown tag. *)
Definition two_tables : list Z :=
  [9; 9; 9; 9; 9; 9; 9; 9] ++ le_bytes 8 7 ++ le_bytes 8 100 ++ le_bytes 8 5 ++ le_bytes 8 1 ++
  le_bytes 8 8 ++ le_bytes 8 72 ++ le_bytes 8 7 ++ le_bytes 8 200 ++ le_bytes 8 0 ++ le_bytes 8 0.

Lemma read_dynamic_reference_witness :
  read_dynamic (S (length two_tables)) two_tables 8 0 0 = Ok (200, 3).
Proof. rewrite (read_dynamic_reference two_tables 8); [vm_compute; reflexivity|lia]. Defined.
