(* ===== verification/ElfText.v ===== *)
(** * Finding the [.text] section ([strcmp] and [get_text_addr] of
      [bootloader/src/elf.rs]).

    [strcmp] walks two byte pointers and [get_text_addr] two tables of the
    image; the reference definitions below say what they compute in terms of
    strings: the C string that starts at a position, the name of a section,
    and the first section of a kind with a name. *)
From stdpp Require Import base gmap numbers strings list.
From S2P Require Import Prelude.
From S2P Require Import Bytes.
From S2P Require Import Elf.

#[local] Open Scope Z_scope.

(** The null-terminated string at the start of some bytes. *)
Fixpoint c_string (l : list Z) : option (list Z) :=
  match l with
  | [] => None
  | x :: l => if x =? 0 then Some [] else cons x <$> c_string l
  end.

(** The bytes of an image from an offset on. *)
Definition from_offset (image : list Z) (o : Z) : option (list Z) :=
  if (0 <=? o) && (o <=? Z.of_nat (length image)) then Some (drop (Z.to_nat o) image) else None.

(** The name of a section, whose string table starts at [name_table]. *)
Definition section_name (image : list Z) (name_table : Z) (s : SectionHeader) : option (list Z) :=
  from_offset image (name_table + name_offset s) ≫= c_string.

(** A program section with the given name. *)
Definition named (image : list Z) (name_table : Z) (name : list Z) (s : SectionHeader) : Prop :=
  sec_type s = SHT_PROGBITS ∧ section_name image name_table s = Some name.

#[global] Instance named_dec image name_table name s : Decision (named image name_table name s).
Proof. unfold named. apply _. Defined.

(** [.text] *)
Definition dot_text : list Z := [46; 116; 101; 120; 116].

(** ** [strcmp] *)

Lemma strcmp_c_string a b y : c_string b = Some y →
  match strcmp a b with
  | Ok r => r = bool_decide (c_string a = Some y)
  | Err e => e = UB ∧ c_string a = None
  end.
Proof.
  revert b y. induction a as [|x a IH]; intros [|z b] y Hb; cbn [strcmp c_string] in *; try done.
  destruct (Z.eqb_spec x z) as [->|Hne].
  - destruct (Z.eqb_spec z 0) as [->|Hz]; [injection Hb as <-; by rewrite bool_decide_true|].
    destruct (c_string b) as [y'|] eqn:Eb; [|done]. injection Hb as <-. specialize (IH b y' Eb).
    destruct (strcmp a b) as [r|e]; [|by destruct IH as [-> ->]]. subst r. apply bool_decide_ext.
    destruct (c_string a); cbn; naive_solver.
  - symmetry. apply bool_decide_false. intros Ha.
    destruct (Z.eqb_spec x 0) as [->|Hx], (Z.eqb_spec z 0) as [->|Hz]; try done.
    + injection Ha as <-. by destruct (c_string b).
    + injection Hb as <-. by destruct (c_string a).
    + destruct (c_string a), (c_string b); try done. cbn in *. congruence.
Qed.

(** On two terminated strings [strcmp] is equality. *)
Lemma strcmp_eq a b x y : c_string a = Some x → c_string b = Some y →
  strcmp a b = Ok (bool_decide (x = y)).
Proof.
  intros Ha Hb. pose proof (strcmp_c_string a b y Hb) as Hs. rewrite Ha in Hs.
  destruct (strcmp a b) as [r|e]; [|by destruct Hs]. subst r. f_equal. apply bool_decide_ext. naive_solver.
Qed.

(** ** [get_text_addr] *)

Lemma find_text_first image process table l :
  (∀ s, s ∈ l → sec_type s = SHT_PROGBITS → is_Some (section_name image table s)) →
  find_text image process table l =
    match list_find (named image table dot_text) l with
    | Some (_, s) => add_w 64 process (sec_virt_addr s)
    | None => Ok 0
    end.
Proof.
  induction l as [|s l IH]; intros Hn; [done|]. cbn [find_text list_find].
  assert (find_text image process table l =
    match prod_map S id <$> list_find (named image table dot_text) l with
    | Some (_, s) => add_w 64 process (sec_virt_addr s)
    | None => Ok 0
    end) as Hrest.
  { rewrite IH; [|intros s' ?; apply Hn; by right].
    by destruct (list_find (named image table dot_text) l) as [[]|]. }
  destruct (Z.eqb_spec (sec_type s) SHT_PROGBITS) as [Hp|Hp].
  2:{ rewrite decide_False; [done|]. by intros [? _]. }
  destruct (Hn s) as [x Hx]; [left|done|]. pose proof Hx as Hd.
  unfold section_name, from_offset in Hd. destruct (_ && _); [|done]. cbn in Hd.
  rewrite (strcmp_eq _ text_name x dot_text Hd eq_refl). rewrite bind_Ok.
  destruct (decide (x = dot_text)) as [->|Hne].
  - rewrite bool_decide_true by done. by rewrite decide_True.
  - rewrite bool_decide_false by done. rewrite decide_False; [done|]. intros [_ E]. congruence.
Qed.

(** C28: [get_text_addr], which compares bytes through raw pointers, is the
    reference search: for an image whose section headers can be read and
    whose program sections have terminated names, it returns the address, in
    the prepared process, of the first program section named [.text], and 0
    when there is none; [strcmp] is equality of the two strings. *)
Theorem get_text_addr_reference image process header secs names :
  read_header image = Ok header →
  read_list read_section 64 image (sh_offset header) (sh_entry_count header) = Ok secs →
  secs !! Z.to_nat (name_string_table_index header) = Some names → 0 ≤ name_string_table_index header →
  (∀ s, s ∈ secs → sec_type s = SHT_PROGBITS → is_Some (section_name image (file_offset names) s)) →
  get_text_addr image process =
    match list_find (named image (file_offset names) dot_text) secs with
    | Some (_, s) => add_w 64 process (sec_virt_addr s)
    | None => Ok 0
    end ∧
  ∀ a b x y, c_string a = Some x → c_string b = Some y → strcmp a b = Ok (bool_decide (x = y)).
Proof.
  intros Hh Hs Hn H0 Hterm. split; [|exact strcmp_eq]. unfold get_text_addr. rewrite Hh. simpl_res.
  rewrite Hs. simpl_res. rewrite (index_Some _ _ names) by done. simpl_res. by apply find_text_first.
Qed.

(** ** Witness: an image with three sections *)

Definition text_section (name type addr offset : Z) : list Z :=
  le_bytes 4 name ++ le_bytes 4 type ++ le_bytes 8 0 ++ le_bytes 8 addr ++ le_bytes 8 offset ++
  le_bytes 8 0 ++ le_bytes 4 0 ++ le_bytes 4 0 ++ le_bytes 8 0 ++ le_bytes 8 0.

(** Sections [.te], [.text] and the string table, whose strings are
    [\0.te\0.text\0]. *)
Definition text_image : list Z :=
  [127; 69; 76; 70; 2; 1; 1; 0] ++ replicate 8 0 ++ le_bytes 2 3 ++ le_bytes 2 62 ++ le_bytes 4 1 ++
  le_bytes 8 16 ++ le_bytes 8 64 ++ le_bytes 8 64 ++ le_bytes 4 0 ++ le_bytes 2 64 ++ le_bytes 2 56 ++
  le_bytes 2 0 ++ le_bytes 2 64 ++ le_bytes 2 3 ++ le_bytes 2 2 ++
  text_section 1 1 0x10 0 ++ text_section 5 1 0x2000 0 ++ text_section 0 3 0 256 ++
  [0; 46; 116; 101; 0; 46; 116; 101; 120; 116; 0].

Definition text_sections : list SectionHeader :=
  [mkSectionHeader 1 1 0 0x10 0 0 0 0 0 0; mkSectionHeader 5 1 0 0x2000 0 0 0 0 0 0;
   mkSectionHeader 0 3 0 0 256 0 0 0 0 0].

Lemma get_text_addr_reference_witness :
  get_text_addr text_image 0x100000 = Ok 0x102000.
Proof.
  destruct (get_text_addr_reference text_image 0x100000
    (mkHeader 1179403647 2 1 1 0 3 62 1 16 64 64 0 64 56 0 64 3 2) text_sections
    (mkSectionHeader 0 3 0 0 256 0 0 0 0 0)) as [-> _].
  - vm_compute. reflexivity.
  - vm_compute. reflexivity.
  - reflexivity.
  - vm_compute. discriminate.
  - intros s [->|[->|[->|[]%elem_of_nil]%elem_of_cons]%elem_of_cons]%elem_of_cons Hs; [| |discriminate Hs];
      vm_compute; by eexists.
  - vm_compute. reflexivity.
Defined.
