(* ===== verification/Bootloader.v ===== *)
(** * The bootloader ([bootloader/src/main.rs], [allocator.rs], [io.rs],
      [platform.rs]).

    The firmware is a parameter: [uefi] lists what it answers to the calls
    [efi_main] makes, in order; the answers to page allocations are consumed
    one by one.  Console output is in [BootConsole].  Memory the bootloader fills is
    the value it is filled with. *)
From stdpp Require Import base gmap numbers strings list.
From S2P Require Import Prelude.
From S2P Require Import KernelHeader.
From S2P Require Import Paging.
From S2P Require Import Elf.

#[local] Open Scope Z_scope.

(** ** Page allocations ([allocator.rs]) *)

(** [(size + 4095) / 4096] *)
Definition size_pages (size : Z) : res Z := s ← add_w 64 size 4095; mret (s / 4096).

(** The next answer of [allocate_pages]: an address, or a failure. *)
Definition alloc_state : Type := list (option Z).

Definition next_pages (msg : string) (st : alloc_state) : res (Z * alloc_state) :=
  match st with
  | Some a :: st => mret (a, st)
  | _ => Err (PanicMsg msg)
  end.

(** [pub fn allocate], also [allocate_object] with the size of its type *)
Definition allocate (st : alloc_state) (size : Z) : res (Z * alloc_state) :=
  _ ← size_pages size; next_pages "Failed to allocate pages" st.

(** [pub fn free]; [ok] is the firmware's answer. *)
Definition free (ok : bool) (block size : Z) : res unit :=
  _ ← size_pages size; if ok then mret () else Err (PanicMsg "Failed to free pages").

(** [pub fn allocate_below]; [answer] is what the firmware gives for pages below
    an address, and a refusal is passed on. *)
Definition allocate_below (answer : Z → Z → option Z) (max_address num_pages : Z) : option Z :=
  answer max_address num_pages.

(** ** Files ([io.rs]) *)

(** What the file system answers for one path. *)
Record file_answers := mkFileAnswers {
  fa_volume : bool;
  fa_open : bool;
  fa_size : option Z;
  fa_regular : option bool;
  fa_data : option (list Z);
}.

(** [struct FileData], with the bytes behind [data] *)
Record FileData := mkFileData { file_size : Z; file_addr : Z; file_bytes : list Z }.

(** [pub fn read_file] *)
Definition read_file (st : alloc_state) (f : file_answers) : res (FileData * alloc_state) :=
  if negb (fa_volume f) then Err (PanicMsg "Failed to open FileSystem root")
  else if negb (fa_open f) then Err (PanicMsg "Failed to open file")
  else
    size ← of_option (PanicMsg "Failed to get file info") (fa_size f);
    '(buffer, st) ← allocate st size;
    regular ← of_option (PanicMsg "Not a file") (fa_regular f);
    if (regular : bool) then
      data ← of_option (PanicMsg "Failed to read file") (fa_data f);
      mret (mkFileData size buffer data, st)
    else Err (PanicMsg "Not a file").

(** ** Video modes *)

(** [PixelFormat] *)
Inductive PixelFormat := Rgb | Bgr | Bitmask | BltOnly.

#[global] Instance PixelFormat_eq_dec : EqDecision PixelFormat.
Proof. solve_decision. Defined.

Record video_mode := mkVideoMode {
  vm_width : Z;
  vm_height : Z;
  vm_stride : Z;
  vm_format : PixelFormat;
}.

(** The condition on a mode's width and format. *)
Definition better_mode (best_x : Z) (m : video_mode) : bool :=
  (vm_width m <=? 1920) && (best_x <? vm_width m) &&
  (bool_decide (vm_format m = Bgr) || bool_decide (vm_format m = Rgb)).

(** The loop over [gfx.modes()]. *)
Definition select_mode (modes : list video_mode) : res video_mode :=
  of_option (PanicMsg "No suitable video mode found")
    (fold_left (λ '(x, b) m, if better_mode x m then (vm_width m, Some m) else (x, b))
       modes (0, None)).2.

Definition screen_format_of (f : PixelFormat) : Format :=
  match f with Rgb => RGB | Bgr => BGR | _ => RGB end.

(** ** The memory map *)

(** A descriptor of the firmware's map; memory types by their UEFI number. *)
Record uefi_segment := mkUefiSegment { us_ty : Z; us_start : Z; us_pages : Z }.

Definition LOADER_CODE : Z := 1.
Definition LOADER_DATA : Z := 2.
Definition BOOT_SERVICES_CODE : Z := 3.
Definition BOOT_SERVICES_DATA : Z := 4.
Definition CONVENTIONAL : Z := 7.

Definition convert_segment (e : uefi_segment) : MemorySegment :=
  mkMemorySegment (us_start e) (us_pages e)
    (if bool_decide (us_ty e ∈ [BOOT_SERVICES_CODE; BOOT_SERVICES_DATA; CONVENTIONAL; LOADER_CODE])
     then Free else Occupied).

(** [for (i, entry) in uefi_memory_map.enumerate() { memory_map[i] = ... }] on
    the slice of [memory_map_entries] elements. *)
Definition convert_map (memory_map : list MemorySegment) (mmap : list uefi_segment)
    : res (list MemorySegment) :=
  foldM (λ l '(i, e), store l i (convert_segment e)) memory_map
    (zip (seqZ 0 (Z.of_nat (length mmap))) mmap).

(** [mmap_pages] *)
Definition map_pages (size : Z) : res Z :=
  a ← add_w 64 size 4095;
  add_w 64 (a / 4096) 1.

(** The check that the map still fits *)
Definition check_map (mmap_pages size : Z) : res unit :=
  b ← add_w 64 size 4095;
  if mmap_pages <? b / 4096 then Err (PanicMsg "Memory Map unexpectedly grew too much")
  else mret ().

(** [mmap_pages as isize * 4096], for a count whose byte size fits a [usize] *)
Definition map_offset (mmap_pages : Z) : res Z :=
  if mmap_pages * 4096 <? 2 ^ 63 then mret (mmap_pages * 4096) else Err PanicOverflow.

(** ** The jump to the kernel ([platform.rs]) *)

Record cpu_entry := mkCpuEntry { e_rbp : Z; e_rsp : Z; e_rdi : Z; e_rip : Z }.

Definition goto_entrypoint (kernel_header entry_point kernel_stack : Z) : cpu_entry :=
  let sp := wrap 64 (kernel_stack + KERNEL_STACK_SIZE) in
  mkCpuEntry sp sp kernel_header entry_point.

(** ** [efi_main] *)

Record uefi := mkUefi {
  u_loaded_image : bool;
  u_file_system : bool;
  u_graphics : bool;
  u_modes : list video_mode;
  u_set_mode : bool;
  u_frame_buffer : Z;
  u_paging : firmware;
  u_kernel : file_answers;
  u_allocs : alloc_state;
  u_debug_page : bool;
  u_free_image : bool;
  u_map_size1 : Z;
  u_map_size2 : Z;
  u_exit : option (list uefi_segment);
}.

Definition size_of_KernelHeader : Z := 8 + 4 * 4 + 4 * 8 + 3 * 8.

(** What the kernel finds: the header at its kernel-space address, the memory
    map behind the header's pointer, its own image, the word at 0x1000 for the
    debugger, and the processor. *)
Record handoff := mkHandoff {
  ho_header : KernelHeader;
  ho_map : list MemorySegment;
  ho_image : list Z;
  ho_image_addr : Z;
  ho_debug : Z;
  ho_cpu : cpu_entry;
  ho_paging : paging;
}.

(** [extern "efiapi" fn efi_main], in the debug profile; [dst] and [old_map]
    are what the buffers for the kernel and for the converted map hold. *)
Definition efi_main `{PageSource} (u : uefi) (dst : list Z) (old_map : list MemorySegment)
    : res handoff :=
  if negb (u_loaded_image u) then Err (PanicMsg "LoadedImageProtocol not found") else
  if negb (u_file_system u) then Err (PanicMsg "SimpleFileSystemProtocol not found") else
  if negb (u_graphics u) then Err (PanicMsg "GraphicsOutputProtocol not found") else
  '(header_ptr, st) ← allocate (u_allocs u) size_of_KernelHeader;
  m ← select_mode (u_modes u);
  if negb (u_set_mode u) then Err (PanicMsg "Failed to set video mode") else
  p ← Paging.init (u_paging u);
  let ks := ptr_to_kernelspace (pg_base p) in
  '(image, st) ← read_file st (u_kernel u);
  size ← get_size (file_bytes image);
  '(buffer, st) ← allocate st size;
  let process_buffer := ks buffer in
  '(prepared, entry) ← prepare (file_bytes image) process_buffer dst;
  if negb (u_debug_page u) then Err (PanicMsg "Failed to allocate debug buffer") else
  text ← get_text_addr (file_bytes image) process_buffer;
  _ ← free (u_free_image u) (file_addr image) (file_size image);
  '(stack, st) ← allocate st KERNEL_STACK_SIZE;
  mmap_pages ← map_pages (u_map_size1 u);
  _ ← mul_w 64 mmap_pages 2;
  '(mmap_buffer, st) ← next_pages "Failed to allocate mmap buffer" st;
  _ ← check_map mmap_pages (u_map_size2 u);
  _ ← mul_w 64 mmap_pages 4096;
  mmap ← of_option (PanicMsg "Failed to exit boot services") (u_exit u);
  offset ← map_offset mmap_pages;
  map ← (if decide (length mmap ≤ length old_map)%nat
         then convert_map (take (length mmap) old_map) mmap else Err UB);
  mret (mkHandoff
    (mkKernelHeader (ks (u_frame_buffer u)) (wrap 32 (vm_width m)) (wrap 32 (vm_height m))
       (wrap 32 (vm_stride m)) (screen_format_of (vm_format m)) (pg_info p)
       (ks (mmap_buffer + offset)) (Z.of_nat (length mmap)) (ks 0))
    map prepared process_buffer text
    (goto_entrypoint (ks header_ptr) entry (ks stack)) p).
