(* ===== verification/BootloaderTheorems.v ===== *)
(** * What the bootloader hands to the kernel. *)
From stdpp Require Import base gmap numbers strings list.
From S2P Require Import Prelude.
From S2P Require Import KernelHeader.
From S2P Require Import Bytes.
From S2P Require Import Paging.
From S2P Require Import PagingTheorems.
From S2P Require Import Elf.
From S2P Require Import ElfTheorems.
From S2P Require Import Bootloader.
From S2P Require Import PhysManager.
From S2P Require Import PhysStorage.
From S2P Require Import BuddySpec.
From S2P Require Import PhysSystem.
From S2P Require Import PhysInit.

#[local] Open Scope Z_scope.

(** ** Video mode *)

(** A mode the kernel's terminal can use. *)
Definition suitable (m : video_mode) : Prop :=
  0 < vm_width m ≤ 1920 ∧ (vm_format m = Bgr ∨ vm_format m = Rgb).

Lemma better_mode_true x m : 0 ≤ x →
  better_mode x m = true ↔ suitable m ∧ x < vm_width m.
Proof.
  intros Hx. unfold better_mode, suitable.
  rewrite !andb_true_iff, orb_true_iff, Z.leb_le, Z.ltb_lt, !bool_decide_eq_true. intuition lia.
Qed.

(** The state of the loop after [done]. *)
Definition best_of (done : list video_mode) (st : Z * option video_mode) : Prop :=
  match st with
  | (x, None) => x = 0 ∧ ∀ m, m ∈ done → ¬ suitable m
  | (x, Some b) => x = vm_width b ∧ suitable b ∧ (∀ m, m ∈ done → suitable m → vm_width m ≤ x) ∧
      ∃ pre post, done = pre ++ b :: post ∧ ∀ m, m ∈ pre → suitable m → vm_width m < x
  end.

Lemma best_of_step done st m : best_of done st →
  best_of (done ++ [m])
    (let '(x, b) := st in if better_mode x m then (vm_width m, Some m) else (x, b)).
Proof.
  destruct st as [x [b|]]; cbn [best_of].
  - intros (-> & Hb & Hle & pre & post & Hdone & Hpre). pose proof Hb as [Hbw _].
    destruct (better_mode (vm_width b) m) eqn:E.
    + apply better_mode_true in E as [Hm Hlt]; [|lia]. split_and!; [done|done| |].
      * intros m' [Hel| ->%list_elem_of_singleton]%elem_of_app Hs; [|lia].
        specialize (Hle m' Hel Hs). lia.
      * exists done, []. split; [done|]. intros m' Hel Hs. specialize (Hle m' Hel Hs). lia.
    + assert (¬ (suitable m ∧ vm_width b < vm_width m)) as Hn.
      { rewrite <- better_mode_true by lia. by rewrite E. }
      split_and!; [done|done| |].
      * intros m' [Hel| ->%list_elem_of_singleton]%elem_of_app Hs; [auto|].
        destruct (Z.le_gt_cases (vm_width m) (vm_width b)); [done|naive_solver lia].
      * exists pre, (post ++ [m]). split; [|done]. by rewrite Hdone, <- app_assoc.
  - intros [-> Hnone]. destruct (better_mode 0 m) eqn:E.
    + apply better_mode_true in E as [Hm Hlt]; [|lia]. split_and!; [done|done| |].
      * intros m' [Hel| ->%list_elem_of_singleton]%elem_of_app Hs; [by destruct (Hnone m')|lia].
      * exists done, []. split; [done|]. intros m' Hel Hs. by destruct (Hnone m').
    + split; [done|]. intros m' [Hel| ->%list_elem_of_singleton]%elem_of_app Hs; [by destruct (Hnone m')|].
      assert (better_mode 0 m = true); [|congruence]. apply better_mode_true; [lia|].
      split; [done|]. destruct Hs. lia.
Qed.

Lemma best_of_all modes : best_of modes
  (fold_left (λ '(x, b) m, if better_mode x m then (vm_width m, Some m) else (x, b)) modes (0, None)).
Proof.
  assert (∀ l done st, best_of done st → best_of (done ++ l)
    (fold_left (λ '(x, b) m, if better_mode x m then (vm_width m, Some m) else (x, b)) l st)) as H.
  { induction l as [|m l IH]; intros done st Hst; [by rewrite app_nil_r|]. cbn [fold_left].
    replace (done ++ m :: l) with ((done ++ [m]) ++ l) by by rewrite <- app_assoc.
    apply IH. pose proof (best_of_step done st m Hst) as Hs. destruct st as [x b]. exact Hs. }
  apply (H modes [] (0, None)). cbn. split; [done|]. intros m Hm. by apply elem_of_nil in Hm.
Qed.

(** C32: the video mode chosen is the widest one of at most 1920 pixels with a
    pixel format the kernel knows, and the first of that width; the bootloader
    gives up exactly when there is no such mode. *)
Theorem select_mode_widest modes :
  match select_mode modes with
  | Ok m => suitable m ∧ (∀ m', m' ∈ modes → suitable m' → vm_width m' ≤ vm_width m) ∧
      ∃ pre post, modes = pre ++ m :: post ∧
        ∀ m', m' ∈ pre → suitable m' → vm_width m' < vm_width m
  | Err e => e = PanicMsg "No suitable video mode found" ∧ ∀ m', m' ∈ modes → ¬ suitable m'
  end.
Proof.
  unfold select_mode. pose proof (best_of_all modes) as H.
  destruct (fold_left _ _ _) as [x [b|]]; cbn in H |- *; [|naive_solver].
  destruct H as (-> & ? & ? & ?). done.
Qed.

(** ** The memory map *)

Lemma convert_map_ok mmap old : length old = length mmap →
  convert_map old mmap = Ok (convert_segment <$> mmap).
Proof.
  assert (∀ mmap done rest, length rest = length mmap →
    foldM (λ l '(i, e), store l i (convert_segment e)) (done ++ rest)
      (zip (seqZ (Z.of_nat (length done)) (Z.of_nat (length mmap))) mmap) =
    Ok (done ++ (convert_segment <$> mmap))) as H.
  { clear. induction mmap as [|e mmap IH]; intros done rest Hl.
    - destruct rest; [|done]. reflexivity.
    - destruct rest as [|r rest]; [done|]. cbn [length]. rewrite seqZ_cons by lia. cbn [zip zip_with foldM].
      rewrite store_ok by (rewrite length_app; cbn [length]; lia). simpl_res.
      rewrite Nat2Z.id, insert_app_r_alt, Nat.sub_diag by done. cbn [insert list_insert]. rewrite <- Nat2Z.inj_succ.
      specialize (IH (done ++ [convert_segment e]) rest ltac:(cbn in Hl; lia)).
      rewrite length_app, <- !app_assoc in IH. cbn [length app] in IH. rewrite Nat.add_1_r in IH.
      rewrite !Nat2Z.inj_succ in IH. rewrite !Nat2Z.inj_succ, Z.pred_succ. exact IH. }
  intros Hl. exact (H mmap [] old Hl).
Qed.

(** The firmware's descriptors describe different pages. *)
Definition descriptors_disjoint (mmap : list uefi_segment) : Prop :=
  ∀ i j e e', mmap !! i = Some e → mmap !! j = Some e' → i ≠ j →
    ∀ p, seg_page (convert_segment e) p → ¬ seg_page (convert_segment e') p.

(** Which memory types the kernel may use. *)
Lemma convert_segment_free e : seg_free (convert_segment e) = true ↔
  us_ty e = BOOT_SERVICES_CODE ∨ us_ty e = BOOT_SERVICES_DATA ∨ us_ty e = CONVENTIONAL ∨
  us_ty e = LOADER_CODE.
Proof.
  unfold convert_segment, seg_free. cbn [state].
  destruct (bool_decide_reflect (us_ty e ∈ [BOOT_SERVICES_CODE; BOOT_SERVICES_DATA; CONVENTIONAL;
    LOADER_CODE])) as [H|H]; rewrite !elem_of_cons, elem_of_nil in H; [|naive_solver].
  split; [tauto|done].
Qed.

Lemma in_free_segs mmap p : in_segs (free_segs (convert_segment <$> mmap)) p ↔
  ∃ i e, mmap !! i = Some e ∧ seg_free (convert_segment e) = true ∧ seg_page (convert_segment e) p.
Proof.
  unfold in_segs, free_segs. split.
  - intros (s & [Hf Hs]%list_elem_of_filter & Hp).
    apply list_elem_of_fmap in Hs as (e & -> & [i Hi]%list_elem_of_lookup). eauto.
  - intros (i & e & Hi & Hf & Hp). exists (convert_segment e). split; [|done].
    apply list_elem_of_filter. split; [done|]. apply list_elem_of_fmap. exists e. split; [done|].
    apply list_elem_of_lookup. eauto.
Qed.

(** A page the map calls free is in one of the released descriptors, and in no
    descriptor of loader data. *)
Lemma free_page_released mmap p : descriptors_disjoint mmap →
  in_segs (free_segs (convert_segment <$> mmap)) p →
  (∃ i e, mmap !! i = Some e ∧ seg_page (convert_segment e) p ∧
     (us_ty e = BOOT_SERVICES_CODE ∨ us_ty e = BOOT_SERVICES_DATA ∨ us_ty e = CONVENTIONAL ∨
      us_ty e = LOADER_CODE)) ∧
  ∀ j e, mmap !! j = Some e → us_ty e = LOADER_DATA → ¬ seg_page (convert_segment e) p.
Proof.
  intros Hd (i & e & Hie & Hf & Hpe)%in_free_segs.
  pose proof (proj1 (convert_segment_free e) Hf) as Hty. split; [by exists i, e|].
  intros j e' Hj Hty' Hpe'. assert (i = j) as ->.
  { destruct (decide (i = j)) as [|Hne]; [done|]. by destruct (Hd i j e e' Hie Hj Hne p Hpe). }
  assert (e' = e) as -> by congruence.
  rewrite Hty' in Hty. unfold LOADER_DATA, LOADER_CODE, BOOT_SERVICES_CODE, BOOT_SERVICES_DATA, CONVENTIONAL in Hty.
  lia.
Qed.

(** C29: the kernel's memory manager, started on the map the bootloader
    converts, never has a page of a loader-data descriptor among its free
    pages: the kernel image, its stack, the page tables, the kernel header and
    the map itself stay out of reach of the allocator.  The free pages all lie
    in descriptors of the four types the bootloader releases. *)
Theorem kernel_memory_protected base top h mmap old :
  length old = length mmap → descriptors_disjoint mmap →
  boot_ok base top (convert_segment <$> mmap) →
  ∃ map (m : PhysMemoryManager InlineStorage) F mm',
    convert_map old mmap = Ok map ∧
    new (H := boot_storage base) h map = Ok (m, mm') ∧
    pm_inv (H := boot_storage base) (H0 := boot_laws base) m F ∧
    ∀ p, page_free F p →
      (∃ i e, mmap !! i = Some e ∧ seg_page (convert_segment e) p ∧
         (us_ty e = BOOT_SERVICES_CODE ∨ us_ty e = BOOT_SERVICES_DATA ∨ us_ty e = CONVENTIONAL ∨
          us_ty e = LOADER_CODE)) ∧
      ∀ j e, mmap !! j = Some e → us_ty e = LOADER_DATA → ¬ seg_page (convert_segment e) p.
Proof.
  intros Hl Hd Hb. destruct (inline_new_pages base h top _ Hb) as (m & F & a & mm' & Hn & Hi & _ & _ & _ & _ & Hp).
  exists (convert_segment <$> mmap), m, F, mm'. split_and!; [by apply convert_map_ok|done|done|].
  intros p [Hin _]%Hp. by apply free_page_released.
Qed.

(** ** The hand-over *)

Section handoff.
Context `{PageSourceLaws}.
Context (u : uefi) (dst : list Z) (old_map : list MemorySegment).
Context (mode : video_mode) (p : paging) (image prepared : list Z) (size entry text : Z).
Context (hdr img buf stk map : Z) (rest : alloc_state) (mmap : list uefi_segment) (mmap_pages : Z).

(** A firmware that serves every request, and a kernel file that loads. *)
Record boot_succeeds : Prop := {
  bs_protocols : u_loaded_image u = true ∧ u_file_system u = true ∧ u_graphics u = true;
  bs_mode : select_mode (u_modes u) = Ok mode;
  bs_set_mode : u_set_mode u = true;
  bs_paging : Paging.init (u_paging u) = Ok p;
  bs_allocs : u_allocs u = Some hdr :: Some img :: Some buf :: Some stk :: Some map :: rest;
  bs_file : u_kernel u = mkFileAnswers true true (Some (Z.of_nat (length image))) (Some true) (Some image);
  bs_file_size : Z.of_nat (length image) < 2 ^ 63;
  bs_size : get_size image = Ok size ∧ size < 2 ^ 63;
  bs_prepare : prepare image (ptr_to_kernelspace (pg_base p) buf) dst = Ok (prepared, entry);
  bs_text : get_text_addr image (ptr_to_kernelspace (pg_base p) buf) = Ok text;
  bs_debug : u_debug_page u = true ∧ u_free_image u = true;
  bs_map_pages : map_pages (u_map_size1 u) = Ok mmap_pages ∧ check_map mmap_pages (u_map_size2 u) = Ok () ∧
    0 ≤ mmap_pages < 2 ^ 51;
  bs_exit : u_exit u = Some mmap ∧ (length mmap ≤ length old_map)%nat;
}.

Lemma size_pages_ok n : 0 ≤ n < 2 ^ 63 → size_pages n = Ok ((n + 4095) / 4096).
Proof using. intros Hn. unfold size_pages. by checked_arith. Qed.

Lemma get_size_nonneg : get_size image = Ok size → 0 ≤ size.
Proof using.
  unfold get_size. intros E. inv_bind E as (h & _ & E). inv_bind E as (segs & _ & E).
  by apply size_fold in E as [? _].
Qed.

Lemma efi_main_ok : boot_succeeds →
  efi_main u dst old_map =
  Ok (mkHandoff
    (mkKernelHeader (ptr_to_kernelspace (pg_base p) (u_frame_buffer u)) (wrap 32 (vm_width mode))
       (wrap 32 (vm_height mode)) (wrap 32 (vm_stride mode)) (screen_format_of (vm_format mode))
       (pg_info p) (ptr_to_kernelspace (pg_base p) (map + mmap_pages * 4096))
       (Z.of_nat (length mmap)) (ptr_to_kernelspace (pg_base p) 0))
    (convert_segment <$> mmap) prepared (ptr_to_kernelspace (pg_base p) buf) text
    (goto_entrypoint (ptr_to_kernelspace (pg_base p) hdr) entry (ptr_to_kernelspace (pg_base p) stk)) p).
Proof using.
  intros [(Hli & Hfs & Hgr) Hm Hsm Hp Hal Hf Hfsz [Hgs Hgs'] Hpr Htx [Hdb Hfi] (Hmp & Hcm & Hmp') [Hex Hlen]].
  pose proof (get_size_nonneg Hgs).
  unfold efi_main. rewrite Hli, Hfs, Hgr, Hal. cbn [negb]. unfold allocate, next_pages.
  rewrite (size_pages_ok size_of_KernelHeader) by done. simpl_res. rewrite Hm. simpl_res.
  rewrite Hsm. cbn [negb]. rewrite Hp. simpl_res. unfold read_file. rewrite Hf.
  cbn [fa_volume fa_open fa_size fa_regular fa_data negb of_option]. simpl_res. unfold allocate, next_pages.
  rewrite (size_pages_ok (Z.of_nat (length image))) by lia. simpl_res.
  cbn [mret res_ret of_option]. simpl_res.
  cbn [file_bytes file_addr file_size]. rewrite Hgs. simpl_res.
  rewrite (size_pages_ok size) by lia. simpl_res.
  cbn [mret res_ret]. simpl_res. rewrite Hpr. simpl_res. rewrite Hdb. cbn [negb]. rewrite Htx. simpl_res.
  unfold free. rewrite ?(size_pages_ok (Z.of_nat (length image))) by lia. simpl_res. rewrite Hfi. cbn [mret res_ret]. simpl_res.
  rewrite (size_pages_ok KERNEL_STACK_SIZE) by done. simpl_res. rewrite Hmp. simpl_res.
  checked_arith. rewrite Hcm. simpl_res. checked_arith. rewrite Hex. cbn [of_option]. simpl_res.
  unfold map_offset. rewrite (proj2 (Z.ltb_lt _ _)) by lia. simpl_res. rewrite decide_True by done.
  rewrite convert_map_ok by (rewrite length_take; lia). done.
Qed.
End handoff.

(** C30: when the firmware serves every request and the number of PML4 entries
    is a power of two, everything the kernel is started with is reachable in
    the page table it is started on, whatever memory the firmware chose below
    the highest address of its map: the header in [rdi] and the memory map
    behind it are the buffers the bootloader filled, and every byte of the
    mebibyte below [rsp] is a byte of the stack buffer. *)
Theorem handoff_pointers_valid `{PageSourceLaws} u dst old_map mode p image prepared size entry text
    hdr img buf stk map rest mmap mmap_pages mmap0 s ptr ws k :
  boot_succeeds u dst old_map mode p image prepared size entry text hdr img buf stk map rest mmap
    mmap_pages →
  firmware_ok (u_paging u) mmap0 → physical_end mmap0 = Ok s → 0 ≤ s < 2 ^ 47 →
  allocate_pages (ts_alloc_pages (sizes s)) = Some (ptr, ws) →
  0 ≤ k → covered s / 2 ^ 39 + 1 = 2 ^ k →
  0 ≤ hdr ≤ s → 0 ≤ stk → stk + KERNEL_STACK_SIZE ≤ s →
  0 ≤ map → map + mmap_pages * 4096 + Z.of_nat (length mmap) * 24 ≤ s →
  ∃ ho, efi_main u dst old_map = Ok ho ∧
    let tr := walk (pg_cr3 (ho_paging ho)) (pg_words (ho_paging ho)) (pg_cr3 (ho_paging ho)) in
    tr (e_rdi (ho_cpu ho)) = Some hdr ∧ e_rip (ho_cpu ho) = entry ∧
    (∀ i, 0 ≤ i < KERNEL_STACK_SIZE → tr (e_rsp (ho_cpu ho) - KERNEL_STACK_SIZE + i) = Some (stk + i)) ∧
    (∀ i, 0 ≤ i < Z.of_nat (length mmap) * 24 →
       tr (memory_map (ho_header ho) + i) = Some (map + mmap_pages * 4096 + i)) ∧
    memory_map_entries (ho_header ho) = Z.of_nat (length (ho_map ho)) ∧
    ho_map ho = convert_segment <$> mmap ∧
    ∀ pa, 0 ≤ pa ≤ s → tr (high_memory_base (ho_header ho) + pa) = Some pa.
Proof.
  intros Hb Hfw Hpe Hs Ha Hk Hn4 Hhdr Hstk0 Hstk Hmap0 Hmap.
  pose proof (efi_main_ok _ _ _ _ _ _ _ _ _ _ _ _ _ _ _ _ _ _ Hb) as Hmain.
  destruct (platform_init_ok s ptr ws (proj1 Hs) Ha) as (p' & Hp' & _).
  pose proof (init_runs _ _ _ _ Hfw Hpe Hp') as Hinit.
  assert (p' = p) as -> by (destruct Hb; congruence).
  assert (∀ pa, 0 ≤ pa ≤ s → _) as Hks
    by (intros pa Hpa; exact (kernelspace_walk s ptr ws Hs Ha k Hk Hn4 p pa Hp' Hpa)).
  destruct Hb as [_ _ _ _ _ _ _ _ _ _ _ (_ & _ & Hmp) _].
  eexists. split; [exact Hmain|]. cbn zeta. cbn [ho_paging ho_cpu ho_header ho_map goto_entrypoint
    e_rdi e_rip e_rsp memory_map memory_map_entries high_memory_base]. unfold KERNEL_STACK_SIZE in *.
  destruct (Hks stk ltac:(lia)) as (_ & _ & Hst & _).
  destruct (Hks (stk + 1024 * 1024) ltac:(lia)) as (_ & Hbase & _ & Htop & _).
  destruct (Hks (map + mmap_pages * 4096) ltac:(lia)) as (_ & _ & Hmm & _).
  destruct (Hks 0 ltac:(lia)) as (_ & _ & Hz & _). rewrite Hst, Hmm, Hz.
  pose proof (covered_ranges s). unfold wrap. rewrite (Z.mod_small (pg_base p + stk + 1024 * 1024)) by lia.
  split_and!.
  - apply (Hks hdr). lia.
  - done.
  - intros i Hi. destruct (Hks (stk + i) ltac:(lia)) as (_ & _ & E & _ & Hw & _). rewrite E in Hw.
    rewrite <- Hw. f_equal. lia.
  - intros i Hi. destruct (Hks (map + mmap_pages * 4096 + i) ltac:(lia)) as (_ & _ & E & _ & Hw & _).
    rewrite E in Hw. rewrite <- Hw. f_equal. lia.
  - by rewrite length_fmap.
  - done.
  - intros pa Hpa. destruct (Hks pa Hpa) as (_ & _ & E & _ & Hw & _). rewrite E in Hw.
    rewrite <- Hw. f_equal. lia.
Qed.

(** ** Witnesses *)

Definition demo_uefi_map : list uefi_segment :=
  [mkUefiSegment CONVENTIONAL 0 256; mkUefiSegment LOADER_DATA 0x100000 256].

Lemma demo_map_disjoint : descriptors_disjoint demo_uefi_map.
Proof.
  assert (∀ i e, demo_uefi_map !! i = Some e → (i = 0%nat ∧ e = mkUefiSegment CONVENTIONAL 0 256) ∨
    (i = 1%nat ∧ e = mkUefiSegment LOADER_DATA 0x100000 256)) as H.
  { intros [|[|i]] e; cbn; intros E; simplify_eq; auto. }
  intros i j e e' [[-> ->]|[-> ->]]%H [[-> ->]|[-> ->]]%H Hne p; try done;
    unfold seg_page, seg_first; cbn [start page_count convert_segment us_start us_pages];
    change (Z.shiftr 0x100000 12) with 256; change (Z.shiftr 0 12) with 0; lia.
Qed.

Lemma demo_map_boot_ok : boot_ok demo_base 0x200000 (convert_segment <$> demo_uefi_map).
Proof.
  split.
  - constructor; [|constructor; [|constructor]]; (split_and!; cbn; [|lia..]); [by exists 0|by exists 256].
  - cbn. split; [|done]. by intros p _ (s & ?%not_elem_of_nil & _).
  - reflexivity.
  - done.
  - intros i Hi. change (64 * inline_words 0x200000) with 512 in Hi.
    apply (VirtManager.representable_low _ _ 39); [lia|by exists 33554431|done|lia].
  - exists (mkMemorySegment 0 256 Free). split_and!; [by left|done|done].
  - by exists 2.
Qed.

Lemma kernel_memory_protected_witness :
  ∃ map (m : PhysMemoryManager InlineStorage) F mm',
    convert_map (convert_segment <$> demo_uefi_map) demo_uefi_map = Ok map ∧
    new (H := boot_storage demo_base) ∅ map = Ok (m, mm') ∧
    pm_inv (H := boot_storage demo_base) (H0 := boot_laws demo_base) m F ∧
    ¬ page_free F 300.
Proof.
  destruct (kernel_memory_protected demo_base 0x200000 ∅ demo_uefi_map (convert_segment <$> demo_uefi_map))
    as (map & m & F & mm' & H1 & H2 & H3 & H4).
  - reflexivity.
  - exact demo_map_disjoint.
  - exact demo_map_boot_ok.
  - exists map, m, F, mm'. split; [exact H1|]. split; [exact H2|]. split; [exact H3|].
    intros Hp. destruct (H4 300 Hp) as [_ Hn].
    apply (Hn 1%nat (mkUefiSegment LOADER_DATA 0x100000 256)); [reflexivity|reflexivity|].
    unfold seg_page, seg_first. cbn [start page_count convert_segment us_start us_pages].
    change (Z.shiftr 0x100000 12) with 256. lia.
Defined.

#[local] Existing Instance demo_source.
#[local] Existing Instance demo_source_laws.

(** A kernel file with one load segment and one string section. *)
Definition demo_kernel : list Z :=
  [127; 69; 76; 70; 2; 1; 1; 0] ++ replicate 8 0 ++ le_bytes 2 3 ++ le_bytes 2 62 ++ le_bytes 4 1 ++
  le_bytes 8 4 ++ le_bytes 8 64 ++ le_bytes 8 120 ++ le_bytes 4 0 ++ le_bytes 2 64 ++ le_bytes 2 56 ++
  le_bytes 2 1 ++ le_bytes 2 64 ++ le_bytes 2 1 ++ le_bytes 2 0 ++
  demo_segment 1 184 0 8 16 ++
  (le_bytes 4 0 ++ le_bytes 4 3 ++ replicate 56 0) ++
  [1; 2; 3; 4; 5; 6; 7; 8].

Definition demo_modes : list video_mode :=
  [mkVideoMode 640 480 640 Bgr; mkVideoMode 1920 1080 1920 Rgb; mkVideoMode 2560 1440 2560 Rgb].

Definition demo_uefi : uefi :=
  mkUefi true true true demo_modes true 0x80000000 demo_firmware
    (mkFileAnswers true true (Some (Z.of_nat (length demo_kernel))) (Some true) (Some demo_kernel))
    [Some 0x3000; Some 0x4000; Some 0x400000; Some 0x500000; Some 0x600000] true true 480 528
    (Some demo_uefi_map).

Definition demo_paging : paging :=
  match Paging.init demo_firmware with Ok p => p | Err _ => mkPaging 0 (mkPagingInfo 0 0 0 0) [] 0 end.

Lemma demo_boot_succeeds :
  boot_succeeds demo_uefi (replicate 16 9) (convert_segment <$> demo_uefi_map)
    (mkVideoMode 1920 1080 1920 Rgb) demo_paging demo_kernel
    [1; 2; 3; 4; 5; 6; 7; 8; 0; 0; 0; 0; 0; 0; 0; 0] 16 0xFFFFFF8000400004 0
    0x3000 0x4000 0x400000 0x500000 0x600000 [] demo_uefi_map 2.
Proof.
  split; try done; vm_compute; try (split; [reflexivity|done]); try reflexivity.
Qed.

Lemma handoff_pointers_valid_witness :
  ∃ ho, efi_main demo_uefi (replicate 16 9) (convert_segment <$> demo_uefi_map) = Ok ho ∧
    walk (pg_cr3 (ho_paging ho)) (pg_words (ho_paging ho)) (pg_cr3 (ho_paging ho)) (e_rdi (ho_cpu ho))
      = Some 0x3000.
Proof.
  destruct (handoff_pointers_valid demo_uefi (replicate 16 9) (convert_segment <$> demo_uefi_map)
    (mkVideoMode 1920 1080 1920 Rgb) demo_paging demo_kernel
    [1; 2; 3; 4; 5; 6; 7; 8; 0; 0; 0; 0; 0; 0; 0; 0] 16 0xFFFFFF8000400004 0
    0x3000 0x4000 0x400000 0x500000 0x600000 [] demo_uefi_map 2 demo_mmap 0x1100000 0x200000
    (replicate (Z.to_nat (3 * 512)) 0xDEADBEEF) 0) as (ho & Hho & Hrdi & _).
  - exact demo_boot_succeeds.
  - exact demo_firmware_ok.
  - reflexivity.
  - lia.
  - reflexivity.
  - lia.
  - reflexivity.
  - lia.
  - lia.
  - vm_compute. discriminate.
  - lia.
  - vm_compute. discriminate.
  - exists ho. split; [exact Hho|exact Hrdi].
Defined.
