(* ===== verification/BootConsole.v ===== *)
(** * The bootloader's console and its panic handler ([bootloader/src/main.rs],
      [paging.rs]).

    [Bootloader.efi_main] is the work of the bootloader; here it is interleaved
    with what it writes to the firmware's console.  A write can fail, which
    panics; a panic ends in [panic_handler], which writes through the static
    [STDOUT] and is undefined while that is null, so that setting it is an
    event too.  The console is a boot service: from the call of
    [exit_boot_services] on, whether it succeeds or not, the firmware may have
    shut it down, so that the call is an event of the output as well.  The
    theorem: a panic finds [STDOUT] set and the console there, unless it is
    the failure of [exit_boot_services] itself. *)
From stdpp Require Import base gmap numbers strings list.
From S2P Require Import Prelude.
From S2P Require Import Fmt.
From S2P Require Import KernelHeader.
From S2P Require Import Paging.
From S2P Require Import PagingTheorems.
From S2P Require Import Elf.
From S2P Require Import Bootloader.
From S2P Require Import BootloaderTheorems.

#[local] Open Scope Z_scope.

(** What happens around the console: [STDOUT] is set, the console is reset, a
    text is written, [exit_boot_services] is called. *)
Inductive event :=
  | StdoutSet
  | WasReset
  | Wrote (text : list Z)
  | ExitCalled.

#[global] Instance event_eq_dec : EqDecision event.
Proof. solve_decision. Defined.

Abbreviation told := (writer event).

Definition crlf : list Z := [13; 10].

(** [{:0wX}], without the prefix *)
Definition fmt_hex0 (w : nat) (n : Z) : list Z :=
  let ds := digit_char <$> digits 64 16 n in replicate (w - length ds) 48 ++ ds.

Section console.
Context `{PageSource} (con : list Z → bool).

(** [write!(system_table.stdout(), ...).unwrap()]; [con] says what the firmware
    answers. *)
Definition tell (text : list Z) : told unit :=
  mkLogged [Wrote text]
    (if con text then Ok () else Err (PanicMsg "called `Result::unwrap()` on an `Err` value")).

(** [platform::init] of [paging.rs] *)
Definition platform_told (physical_size : Z) : told paging :=
  _ ← tell (chars "Memory ranges from 0 to " ++ fmt_hex0 16 physical_size ++ crlf);
  ts ← quiet (size_tables physical_size);
  if negb (ts_pml4_pages ts =? 1)
  then quiet (Err (PanicMsg "PML4 larger than one page, should be impossible"))
  else
    _ ← tell (chars "pml4_entries=" ++ fmt_dec (ts_pml4_entries ts) ++ chars ", pdp_entries=" ++
              fmt_dec (ts_pdp_entries ts) ++ chars ", pd_entries=" ++ fmt_dec (ts_pd_entries ts) ++ crlf);
    _ ← tell (chars "Using " ++ fmt_dec (ts_alloc_pages ts) ++
              chars " physical pages for initial page table (pml4_pages=" ++ fmt_dec (ts_pml4_pages ts) ++
              chars ", pdp_pages=" ++ fmt_dec (ts_pdp_pages ts) ++ chars ", pd_pages=" ++
              fmt_dec (ts_pd_pages ts) ++ chars ")" ++ crlf);
    '(ptr, ws) ← quiet (of_option (PanicMsg "Failed to allocate buffer for page table")
                          (allocate_pages (ts_alloc_pages ts)));
    ws ← quiet (foldM (fill_pml4 ts ptr) ws (seqZ 0 (ts_pml4_entries ts)));
    ws ← quiet (foldM (fill_pdp ts ptr) ws (seqZ 0 (ts_pdp_entries ts)));
    ws ← quiet (foldM (fill_pd ts) ws (seqZ 0 (ts_pd_entries ts)));
    base ← quiet (high_mem_base (ts_pml4_entries ts));
    _ ← tell (chars "High memory start: " ++ fmt_hex 16 base ++ crlf);
    mret (mkPaging base
      (mkPagingInfo (ptr_to_kernelspace base ptr) (ts_pdp_pages ts) (ts_pd_pages ts)
         (ts_pml4_entries ts))
      ws ptr).

(** [paging::init] *)
Definition paging_told (fw : firmware) : told paging :=
  a ← quiet (add_w 64 (fw_size1 fw) 4095);
  mmap_pages ← quiet (add_w 64 (a / 4096) 1);
  _ ← quiet (of_option (PanicMsg "Failed to allocate space for memory map") (fw_buffer fw));
  b ← quiet (add_w 64 (fw_size2 fw) 4095);
  let mmap_pages_2 := b / 4096 in
  if negb (mmap_pages_2 <=? mmap_pages)
  then quiet (Err (PanicMsg "MemoryMap unexpectedly expanded too much"))
  else
    mmap ← quiet (of_option (PanicMsg "Failed to retrieve memory map") (fw_map fw));
    physical_size ← quiet (physical_end mmap);
    p ← platform_told physical_size;
    if fw_freed fw then mret p else quiet (Err (PanicMsg "Failed to free memory map buffer")).

(** [efi_main] up to the call of [exit_boot_services]: what is left to do
    from there needs the header's address, the mode, the page table, the
    prepared image, the kernel's stack and the buffer of the map. *)
Record loaded := mkLoaded {
  ld_header_ptr : Z;
  ld_mode : video_mode;
  ld_paging : paging;
  ld_buffer : Z;
  ld_prepared : list Z;
  ld_entry : Z;
  ld_text : Z;
  ld_stack : Z;
  ld_mmap_pages : Z;
  ld_mmap_buffer : Z;
}.

Definition efi_services (u : uefi) (dst : list Z) : told loaded :=
  _ ← say StdoutSet;
  _ ← say WasReset;
  _ ← tell (chars "Initializing bootloader..." ++ crlf);
  if negb (u_loaded_image u) then quiet (Err (PanicMsg "LoadedImageProtocol not found")) else
  if negb (u_file_system u) then quiet (Err (PanicMsg "SimpleFileSystemProtocol not found")) else
  if negb (u_graphics u) then quiet (Err (PanicMsg "GraphicsOutputProtocol not found")) else
  '(header_ptr, st) ← quiet (allocate (u_allocs u) size_of_KernelHeader);
  _ ← tell (chars "Switching video mode..." ++ crlf);
  m ← quiet (select_mode (u_modes u));
  if negb (u_set_mode u) then quiet (Err (PanicMsg "Failed to set video mode")) else
  _ ← tell (chars "Initializing Paging..." ++ crlf);
  p ← paging_told (u_paging u);
  let ks := ptr_to_kernelspace (pg_base p) in
  _ ← tell (chars "High memory starting at " ++ fmt_hex 16 (ks 0) ++ crlf);
  _ ← tell (chars "Loading modules..." ++ crlf);
  '(image, st) ← quiet (read_file st (u_kernel u));
  size ← quiet (get_size (file_bytes image));
  _ ← tell (chars "Kernel size: " ++ fmt_dec size ++ crlf);
  _ ← tell (chars "Preparing kernel..." ++ crlf);
  '(buffer, st) ← quiet (allocate st size);
  let process_buffer := ks buffer in
  '(prepared, entry) ← quiet (prepare (file_bytes image) process_buffer dst);
  _ ← tell (chars "Kernel at " ++ fmt_hex 16 process_buffer ++ chars " (entry point " ++ fmt_hex 16 entry ++
            chars ")" ++ crlf);
  if negb (u_debug_page u) then quiet (Err (PanicMsg "Failed to allocate debug buffer")) else
  text ← quiet (get_text_addr (file_bytes image) process_buffer);
  _ ← quiet (free (u_free_image u) (file_addr image) (file_size image));
  '(stack, st) ← quiet (allocate st KERNEL_STACK_SIZE);
  _ ← tell (chars "Starting kernel..." ++ crlf);
  mmap_pages ← quiet (map_pages (u_map_size1 u));
  _ ← quiet (mul_w 64 mmap_pages 2);
  '(mmap_buffer, st) ← quiet (next_pages "Failed to allocate mmap buffer" st);
  _ ← quiet (check_map mmap_pages (u_map_size2 u));
  _ ← quiet (mul_w 64 mmap_pages 4096);
  mret (mkLoaded header_ptr m p process_buffer prepared entry text stack mmap_pages mmap_buffer).

(** The rest of [efi_main], without the boot services. *)
Definition efi_handoff (u : uefi) (old_map : list MemorySegment) (l : loaded) (mmap : list uefi_segment) :
    res handoff :=
  let m := ld_mode l in
  let p := ld_paging l in
  let ks := ptr_to_kernelspace (pg_base p) in
  offset ← map_offset (ld_mmap_pages l);
  map ← (if decide (length mmap ≤ length old_map)%nat
         then convert_map (take (length mmap) old_map) mmap else Err UB);
  mret (mkHandoff
    (mkKernelHeader (ks (u_frame_buffer u)) (wrap 32 (vm_width m)) (wrap 32 (vm_height m))
       (wrap 32 (vm_stride m)) (screen_format_of (vm_format m)) (pg_info p)
       (ks (ld_mmap_buffer l + offset)) (Z.of_nat (length mmap)) (ks 0))
    map (ld_prepared l) (ld_buffer l) (ld_text l)
    (goto_entrypoint (ks (ld_header_ptr l)) (ld_entry l) (ks (ld_stack l))) p).

(** [efi_main] with its output *)
Definition efi_main_told (u : uefi) (dst : list Z) (old_map : list MemorySegment) : told handoff :=
  l ← efi_services u dst;
  _ ← say ExitCalled;
  mmap ← quiet (of_option (PanicMsg "Failed to exit boot services") (u_exit u));
  quiet (efi_handoff u old_map l mmap).

(** [panic_handler], after [history]: it writes through [STDOUT], and ignores
    what the firmware answers.  [text] is what the panic's message and location
    format to. *)
Definition panic_handler (history : list event) (text : list Z) : res (list event) :=
  if decide (StdoutSet ∈ history) then mret [Wrote (chars "PANIC: " ++ text)] else Err UB.

(** Everything that happens in a boot. *)
Definition boot_events (panic_text : failure → list Z) (u : uefi) (dst : list Z)
    (old_map : list MemorySegment) : res (list event) :=
  let r := efi_main_told u dst old_map in
  match lg_res r with
  | Ok _ => mret (lg_lines r)
  | Err e =>
      if is_panic e then ev ← panic_handler (lg_lines r) (panic_text e); mret (lg_lines r ++ ev)
      else mret (lg_lines r)
  end.
End console.

(** ** Walking through a computation with output *)

Section facts.
Context `{PageSource} (con : list Z → bool).

(** The boot services have not been left. *)
Definition in_services {A} (m : told A) : Prop := ExitCalled ∉ lg_lines m.

Lemma services_bind {A B} (m : told A) (f : A → told B) :
  in_services m → (∀ a, in_services (f a)) → in_services (m ≫= f).
Proof.
  unfold in_services, mbind, writer_bind. intros Hm Hf. destruct (lg_res m) as [a|]; [|done].
  cbn [lg_lines]. rewrite elem_of_app. intros [?|?]; [done|by apply (Hf a)].
Qed.

Lemma services_quiet {A} (m : res A) : in_services (quiet m).
Proof. apply not_elem_of_nil. Qed.

Lemma services_ret {A} (a : A) : in_services (mret a).
Proof. apply not_elem_of_nil. Qed.

Lemma services_tell text : in_services (tell con text).
Proof. unfold in_services, tell. cbn. by intros ?%list_elem_of_singleton. Qed.

Lemma services_say ev : ev ≠ ExitCalled → in_services (say ev).
Proof. unfold in_services. cbn. by intros Hne ?%list_elem_of_singleton. Qed.

(** Every step is quiet, tells, or decides. *)
Ltac services :=
  repeat lazymatch goal with
  | |- ∀ _, _ => intros ?
  | |- in_services (let _ := _ in _) => cbv zeta
  | |- in_services (_ ≫= _) => apply services_bind
  | |- in_services (quiet _) => apply services_quiet
  | |- in_services (tell _ _) => apply services_tell
  | |- in_services (say _) => by apply services_say
  | |- in_services (mret _) => apply services_ret
  | |- in_services (if ?b then _ else _) => destruct b
  | |- in_services (let '(_, _) := ?x in _) => destruct x
  end.

Lemma platform_told_services s : in_services (platform_told con s).
Proof. unfold platform_told. services. Qed.

Lemma paging_told_services fw : in_services (paging_told con fw).
Proof. unfold paging_told. services. apply platform_told_services. Qed.

Lemma efi_services_in u dst : in_services (efi_services con u dst).
Proof. unfold efi_services. services. apply paging_told_services. Qed.

(** What a computation that returns has established. *)
Definition yields {A} (m : told A) (P : A → Prop) : Prop := ∀ a, lg_res m = Ok a → P a.

Lemma yields_bind {A B} (m : told A) (f : A → told B) P :
  (∀ a, lg_res m = Ok a → yields (f a) P) → yields (m ≫= f) P.
Proof.
  intros Hf b. rewrite lg_res_bind. destruct (lg_res m) as [a|]; [|done]. intros E. by apply (Hf a).
Qed.

Lemma yields_err {A} e (P : A → Prop) : yields (quiet (Err e)) P.
Proof. by intros a [=]. Qed.

Lemma efi_services_pages u dst :
  yields (efi_services con u dst) (λ l, map_pages (u_map_size1 u) = Ok (ld_mmap_pages l)).
Proof.
  unfold efi_services.
  repeat lazymatch goal with
  | |- yields (let _ := _ in _) _ => cbv zeta
  | |- yields (_ ≫= _) _ => apply yields_bind; intros ? ?
  | |- yields (quiet (Err _)) _ => apply yields_err
  | |- yields (if ?b then _ else _) _ => destruct b
  | |- yields (let '(_, _) := ?x in _) _ => destruct x
  end.
  intros ld [= <-]. cbn. assumption.
Qed.

(** [STDOUT] is the first thing that is set. *)
Lemma efi_services_stdout u dst : ∃ rest, lg_lines (efi_services con u dst) = StdoutSet :: rest.
Proof. unfold efi_services. by eexists. Qed.

(** Without the boot services only memory that is not there can stop the rest. *)
Lemma efi_handoff_no_panic u old_map l mmap e :
  0 ≤ ld_mmap_pages l * 4096 < 2 ^ 63 → efi_handoff u old_map l mmap = Err e → is_panic e = false.
Proof.
  intros Hp E. unfold efi_handoff, map_offset in E. rewrite (proj2 (Z.ltb_lt _ _)) in E by lia.
  rewrite bind_Ok in E. destruct (decide _) as [Hl|]; [|by injection E as <-].
  rewrite convert_map_ok in E by (rewrite length_take; lia). done.
Qed.

Lemma map_pages_bound size n : 0 ≤ size < 2 ^ 62 → map_pages size = Ok n → 0 ≤ n * 4096 < 2 ^ 63.
Proof.
  intros Hs E. unfold map_pages in E. inv_bind E as (a & Ha & E).
  apply checked_inv in Ha as [-> _]. apply checked_inv in E as [-> _].
  Z.to_euclidean_division_equations. lia.
Qed.

(** With a console that works, the output changes nothing. *)
Lemma lg_res_tell text : con text = true → lg_res (tell con text) = Ok ().
Proof. intros Hc. unfold tell. cbn. by rewrite Hc. Qed.

Lemma lg_res_say (ev : event) : lg_res (say ev) = Ok ().
Proof. done. Qed.

(** [call] rewrites the calls already dealt with. *)
Ltac same_steps Hc call :=
  repeat first
    [ call | rewrite lg_res_bind | rewrite lg_res_quiet | rewrite lg_res_ret | rewrite lg_res_tell by apply Hc
    | rewrite bind_Ok | rewrite bind_Err
    | progress cbv zeta
    | lazymatch goal with
      | |- _ = (if ?b then _ else _) => destruct b
      | |- _ = (let '(_, _) := ?x in _) => destruct x
      | |- _ = ?m ≫= _ => destruct m
      end
    | done ].

Lemma platform_told_res s : (∀ text, con text = true) → lg_res (platform_told con s) = platform_init s.
Proof. intros Hc. unfold platform_told, platform_init. same_steps Hc fail. Qed.

Lemma paging_told_res fw : (∀ text, con text = true) → lg_res (paging_told con fw) = Paging.init fw.
Proof.
  intros Hc. unfold paging_told, Paging.init. same_steps Hc ltac:(rewrite platform_told_res by apply Hc).
Qed.

Lemma efi_main_told_res u dst old_map : (∀ text, con text = true) →
  lg_res (efi_main_told con u dst old_map) = efi_main u dst old_map.
Proof.
  intros Hc. unfold efi_main_told, efi_services, efi_main.
  same_steps Hc ltac:(first
    [ rewrite paging_told_res by apply Hc | rewrite lg_res_say
    | lazymatch goal with |- efi_handoff _ _ _ _ = _ => reflexivity end ]).
Qed.

(** C31: whatever the firmware and the console answer (the memory map smaller
    than [2 ^ 62] bytes): when the bootloader panics, [STDOUT] has been set,
    as the first thing of all, so that the panic handler writes the message,
    which is the last thing that happens; [exit_boot_services] has not been
    called by then, so that the console works, unless the panic is the failure
    of that very call.  When it hands over, it has called [exit_boot_services]
    exactly once, and wrote nothing after that; and with a console that takes
    every text, the result is the one of [efi_main] without its output. *)
Theorem boot_panics_reported panic_text u dst old_map : 0 ≤ u_map_size1 u < 2 ^ 62 →
  let r := efi_main_told con u dst old_map in
  match lg_res r with
  | Ok _ => ∃ before, boot_events con panic_text u dst old_map = Ok (before ++ [ExitCalled]) ∧
      ExitCalled ∉ before
  | Err e => is_panic e = true → ∃ before,
      boot_events con panic_text u dst old_map =
        Ok (StdoutSet :: before ++ [Wrote (chars "PANIC: " ++ panic_text e)]) ∧
      (ExitCalled ∈ before → e = PanicMsg "Failed to exit boot services" ∧ u_exit u = None)
  end ∧
  ((∀ text, con text = true) → lg_res r = efi_main u dst old_map).
Proof.
  intros Hsz r. split; [|by apply efi_main_told_res].
  pose proof (efi_services_in u dst) as Hin. pose proof (efi_services_pages u dst) as Hpages.
  destruct (efi_services_stdout u dst) as [rest Hout].
  unfold boot_events, panic_handler. fold r. unfold r, efi_main_told, mbind, writer_bind.
  unfold in_services in Hin. rewrite Hout in *.
  destruct (lg_res (efi_services con u dst)) as [l|e] eqn:E; cbn [lg_res lg_lines say quiet].
  - destruct (u_exit u) as [mmap|] eqn:Ex; cbn [of_option lg_res lg_lines].
    + rewrite !app_nil_r. destruct (efi_handoff u old_map l mmap) as [ho|e] eqn:Eh.
      * exists (StdoutSet :: rest). by rewrite <- app_comm_cons.
      * intros Hpa. rewrite (efi_handoff_no_panic u old_map l mmap e) in Hpa; [done| |done].
        by apply (map_pages_bound (u_map_size1 u)), Hpages.
    + intros _. exists (rest ++ [ExitCalled]). rewrite decide_True by left. rewrite !app_nil_r. cbn. by split.
  - intros ->. exists rest. rewrite decide_True by left. cbn. split; [done|].
    intros Hel. destruct Hin. by right.
Qed.
End facts.

(** ** Witness: a firmware without graphics *)

#[local] Existing Instance demo_source.

Definition headless : uefi :=
  mkUefi true true false [] true 0 (mkFirmware 0 0 None None true) (mkFileAnswers true true None None None)
    [] true true 480 528 None.

Lemma boot_panics_reported_witness :
  ∃ before, boot_events (λ _, true) (λ _, chars "no graphics") headless [] [] =
    Ok (StdoutSet :: before ++ [Wrote (chars "PANIC: " ++ chars "no graphics")]) ∧ ExitCalled ∉ before ∧
  efi_main headless [] [] = Err (PanicMsg "GraphicsOutputProtocol not found").
Proof.
  destruct (boot_panics_reported (λ _, true) (λ _, chars "no graphics") headless [] []) as [Hr He].
  - vm_compute. split; [discriminate|reflexivity].
  - destruct Hr as (before & Hb & Hx); [reflexivity|]. exists before. split; [exact Hb|]. split.
    + intros Hel. destruct (Hx Hel) as [E _]. discriminate E.
    + rewrite <- He by reflexivity. reflexivity.
Defined.
