(* ===== verification/Platform.v ===== *)
(** * Setting up the processor ([kernel/src/arch/x86_64/mod.rs] with the [init]
      functions of [gdt.rs] and [interrupt/mod.rs] on the memory manager).

    [init_platform] takes the pages of the descriptor tables and of the
    interrupt stack from the memory manager and fills them.  The memory of the
    tables starts with arbitrary content.  [interrupt::init] zeroes 64 KiB
    from the interrupt table on ([Interrupt.write_bytes]).  What the manager
    keeps in that range (entries and bitmap), the descriptor table and the TSS
    are zeroed with it, and the last allocation of [init_platform] runs on
    what is left.  When the range is not mapped, or holds something else the
    running kernel needs (its image, stack, page tables, ...), which
    [spares] decides, execution does not go on in any way the model
    describes: that is [UB]. *)
From stdpp Require Import base gmap numbers strings list.
From S2P Require Import Prelude.
From S2P Require Import KernelHeader.
From S2P Require Import VirtManager.
From S2P Require Import Mutex.
From S2P Require Import FreeList.
From S2P Require Import PhysManager.
From S2P Require Import PhysStorage.
From S2P Require Import BuddySpec.
From S2P Require Import PhysInvariant.
From S2P Require Import PhysCorrect.
From S2P Require Import PhysTheorems.
From S2P Require Import PhysSystem.
From S2P Require Import PhysInit.
From S2P Require Import PhysSafety.
From S2P Require Import Gdt.
From S2P Require Import Interrupt.
From S2P Require Import Fmt.
From S2P Require Import Log.

#[local] Open Scope Z_scope.

(** ** Zeroing memory that others use *)

(** The bytes [interrupt::init] zeroes: 4096 entries of 16 bytes. *)
Definition idt_span : Z := 4096 * size_of_IDTEntry.

(** What an array at [addr], of elements of [size] bytes that do not straddle
    the ends of the range, holds after zeroing the range from [p] on. *)
Definition zero_array {A} (p addr size : Z) (zero : A) (l : list A) : list A :=
  imap (λ j x, if (p <=? addr + size * Z.of_nat j) && (addr + size * Z.of_nat j <? p + idt_span)
               then zero else x) l.

(** The entries of free blocks are at the start of a page: one per page of the
    range. *)
Definition zero_entries (p : Z) (h : heap) : heap :=
  fold_left (λ h j, <[p + j * 4096 := mkFreeEntry 0 null_mut null_mut]> h) (seqZ 0 16) h.

(** The manager after zeroing the range. *)
Definition zero_manager (p : Z) (m : PhysMemoryManager InlineStorage) : PhysMemoryManager InlineStorage :=
  let st := pm_buddy m in
  let s := storage st in
  mkPhysMemoryManager (pm_lock m)
    (mkBuddy (free_lists st)
       (mkInlineStorage (buddy_map_ptr s) (zero_array p (buddy_map_ptr s) 8 0 (buddy_map s)))
       (zero_entries p (b_heap st))).

(** ** [init_platform] *)

(** A condition execution needs to go on. *)
Definition check (e : failure) (b : bool) : res unit := if b then mret tt else Err e.

(** What the memory of the tables holds before: the slots of the GDT's page,
    the task state segments, and the bytes from the IDT's page on. *)
Record table_memory := mkTableMemory {
  tm_gdt : list Z;
  tm_tss : list Tss;
  tm_idt : list Z;
}.

(** Physical addresses and content of the tables, the address of the interrupt
    stack, and what the processor is told about them. *)
Record platform := mkPlatform {
  pl_gdt : Z;
  pl_tss : Z;
  pl_idt : Z;
  pl_stack : Z;
  pl_gdt_mem : list Z;
  pl_tss_mem : list Tss;
  pl_idt_mem : list Z;
  pl_gdtr : Gdtr;
  pl_cs : Z;
  pl_tr : Z;
  pl_idtr : IDTDesc;
}.

Section kernel.
Context (verbose_logging : bool) (HIGH_MEM_BASE : Z) (stub_addr : Z → Z).

(** Whether the 64 KiB from a physical address on are mapped, and free of the
    memory that the kernel runs on ([KernelMain.clear_spares]). *)
Context (spares : Z → bool).

#[local] Instance platform_storage : PhysManagerStorage InlineStorage := boot_storage HIGH_MEM_BASE.
#[local] Instance platform_laws : StorageLaws InlineStorage := boot_laws HIGH_MEM_BASE.

Abbreviation virt := (phys_to_virt HIGH_MEM_BASE).

(** The statics [GDT] and [TSS], as physical addresses, and the memory behind
    them. *)
Record gdt_state := mkGdtState {
  gs_gdt : Z;
  gs_tss : Z;
  gs_gdt_mem : list Z;
  gs_tss_mem : list Tss;
}.

(** [gdt::init] *)
Definition gdt_init (num_cores : Z) (mem : table_memory) (m : PhysMemoryManager InlineStorage) :
    logged (PhysMemoryManager InlineStorage * gdt_state) :=
  _ ← log_info "GDT" "Initializing...";
  num_gdt_pages ← quiet (num_gdt_pages num_cores);
  '(m, gdt) ← quiet (alloc_linear_pages m num_gdt_pages);
  _ ← log_verbose verbose_logging "GDT" (
        n ← add_w 64 3 num_cores;
        mret (chars "GDT at " ++ fmt_hex 16 (virt gdt) ++ chars " (" ++ fmt_dec n ++ chars " entries, " ++
              fmt_dec num_gdt_pages ++ chars " pages)"));
  num_tss_pages ← quiet (num_tss_pages num_cores);
  '(m, tss) ← quiet (alloc_linear_pages m num_tss_pages);
  '(gdt_mem, tss_mem) ← quiet (Gdt.init num_cores (virt tss) (tm_gdt mem) (tm_tss mem));
  _ ← log_info "GDT" "Initialized";
  mret (m, mkGdtState gdt tss gdt_mem tss_mem).

(** [interrupt::init]: the table's address and bytes, and what zeroing leaves
    of the rest. *)
Definition interrupt_init (mem : table_memory) (g : gdt_state) (m : PhysMemoryManager InlineStorage) :
    logged (PhysMemoryManager InlineStorage * gdt_state * Z * list Z) :=
  _ ← log_info "IDT" "Initializing...";
  '(m, idt) ← quiet (alloc_page m);
  _ ← quiet (check UB (spares idt));
  idt_mem ← quiet (write_bytes (tm_idt mem) 0 4096);
  let m := zero_manager (virt idt) m in
  let g := mkGdtState (gs_gdt g) (gs_tss g)
             (zero_array (virt idt) (virt (gs_gdt g)) size_of_GDTEntry 0 (gs_gdt_mem g))
             (zero_array (virt idt) (virt (gs_tss g)) size_of_Tss zero_tss (gs_tss_mem g)) in
  _ ← log_verbose verbose_logging "IDT" (mret (chars "IDT at " ++ fmt_hex 16 (virt idt)));
  idt_mem ← quiet (foldM (λ mem l, set_idt_entry mem (isr_number l) (stub_addr (isr_name l))) idt_mem set_isrs);
  _ ← log_info "IDT" "Initialized...";
  mret (m, g, idt, idt_mem).

(** [interrupt::init_core]: the new interrupt stack goes into the core's TSS,
    and [lidt] loads the table. *)
Definition interrupt_init_core (core_id : Z) (g : gdt_state) (idt : Z)
    (m : PhysMemoryManager InlineStorage) :
    res (PhysMemoryManager InlineStorage * gdt_state * Z * IDTDesc) :=
  '(m, stack) ← alloc_linear_pages m 4;
  top ← ist1_top (virt stack);
  tss_mem ← set_ist1 (gs_tss_mem g) core_id top;
  mret (m, mkGdtState (gs_gdt g) (gs_tss g) (gs_gdt_mem g) tss_mem, stack, idt_desc (virt idt)).

(** [pub fn init_platform] *)
Definition init_platform (mem : table_memory) (m : PhysMemoryManager InlineStorage) :
    logged (PhysMemoryManager InlineStorage * platform) :=
  '(m, g) ← gdt_init 1 mem m;
  '(gdtr, cs, tr) ← quiet (Gdt.init_core (virt (gs_gdt g)) 0);
  '(m, g, idt, idt_mem) ← interrupt_init mem g m;
  '(m, g, stack, idtr) ← quiet (interrupt_init_core 0 g idt m);
  mret (m, mkPlatform (gs_gdt g) (gs_tss g) idt stack (gs_gdt_mem g) (gs_tss_mem g) idt_mem gdtr cs tr idtr).

(** [pub fn init_secondary_core]: what the core is told about its tables *)
Definition init_secondary_core (core_id : Z) (g : gdt_state) (idt : Z)
    (m : PhysMemoryManager InlineStorage) :
    res (PhysMemoryManager InlineStorage * gdt_state * (Gdtr * Z * Z) * IDTDesc) :=
  regs ← Gdt.init_core (virt (gs_gdt g)) core_id;
  '(m, g, _, idtr) ← interrupt_init_core core_id g idt m;
  mret (m, g, regs, idtr).

(** [init] of [kernel/src/interrupt/mod.rs], which announces the platform's
    [init] once more. *)
Definition interrupt_wrapper_init (mem : table_memory) (g : gdt_state)
    (m : PhysMemoryManager InlineStorage) :
    logged (PhysMemoryManager InlineStorage * gdt_state * Z * list Z) :=
  _ ← log_info "IDT" "Initializing...";
  r ← interrupt_init mem g m;
  _ ← log_info "IDT" "Initialized...";
  mret r.

(** The work of [init_platform] without its log lines. *)
Definition platform_effect (mem : table_memory) (m : PhysMemoryManager InlineStorage) :
    res (PhysMemoryManager InlineStorage * platform) :=
  g ← num_gdt_pages 1;
  '(m, gdt) ← alloc_linear_pages m g;
  t ← num_tss_pages 1;
  '(m, tss) ← alloc_linear_pages m t;
  '(gdt_mem, tss_mem) ← Gdt.init 1 (virt tss) (tm_gdt mem) (tm_tss mem);
  '(gdtr, cs, tr) ← Gdt.init_core (virt gdt) 0;
  '(m, idt) ← alloc_page m;
  _ ← check UB (spares idt);
  idt_mem ← Interrupt.init stub_addr (tm_idt mem);
  let m := zero_manager (virt idt) m in
  let gdt_mem := zero_array (virt idt) (virt gdt) size_of_GDTEntry 0 gdt_mem in
  let tss_mem := zero_array (virt idt) (virt tss) size_of_Tss zero_tss tss_mem in
  '(m, stack) ← alloc_linear_pages m 4;
  ist1 ← ist1_top (virt stack);
  tss_mem ← set_ist1 tss_mem 0 ist1;
  mret (m, mkPlatform gdt tss idt stack gdt_mem tss_mem idt_mem gdtr cs tr (idt_desc (virt idt))).
End kernel.

(** The allocations of [init_platform], latest first. *)
Definition platform_allocs (p : platform) : list allocation :=
  [(pl_stack p, 4); (pl_idt p, 1); (pl_tss p, 1); (pl_gdt p, 1)].

(** ** Allocating when only the list heads can be trusted *)

Section heads.
Context {S : Type} `{StorageLaws S}.
Implicit Types (st : buddy S) (F : blocks).

Abbreviation scap st := (capacity (storage st)).

(** Every head is null or the entry of a free block of its order, whose
    successor, if any, is memory that can be written. *)
Definition head_ok st F (k head : Z) : Prop :=
  head = null_mut ∨
  ∃ i e, head = get_entry (storage st) i ∧ F !! i = Some k ∧ b_heap st !! head = Some e ∧
    (next e = null_mut ∨ is_Some (b_heap st !! next e)).

Record heads_ok st F : Prop := mkHeadsOk {
  hd_storage : storage_ok (storage st);
  hd_wf : wf (scap st) F;
  hd_length : length (free_lists st) = 9%nat;
  hd_heads : ∀ k head, 0 ≤ k ≤ MAX_ORDER → free_lists st !! Z.to_nat k = Some head → head_ok st F k head;
}.

Lemma inv_heads_ok st F : inv st F → heads_ok st F.
Proof.
  intros [[Hs _ [Hlen HL]] Hwf]. split; try done. intros k head Hk Hhd.
  destruct (HL k Hk) as (head' & l & Hhd' & [Hd _] & Hin).
  rewrite Hhd in Hhd'. injection Hhd' as <-. destruct l as [|i l]; [by left|right].
  destruct Hd as (Hd & Hne & e & He & _ & _ & Hn). exists i, e. split_and!; [done|apply Hin; left|by rewrite Hd|].
  destruct l as [|j l]; [by left|right]. destruct Hn as (-> & _ & e' & He' & _). eauto.
Qed.

(** What an allocation of order [k] leaves as it was. *)
Record same_below (k : Z) st st' : Prop := mkSameBelow {
  sb_storage : storage_ok (storage st');
  sb_capacity : scap st' = scap st;
  sb_length : length (free_lists st') = length (free_lists st);
  sb_lists : ∀ j, 0 ≤ j < k → free_lists st' !! Z.to_nat j = free_lists st !! Z.to_nat j;
}.

(** Writing one word of the bitmap always works inside it. *)
Lemma set_word_ok (s : S) i (f : Z → Z) : storage_ok s → 0 ≤ i < capacity s →
  ∃ w bm, index (get_buddy_map s) (i / 64) = Ok w ∧ shl_w 64 1 (i mod 64) = Ok (2 ^ (i mod 64)) ∧
    store (get_buddy_map s) (i / 64) (f w) = Ok bm ∧
    storage_ok (set_buddy_map s bm) ∧ capacity (set_buddy_map s bm) = capacity s.
Proof.
  intros Hs Hi. destruct (word_range _ _ Hi) as [Hq Hr].
  destruct (index_ok _ _ Hq) as (w & Hw & _).
  exists w, (<[Z.to_nat (i / 64) := f w]> (get_buddy_map s)).
  assert (length (<[Z.to_nat (i / 64) := f w]> (get_buddy_map s)) = length (get_buddy_map s)) as Hl
    by apply length_insert.
  split_and!; [done|by apply shl1_ok|by apply store_ok|by apply storage_ok_set_buddy_map|].
  unfold capacity. by rewrite get_set_buddy_map, Hl.
Qed.

Lemma clear_bit_runs (s : S) i : storage_ok s → 0 ≤ i < capacity s →
  ∃ s', clear_bit s i = Ok s' ∧ storage_ok s' ∧ capacity s' = capacity s.
Proof.
  intros Hs Hi. destruct (set_word_ok s i (λ w, Z.land w (not_w 64 (2 ^ (i mod 64)))) Hs Hi)
    as (w & bm & Hw & Hb & Hst & Hs' & Hc).
  exists (set_buddy_map s bm). split; [|done]. unfold clear_bit. rewrite Hw. simpl_res.
  rewrite Hb. simpl_res. by rewrite Hst.
Qed.

(** The first block of a list that is empty. *)
Lemma insert_block_runs st i k : storage_ok (storage st) → 0 ≤ i < scap st → 0 ≤ k ≤ MAX_ORDER →
  length (free_lists st) = 9%nat → free_lists st !! Z.to_nat k = Some null_mut →
  ∃ st', insert_block st i k = Ok st' ∧ same_below k st st'.
Proof.
  intros Hs Hi Hk Hlen Hnull. unfold MAX_ORDER in *.
  destruct (set_word_ok (storage st) i (λ w, Z.lor w (2 ^ (i mod 64))) Hs Hi)
    as (w & bm & Hw & Hb & Hst & Hs' & Hc).
  eexists. split.
  - unfold insert_block. rewrite Hw. simpl_res. rewrite Hb. simpl_res. rewrite Hst. simpl_res.
    unfold write, is_null. rewrite (proj2 (Z.eqb_neq _ _)) by (by apply get_entry_not_null). simpl_res.
    rewrite (index_Some _ _ null_mut) by (done || lia). simpl_res.
    unfold push_buddy_list_entry. cbn [is_null null_mut Z.eqb negb]. simpl_res.
    rewrite store_ok by lia. reflexivity.
  - split; cbn [storage free_lists]; [done|done|apply length_insert|].
    intros j Hj. apply list_lookup_insert_ne. lia.
Qed.

(** Popping a trusted head. *)
Lemma pop_head_ok st F k head : heads_ok st F → 0 ≤ k ≤ MAX_ORDER →
  free_lists st !! Z.to_nat k = Some head → head ≠ null_mut →
  ∃ i h' head', pop_buddy_list_entry (b_heap st) head = Ok (h', head', head) ∧
    head = get_entry (storage st) i ∧ F !! i = Some k ∧ 0 ≤ i < scap st.
Proof.
  intros Hh Hk Hhd Hne. destruct (hd_heads _ _ Hh k head Hk Hhd) as [|(i & e & -> & HF & He & Hn)]; [done|].
  exists i. unfold pop_buddy_list_entry, is_null.
  rewrite (proj2 (Z.eqb_neq _ _)) by done. unfold deref. rewrite He. cbn [of_option]. simpl_res.
  assert (0 ≤ i < scap st) by (eapply wf_in_range; [apply Hh|done]).
  destruct (Z.eqb_spec (next e) 0) as [E|E]; cbn [negb]; [do 2 eexists; split_and!; [reflexivity|done|done|lia|lia]|].
  destruct Hn as [|[e' He']]; [done|]. unfold set_prev, deref. rewrite He'. cbn [of_option]. simpl_res.
  do 2 eexists. split_and!; [reflexivity|done|done|lia|lia].
Qed.

(** A list with a head serves the request. *)
Lemma alloc_go_head n st F k head : heads_ok st F → 0 ≤ k ≤ MAX_ORDER →
  free_lists st !! Z.to_nat k = Some head → head ≠ null_mut →
  ∃ st' i, alloc_block_go n st k = Ok (st', i) ∧ F !! i = Some k ∧ same_below k st st'.
Proof.
  intros Hh Hk Hhd Hne.
  destruct (pop_head_ok st F k head Hh Hk Hhd Hne) as (i & h' & head' & Hpop & -> & HF & Hi).
  destruct (clear_bit_runs (storage st) i (hd_storage _ _ Hh) Hi) as (s' & Hcl & Hs' & Hc).
  pose proof (hd_length _ _ Hh) as Hlen. unfold MAX_ORDER in *.
  eexists _, i. split; [|split; [done|]].
  - destruct n; cbn [alloc_block_go]; rewrite (index_Some _ k (get_entry (storage st) i)), bind_Ok, Hpop by (done || lia); simpl_res;
      rewrite store_ok by lia; simpl_res; unfold is_null; rewrite (proj2 (Z.eqb_neq _ _)) by done;
      cbn [storage]; rewrite get_index_entry, Hcl by (done || apply Hh); reflexivity.
  - split; cbn [storage free_lists]; [done|done|apply length_insert|].
    intros j Hj. apply list_lookup_insert_ne. lia.
Qed.

(** An empty list passes the request on. *)
Lemma alloc_go_empty n st k : 0 ≤ k ≤ MAX_ORDER → length (free_lists st) = 9%nat →
  free_lists st !! Z.to_nat k = Some null_mut →
  alloc_block_go n st k =
    if k =? MAX_ORDER then Err (PanicMsg "Out of physical memory")
    else match n with
         | O => Err OutOfFuel
         | Datatypes.S n =>
             '(st, higher_block) ← alloc_block_go n st (k + 1);
             buddy_index ← get_buddy_index higher_block k;
             st ← insert_block st buddy_index k;
             mret (st, higher_block)
         end.
Proof.
  intros Hk Hlen Hhd. unfold MAX_ORDER in *.
  destruct n; cbn [alloc_block_go]; rewrite (index_Some _ k null_mut), bind_Ok by (done || lia);
    unfold pop_buddy_list_entry; cbn [is_null null_mut Z.eqb]; simpl_res;
    rewrite store_ok by lia; simpl_res; rewrite list_insert_id by done; by destruct st.
Qed.

Lemma alloc_block_heads n st F k :
  heads_ok st F → 0 ≤ k ≤ MAX_ORDER → n = Z.to_nat (MAX_ORDER - k) →
  (∃ st' i k', alloc_block_go n st k = Ok (st', i) ∧ F !! i = Some k' ∧ k ≤ k' ∧ same_below k st st') ∨
  alloc_block_go n st k = Err (PanicMsg "Out of physical memory").
Proof.
  intros Hh. revert k. induction n as [|n IH]; intros k Hk Hn; pose proof (hd_length _ _ Hh) as Hlen.
  all: destruct (lookup_lt_is_Some_2 (free_lists st) (Z.to_nat k)) as [head Hhd];
    [unfold MAX_ORDER in *; lia|].
  all: destruct (decide (head = null_mut)) as [->|Hne];
    [rewrite alloc_go_empty by done|left; edestruct alloc_go_head as (st' & i & ? & ? & ?); eauto 10 with lia].
  all: unfold MAX_ORDER in *; destruct (Z.eqb_spec k 8) as [|Hk8]; [by right|try lia].
  destruct (IH (k + 1)) as [(st1 & i & k' & -> & HF & Hle & Hsb)| ->]; [lia|lia| |by right].
  left. simpl_res. rewrite get_buddy_index_ok by lia. simpl_res.
  pose proof (wf_valid _ _ (hd_wf _ _ Hh) i k' HF) as (Hk' & Hi0 & Hal & Hle').
  assert (2 ^ (k + 1) ≤ 2 ^ k') by (apply Z.pow_le_mono_r; lia).
  assert (2 ^ (k + 1) | i) as Hal' by (apply (divide_pow2_le _ k'); [lia|done]).
  rewrite buddy_lower by (done || lia). rewrite pow2_succ in * by lia. pose proof (pow2_pos k ltac:(lia)).
  destruct (insert_block_runs st1 (i + 2 ^ k) k) as (st2 & -> & Hsb2).
  - apply Hsb.
  - rewrite (sb_capacity _ _ _ Hsb). lia.
  - unfold MAX_ORDER. lia.
  - by rewrite (sb_length _ _ _ Hsb).
  - by rewrite (sb_lists _ _ _ Hsb) by lia.
  - simpl_res. eexists _, i, k'. split; [reflexivity|]. split_and!; [done|lia|].
    destruct Hsb as [_ Hc Hl Hls], Hsb2 as [Hs2 Hc2 Hl2 Hls2]. split; [done|congruence|congruence|].
    intros j Hj. rewrite Hls2, Hls by lia. done.
Qed.

(** An allocation still hands out pages that are free, or runs out. *)
Lemma alloc_linear_heads (m : PhysMemoryManager S) F count :
  locked (pm_lock m) = false → heads_ok (pm_buddy m) F → 0 < count ≤ 256 →
  (∃ m' addr, alloc_linear_pages m count = Ok (m', addr) ∧
     live_ok (scap (pm_buddy m)) (addr, count) ∧ ∀ p, owns (addr, count) p → page_free F p) ∨
  alloc_linear_pages m count = Err (PanicMsg "Out of physical memory").
Proof.
  intros Hl Hh Hc. destruct (size_order_range count Hc) as [Hso Hk]. set (k := Z.log2_up count) in *.
  destruct (alloc_block_heads (Z.to_nat (MAX_ORDER - k)) (pm_buddy m) F k Hh Hk eq_refl)
    as [(st' & i & k' & Ha & HF & Hle & _)|Ha].
  - left. pose proof (wf_valid _ _ (hd_wf _ _ Hh) i k' HF) as (Hk' & Hi0 & Hal & Hcap).
    assert (2 ^ k ≤ 2 ^ k') by (apply Z.pow_le_mono_r; lia).
    pose proof (capacity_bound _ (hd_storage _ _ Hh)) as Hcb. pose proof (pow2_pos k ltac:(lia)).
    eexists _, (i * 4096). split; [|split].
    + apply locked_op_ok; [done|]. rewrite Hso. simpl_res. unfold alloc_block. rewrite Ha. simpl_res.
      rewrite index_to_addr_small by (unfold uint; lia). reflexivity.
    + unfold live_ok, valid_block, alloc_index, alloc_order. cbn [fst snd]. rewrite addr_to_index. fold k.
      split_and!; try lia.
      apply (divide_pow2_le _ k'); [lia|done].
    + intros p. unfold owns, alloc_index, alloc_order. cbn [fst snd]. rewrite addr_to_index. fold k.
      unfold block_page. intros Hp. exists i, k'. split; [done|]. unfold block_page. lia.
  - right. apply locked_op_err; [done|]. rewrite Hso. simpl_res. unfold alloc_block. by rewrite Ha.
Qed.
End heads.

(** ** The state the platform is left in *)

Lemma length_zero_array {A} p addr size (zero : A) l : length (zero_array p addr size zero l) = length l.
Proof. apply length_imap. Qed.

(** An array outside the range keeps its content. *)
Lemma zero_array_outside {A} p addr size (zero : A) l : 0 < size →
  p + idt_span ≤ addr ∨ addr + size * Z.of_nat (length l) ≤ p →
  zero_array p addr size zero l = l.
Proof.
  intros Hs Hout. unfold zero_array. apply list_eq. intros j. rewrite list_lookup_imap.
  destruct (l !! j) as [x|] eqn:Hx; [|done]. apply lookup_lt_Some in Hx. cbn.
  assert (0 ≤ size * Z.of_nat j ∧ size * Z.of_nat j < size * Z.of_nat (length l)) by nia.
  destruct (Z.leb_spec p (addr + size * Z.of_nat j)), (Z.ltb_spec (addr + size * Z.of_nat j) (p + idt_span));
    cbn [andb]; [lia|done..].
Qed.

(** An array inside the range is lost. *)
Lemma zero_array_inside {A} p addr size (zero : A) l : 0 < size →
  p ≤ addr → addr + size * Z.of_nat (length l) ≤ p + idt_span →
  zero_array p addr size zero l = replicate (length l) zero.
Proof.
  intros Hs Hlo Hhi. unfold zero_array. apply list_eq. intros j. rewrite list_lookup_imap.
  destruct (l !! j) as [x|] eqn:Hx.
  - apply lookup_lt_Some in Hx. rewrite lookup_replicate_2 by done. cbn.
    assert (0 ≤ size * Z.of_nat j ∧ size * Z.of_nat j < size * Z.of_nat (length l)) by nia.
    by rewrite (proj2 (Z.leb_le _ _)), (proj2 (Z.ltb_lt _ _)) by lia.
  - apply lookup_ge_None in Hx. cbn. symmetry. apply lookup_ge_None. by rewrite length_replicate.
Qed.

(** Zeroing entries keeps them in memory, and cuts the lists at them. *)
Lemma zero_entries_lookup p h q e : h !! q = Some e →
  ∃ e', zero_entries p h !! q = Some e' ∧ (e' = e ∨ next e' = null_mut).
Proof.
  unfold zero_entries. generalize (seqZ 0 16). intros l. revert h e.
  induction l as [|j l IH]; intros h e He; cbn [fold_left]; [eauto|].
  destruct (decide (p + j * 4096 = q)) as [Hq|Hne].
  - destruct (IH (<[p + j * 4096 := mkFreeEntry 0 null_mut null_mut]> h) (mkFreeEntry 0 null_mut null_mut))
      as (e' & He' & Hor); [by rewrite Hq, lookup_insert_eq|].
    exists e'. split; [done|]. right. destruct Hor as [->|]; done.
  - apply IH. by rewrite lookup_insert_ne.
Qed.

Section platform_facts.
Context (base : Z) (stub_addr : Z → Z) (spares : Z → bool).

#[local] Instance facts_storage : PhysManagerStorage InlineStorage := boot_storage base.
#[local] Instance facts_laws : StorageLaws InlineStorage := boot_laws base.

Implicit Types (m : PhysMemoryManager InlineStorage) (F : blocks).

Abbreviation mcap m := (capacity (storage (pm_buddy m))).
Abbreviation virt := (phys_to_virt base).

Lemma zero_manager_capacity p m : mcap (zero_manager p m) = mcap m.
Proof. unfold capacity. cbn. by rewrite length_zero_array. Qed.

(** Whatever is zeroed, the heads can still be trusted. *)
Lemma zero_manager_heads p m F : heads_ok (pm_buddy m) F → heads_ok (pm_buddy (zero_manager p m)) F.
Proof.
  intros [[Hu [Hb Hr]] Hwf Hlen Hh]. pose proof (zero_manager_capacity p m) as Hc.
  split; [|by rewrite Hc|done|].
  - split; [done|]. split; [done|]. intros i Hi. apply Hr. change (0 ≤ i < mcap m). by rewrite <- Hc.
  - intros k head Hk Hhd. destruct (Hh k head Hk Hhd) as [|(i & e & -> & HF & He & Hn)]; [by left|right].
    destruct (zero_entries_lookup p _ _ _ He) as (e' & He' & Hor).
    exists i, e'. split_and!; [done|done|exact He'|]. destruct Hor as [->|]; [|by left].
    destruct Hn as [|[e1 He1]]; [by left|right].
    destruct (zero_entries_lookup p _ _ _ He1) as (e1' & He1' & _). by exists e1'.
Qed.

(** What the mirror must provide: every frame the manager knows has a
    kernel-space address, below the end of the address space. *)
Record mirror_ok (c : Z) : Prop := {
  mi_base : (4096 | base) ∧ 0 ≤ base;
  mi_frames : ∀ i, 0 ≤ i < c → representable base (i * 4096);
  mi_end : base + c * 4096 < 2 ^ 64;
}.

Lemma virt_live c a n : mirror_ok c → live_ok c (a, n) →
  virt a = base + a ∧ 0 ≤ a ∧ base + a + n * 4096 < 2 ^ 64 ∧ (4096 | a).
Proof using.
  intros [[_ Hb0] Hf He] (Hn & (_ & Hi & _ & Hle) & Ha). cbn in Ha, Hn.
  unfold alloc_order in Hle. cbn [snd] in Hle.
  assert (n ≤ 2 ^ Z.log2_up n) as Hlog.
  { destruct (Z.eq_dec n 1) as [->|]; [done|]. apply Z.log2_up_spec. lia. }
  set (i := alloc_index (a, n)) in *. rewrite Ha, phys_to_virt_add by (apply Hf; lia).
  split_and!; [lia|lia|lia|by exists i].
Qed.

Lemma ist1_ok c a : mirror_ok c → live_ok c (a, 4) →
  ist1_top (virt a) = Ok (base + a + 4 * 4096) ∧ (16 | base + a + 4 * 4096).
Proof using.
  intros Hm Hl. destruct (virt_live c a 4 Hm Hl) as (-> & Ha0 & Hend & [i Hi]).
  destruct Hm as [[[q Hq] Hb0] _ _]. unfold ist1_top.
  change (mul_w 64 4 4096) with (Ok (4 * 4096)). checked_arith.
  split; [done|]. exists (q * 256 + i * 256 + 1024). lia.
Qed.

(** One allocation of the start-up sequence. *)
Lemma alloc_or_oom P0 m live F count : sys_inv P0 (m, live) F → 0 < count ≤ 256 →
  (∃ m' addr F', alloc_linear_pages m count = Ok (m', addr) ∧ mcap m' = mcap m ∧
     sys_inv P0 (m', (addr, count) :: live) F') ∨
  alloc_linear_pages m count = Err (PanicMsg "Out of physical memory").
Proof.
  intros HI Hc. destruct (alloc_linear_pages_pages m F count (si_inv _ _ _ HI) Hc)
    as [(m' & F1 & addr & Ha & _ & Hcap & _)|[Ha _]]; [left|by right].
  destruct (sys_inv_alloc P0 m live F count m' addr HI Hc Ha) as [F' HI'].
  by exists m', addr, F'.
Qed.

(** The last one, after the interrupt table was cleared. *)
Lemma alloc_after_zero P0 m live F p : sys_inv P0 (m, live) F →
  (∃ m' addr, alloc_linear_pages (zero_manager p m) 4 = Ok (m', addr) ∧ live_ok (mcap m) (addr, 4) ∧
     disjoint_live ((addr, 4) :: live) ∧ ∀ q, owns (addr, 4) q → P0 q) ∨
  alloc_linear_pages (zero_manager p m) 4 = Err (PanicMsg "Out of physical memory").
Proof.
  intros [[Hl Hi] _ _ Hd Hn Hp]. cbn [fst snd] in *.
  destruct (alloc_linear_heads (zero_manager p m) F 4) as [(m' & addr & -> & Hlive & Hpf)| ->];
    [done|by apply zero_manager_heads, inv_heads_ok|lia| |by right].
  left. exists m', addr. rewrite zero_manager_capacity in Hlive. split_and!; [done|done| |].
  - split; [|done]. intros b q Hb Ho Hob. by apply (Hn b q Hb Hob), Hpf.
  - intros q Hq. apply Hp. left. by apply Hpf.
Qed.

(** The memory of the tables: a page of slots, one TSS, and at least the bytes
    that are zeroed. *)
Definition tables_ok (mem : table_memory) : Prop :=
  Z.of_nat (length (tm_gdt mem)) = 512 ∧ length (tm_tss mem) = 1%nat ∧ idt_span ≤ Z.of_nat (length (tm_idt mem)).

(** The descriptor table as the processor sees it. *)
Definition gdt_ready (p : platform) : Prop :=
  load_tss (pl_gdtr p) (pl_gdt_mem p) (pl_tr p) = Some (base + pl_tss p, size_of_Tss - 1) ∧
  (selected (pl_gdtr p) (pl_gdt_mem p) (pl_cs p) 8 ≫= decode_code) = Some 0.

(** The descriptor table when its slots are all zero: the code selector names
    a null descriptor, and the task register's selector no TSS. *)
Definition gdt_lost (p : platform) : Prop :=
  selected (pl_gdtr p) (pl_gdt_mem p) (pl_cs p) 8 = Some 0 ∧
  load_tss (pl_gdtr p) (pl_gdt_mem p) (pl_tr p) = None.

(** What an interrupt needs: its gate, and the interrupt stack in the TSS; and
    what became of the descriptor table. *)
Record interrupts_ready (p : platform) : Prop := {
  ir_gates : ∀ v, 0 ≤ v < 256 →
    gate (pl_idtr p) (pl_idt_mem p) v = Some (mkGate (stub_addr v) SELECTOR_KERNEL_CODE 1 0x8E);
  ir_stack : ∃ t, pl_tss_mem p !! 0%nat = Some t ∧
    ist1 t = base + pl_stack p + 4 * 4096 ∧ (16 | ist1 t);
  ir_gdt : pl_idt p + idt_span ≤ pl_gdt p ∨ pl_gdt p + 4096 ≤ pl_idt p → gdt_ready p;
  ir_gdt_lost : pl_idt p ≤ pl_gdt p < pl_idt p + idt_span → gdt_lost p;
}.

(** The allocations of [init_platform] are disjoint pages of [P0]. *)
Record placed (P0 : Z → Prop) (c : Z) (l : list allocation) : Prop := {
  pc_live : Forall (live_ok c) l;
  pc_disjoint : disjoint_live l;
  pc_pages : ∀ a q, a ∈ l → owns a q → P0 q;
}.

Lemma placed_cons P0 m live F c a :
  sys_inv P0 (m, live) F → mcap m = c → live_ok c a → disjoint_live (a :: live) →
  (∀ q, owns a q → P0 q) → placed P0 c (a :: live).
Proof.
  intros HI <- Ha Hd Hp. split; [constructor; [done|apply HI]|done|].
  intros b q [->|Hb]%elem_of_cons Ho; [by apply Hp|]. apply (si_pages _ _ _ HI). eauto.
Qed.

(** The tables as [init_platform] leaves them. *)
Lemma tables_ready mem gdt tss idt stack c gdt_mem tss_mem :
  tables_ok mem → mirror_ok c → (∀ v, uint 64 (stub_addr v)) →
  live_ok c (gdt, 1) → live_ok c (tss, 1) → live_ok c (idt, 1) → live_ok c (stack, 4) →
  Gdt.init 1 (virt tss) (tm_gdt mem) (tm_tss mem) = Ok (gdt_mem, tss_mem) →
  ∃ idt_mem tss_mem', Interrupt.init stub_addr (tm_idt mem) = Ok idt_mem ∧
    set_ist1 (zero_array (virt idt) (virt tss) size_of_Tss zero_tss tss_mem) 0 (base + stack + 4 * 4096)
      = Ok tss_mem' ∧
    interrupts_ready (mkPlatform gdt tss idt stack
      (zero_array (virt idt) (virt gdt) size_of_GDTEntry 0 gdt_mem) tss_mem' idt_mem
      (mkGdtr 39 (virt gdt)) SELECTOR_KERNEL_CODE 24 (idt_desc (virt idt))).
Proof.
  intros (Hg & Hts & Hi) Hm Hst Lg Lt Li Ls Hinit.
  destruct (tm_tss mem) as [|t0 [|]]; try discriminate Hts.
  destruct (virt_live c gdt 1 Hm Lg) as (Vg & _ & _ & Ag), (virt_live c idt 1 Hm Li) as (Vi & _ & _ & Ai).
  destruct (virt_live c tss 1 Hm Lt) as (Vt & Ht0 & Ht1 & _).
  destruct Hm as [[[q Hq] Hb0] Hfr Hend] eqn:Em.
  destruct (tm_gdt mem) as [|g0 [|g1 [|g2 [|g3 [|g4 gs]]]]] eqn:Egdt; try (cbn in Hg; lia).
  assert (uint 64 (virt tss)) as Hu by (unfold uint; lia).
  rewrite init_one_core in Hinit by done. injection Hinit as <- <-.
  destruct (idt_init_ok stub_addr (tm_idt mem) Hi) as (idt_mem & Hidt & _ & Hslots & _).
  eexists idt_mem, _. split; [done|]. split; [reflexivity|].
  split; cbn [pl_gdt pl_tss pl_idt pl_stack pl_gdt_mem pl_tss_mem pl_idt_mem pl_gdtr pl_cs pl_tr pl_idtr].
  - intros v Hv. apply gate_stub_entry; [lia|cbn; lia|done|by apply Hslots].
  - eexists. split; [reflexivity|]. cbn. split; [done|].
    destruct (virt_live c stack 4 Hm Ls) as (_ & _ & _ & [i Hi']).
    exists (q * 256 + i * 256 + 1024). lia.
  - intros Hout. unfold gdt_ready.
    cbn [pl_gdt pl_tss pl_idt pl_stack pl_gdt_mem pl_tss_mem pl_idt_mem pl_gdtr pl_cs pl_tr pl_idtr].
    rewrite zero_array_outside.
    + split; [|reflexivity]. rewrite <- Vt. exact (tss_slots_decode (virt tss) Hu).
    + done.
    + rewrite Vg, Vi. unfold size_of_GDTEntry. cbn [length] in *. lia.
  - intros Hin. unfold gdt_lost. destruct Ag as [qg Hqg], Ai as [qi Hqi].
    cbn [pl_gdt pl_tss pl_idt pl_stack pl_gdt_mem pl_tss_mem pl_idt_mem pl_gdtr pl_cs pl_tr pl_idtr] in *.
    rewrite zero_array_inside.
    + cbn [length]. rewrite !replicate_S. by split.
    + done.
    + rewrite Vg, Vi. lia.
    + rewrite Vg, Vi. unfold idt_span, size_of_IDTEntry, size_of_GDTEntry in *. cbn [length] in *. lia.
Qed.

(** The interrupt table's page was free, and clearing from it on is not safe. *)
Definition clear_hits F : Prop :=
  ∃ q, page_free F q ∧ spares (q * 4096) = false.

(** Start-up runs out of memory, clears what it must not, or takes four
    allocations. *)
Lemma platform_effect_ok mem m F :
  pm_inv m F → (256 | mcap m) → mirror_ok (mcap m) → tables_ok mem → (∀ v, uint 64 (stub_addr v)) →
  match platform_effect base stub_addr spares mem m with
  | Ok (_, p) => placed (page_free F) (mcap m) (platform_allocs p) ∧ interrupts_ready p
  | Err e => e = PanicMsg "Out of physical memory" ∨ e = UB ∧ clear_hits F
  end.
Proof.
  intros Hi Ha Hm Ht Hst. assert (sys_inv (page_free F) (m, []) F) as HI.
  { split; try done; [by intros a p ?%not_elem_of_nil|]. intros p. split; [by left|].
    by intros [|(a & ?%not_elem_of_nil & _)]. }
  unfold platform_effect. change (platform_storage base) with facts_storage. change (num_gdt_pages 1) with (Ok 1). change (num_tss_pages 1) with (Ok 1).
  simpl_res. destruct (alloc_or_oom _ _ _ _ 1 HI ltac:(lia)) as [(m1 & g & F1 & -> & Hc1 & HI1)| ->]; [|by left].
  simpl_res. destruct (alloc_or_oom _ _ _ _ 1 HI1 ltac:(lia)) as [(m2 & t & F2 & -> & Hc2 & HI2)| ->]; [|by left].
  simpl_res. pose proof (si_live _ _ _ HI2) as Hl2. cbn in Hl2. rewrite Hc2, Hc1 in Hl2.
  apply Forall_cons in Hl2 as [Lt [Lg _]%Forall_cons].
  destruct (Gdt.init 1 (virt t) (tm_gdt mem) (tm_tss mem)) as [[gdt_mem tss_mem]|e] eqn:Hg.
  2:{ exfalso. destruct (virt_live _ t 1 Hm Lt) as (Vt & ? & ? & _), Ht as (Hg' & Hts & _).
      destruct (tm_tss mem) as [|t0 [|]]; try discriminate Hts.
      destruct (mi_base _ Hm) as [_ ?].
      destruct (tm_gdt mem) as [|? [|? [|? [|? [|? ?]]]]]; try (cbn in Hg'; lia).
      rewrite init_one_core in Hg by (unfold uint; lia). done. }
  simpl_res. change (init_core ?b 0) with (Ok (mkGdtr 39 b, SELECTOR_KERNEL_CODE, 24)). simpl_res.
  rewrite alloc_page_linear.
  destruct (alloc_or_oom _ _ _ _ 1 HI2 ltac:(lia)) as [(m3 & i & F3 & -> & Hc3 & HI3)| ->]; [|by left].
  simpl_res. pose proof (si_live _ _ _ HI3) as Hl3. cbn in Hl3. rewrite Hc3, Hc2, Hc1 in Hl3.
  apply Forall_cons in Hl3 as [Li _].
  destruct (spares i) eqn:Esp; unfold check, mret, res_ret; simpl_res.
  2:{ right. split; [done|]. exists (alloc_index (i, 1)). split; [|by rewrite <- (proj2 (proj2 Li))].
      apply (si_pages _ _ _ HI3). right. exists (i, 1). split; [left|].
      by apply (block_page_self (alloc_index (i, 1)) 0). }
  destruct (idt_init_ok stub_addr (tm_idt mem) (proj2 (proj2 Ht))) as (idt_mem & Hidt & _). rewrite Hidt. simpl_res.
  destruct (alloc_after_zero _ _ _ _ (virt i) HI3) as [(m4 & k & -> & Lk & Hd & Hp)| ->]; [|by left].
  simpl_res. rewrite Hc3, Hc2, Hc1 in Lk. destruct (ist1_ok _ k Hm Lk) as [-> _]. simpl_res.
  destruct (tables_ready mem g t i k (mcap m) gdt_mem tss_mem) as (im & tm & Hidt' & -> & Hr); try done.
  rewrite Hidt in Hidt'. injection Hidt' as <-. simpl_res. split; [|exact Hr].
  eapply placed_cons; [exact HI3|congruence|done..].
Qed.

(** The log lines change nothing and are plain. *)
Lemma init_platform_res verbose_logging mem m :
  lg_res (init_platform verbose_logging base stub_addr spares mem m) = platform_effect base stub_addr spares mem m.
Proof.
  unfold init_platform, platform_effect, gdt_init, interrupt_init, interrupt_init_core.
  change (num_gdt_pages 1) with (Ok 1). change (num_tss_pages 1) with (Ok 1). change (add_w 64 3 1) with (Ok 4).
  log_res. destruct (alloc_linear_pages m 1) as [[m1 g]|]; [|done]. log_res.
  destruct (alloc_linear_pages m1 1) as [[m2 t]|]; [|done]. log_res.
  destruct (Gdt.init 1 (virt t) (tm_gdt mem) (tm_tss mem)) as [[gm tm]|]; [|done]. log_res.
  cbn [gs_gdt gs_tss gs_gdt_mem gs_tss_mem].
  change (init_core ?b 0) with (Ok (mkGdtr 39 b, SELECTOR_KERNEL_CODE, 24)). log_res.
  destruct (alloc_page m2) as [[m3 i]|]; [|done]. log_res.
  unfold check. destruct (spares i); [|done]. log_res.
  unfold Interrupt.init. destruct (write_bytes (tm_idt mem) 0 4096) as [im0|]; [|done]. log_res.
  destruct (foldM _ im0 set_isrs) as [im|]; [|done]. log_res. cbn [gs_gdt gs_tss gs_gdt_mem gs_tss_mem].
  destruct (alloc_linear_pages (zero_manager (virt i) m3) 4) as [[m4 k]|]; [|done]. log_res.
  destruct (ist1_top (virt k)) as [top|]; [|done]. log_res.
  by destruct (set_ist1 _ 0 top).
Qed.

Lemma alloc_linear_pages_nonneg m count m' a : alloc_linear_pages m count = Ok (m', a) → 0 ≤ a.
Proof.
  intros E. unfold alloc_linear_pages, locked_op, with_guard in E.
  inv_bind E as ([[st b] l] & E & [= _ <-]). inv_bind E as (l' & _ & E). inv_bind E as ([st' b'] & E & [= _ <- _]).
  inv_bind E as (ord & _ & E). inv_bind E as ([st1 i] & _ & [= _ <-]).
  unfold index_to_addr, wrap. by apply Z.mod_pos_bound.
Qed.

Lemma virt_nonneg a : 0 ≤ base → 0 ≤ a → 0 ≤ virt a.
Proof. intros. by apply Z.lor_nonneg. Qed.

Lemma init_platform_plain verbose_logging mem m : 0 ≤ base →
  plain (init_platform verbose_logging base stub_addr spares mem m).
Proof.
  intros Hb. unfold init_platform. apply plain_bind; [|intros [m1 g] _].
  - unfold gdt_init. apply plain_bind; [apply plain_info; plain_literal|intros [] _].
    change (num_gdt_pages 1) with (Ok 1). apply plain_bind; [apply plain_quiet|intros n [= <-]].
    apply plain_bind; [apply plain_quiet|intros [m1 a] E]. rewrite lg_res_quiet in E.
    apply alloc_linear_pages_nonneg in E.
    pose proof (virt_nonneg a Hb E). change (add_w 64 3 1) with (Ok 4). rewrite bind_Ok.
    apply plain_bind; [apply plain_verbose; plain_text|intros [] _].
    apply plain_bind; [apply plain_quiet|intros n _]. apply plain_bind; [apply plain_quiet|intros [m2 b] _].
    apply plain_bind; [apply plain_quiet|intros [gm tm] _].
    apply plain_bind; [apply plain_info; plain_literal|intros [] _; apply plain_ret].
  - apply plain_bind; [apply plain_quiet|intros [[gdtr cs] tr] _]. apply plain_bind; [|intros [[[m2 g2] idt] im] _].
    + unfold interrupt_init. apply plain_bind; [apply plain_info; plain_literal|intros [] _].
      apply plain_bind; [apply plain_quiet|intros [m2 a] E]. rewrite lg_res_quiet, alloc_page_linear in E.
      apply alloc_linear_pages_nonneg in E. pose proof (virt_nonneg a Hb E).
      apply plain_bind; [apply plain_quiet|intros [] _].
      apply plain_bind; [apply plain_quiet|intros im0 _]. cbv zeta.
      apply plain_bind; [apply plain_verbose; plain_text|intros [] _].
      apply plain_bind; [apply plain_quiet|intros im _].
      apply plain_bind; [apply plain_info; plain_literal|intros [] _; apply plain_ret].
    + apply plain_bind; [apply plain_quiet|intros [[[m3 g3] k] d] _; apply plain_ret].
Qed.

(** C34: whenever [init_platform] returns, on any manager that satisfies the
    invariant, and the page it took for the interrupt table lies at most
    15 pages below the one of the descriptor table, clearing the interrupt
    table has zeroed the descriptor table that [gdt::init] had filled and
    loaded: the code selector names a null descriptor and the task register's
    selector no TSS. *)
Theorem init_platform_zeroes_gdt verbose_logging mem m F m' p :
  pm_inv m F → (256 | mcap m) → mirror_ok (mcap m) → tables_ok mem → (∀ v, uint 64 (stub_addr v)) →
  lg_res (init_platform verbose_logging base stub_addr spares mem m) = Ok (m', p) →
  pl_idt p ≤ pl_gdt p ≤ pl_idt p + 15 * 4096 →
  selected (pl_gdtr p) (pl_gdt_mem p) (pl_cs p) 8 = Some 0 ∧
  load_tss (pl_gdtr p) (pl_gdt_mem p) (pl_tr p) = None.
Proof.
  intros Hi Ha Hm Ht Hst Hp Hin. pose proof (platform_effect_ok mem m F Hi Ha Hm Ht Hst) as Hok.
  rewrite init_platform_res in Hp. rewrite Hp in Hok. apply (ir_gdt_lost _ (proj2 Hok)).
  unfold idt_span, size_of_IDTEntry. lia.
Qed.
End platform_facts.
