(* ===== verification/KernelMain.v ===== *)
(** * Starting the kernel ([kernel/src/main.rs]).

    [main] composes the components in the order of the code: the terminal, the
    physical memory manager, the virtual memory manager and the processor's
    tables.  It runs on what the bootloader hands over: the header, the memory
    behind its pointers and the page table in use.  The initialisers print as
    they go; the terminal and what they set up share no state, so that their
    lines are collected ([Log.logged]) and go to the terminal in their order,
    before the panic handler's when an initialiser panics.  The screen is
    memory behind a virtual address: before a table is used to print, every
    page of the framebuffer must translate to the screen's memory, otherwise
    the access faults, with no handler in place ([UB]).  [main] ends in its
    [loop {}] or in the one of the panic handler. *)
From stdpp Require Import base gmap numbers strings list.
From S2P Require Import Prelude.
From S2P Require Import KernelHeader.
From S2P Require Import VirtManager.
From S2P Require Import Mutex.
From S2P Require Import FreeList.
From S2P Require Import PhysManager.
From S2P Require Import PhysStorage.
From S2P Require Import BuddySpec.
From S2P Require Import PhysInvariant.
From S2P Require Import PhysSystem.
From S2P Require Import PhysInit.
From S2P Require Import PhysSafety.
From S2P Require Import Terminal.
From S2P Require Import TerminalTheorems.
From S2P Require Import Paging.
From S2P Require Import PagingTheorems.
From S2P Require Import Gdt.
From S2P Require Import Interrupt.
From S2P Require Import Fmt.
From S2P Require Import Log.
From S2P Require Import PhysLog.
From S2P Require Import Platform.

#[local] Open Scope Z_scope.

(** The memory the kernel finds: the framebuffer, at its physical address, the
    segments behind [memory_map], the page tables (address, words, [cr3]), the
    physical ranges (start and bytes) of the other memory the kernel runs on,
    its image, its stack, the header and the memory map, the entries free
    memory happens to hold, and the memory the descriptor tables will be
    placed in. *)
Record machine := mkMachine {
  mc_screen : Z;
  mc_vram : list Z;
  mc_map : list MemorySegment;
  mc_tables_ptr : Z;
  mc_tables : list Z;
  mc_cr3 : Z;
  mc_reserved : list (Z * Z);
  mc_heap : heap;
  mc_mem : table_memory;
}.

(** The kernel's statics and the machine once [main] loops. *)
Record kernel := mkKernel {
  k_base : Z;
  k_terminal : terminal;
  k_manager : PhysMemoryManager InlineStorage;
  k_tables : list Z;
  k_cr3 : Z;
  k_platform : platform;
}.

(** Where [main] ends: in its own loop, or in the panic handler's. *)
Inductive ending :=
  | Looping (k : kernel)
  | Panicked (t : terminal) (e : failure).

(** [slice::from_raw_parts_mut(kernel_header.memory_map, ...)] *)
Definition memory_map_slice (kh : KernelHeader) (mc : machine) : res (list MemorySegment) :=
  if memory_map_entries kh <=? Z.of_nat (length (mc_map mc))
  then mret (take (Z.to_nat (memory_map_entries kh)) (mc_map mc)) else Err UB.

(** Whether [bytes] bytes at [va] are the memory at [pa]: one access to each
    page they touch. *)
Definition range_mapped (ptr cr3 : Z) (tables : list Z) (va pa bytes : Z) : bool :=
  forallb (λ o, bool_decide (walk ptr tables cr3 (va + o) = Some (pa + o)))
    ((λ j, j * 4096) <$> seqZ 0 ((bytes + 4095) / 4096)) &&
  bool_decide (walk ptr tables cr3 (va + (bytes - 1)) = Some (pa + (bytes - 1))).

(** Printing with a table: the whole framebuffer must be there. *)
Definition touch_screen (kh : KernelHeader) (mc : machine) (tables : list Z) (cr3 : Z) : res unit :=
  check UB (range_mapped (mc_tables_ptr mc) cr3 tables (screen_buffer kh) (mc_screen mc) (screen_bytes kh)).

(** The physical memory that must survive while the kernel starts. *)
Definition kernel_memory (kh : KernelHeader) (mc : machine) : list (Z * Z) :=
  (mc_screen mc, screen_bytes kh) ::
  (mc_tables_ptr mc, 8 * Z.of_nat (length (mc_tables mc))) :: mc_reserved mc.

(** Whether [interrupt::init] can zero [idt_span] bytes from [idt] on and the
    kernel still runs. *)
Definition clear_spares (HIGH_MEM_BASE : Z) (kh : KernelHeader) (mc : machine) (tables : list Z)
    (cr3 idt : Z) : bool :=
  range_mapped (mc_tables_ptr mc) cr3 tables (phys_to_virt HIGH_MEM_BASE idt) idt idt_span &&
  forallb (λ '(a, n), (a + n <=? idt) || (idt + idt_span <=? a)) (kernel_memory kh mc).

Section boot.
Context `{Font} (verbose_logging : bool) (stub_addr : Z → Z) (panic_text : failure → list Z).

(** [pub fn init_phys_manager] *)
Definition init_phys_manager (HIGH_MEM_BASE : Z) (kh : KernelHeader) (mc : machine) :
    logged (PhysMemoryManager InlineStorage) :=
  map ← quiet (memory_map_slice kh mc);
  '(m, _) ← new_logged (H := boot_storage HIGH_MEM_BASE) verbose_logging (mc_heap mc) map;
  mret m.

(** [init] of [arch/x86_64/virt_manager.rs] *)
Definition arch_virt_init (HIGH_MEM_BASE : Z) (kh : KernelHeader) (mc : machine) : logged (list Z * Z) :=
  let pi := paging_info kh in
  tables ← quiet (foldM (clear_slot (mc_tables_ptr mc) (mc_cr3 mc) (page_buffer pi)) (mc_tables mc)
                    (seqZ 0 (pml4_entries pi)));
  _ ← quiet (touch_screen kh mc tables (mc_cr3 mc));
  _ ← log_verbose verbose_logging "VirtManager"
        (mret (chars "PML4 at phys address " ++ fmt_hex 16 (virt_to_phys HIGH_MEM_BASE (page_buffer pi))));
  mret (tables, virt_to_phys HIGH_MEM_BASE (page_buffer pi)).

(** [pub fn init_virt_manager] *)
Definition init_virt_manager (HIGH_MEM_BASE : Z) (kh : KernelHeader) (mc : machine) : logged (list Z * Z) :=
  _ ← log_info "VirtManager" "Starting initialization";
  _ ← log_verbose verbose_logging "VirtManager"
        (mret (chars "high_mem_base=" ++ fmt_hex 16 HIGH_MEM_BASE));
  '(tables, cr3) ← arch_virt_init HIGH_MEM_BASE kh mc;
  _ ← quiet (touch_screen kh mc tables cr3);
  _ ← log_info "VirtManager" "Initialized";
  mret (tables, cr3).

(** The lines [main] prints itself. *)
Definition banner : list line :=
  [mkLine LInfo (chars "Kernel") (chars "Starting kernel...");
   mkLine LWarning (chars "Test") (chars "Warning");
   mkLine LError (chars "Test") (chars "Error")].

(** The initialisers [main] calls once the terminal is up. *)
Definition initialise (HIGH_MEM_BASE : Z) (kh : KernelHeader) (mc : machine) :
    logged (PhysMemoryManager InlineStorage * list Z * Z * platform) :=
  m ← init_phys_manager HIGH_MEM_BASE kh mc;
  '(tables, cr3) ← init_virt_manager HIGH_MEM_BASE kh mc;
  '(m, p) ← init_platform verbose_logging HIGH_MEM_BASE stub_addr
              (clear_spares HIGH_MEM_BASE kh mc tables cr3) (mc_mem mc) m;
  mret (m, tables, cr3, p).

(** [fn main] *)
Definition main (kh : KernelHeader) (mc : machine) : res ending :=
  let HIGH_MEM_BASE := set_high_mem_base 0 (high_memory_base kh) in
  i ← Terminal.init kh;
  _ ← touch_screen kh mc (mc_tables mc) (mc_cr3 mc);
  t ← Terminal.clear 1 (mkTerminal i (mc_vram mc));
  t ← log_all 1 t banner;
  let run := initialise HIGH_MEM_BASE kh mc in
  t ← log_all 1 t (lg_lines run);
  match lg_res run with
  | Ok (m, tables, cr3, p) => mret (Looping (mkKernel HIGH_MEM_BASE t m tables cr3 p))
  | Err e =>
      if is_panic e then t ← panic_handler 1 t (panic_text e); mret (Panicked t e) else Err e
  end.
End boot.

(** ** Theorems *)

Lemma banner_plain : Forall plain_line banner.
Proof. unfold banner. repeat constructor; plain_literal. Qed.

(** A terminal that printed, and writes white on. *)
Definition terminal_white (t : terminal) : Prop :=
  terminal_ready t ∧ colors (info t) = (255, 255, 255).

Lemma terminal_start_ok `{FontLaws} kh mem :
  mode_ok kh → screen_bytes kh ≤ Z.of_nat (length mem) →
  ∃ i t t', Terminal.init kh = Ok i ∧ Terminal.clear 1 (mkTerminal i mem) = Ok t ∧ log_all 1 t banner = Ok t' ∧
    terminal_white t'.
Proof.
  intros Hmo Hmem. destruct (terminal_init_ok kh mem Hmo Hmem) as (i & Hi & Hok & Hl & Hm & _).
  pose proof (clear_ok 1 (mkTerminal i mem) ltac:(lia) Hok Hl) as Hc. cbn [info vram] in Hc.
  set (t := mkTerminal i _) in Hc at 2.
  destruct (log_all_ok 1 banner t) as (t' & Ht' & Hr & Hcol); [lia| |exact banner_plain|].
  - split; [|done]. apply (screen_ok_vram (mkTerminal i mem)); [done|].
    rewrite length_app, length_replicate, length_drop. cbn [vram].
    pose proof (so_vram _ Hok) as Hv. cbn [info vram] in Hv. lia.
  - exists i, t, t'. split_and!; [done..|]. split; [done|]. by apply Hcol.
Qed.

Lemma init_virt_manager_res verbose_logging base kh mc tables cr3 :
  virt_manager_init (mc_tables_ptr mc) (mc_cr3 mc) base (paging_info kh) (mc_tables mc) = Ok (tables, cr3) →
  touch_screen kh mc tables (mc_cr3 mc) = Ok tt → touch_screen kh mc tables cr3 = Ok tt →
  lg_res (init_virt_manager verbose_logging base kh mc) = Ok (tables, cr3).
Proof.
  unfold init_virt_manager, arch_virt_init, virt_manager_init. intros Hv H1 H2. log_res.
  destruct (foldM _ _ _) as [ts|]; [|done]. injection Hv as -> <-. log_res. rewrite H1. log_res.
  rewrite H2. by log_res.
Qed.

Lemma init_virt_manager_plain verbose_logging base kh mc : 0 ≤ base →
  plain (init_virt_manager verbose_logging base kh mc).
Proof.
  intros Hb. assert (0 ≤ virt_to_phys base (page_buffer (paging_info kh))).
  { apply Z.land_nonneg. right. by apply Z.lxor_nonneg. }
  unfold init_virt_manager, arch_virt_init. apply plain_bind; [apply plain_info; plain_literal|intros [] _].
  apply plain_bind; [apply plain_verbose; plain_text|intros [] _]. apply plain_bind.
  - apply plain_bind; [apply plain_quiet|intros tables _]. apply plain_bind; [apply plain_quiet|intros [] _].
    apply plain_bind; [apply plain_verbose; plain_text|intros [] _; apply plain_ret].
  - intros [tables cr3] _. apply plain_bind; [apply plain_quiet|intros [] _].
    apply plain_bind; [apply plain_info; plain_literal|intros [] _; apply plain_ret].
Qed.

(** A range is mapped when its bytes are. *)
Lemma range_mapped_ok ptr cr3 tables va pa bytes : 0 < bytes →
  (∀ o, 0 ≤ o < bytes → walk ptr tables cr3 (va + o) = Some (pa + o)) →
  range_mapped ptr cr3 tables va pa bytes = true.
Proof.
  intros Hb Hw. unfold range_mapped. apply andb_true_intro. split; [|apply bool_decide_eq_true, Hw; lia].
  apply forallb_forall. intros o Ho. apply bool_decide_eq_true, Hw.
  apply list_elem_of_In, list_elem_of_fmap in Ho as (j & -> & Hj%elem_of_seqZ).
  assert ((bytes + 4095) / 4096 * 4096 ≤ bytes + 4095) by (rewrite Z.mul_comm; apply Z.mul_div_le; lia). lia.
Qed.

(** The 64 KiB from a page on leave the memory below [s], or hold memory the
    kernel runs on. *)
Definition clear_endangers (s : Z) (kh : KernelHeader) (mc : machine) (q : Z) : Prop :=
  s < q * 4096 + idt_span ∨
  ∃ a n x, (a, n) ∈ kernel_memory kh mc ∧ a ≤ x < a + n ∧ q * 4096 ≤ x < q * 4096 + idt_span.

Lemma clear_spares_false base kh mc tables cr3 s q : 0 ≤ q →
  (∀ pa, 0 ≤ pa ≤ s → walk (mc_tables_ptr mc) tables cr3 (phys_to_virt base pa) = Some pa) →
  (∀ pa, 0 ≤ pa ≤ s → phys_to_virt base pa = base + pa) →
  Forall (λ '(_, n), 0 < n) (kernel_memory kh mc) →
  clear_spares base kh mc tables cr3 (q * 4096) = false → clear_endangers s kh mc q.
Proof.
  intros Hq Hw Hadd Hpos Hf. destruct (Z.lt_ge_cases s (q * 4096 + idt_span)) as [|Hs]; [by left|right].
  unfold clear_spares in Hf. rewrite range_mapped_ok in Hf; [|done|].
  2:{ intros o Ho. rewrite Hadd, <- Z.add_assoc, <- Hadd by lia. apply Hw. lia. }
  cbn [andb] in Hf. apply not_true_iff_false in Hf. rewrite forallb_forall in Hf.
  destruct (decide (Exists (λ '(a, n), a < q * 4096 + idt_span ∧ q * 4096 < a + n) (kernel_memory kh mc))) as [He|Hn].
  - apply Exists_exists in He as ([a n] & Hel & Ho). rewrite Forall_forall in Hpos. specialize (Hpos _ Hel).
    cbn in Hpos. exists a, n, (Z.max a (q * 4096)). unfold idt_span, size_of_IDTEntry in *. split; [done|]. lia.
  - destruct Hf. intros [a n] Hel%list_elem_of_In. apply orb_true_intro.
    destruct (Z.leb_spec (a + n) (q * 4096)); [by left|right]. apply Z.leb_le.
    destruct (Z.le_gt_cases (q * 4096 + idt_span) a); [done|]. destruct Hn. apply Exists_exists.
    exists (a, n). split; [done|lia].
Qed.

(** When the initialisers' lines are plain, [main] ends as they do. *)
Lemma main_ends `{FontLaws} verbose_logging stub_addr panic_text kh mc :
  mode_ok kh → screen_bytes kh ≤ Z.of_nat (length (mc_vram mc)) → (∀ e, 27 ∉ panic_text e) →
  touch_screen kh mc (mc_tables mc) (mc_cr3 mc) = Ok tt →
  plain (initialise verbose_logging stub_addr (high_memory_base kh) kh mc) →
  ∃ t, terminal_white t ∧ main verbose_logging stub_addr panic_text kh mc =
    match lg_res (initialise verbose_logging stub_addr (high_memory_base kh) kh mc) with
    | Ok (m, tables, cr3, p) => Ok (Looping (mkKernel (high_memory_base kh) t m tables cr3 p))
    | Err e => if is_panic e then Ok (Panicked t e) else Err e
    end.
Proof.
  intros Hmo Hv Hpt Hts Hp. destruct (terminal_start_ok kh (mc_vram mc) Hmo Hv)
    as (i & t0 & t & Hi & Hc & Hb & [Hr Hcol]).
  unfold main. rewrite Hi. simpl_res. rewrite Hts. simpl_res. rewrite Hc. simpl_res. rewrite Hb. simpl_res.
  change (set_high_mem_base 0 (high_memory_base kh)) with (high_memory_base kh).
  set (run := initialise _ _ _ _ _) in *.
  destruct (log_all_ok 1 (lg_lines run) t) as (t1 & Ht1 & Hr1 & Hcol1); [lia|done..|].
  rewrite Ht1. simpl_res. assert (colors (info t1) = (255, 255, 255)) as Hc1.
  { destruct (lg_lines run) eqn:E; [|by apply Hcol1]. by injection Ht1 as <-. }
  destruct (lg_res run) as [[[[m tables] cr3] p]|e] eqn:E; [by exists t1|].
  destruct (is_panic e); [|by exists t1]. unfold panic_handler.
  destruct (log_ok 1 t1 (mkLine LError (chars "===PANIC===") (panic_text e))) as (t2 & -> & Hr2 & Hc2);
    [lia|done|split; [plain_literal|by apply Hpt]|]. by exists t2.
Qed.

(** What the bootloader hands over on a machine with [s] bytes of memory: a
    usable screen whose framebuffer is part of the memory, a sane memory map,
    the table that [platform_init] built (its own pages are memory too), and
    the memory for the descriptor tables. *)
Record handed_over `{PageSource} (s ptr : Z) (ws : list Z) (top : Z) (kh : KernelHeader) (mc : machine)
    (p : paging) : Prop := {
  hv_mode : mode_ok kh;
  hv_vram : screen_bytes kh ≤ Z.of_nat (length (mc_vram mc));
  hv_screen : 0 ≤ mc_screen mc ∧ mc_screen mc + screen_bytes kh ≤ s ∧
    screen_buffer kh = phys_to_virt (high_memory_base kh) (mc_screen mc);
  hv_reserved : Forall (λ '(_, n), 0 < n) (mc_reserved mc);
  hv_entries : 0 ≤ memory_map_entries kh ≤ Z.of_nat (length (mc_map mc));
  hv_map : boot_ok (high_memory_base kh) top (take (Z.to_nat (memory_map_entries kh)) (mc_map mc));
  hv_mirror : 64 * inline_words top * 4096 < 2 ^ 64 - high_memory_base kh;
  hv_alloc : allocate_pages (ts_alloc_pages (sizes s)) = Some (ptr, ws);
  hv_paging : platform_init s = Ok p;
  hv_base : high_memory_base kh = pg_base p;
  hv_info : paging_info kh = pg_info p;
  hv_tables : mc_tables_ptr mc = ptr ∧ mc_tables mc = pg_words p ∧ mc_cr3 mc = pg_cr3 p;
  hv_table_pages : ptr + (1 + (covered s / 2 ^ 39 + 1) + (covered s / 2 ^ 30 + 1)) * 4096 ≤ s;
  hv_mem : tables_ok (mc_mem mc);
}.

Section start.
Context `{FontLaws} `{PageSourceLaws} (verbose_logging : bool) (stub_addr : Z → Z)
  (panic_text : failure → list Z) (s ptr : Z) (ws : list Z) (k : Z).
Context (Hs : 0 ≤ s < 2 ^ 47) (Hk : 0 ≤ k) (Hn4 : covered s / 2 ^ 39 + 1 = 2 ^ k).
Context (Hstub : ∀ v, uint 64 (stub_addr v)) (Htext : ∀ e, 27 ∉ panic_text e).

(** The top-level slots of the table the kernel runs on: the identity mapping
    is gone, and what is unmapped below the upper half. *)
Definition identity_gone (tables : list Z) (cr3 : Z) : Prop :=
  (∀ va, 0 ≤ va < 2 ^ (k + 39) → walk ptr tables cr3 va = None) ∧
  (∀ va e, 2 ^ (k + 39) ≤ va < 2 ^ 47 → ws !! Z.to_nat (va / 2 ^ 39) = Some e →
     Z.testbit e 0 = false → walk ptr tables cr3 va = None).

Lemma identity_slots tables :
  allocate_pages (ts_alloc_pages (sizes s)) = Some (ptr, ws) →
  (∀ j, 0 ≤ j < covered s / 2 ^ 39 + 1 → tables !! Z.to_nat j = Some 0) →
  (∀ j, covered s / 2 ^ 39 + 1 ≤ j < 512 - (covered s / 2 ^ 39 + 1) →
     tables !! Z.to_nat j = ws !! Z.to_nat j) → identity_gone tables ptr.
Proof using All.
  intros Ha Hzero Hmid. pose proof (pages_words _ _ _ Ha) as Hl. cbn in Hl.
  pose proof (unmapped_walk s ptr ws Hs Ha k Hk Hn4 tables Hl Hzero Hmid) as Hw.
  pose proof (covered_ranges s) as (Hr & _). split.
  - intros va Hva. rewrite Z.pow_add_r, <- Hn4 in Hva by lia. apply Hw; [lia|]. intros e Hle.
    assert (va / 2 ^ 39 < covered s / 2 ^ 39 + 1) by (apply Z.div_lt_upper_bound; lia). lia.
  - intros va e Hva He Hb. rewrite Z.pow_add_r, <- Hn4 in Hva by lia. apply Hw; [lia|].
    intros e' _ E. by simplify_eq.
Qed.

Lemma tables_nonempty p : allocate_pages (ts_alloc_pages (sizes s)) = Some (ptr, ws) →
  platform_init s = Ok p → 0 < 8 * Z.of_nat (length (pg_words p)).
Proof using All.
  intros Ha Hp. destruct (platform_init_ok s ptr ws (proj1 Hs) Ha) as (p' & Hp' & _ & Hlen & _).
  assert (p' = p) as -> by congruence. rewrite Hlen. pose proof (pages_words _ _ _ Ha) as Hl. cbn in Hl.
  pose proof (covered_ranges s). lia.
Qed.

Lemma screen_bytes_pos kh : mode_ok kh → 0 < screen_bytes kh.
Proof. intros [Hw Hh _]. unfold screen_bytes. nia. Qed.

(** Every kernel-space address of the memory below [s], and so the screen's,
    is the sum of the base and the physical address. *)
Lemma handed_over_add top kh mc p pa : handed_over s ptr ws top kh mc p → 0 ≤ pa ≤ s →
  phys_to_virt (high_memory_base kh) pa = high_memory_base kh + pa.
Proof using All.
  intros Hv Hpa. rewrite (hv_base _ _ _ _ _ _ _ Hv).
  by destruct (kernelspace_walk s ptr ws Hs (hv_alloc _ _ _ _ _ _ _ Hv) k Hk Hn4 p pa
    (hv_paging _ _ _ _ _ _ _ Hv) Hpa) as (_ & _ & ? & _).
Qed.

Lemma screen_mapped top kh mc p tables cr3 : handed_over s ptr ws top kh mc p →
  (∀ pa, 0 ≤ pa ≤ s → walk ptr tables cr3 (phys_to_virt (high_memory_base kh) pa) = Some pa) →
  touch_screen kh mc tables cr3 = Ok tt.
Proof using All.
  intros Hv Hw. destruct (hv_screen _ _ _ _ _ _ _ Hv) as (Hsc & He & Hb).
  pose proof (screen_bytes_pos kh (hv_mode _ _ _ _ _ _ _ Hv)) as Hp.
  unfold touch_screen. rewrite range_mapped_ok; [done|done|]. intros o Ho.
  rewrite (proj1 (hv_tables _ _ _ _ _ _ _ Hv)), Hb, (handed_over_add _ _ _ _ _ Hv) by lia.
  rewrite <- Z.add_assoc, <- (handed_over_add _ _ _ _ _ Hv) by lia. apply Hw. lia.
Qed.

(** What [main] sets up before the processor's tables. *)
Lemma initialise_ok top kh mc p : handed_over s ptr ws top kh mc p →
  (verbose_logging = true → 64 * inline_words top < 2 ^ 31) →
  let base := high_memory_base kh in
  ∃ m F tables,
    pm_inv (H := boot_storage base) (H0 := boot_laws base) m F ∧
    (256 | capacity (H := boot_storage base) (storage (pm_buddy m))) ∧
    mirror_ok base (capacity (H := boot_storage base) (storage (pm_buddy m))) ∧
    (∀ q, page_free F q → in_segs (free_segs (take (Z.to_nat (memory_map_entries kh)) (mc_map mc))) q) ∧
    identity_gone tables ptr ∧
    (∀ pa, 0 ≤ pa ≤ s → walk ptr tables ptr (phys_to_virt base pa) = Some pa) ∧
    touch_screen kh mc (mc_tables mc) (mc_cr3 mc) = Ok tt ∧
    plain (initialise verbose_logging stub_addr base kh mc) ∧
    lg_res (initialise verbose_logging stub_addr base kh mc) =
      ('(m, p) ← platform_effect base stub_addr (clear_spares base kh mc tables ptr) (mc_mem mc) m;
       mret (m, tables, ptr, p)).
Proof using All.
  intros Hv Hcnt. pose proof Hv as [_ _ _ _ [He0 He] Hboot Hmir Ha Hpl Hbase Hinfo (Hp1 & Hp2 & Hp3) Hmem Htm].
  set (map := take _ (mc_map mc)) in *.
  destruct (inline_new_pages (high_memory_base kh) (mc_heap mc) top map Hboot)
    as (m & F & a & mm' & Hnew & Hi & Hcap & H256 & Hsegs & _ & Hp).
  destruct (unmap_identity s ptr ws Hs Ha k Hk Hn4 Hmem)
    as (p' & tables & Hpl' & Hvm & _ & Hzero & Hmid & Hhigh).
  assert (p' = p) as -> by congruence.
  destruct (kernelspace_walk s ptr ws Hs Ha k Hk Hn4 p 0 Hpl ltac:(lia)) as (Hcr3 & Hpb & _).
  assert ((4096 | pg_base p) ∧ 0 ≤ pg_base p) as Hb4.
  { rewrite Hpb, Hn4. pose proof (covered_ranges s) as (? & _).
    split; [exists (2 ^ 52 - 2 ^ k * 2 ^ 27); lia|lia]. }
  rewrite <- Hbase in *. cbv zeta. exists m, F, tables.
  destruct (new_logged_ok (H := boot_storage (high_memory_base kh)) (H0 := boot_laws (high_memory_base kh))
    verbose_logging (mc_heap mc) map m mm' F) as (Hres & Hplain & _); try done.
  { apply Hboot. } { by rewrite Hcap. }
  assert (lg_res (init_phys_manager verbose_logging (high_memory_base kh) kh mc) = Ok m) as Hm.
  { unfold init_phys_manager, memory_map_slice. rewrite (proj2 (Z.leb_le _ _)) by done. log_res. fold map.
    by rewrite Hres. }
  assert (lg_res (init_virt_manager verbose_logging (high_memory_base kh) kh mc) = Ok (tables, ptr)) as Hvi.
  { apply init_virt_manager_res; [by rewrite Hinfo, Hp1, Hp2, Hp3|..]; eapply screen_mapped; try done.
    by rewrite Hp3, Hcr3. }
  split_and!; try done.
  - rewrite Hcap. split; [done|apply (bo_mirror _ _ _ Hboot)|lia].
  - intros q Hq. by apply (proj1 (Hp q)).
  - by apply identity_slots.
  - eapply screen_mapped; [done|]. intros pa Hpa. rewrite Hp2, Hp3, Hbase, Hcr3.
    destruct (kernelspace_walk s ptr ws Hs Ha k Hk Hn4 p pa Hpl Hpa) as (_ & _ & _ & _ & Hw & _).
    by rewrite Hcr3 in Hw.
  - unfold initialise. apply plain_bind; [|intros m1 _].
    + unfold init_phys_manager, memory_map_slice. rewrite (proj2 (Z.leb_le _ _)) by done.
      apply plain_bind; [apply plain_quiet|intros l [= <-]]. fold map.
      apply plain_bind; [done|intros [m1 mm1] _; apply plain_ret].
    + apply plain_bind; [by apply init_virt_manager_plain, Hb4|intros [ts c] _].
      apply plain_bind; [by apply init_platform_plain, Hb4|intros [m2 pl] _; apply plain_ret].
  - unfold initialise. log_res. rewrite Hm. log_res. rewrite Hvi. log_res. rewrite init_platform_res.
    by destruct (platform_effect _ _ _ _ _) as [[m' pl]|]; log_res.
Qed.

(** How [main] ends. *)
Definition main_outcome (kh : KernelHeader) (mc : machine) (o : res ending) : Prop :=
  let map := take (Z.to_nat (memory_map_entries kh)) (mc_map mc) in
  match o with
  | Ok (Looping r) =>
      terminal_white (k_terminal r) ∧ identity_gone (k_tables r) (k_cr3 r) ∧
      (∀ pa, 0 ≤ pa ≤ s → walk ptr (k_tables r) (k_cr3 r) (phys_to_virt (k_base r) pa) = Some pa) ∧
      (∀ a b rest x, platform_allocs (k_platform r) ≡ₚ a :: b :: rest →
         PhysSafety.covers a x → ¬ PhysSafety.covers b x) ∧
      (∀ a x, a ∈ platform_allocs (k_platform r) → PhysSafety.covers a x →
         in_segs (free_segs map) (x / 4096)) ∧
      interrupts_ready (k_base r) stub_addr (k_platform r)
  | Ok (Panicked t e) => terminal_white t ∧ e = PanicMsg "Out of physical memory"
  | Err e => e = UB ∧ ∃ q, in_segs (free_segs map) q ∧ clear_endangers s kh mc q
  end.

Lemma main_ok top kh mc p : handed_over s ptr ws top kh mc p →
  (verbose_logging = true → 64 * inline_words top < 2 ^ 31) →
  main_outcome kh mc (main verbose_logging stub_addr panic_text kh mc).
Proof using All.
  intros Hv Hcnt. destruct (initialise_ok top kh mc p Hv Hcnt)
    as (m & F & tables & Hi & H256 & Hm & Hfree & Hlow & Hhigh & Hts & Hplain & Hres).
  destruct (main_ends verbose_logging stub_addr panic_text kh mc) as (t & Ht & ->);
    [apply Hv|apply Hv|done|done|done|]. rewrite Hres. unfold main_outcome. cbv zeta.
  pose proof (platform_effect_ok _ stub_addr (clear_spares (high_memory_base kh) kh mc tables ptr)
    (mc_mem mc) m F Hi H256 Hm (hv_mem _ _ _ _ _ _ _ Hv) Hstub) as Hplat.
  destruct (platform_effect _ stub_addr _ (mc_mem mc) m) as [[m' pl]|e].
  2:{ destruct Hplat as [-> |[-> (q & Hq & Hsp)]]; [by split|]. cbn. split; [done|]. exists q.
      split; [by apply Hfree|]. eapply clear_spares_false; [| | | |exact Hsp].
      - apply Hfree in Hq as (sg & Hsg & Hq). destruct (hv_map _ _ _ _ _ _ _ Hv) as [Hsegs _ _ _ _ _ _].
        apply list_elem_of_filter in Hsg as [_ Hsg]. rewrite Forall_forall in Hsegs.
        by apply (seg_page_bound sg q (Hsegs sg Hsg)).
      - by rewrite (proj1 (hv_tables _ _ _ _ _ _ _ Hv)).
      - intros pa Hpa. by eapply handed_over_add.
      - constructor; [by apply screen_bytes_pos; apply Hv|]. constructor; [|apply Hv].
        destruct (hv_tables _ _ _ _ _ _ _ Hv) as (_ & -> & _). by apply (tables_nonempty p); apply Hv. }
  destruct Hplat as [[Hlive Hdis Hpages] Hready]. rewrite bind_Ok. unfold mret, res_ret.
  cbn [k_terminal k_tables k_cr3 k_base k_platform].
  rewrite Forall_forall in Hlive.
  assert (∀ b x, b ∈ platform_allocs pl → PhysSafety.covers b x → owns b (x / 4096)) as Hown
    by (intros b x Hel; eapply covers_owns; by apply Hlive).
  split_and!; try done.
  - intros b c rest x Hperm Hxb Hxc.
    assert (b ∈ platform_allocs pl ∧ c ∈ platform_allocs pl) as [Heb Hec]
      by (rewrite Hperm; split; [left|right; left]).
    rewrite Hperm in Hdis. destruct Hdis as [Hd _]. apply (Hd c (x / 4096)); [left|auto..].
  - intros b x Hel Hx. apply Hfree, (Hpages b); auto.
Qed.

(** C8: on a machine that the bootloader prepared ([handed_over]: memory below
    128 TiB with a power of two of PML4 entries, the framebuffer inside it, a
    memory map whose bitmap covers whole blocks of 256 pages), with or without
    the verbose log (with it, fewer than [2 ^ 31] pages), panic messages
    without escape characters: [main] ends in a loop, unless [interrupt::init] zeroes memory the kernel runs on, which it
    does only when the end of the memory, the screen, the page tables or a
    reserved range lies within 64 KiB after the start of a page the memory
    map calls free.  It loops in the panic handler only when memory runs out,
    after the message is on the screen, and otherwise in [main], with a
    working terminal, the identity mapping removed (in the rest of the lower
    half an address is unmapped if its PML4 slot was not present in the
    firmware's buffer) and every kernel-space pointer still translating to its
    physical address, the descriptor tables and the interrupt stack in
    pairwise disjoint pages that the memory map calls free, a gate for every
    vector, and the top of the interrupt stack in the TSS; the descriptor
    table is intact unless it lies in the 64 KiB from the interrupt table on,
    and zeroed when it does. *)
Theorem main_starts_kernel top kh mc p : handed_over s ptr ws top kh mc p →
  (verbose_logging = true → 64 * inline_words top < 2 ^ 31) →
  match main verbose_logging stub_addr panic_text kh mc with
  | Ok (Looping r) =>
      terminal_white (k_terminal r) ∧ identity_gone (k_tables r) (k_cr3 r) ∧
      (∀ pa, 0 ≤ pa ≤ s → walk ptr (k_tables r) (k_cr3 r) (phys_to_virt (k_base r) pa) = Some pa) ∧
      (∀ a b rest x, platform_allocs (k_platform r) ≡ₚ a :: b :: rest →
         PhysSafety.covers a x → ¬ PhysSafety.covers b x) ∧
      (∀ a x, a ∈ platform_allocs (k_platform r) → PhysSafety.covers a x →
         in_segs (free_segs (take (Z.to_nat (memory_map_entries kh)) (mc_map mc))) (x / 4096)) ∧
      interrupts_ready (k_base r) stub_addr (k_platform r)
  | Ok (Panicked t e) => terminal_white t ∧ e = PanicMsg "Out of physical memory"
  | Err e => e = UB ∧ ∃ q, clear_endangers s kh mc q ∧
      in_segs (free_segs (take (Z.to_nat (memory_map_entries kh)) (mc_map mc))) q
  end.
Proof using All.
  intros Hv Hcnt. pose proof (main_ok top kh mc p Hv Hcnt) as Hm. unfold main_outcome in Hm. cbv zeta in Hm.
  destruct (main _ _ _ _ _) as [[r|t e]|e]; [done|done|]. destruct Hm as (-> & q & ? & ?). eauto.
Qed.
End start.

(** ** Concrete machines *)

#[local] Existing Instance demo_font.
#[local] Existing Instance demo_font_laws.
#[local] Existing Instance demo_source.
#[local] Existing Instance demo_source_laws.

Definition start_paging : paging :=
  match platform_init 0x1000000 with
  | Ok p => p
  | Err _ => mkPaging 0 (mkPagingInfo 0 0 0 0) [] 0
  end.

(** A screen of 48 by 48 pixels, at 15 MiB, and a map of [n] segments. *)
Definition demo_kernel_header (n : Z) : KernelHeader :=
  mkKernelHeader (ptr_to_kernelspace (pg_base start_paging) 0xF00000) 48 48 50 BGR (pg_info start_paging) 0 n (pg_base start_paging).

(** A machine whose memory is full of old values. *)
Definition demo_machine (map : list MemorySegment) : machine :=
  mkMachine 0xF00000 demo_mem map 0x200000 (pg_words start_paging) (pg_cr3 start_paging)
    [(0x300000, 0x400000)] ∅
    (mkTableMemory (replicate 512 7) [mkTss 9 9 9 9 9 9 9 9 9 9 9 9 9 9] (replicate (Z.to_nat 65536) 7)).

Lemma demo_mode_ok n : mode_ok (demo_kernel_header n).
Proof. by split. Qed.

Lemma demo_screen_fits n map :
  screen_bytes (demo_kernel_header n) ≤ Z.of_nat (length (mc_vram (demo_machine map))).
Proof. vm_compute. discriminate. Qed.

Lemma demo_screen_there n map :
  touch_screen (demo_kernel_header n) (demo_machine map) (mc_tables (demo_machine map))
    (mc_cr3 (demo_machine map)) = Ok tt.
Proof. vm_compute. reflexivity. Qed.

(** What a panic message reads. *)
Definition demo_text (_ : failure) : list Z := chars "panicked at the demonstration".

Lemma demo_text_plain e : 27 ∉ demo_text e.
Proof. plain_literal. Qed.

(** What the initialisers, with the verbose log, end with, tested. *)
Definition initialise_ends (n : Z) (map : list MemorySegment) (f : platform → bool) : bool :=
  let kh := demo_kernel_header n in
  match lg_res (initialise true demo_stub_addr (high_memory_base kh) kh (demo_machine map)) with
  | Ok (_, _, _, p) => f p
  | Err _ => false
  end.

Lemma initialise_ends_main n map f :
  plain (initialise true demo_stub_addr (high_memory_base (demo_kernel_header n)) (demo_kernel_header n)
    (demo_machine map)) →
  initialise_ends n map f = true →
  ∃ r, main true demo_stub_addr demo_text (demo_kernel_header n) (demo_machine map) = Ok (Looping r) ∧
    f (k_platform r) = true.
Proof.
  intros Hp Hf. destruct (main_ends true demo_stub_addr demo_text (demo_kernel_header n) (demo_machine map)
    (demo_mode_ok n) (demo_screen_fits n map) demo_text_plain (demo_screen_there n map) Hp) as (t & _ & ->).
  unfold initialise_ends in Hf. cbv zeta in Hf. destruct (lg_res _) as [[[[m ts] c] pl]|]; [|done].
  eexists. split; [reflexivity|done].
Qed.

Lemma demo_handed_over :
  handed_over 0x1000000 0x200000 (replicate (Z.to_nat (3 * 512)) 0xDEADBEEF) 1048576
    (demo_kernel_header 1) (demo_machine demo_map) start_paging.
Proof.
  split; [apply demo_mode_ok|apply demo_screen_fits
    |split; [done|]; split; [vm_compute; discriminate|reflexivity]|repeat constructor|done|exact demo_boot_ok|reflexivity|reflexivity
    |vm_compute; reflexivity|reflexivity|reflexivity|done|vm_compute; discriminate|].
  split; [reflexivity|]. split; [reflexivity|]. cbn [demo_machine mc_mem tm_idt]. rewrite length_replicate. done.
Qed.

Lemma demo_initialise_plain n map :
  forallb (λ l, forallb (λ c, negb (c =? 27)) (ln_ctx l ++ ln_body l))
    (lg_lines (initialise true demo_stub_addr (high_memory_base (demo_kernel_header n)) (demo_kernel_header n)
      (demo_machine map))) = true →
  plain (initialise true demo_stub_addr (high_memory_base (demo_kernel_header n)) (demo_kernel_header n)
    (demo_machine map)).
Proof.
  unfold plain. generalize (lg_lines (initialise true demo_stub_addr
    (high_memory_base (demo_kernel_header n)) (demo_kernel_header n) (demo_machine map))). intros ls Hls.
  apply Forall_forall. intros l Hl. rewrite forallb_forall in Hls. apply list_elem_of_In, Hls in Hl.
  rewrite forallb_forall in Hl. split; intros Hel; specialize (Hl 27); rewrite <- list_elem_of_In, elem_of_app in Hl;
    discriminate Hl; auto.
Qed.

Lemma main_starts_kernel_witness :
  ∃ r, main true demo_stub_addr demo_text (demo_kernel_header 1) (demo_machine demo_map) = Ok (Looping r) ∧
    terminal_white (k_terminal r) ∧
    identity_gone 0x200000 (replicate (Z.to_nat (3 * 512)) 0xDEADBEEF) 0 (k_tables r) (k_cr3 r) ∧
    interrupts_ready (k_base r) demo_stub_addr (k_platform r) ∧ gdt_ready (k_base r) (k_platform r).
Proof.
  pose proof (main_starts_kernel true demo_stub_addr demo_text 0x1000000 0x200000
    (replicate (Z.to_nat (3 * 512)) 0xDEADBEEF) 0 ltac:(lia) ltac:(lia) eq_refl
    (λ v, Z.mod_pos_bound _ (2 ^ 64) eq_refl) demo_text_plain 1048576 _ _ _ demo_handed_over
    (λ _, eq_refl)) as H.
  destruct (initialise_ends_main 1 demo_map (λ p, pl_gdt p + 4096 <=? pl_idt p)) as (r & Er & Hd).
  { apply demo_initialise_plain. vm_compute. reflexivity. } { vm_compute. reflexivity. }
  rewrite Er in H. destruct H as (Hw & Hid & _ & _ & _ & Hr).
  exists r. split; [exact Er|]. split; [exact Hw|]. split; [exact Hid|]. split; [exact Hr|].
  apply (ir_gdt _ _ _ Hr). right. by apply Z.leb_le.
Defined.

(** Free memory in single pages, as between the pieces of a firmware. *)
Definition fragmented_map : list MemorySegment :=
  [mkMemorySegment 0 1 Free; mkMemorySegment (20 * 4096) 1 Free; mkMemorySegment (24 * 4096) 1 Free;
   mkMemorySegment (28 * 4096) 1 Free; mkMemorySegment (64 * 4096) 64 Free;
   mkMemorySegment (128 * 4096) 128 Occupied].

(** On such a machine [main] reaches its loop with a broken descriptor table. *)
Example main_zeroes_its_tables :
  ∃ r, main true demo_stub_addr demo_text (demo_kernel_header 6) (demo_machine fragmented_map)
      = Ok (Looping r) ∧
    pl_idt (k_platform r) < pl_gdt (k_platform r) < pl_idt (k_platform r) + idt_span ∧
    selected (pl_gdtr (k_platform r)) (pl_gdt_mem (k_platform r)) (pl_cs (k_platform r)) 8 = Some 0 ∧
    load_tss (pl_gdtr (k_platform r)) (pl_gdt_mem (k_platform r)) (pl_tr (k_platform r)) = None.
Proof.
  destruct (initialise_ends_main 6 fragmented_map (λ p,
    bool_decide (pl_idt p < pl_gdt p < pl_idt p + idt_span ∧
      selected (pl_gdtr p) (pl_gdt_mem p) (pl_cs p) 8 = Some 0 ∧
      load_tss (pl_gdtr p) (pl_gdt_mem p) (pl_tr p) = None))) as (r & Er & Hd).
  { apply demo_initialise_plain. vm_compute. reflexivity. } { vm_compute. reflexivity. }
  exists r. split; [exact Er|]. by apply bool_decide_eq_true in Hd.
Qed.

(** The manager of such a machine. *)
Lemma fragmented_boot_ok : boot_ok demo_base 1048576 fragmented_map.
Proof.
  split.
  - repeat constructor; cbn; try lia; [by exists 0|by exists 20|by exists 24|by exists 28|by exists 64|by exists 128].
  - change (free_segs fragmented_map) with (take 5 fragmented_map). cbn [segs_disjoint take fragmented_map].
    assert (∀ p, ¬ in_segs [] p) as Hnil by (by intros p (? & ?%not_elem_of_nil & _)).
    split_and!; try done; intros p; specialize (Hnil p); rewrite ?in_segs_cons; unfold seg_page, seg_first;
      cbn [start page_count]; repeat match goal with |- context [Z.shiftr ?a 12] => change (Z.shiftr a 12) with (a / 4096) end;
      rewrite ?Z.div_mul by done; change (0 / 4096) with 0; intuition lia.
  - reflexivity.
  - done.
  - intros i Hi. change (64 * inline_words 1048576) with 256 in Hi.
    apply (representable_low _ _ 39); [lia|by exists 33554431|done|lia].
  - exists (mkMemorySegment 0 1 Free). split_and!; [by left|done|done].
  - by exists 1.
Qed.

Definition fragmented : PhysMemoryManager InlineStorage :=
  match new (H := boot_storage demo_base) ∅ fragmented_map with
  | Ok (m, _) => m
  | Err _ => mkPhysMemoryManager SpinLock_new (mkBuddy [] (mkInlineStorage 0 []) ∅)
  end.

Definition fragmented_platform : res (PhysMemoryManager InlineStorage * platform) :=
  lg_res (init_platform false demo_base demo_stub_addr (λ _, true) (mc_mem (demo_machine fragmented_map)) fragmented).

Lemma init_platform_zeroes_gdt_witness :
  ∃ m' p, fragmented_platform = Ok (m', p) ∧ pl_idt p ≤ pl_gdt p ≤ pl_idt p + 15 * 4096 ∧
    selected (pl_gdtr p) (pl_gdt_mem p) (pl_cs p) 8 = Some 0 ∧
    load_tss (pl_gdtr p) (pl_gdt_mem p) (pl_tr p) = None.
Proof.
  destruct (inline_new_pages demo_base ∅ 1048576 fragmented_map fragmented_boot_ok)
    as (m & F & a & mm' & Hnew & Hi & Hcap & H256 & _).
  assert (fragmented = m) as Em by (unfold fragmented; rewrite Hnew; reflexivity). subst m.
  assert (match fragmented_platform with
    | Ok (_, p) => (pl_idt p <=? pl_gdt p) && (pl_gdt p <=? pl_idt p + 15 * 4096)
    | Err _ => false end = true) as Hb by (vm_compute; reflexivity).
  destruct fragmented_platform as [[m' p]|e] eqn:E; [|discriminate Hb].
  assert (pl_idt p ≤ pl_gdt p ≤ pl_idt p + 15 * 4096) as Hin by lia.
  exists m', p. split; [reflexivity|]. split; [exact Hin|].
  refine (init_platform_zeroes_gdt demo_base demo_stub_addr (λ _, true) false
    (mc_mem (demo_machine fragmented_map)) fragmented F m' p Hi H256 _ _ _ E Hin).
  - change (mirror_ok demo_base (capacity (H := boot_storage demo_base) (storage (pm_buddy fragmented)))).
    rewrite Hcap. change (64 * inline_words 1048576) with 256. split.
    + split; [by exists 4503599493152768|done].
    + apply (bo_mirror _ _ _ fragmented_boot_ok).
    + reflexivity.
  - split; [reflexivity|]. split; [reflexivity|]. cbn [demo_machine mc_mem tm_idt]. rewrite length_replicate. done.
  - intros v. by apply Z.mod_pos_bound.
Defined.
