(* ===== verification/System.v ===== *)
(** * The whole system, from the firmware to the kernel's loop.

    The bootloader's output is the kernel's input: [efi_main] leaves a
    [handoff], [KernelMain.main] runs on the memory it describes.  The theorem
    joins what [BootloaderTheorems] shows of the first with what [KernelMain]
    shows of the second. *)
From stdpp Require Import base gmap numbers strings list.
From S2P Require Import Prelude.
From S2P Require Import KernelHeader.
From S2P Require Import VirtManager.
From S2P Require Import Mutex.
From S2P Require Import FreeList.
From S2P Require Import PhysSystem.
From S2P Require Import PhysInit.
From S2P Require Import PhysSafety.
From S2P Require Import Terminal.
From S2P Require Import TerminalTheorems.
From S2P Require Import Paging.
From S2P Require Import PagingTheorems.
From S2P Require Import Bytes.
From S2P Require Import Gdt.
From S2P Require Import Interrupt.
From S2P Require Import Elf.
From S2P Require Import Bootloader.
From S2P Require Import BootloaderTheorems.
From S2P Require Import Fmt.
From S2P Require Import Log.
From S2P Require Import Platform.
From S2P Require Import KernelMain.

#[local] Open Scope Z_scope.

(** A video mode the terminal can draw on. *)
Record mode_usable (m : video_mode) : Prop := {
  mu_width : 32 ≤ vm_width m ≤ vm_stride m;
  mu_height : 32 ≤ vm_height m;
  mu_bytes : vm_stride m * vm_height m * 4 < 2 ^ 32;
}.

(** The physical memory that the final map says the bootloader allocated: the
    kernel's image and stack, the header, the memory map and the page tables
    are all of the type [LOADER_DATA]. *)
Definition loader_ranges (mmap : list uefi_segment) : list (Z * Z) :=
  (λ e, (us_start e, us_pages e * 4096)) <$> filter (λ e, us_ty e = LOADER_DATA ∧ 0 < us_pages e) mmap.

(** The machine the kernel runs on when the bootloader left [ho]: the memory
    behind the header's pointers is what the bootloader put there, the screen
    is where the firmware has it, and everything the bootloader allocated is
    memory the kernel runs on. *)
Record left_by (frame_buffer : Z) (mmap : list uefi_segment) (ho : handoff) (mc : machine) : Prop := {
  lb_frame_buffer : mc_screen mc = frame_buffer;
  lb_reserved : mc_reserved mc = loader_ranges mmap;
  lb_map : mc_map mc = ho_map ho;
  lb_tables : mc_tables_ptr mc = pg_cr3 (ho_paging ho) ∧ mc_tables mc = pg_words (ho_paging ho) ∧
    mc_cr3 mc = pg_cr3 (ho_paging ho);
  lb_screen : screen_bytes (ho_header ho) ≤ Z.of_nat (length (mc_vram mc));
  lb_mem : tables_ok (mc_mem mc);
}.

Section system.
Context `{FontLaws} `{PageSourceLaws} (verbose_logging : bool) (stub_addr : Z → Z)
  (panic_text : failure → list Z).
Context (u : uefi) (dst : list Z) (old_map : list MemorySegment).
Context (mode : video_mode) (p : paging) (image prepared : list Z) (size entry text : Z).
Context (hdr img buf stk map : Z) (rest : alloc_state) (mmap : list uefi_segment) (mmap_pages : Z).
Context (mmap0 : list (Z * Z)) (s ptr : Z) (ws : list Z) (k top : Z).
Context (Hstub : ∀ v, uint 64 (stub_addr v)) (Htext : ∀ e, 27 ∉ panic_text e).
Context (Hboot : boot_succeeds u dst old_map mode p image prepared size entry text hdr img buf stk map rest
  mmap mmap_pages).
Context (Hfw : firmware_ok (u_paging u) mmap0) (Hend : physical_end mmap0 = Ok s) (Hs : 0 ≤ s < 2 ^ 47).
Context (Halloc : allocate_pages (ts_alloc_pages (sizes s)) = Some (ptr, ws)).
Context (Hk : 0 ≤ k) (Hn4 : covered s / 2 ^ 39 + 1 = 2 ^ k).
Context (Htables : ptr + (1 + (covered s / 2 ^ 39 + 1) + (covered s / 2 ^ 30 + 1)) * 4096 ≤ s).
Context (Hscreen : 0 ≤ u_frame_buffer u ∧ u_frame_buffer u + vm_stride mode * vm_height mode * 4 ≤ s).
Context (Hmode : mode_usable mode) (Hdisj : descriptors_disjoint mmap).
Context (Hmap : boot_ok (pg_base p) top (convert_segment <$> mmap)).
Context (Hmirror : 64 * inline_words top * 4096 < 2 ^ 64 - pg_base p).
Context (Hcount : verbose_logging = true → 64 * inline_words top < 2 ^ 31).

(** The parts of the hand-over that are in memory. *)
Lemma handoff_parts ho : efi_main u dst old_map = Ok ho →
  ho_map ho = convert_segment <$> mmap ∧ ho_paging ho = p ∧
  screen_bytes (ho_header ho) = wrap 32 (vm_stride mode) * wrap 32 (vm_height mode) * 4.
Proof using Hboot.
  rewrite (efi_main_ok _ _ _ _ _ _ _ _ _ _ _ _ _ _ _ _ _ _ Hboot). by intros [= <-].
Qed.

(** The bootloader's output is what [main] needs. *)
Lemma handed_over_ok ho mc : efi_main u dst old_map = Ok ho → left_by (u_frame_buffer u) mmap ho mc →
  handed_over s ptr ws top (ho_header ho) mc p ∧ high_memory_base (ho_header ho) = pg_base p ∧
  take (Z.to_nat (memory_map_entries (ho_header ho))) (mc_map mc) = convert_segment <$> mmap.
Proof using All.
  intros Hho [Hfb Hres Hm (Ht1 & Ht2 & Ht3) Hsc Hme].
  rewrite (efi_main_ok _ _ _ _ _ _ _ _ _ _ _ _ _ _ _ _ _ _ Hboot) in Hho. injection Hho as <-.
  cbn [ho_header ho_map ho_paging] in *.
  destruct (platform_init_ok s ptr ws (proj1 Hs) Halloc) as (p' & Hp' & Hcr3 & _).
  pose proof (init_runs _ _ _ _ Hfw Hend Hp') as Hinit.
  assert (p' = p) as -> by (destruct Hboot; congruence).
  assert (take (Z.to_nat (Z.of_nat (length mmap))) (mc_map mc) = convert_segment <$> mmap) as Htake.
  { rewrite Nat2Z.id, Hm. apply take_ge. by rewrite length_fmap. }
  destruct Hmode as [Hw Hh Hb].
  assert (vm_stride mode < 2 ^ 32 ∧ vm_height mode < 2 ^ 32) by nia.
  assert (∀ x, 0 ≤ x < 2 ^ 32 → wrap 32 x = x) as Hwr by (intros x Hx; by apply Z.mod_small).
  assert (ptr_to_kernelspace (pg_base p) 0 = pg_base p) as Hz by done.
  split; [|done]. split; cbn [memory_map_entries high_memory_base paging_info screen_buffer]; try done.
  - split; cbn [screen_width screen_height screen_scanline_width]; rewrite !Hwr by lia; lia.
  - unfold screen_bytes. cbn [screen_scanline_width screen_height]. rewrite !Hwr, Hfb by lia. split_and!; lia || done.
  - rewrite Hres. unfold loader_ranges. apply Forall_fmap, Forall_forall. intros e [[_ He] _]%list_elem_of_filter.
    cbn. lia.
  - split; [lia|]. rewrite Hm, length_fmap. done.
  - by rewrite Htake.
  - split; [congruence|]. by split.
Qed.

(** C7: when the firmware serves every request and the kernel file loads, on a
    machine with memory below 128 TiB, a power of two of PML4 entries, a
    usable video mode with the framebuffer inside the mapped memory (the page
    tables too) and a sane final memory map whose bitmap covers whole blocks
    of 256 pages (with the verbose log, fewer than [2 ^ 31] pages), the system
    boots: the bootloader hands over, and on any machine with the memory it
    left, with or without the verbose log, the kernel's [main] loops, unless
    the end of memory, the screen, the page tables or memory the bootloader
    allocated lies within 64 KiB after the start of a free page, where
    clearing the interrupt table may zero it.  It loops in its panic handler
    only for lack of memory, with the message shown, and otherwise with a
    working terminal, the identity mapping removed, every kernel-space pointer
    still translating, every interrupt vector served, and none of the pages it
    took, for its tables or its interrupt stack, in memory the bootloader
    allocated: its image, its stack, its page tables, its header or the memory
    map. *)
Theorem system_boots :
  ∃ ho, efi_main u dst old_map = Ok ho ∧ ∀ mc, left_by (u_frame_buffer u) mmap ho mc →
    match main verbose_logging stub_addr panic_text (ho_header ho) mc with
    | Ok (Looping r) =>
        terminal_white (k_terminal r) ∧ identity_gone ptr ws k (k_tables r) (k_cr3 r) ∧
        (∀ pa, 0 ≤ pa ≤ s → walk ptr (k_tables r) (k_cr3 r) (phys_to_virt (k_base r) pa) = Some pa) ∧
        interrupts_ready (k_base r) stub_addr (k_platform r) ∧
        (∀ a x j e, a ∈ platform_allocs (k_platform r) → PhysSafety.covers a x →
           mmap !! j = Some e → us_ty e = LOADER_DATA → ¬ seg_page (convert_segment e) (x / 4096))
    | Ok (Panicked t e) => terminal_white t ∧ e = PanicMsg "Out of physical memory"
    | Err e => e = UB ∧ ∃ q, clear_endangers s (ho_header ho) mc q ∧
        in_segs (free_segs (convert_segment <$> mmap)) q
    end.
Proof using All.
  eexists. split; [exact (efi_main_ok _ _ _ _ _ _ _ _ _ _ _ _ _ _ _ _ _ _ Hboot)|].
  intros mc Hmc. destruct (handed_over_ok _ mc (efi_main_ok _ _ _ _ _ _ _ _ _ _ _ _ _ _ _ _ _ _ Hboot) Hmc)
    as (Hho & _ & Htake).
  pose proof (main_ok verbose_logging stub_addr panic_text s ptr ws k Hs Hk Hn4 Hstub Htext top _ mc p Hho Hcount)
    as Hmain. unfold main_outcome in Hmain. cbv zeta in Hmain. rewrite Htake in Hmain.
  destruct (main _ _ _ _ mc) as [[r|t e]|e]; [|done|].
  2:{ destruct Hmain as (-> & q & ? & ?). eauto. }
  destruct Hmain as (Hsc & Hlow & Hhigh & _ & Hfree & Hint). split_and!; [done..|].
  intros a x j e Ha Hx Hj Hty. specialize (Hfree a x Ha Hx).
  destruct (free_page_released mmap (x / 4096) Hdisj Hfree) as [_ Hn]. by apply (Hn j e).
Qed.
End system.

(** ** Witness: a machine with 17 MiB of memory, all allocations above 1 MiB *)

#[local] Existing Instance demo_font.
#[local] Existing Instance demo_font_laws.
#[local] Existing Instance demo_source.
#[local] Existing Instance demo_source_laws.

Definition small_map : list uefi_segment :=
  [mkUefiSegment CONVENTIONAL 0 160; mkUefiSegment LOADER_DATA 0x100000 4096].

Definition small_mode : video_mode := mkVideoMode 48 48 50 Bgr.

Definition small_uefi : uefi :=
  mkUefi true true true [mkVideoMode 2560 1440 2560 Rgb; small_mode] true 0x10F0000 demo_firmware
    (mkFileAnswers true true (Some (Z.of_nat (length demo_kernel))) (Some true) (Some demo_kernel))
    [Some 0x300000; Some 0x301000; Some 0x400000; Some 0x500000; Some 0x600000] true true 480 528
    (Some small_map).

Definition small_machine : machine :=
  mkMachine 0x10F0000 demo_mem (convert_segment <$> small_map) 0x200000 (pg_words BootloaderTheorems.demo_paging)
    0x200000 (loader_ranges small_map) ∅
    (mkTableMemory (replicate 512 7) [mkTss 9 9 9 9 9 9 9 9 9 9 9 9 9 9] (replicate (Z.to_nat 65536) 7)).

Lemma small_boot_succeeds :
  boot_succeeds small_uefi (replicate 16 9) (convert_segment <$> small_map) small_mode
    BootloaderTheorems.demo_paging demo_kernel [1; 2; 3; 4; 5; 6; 7; 8; 0; 0; 0; 0; 0; 0; 0; 0] 16
    0xFFFFFF8000400004 0 0x300000 0x301000 0x400000 0x500000 0x600000 [] small_map 2.
Proof. split; try done; vm_compute; try (split; [reflexivity|done]); try reflexivity. Qed.

Lemma small_map_disjoint : descriptors_disjoint small_map.
Proof.
  assert (∀ i e, small_map !! i = Some e → (i = 0%nat ∧ e = mkUefiSegment CONVENTIONAL 0 160) ∨
    (i = 1%nat ∧ e = mkUefiSegment LOADER_DATA 0x100000 4096)) as H.
  { intros [|[|i]] e; cbn; intros E; simplify_eq; auto. }
  intros i j e e' [[-> ->]|[-> ->]]%H [[-> ->]|[-> ->]]%H Hne p; try done;
    unfold seg_page, seg_first; cbn [start page_count convert_segment us_start us_pages];
    change (Z.shiftr 0x100000 12) with 256; change (Z.shiftr 0 12) with 0; lia.
Qed.

Lemma small_map_boot_ok :
  boot_ok (pg_base BootloaderTheorems.demo_paging) 0x1100000 (convert_segment <$> small_map).
Proof.
  change (pg_base BootloaderTheorems.demo_paging) with demo_base. split.
  - constructor; [|constructor; [|constructor]]; (split_and!; cbn; [|lia..]); [by exists 0|by exists 256].
  - cbn. split; [|done]. by intros p _ (s & ?%not_elem_of_nil & _).
  - reflexivity.
  - done.
  - intros i Hi. change (64 * inline_words 0x1100000) with 4352 in Hi.
    apply (representable_low _ _ 39); [lia|by exists 33554431|done|lia].
  - exists (mkMemorySegment 0 160 Free). split_and!; [by left|done|done].
  - by exists 17.
Qed.

(** Nothing the kernel runs on lies near free memory. *)
Lemma small_machine_spared kh q :
  in_segs (free_segs (convert_segment <$> small_map)) q → ¬ clear_endangers 0x1100000 kh small_machine q.
Proof.
  change (free_segs (convert_segment <$> small_map)) with [mkMemorySegment 0 160 Free].
  intros (sg & ->%list_elem_of_singleton & Hq). change (0 ≤ q < 160) in Hq.
  unfold clear_endangers, idt_span, size_of_IDTEntry. intros [Hs|(a & n & x & Hin & Hx & Hxq)]; [lia|].
  assert (Forall (λ an : Z * Z, 0x100000 ≤ an.1) (kernel_memory kh small_machine)) as Hall.
  { unfold kernel_memory. constructor; [done|]. constructor; [done|].
    change (mc_reserved small_machine) with [(0x100000, 4096 * 4096)]. by repeat constructor. }
  rewrite Forall_forall in Hall. specialize (Hall _ Hin). cbn [fst] in Hall. lia.
Qed.

Lemma system_boots_witness :
  ∃ ho, efi_main small_uefi (replicate 16 9) (convert_segment <$> small_map) = Ok ho ∧
    left_by 0x10F0000 small_map ho small_machine ∧
    match main true demo_stub_addr demo_text (ho_header ho) small_machine with
    | Ok (Looping r) => interrupts_ready (k_base r) demo_stub_addr (k_platform r)
    | Ok (Panicked _ e) => e = PanicMsg "Out of physical memory"
    | Err _ => False
    end.
Proof.
  destruct (system_boots true demo_stub_addr demo_text small_uefi (replicate 16 9) (convert_segment <$> small_map) small_mode
    BootloaderTheorems.demo_paging demo_kernel [1; 2; 3; 4; 5; 6; 7; 8; 0; 0; 0; 0; 0; 0; 0; 0] 16
    0xFFFFFF8000400004 0 0x300000 0x301000 0x400000 0x500000 0x600000 [] small_map 2
    demo_mmap 0x1100000 0x200000 (replicate (Z.to_nat (3 * 512)) 0xDEADBEEF) 0 0x1100000)
    as (ho & Hho & Hmain).
  - intros v. by apply Z.mod_pos_bound.
  - exact demo_text_plain.
  - exact small_boot_succeeds.
  - exact demo_firmware_ok.
  - reflexivity.
  - lia.
  - reflexivity.
  - lia.
  - reflexivity.
  - vm_compute. discriminate.
  - split; vm_compute; discriminate.
  - split; cbn; lia.
  - exact small_map_disjoint.
  - exact small_map_boot_ok.
  - reflexivity.
  - reflexivity.
  - assert (left_by 0x10F0000 small_map ho small_machine) as Hmc.
    { destruct (handoff_parts _ _ _ _ _ _ _ _ _ _ _ _ _ _ _ _ _ _ small_boot_succeeds ho Hho) as (E1 & E2 & E3).
      split; rewrite ?E1, ?E2, ?E3; [reflexivity|reflexivity|reflexivity|split; [reflexivity|split; reflexivity]|vm_compute; discriminate|].
      split; [reflexivity|]. split; [reflexivity|]. cbn [small_machine mc_mem tm_idt]. rewrite length_replicate. done. }
    exists ho. split; [exact Hho|]. split; [exact Hmc|]. specialize (Hmain small_machine Hmc).
    destruct (main true demo_stub_addr demo_text (ho_header ho) small_machine) as [[r|t e]|e];
      [apply Hmain|apply Hmain|]. destruct Hmain as (_ & q & He & Hq). exact (small_machine_spared _ q Hq He).
Defined.
