(* ===== verification/Builder.v ===== *)
(** * The image builder's own arithmetic ([builder/src/main.rs]).

    The command line, the file names and the sizes.  [BuildScript] has what
    the builder does with them. *)
From stdpp Require Import base gmap numbers strings list.
From S2P Require Import Prelude.

#[local] Open Scope Z_scope.

(** ** The command line *)

Record options := mkOptions { arch : string; release_mode : bool; clippy_mode : bool }.

(** What [main] does with its arguments. *)
Inductive action :=
  | PrintUsage
  | RunClippy (arch : string)
  | Build (arch : string) (release_mode : bool).

(** [str::strip_prefix] *)
Fixpoint strip_prefix (pre s : string) : option string :=
  match pre, s with
  | EmptyString, s => Some s
  | String a pre, String b s => if decide (a = b) then strip_prefix pre s else None
  | String _ _, EmptyString => None
  end.

(** The loop over [env::args()]; [None] is the exit after the usage text. *)
Fixpoint parse_args (o : options) (args : list string) : option options :=
  match args with
  | [] => Some o
  | arg :: args =>
      match strip_prefix "--target=" arg with
      | Some a => parse_args (mkOptions a (release_mode o) (clippy_mode o)) args
      | None =>
          if decide (arg = "--release"%string) then parse_args (mkOptions (arch o) true (clippy_mode o)) args
          else if decide (arg = "--clippy"%string) then parse_args (mkOptions (arch o) (release_mode o) true) args
          else if decide (arg = "--help"%string ∨ arg = "-h"%string) then None
          else parse_args o args
      end
  end.

(** [fn main] *)
Definition main (args : list string) : action :=
  match parse_args (mkOptions "x86_64" false false) args with
  | None => PrintUsage
  | Some o => if clippy_mode o then RunClippy (arch o) else Build (arch o) (release_mode o)
  end.

(** ** Names and sizes of [build] *)

Definition profile_name (release : bool) : string := if release then "release" else "debug".

Definition bootloader_path (root arch : string) (release : bool) : string :=
  root +:+ "/target/" +:+ arch +:+ "-unknown-uefi/" +:+ profile_name release +:+ "/bootloader.efi".

Definition kernel_path (root arch : string) (release : bool) : string :=
  root +:+ "/target/kernel-" +:+ arch +:+ "/" +:+ profile_name release +:+ "/kernel".

Definition image_dir (root arch : string) (release : bool) : string :=
  root +:+ "/target/image/" +:+ arch +:+ "/" +:+ profile_name release.

Definition MB : Z := 1024 * 1024.

(** [MB + (bootloader_size + kernel_size + MB - 1) / MB * MB] *)
Definition partition_size (bootloader_size kernel_size : Z) : res Z :=
  a ← add_w 64 bootloader_size kernel_size;
  b ← add_w 64 a MB;
  c ← sub_w 64 b 1;
  d ← mul_w 64 (c / MB) MB;
  add_w 64 MB d.

Definition image_size (partition_size : Z) : res Z := add_w 64 MB partition_size.

(** ** Theorems *)

(** The partition is a whole number of mebibytes with room for both files
    and at least one mebibyte, less than two, to spare; the image has one
    mebibyte more for the partition table. *)
Lemma image_layout b k :
  0 ≤ b → 0 ≤ k → b + k < 2 ^ 63 →
  ∃ p i, partition_size b k = Ok p ∧ image_size p = Ok i ∧ (MB | p) ∧
    b + k + MB ≤ p < b + k + 2 * MB ∧ i = p + MB.
Proof.
  intros Hb Hk Hbk. unfold partition_size, image_size, MB in *.
  pose proof (Z.div_mod (b + k + 1024 * 1024 - 1) (1024 * 1024) ltac:(lia)).
  pose proof (Z.mod_pos_bound (b + k + 1024 * 1024 - 1) (1024 * 1024) ltac:(lia)).
  eexists _, _. checked_arith. split; [done|]. checked_arith. split; [done|].
  split_and!; [|lia..]. exists (1 + (b + k + 1024 * 1024 - 1) / (1024 * 1024)). lia.
Qed.

Lemma parse_args_flags args o o' : parse_args o args = Some o' →
  release_mode o' = release_mode o || bool_decide ("--release"%string ∈ args) ∧
  clippy_mode o' = clippy_mode o || bool_decide ("--clippy"%string ∈ args) ∧
  "--help"%string ∉ args ∧ "-h"%string ∉ args.
Proof.
  assert (∀ (x a : string) l, x ≠ a → bool_decide (x ∈ a :: l) = bool_decide (x ∈ l)) as Hskip.
  { intros x a l Hne. apply bool_decide_ext. set_solver. }
  assert (∀ (x : string) l, bool_decide (x ∈ x :: l) = true) as Hhit.
  { intros x l. apply bool_decide_eq_true_2. left. }
  revert o. induction args as [|a args IH]; intros o; cbn [parse_args].
  - intros [= <-]. rewrite !bool_decide_eq_false_2, !orb_false_r by apply not_elem_of_nil.
    split_and!; [done|done|apply not_elem_of_nil..].
  - destruct (strip_prefix "--target=" a) as [t|] eqn:Ht.
    + intros (H1 & H2 & H3 & H4)%IH. cbn in H1, H2.
      assert (a ≠ "--release"%string ∧ a ≠ "--clippy"%string ∧ a ≠ "--help"%string ∧ a ≠ "-h"%string)
        as (? & ? & ? & ?) by (split_and!; by intros ->).
      rewrite !Hskip by done. rewrite !not_elem_of_cons. auto.
    + destruct (decide (a = "--release"%string)) as [->|]; [|destruct (decide (a = "--clippy"%string)) as [->|]].
      * intros (H1 & H2 & H3 & H4)%IH. cbn in H1, H2. rewrite Hhit, orb_true_r, Hskip by done.
        rewrite !not_elem_of_cons. auto.
      * intros (H1 & H2 & H3 & H4)%IH. cbn in H1, H2. rewrite Hhit, orb_true_r, Hskip by done.
        rewrite !not_elem_of_cons. auto.
      * destruct (decide _) as [|Hh]; [done|]. intros (H1 & H2 & H3 & H4)%IH.
        rewrite !Hskip, !not_elem_of_cons by done. naive_solver.
Qed.

Lemma parse_args_help args o : parse_args o args = None →
  "--help"%string ∈ args ∨ "-h"%string ∈ args.
Proof.
  revert o. induction args as [|a args IH]; intros o; cbn [parse_args]; [done|].
  rewrite !elem_of_cons. destruct (strip_prefix _ a); [intros ?%IH; tauto|].
  destruct (decide (a = "--release"%string)); [intros ?%IH; tauto|].
  destruct (decide (a = "--clippy"%string)); [intros ?%IH; tauto|].
  destruct (decide _) as [[->| ->]|]; [auto|auto|intros ?%IH; tauto].
Qed.

(** What the builder does is decided by which flags are present, not by
    their order or number: help wins over everything, clippy over a build,
    and a build is a release build exactly when [--release] is given. *)
Theorem flags_decide args :
  match main args with
  | PrintUsage => "--help"%string ∈ args ∨ "-h"%string ∈ args
  | RunClippy _ => "--clippy"%string ∈ args ∧ "--help"%string ∉ args ∧ "-h"%string ∉ args
  | Build _ r => r = bool_decide ("--release"%string ∈ args) ∧
      "--clippy"%string ∉ args ∧ "--help"%string ∉ args ∧ "-h"%string ∉ args
  end.
Proof.
  unfold main. destruct (parse_args _ args) as [o|] eqn:E; [|by eapply parse_args_help].
  apply parse_args_flags in E as (Hr & Hc & ? & ?). cbn in Hr, Hc. rewrite Hc.
  destruct (bool_decide_reflect ("--clippy"%string ∈ args)); done.
Qed.
