(* ===== verification/BuildScript.v ===== *)
(** * Building the disk image ([build] and [run_clippy] of [builder/src/main.rs]).

    The two functions drive other programs: cargo, the host's file system and
    the crates [fatfs] and [gpt].  A [script] is a computation on the host
    (its files, the directories that exist, the paths the operating system
    refuses, the lines printed and the commands run so far); it keeps what it
    did when it panics.  Cargo and the two crates are not part of this
    repository: they are parameters, one function per call, with what their
    documentation says about a call that succeeds as laws ([FatLaws],
    [GptLaws]); that the calls succeed is a hypothesis of the theorem. *)
From stdpp Require Import base gmap numbers strings list.
From S2P Require Import Prelude.
From S2P Require Import Builder.

#[local] Open Scope Z_scope.

(** ** The host *)

Abbreviation bytes := (list Z).

Record host := mkHost {
  h_files : gmap string bytes;
  h_dirs : gset string;
  h_denied : gset string;
  h_out : list string;
  h_runs : list (list string);
}.

Definition set_files (h : host) (files : gmap string bytes) : host :=
  mkHost files (h_dirs h) (h_denied h) (h_out h) (h_runs h).

Record script (A : Type) := Script { run : host → host * res A }.
Arguments Script {A} run.
Arguments run {A} s h.

#[global] Instance script_ret : MRet script := λ A a, Script (λ h, (h, Ok a)).
#[global] Instance script_bind : MBind script := λ A B f m, Script (λ h,
  match run m h with
  | (h', Ok a) => run (f a) h'
  | (h', Err e) => (h', Err e)
  end).

Definition lift {A} (r : res A) : script A := Script (λ h, (h, r)).

(** [unwrap()] on what a library or the operating system answered. *)
Definition unwrap_panic : failure := PanicMsg "called `Result::unwrap()` on an `Err` value".
Definition unwrap {A} (o : option A) : script A := lift (of_option unwrap_panic o).

(** [assert!(b, msg)] *)
Definition assert_msg (b : bool) (msg : string) : script unit :=
  lift (if b then Ok () else Err (PanicMsg msg)).

Definition println (s : string) : script unit := Script (λ h,
  (mkHost (h_files h) (h_dirs h) (h_denied h) (h_out h ++ [s]) (h_runs h), Ok ())).

(** [fs::create_dir_all] *)
Definition create_dir_all (d : string) : script unit := Script (λ h,
  if decide (d ∈ h_denied h) then (h, Err unwrap_panic)
  else (mkHost (h_files h) ({[d]} ∪ h_dirs h) (h_denied h) (h_out h) (h_runs h), Ok ())).

(** [fs::File::open] and reading to the end; [fs::metadata(p).len()] *)
Definition read_file (p : string) : script bytes := Script (λ h,
  (h, of_option unwrap_panic (h_files h !! p))).

Definition file_len (p : string) : script Z :=
  b ← read_file p; mret (Z.of_nat (length b)).

(** [OpenOptions] with [create] and [truncate], of a file in [dir] *)
Definition open_truncate (dir p : string) : script unit := Script (λ h,
  if decide (p ∈ h_denied h ∨ dir ∉ h_dirs h) then (h, Err unwrap_panic)
  else (set_files h (<[p := []]> (h_files h)), Ok ())).

(** A call that changes an open file and returns something. *)
Definition edit {A} (p : string) (f : bytes → option (bytes * A)) : script A := Script (λ h,
  match h_files h !! p ≫= f with
  | Some (b, a) => (set_files h (<[p := b]> (h_files h)), Ok a)
  | None => (h, Err unwrap_panic)
  end).

Definition edit_ (p : string) (f : bytes → option bytes) : script unit :=
  edit p (λ b, (., ()) <$> f b).

(** [set_len] *)
Definition set_len (n : Z) (b : bytes) : option bytes := Some (resize (Z.to_nat n) 0 b).

(** [io::copy] into a file at position [pos] *)
Definition copy_at (pos : Z) (data b : bytes) : option bytes :=
  Some (resize (Z.to_nat pos) 0 b ++ data ++ drop (Z.to_nat pos + length data) b).

(** ** The crates and cargo *)

(** [fatfs]: [fat_format] leaves the file position somewhere, mounting wants
    it at 0. *)
Class Fat := {
  fat_format : string → bytes → option (bytes * Z);
  fat_mount : bytes → Z → bool;
  fat_create_dir : string → bytes → option bytes;
  fat_create_file : string → bytes → option bytes;
  fat_write : string → bytes → bytes → option bytes;
}.

(** [gpt]: an open disk and its device.  Partitions are numbered; each is given
    by its first byte and its length. *)
Class Gpt := {
  gpt_disk : Type;
  gpt_overwrite_lba0 : bytes → option bytes;
  gpt_create : bytes → option (bytes * gpt_disk);
  gpt_update_partitions : gpt_disk → gmap Z (Z * Z) → bytes → option (bytes * gpt_disk);
  gpt_add_partition : gpt_disk → string → Z → bytes → option (bytes * (Z * gpt_disk));
  gpt_bytes_start : gpt_disk → Z → option Z;
  gpt_write : gpt_disk → bytes → option bytes;
}.

(** Running cargo: it may not start; otherwise it reports success and leaves
    files. *)
Class Cargo := { cargo : list string → gmap string bytes → option (bool * gmap string bytes) }.

Definition command `{Cargo} (args : list string) : script bool := Script (λ h,
  match cargo args (h_files h) with
  | Some (ok, files) => (mkHost files (h_dirs h) (h_denied h) (h_out h) (h_runs h ++ [args]), Ok ok)
  | None => (h, Err unwrap_panic)
  end).

(** ** [run_clippy] *)

Definition build_std : list string :=
  ["-Zbuild-std=core,compiler_builtins"; "-Zbuild-std-features=compiler-builtins-mem"].

Definition bootloader_target (arch : string) : string := arch +:+ "-unknown-uefi".
Definition kernel_target (arch : string) : string := "kernel-" +:+ arch +:+ ".json".

(** The command lines. *)
Definition bootloader_args (verb arch : string) : list string :=
  [verb; "-p"; "bootloader"] ++ build_std ++ ["--target=" +:+ bootloader_target arch].
Definition kernel_args (verb root arch : string) : list string :=
  [verb; "-p"; "kernel"] ++ build_std ++ ["--target=" +:+ root +:+ "/" +:+ kernel_target arch].
Definition release_arg (release : bool) : list string := if release then ["--release"] else [].

Section builder.
Context `{Cargo} `{Fat} `{Gpt} (root : string).

Definition run_clippy (arch : string) : script unit :=
  _ ← println "-- Clippy bootloader";
  _ ← command (bootloader_args "clippy" arch);
  _ ← println "-- Clippy kernel";
  _ ← command (kernel_args "clippy" root arch);
  mret ().

(** ** [build] *)

(** The two compilations. *)
Definition compile (arch : string) (release : bool) : script unit :=
  _ ← println ("-- Building for " +:+ arch);
  _ ← println ("-- Building bootloader (" +:+ profile_name release +:+ ")");
  status ← command (bootloader_args "build" arch ++ release_arg release);
  _ ← assert_msg status "Failed to build bootloader";
  _ ← println ("-- Building kernel (" +:+ profile_name release +:+ ")");
  status ← command (kernel_args "build" root arch ++ release_arg release);
  assert_msg status "Failed to build kernel".

(** The block that fills the partition file. *)
Definition write_partition (dir partition_path bootloader_path kernel_path : string) (size : Z) : script unit :=
  _ ← open_truncate dir partition_path;
  _ ← edit_ partition_path (set_len size);
  _ ← edit partition_path (fat_format "SimpleOS-rs");
  let pos := 0 in
  volume ← read_file partition_path;
  _ ← assert_msg (fat_mount volume pos) "called `Result::unwrap()` on an `Err` value";
  _ ← edit_ partition_path (fat_create_dir "EFI");
  _ ← edit_ partition_path (fat_create_dir "EFI/BOOT");
  _ ← edit_ partition_path (fat_create_file "EFI/BOOT/BOOTX64.EFI");
  bootloader_in ← read_file bootloader_path;
  _ ← edit_ partition_path (fat_write "EFI/BOOT/BOOTX64.EFI" bootloader_in);
  _ ← edit_ partition_path (fat_create_file "EFI/BOOT/kernel.sys");
  kernel_in ← read_file kernel_path;
  edit_ partition_path (fat_write "EFI/BOOT/kernel.sys" kernel_in).

(** The block that fills the image file. *)
Definition write_image (dir image_path partition_path : string) (image_size partition_size : Z) : script unit :=
  _ ← open_truncate dir image_path;
  _ ← edit_ image_path (set_len image_size);
  _ ← edit_ image_path gpt_overwrite_lba0;
  image ← edit image_path gpt_create;
  image ← edit image_path (gpt_update_partitions image ∅);
  '(part_id, image) ← edit image_path (gpt_add_partition image "boot" partition_size);
  part_offset ← unwrap (gpt_bytes_start image part_id);
  _ ← edit_ image_path (gpt_write image);
  partition ← read_file partition_path;
  edit_ image_path (copy_at part_offset partition).

Definition build (arch : string) (release : bool) : script unit :=
  _ ← compile arch release;
  _ ← println "-- Building efi partition";
  let bootloader_path := bootloader_path root arch release in
  let kernel_path := kernel_path root arch release in
  let image_dir := image_dir root arch release in
  let partition_path := image_dir +:+ "/partition.img" in
  _ ← create_dir_all image_dir;
  bootloader_size ← file_len bootloader_path;
  kernel_size ← file_len kernel_path;
  partition_size ← lift (partition_size bootloader_size kernel_size);
  _ ← write_partition image_dir partition_path bootloader_path kernel_path partition_size;
  _ ← println "-- Building system image";
  let image_path := image_dir +:+ "/image.img" in
  image_size ← lift (image_size partition_size);
  _ ← write_image image_dir image_path partition_path image_size partition_size;
  println "-- Finished".

(** The whole program, from the command line on; the usage text ends it. *)
Definition program (args : list string) : script unit :=
  match main args with
  | PrintUsage => println "Usage: cargo osbuild [--target=TARGET] [--release]"
  | RunClippy arch => run_clippy arch
  | Build arch release => build arch release
  end.
End builder.

(** ** What the builder relies on *)

(** File names on a volume that differ only in case are the same. *)
Definition upper_ascii (a : Ascii.ascii) : Ascii.ascii :=
  let n := Ascii.nat_of_ascii a in
  if decide (97 ≤ n ≤ 122)%nat then Ascii.ascii_of_nat (n - 32) else a.

Fixpoint upper (s : string) : string :=
  match s with EmptyString => EmptyString | String a s => String (upper_ascii a) (upper s) end.

Definition same_name (n n' : string) : Prop := upper n = upper n'.

(** The content of a file of a volume.  A fresh volume has no files; making a
    directory changes none; [create_file] opens the file and makes it only if
    it is not there, so that an existing file keeps its bytes; writing from
    the start of a file replaces as many bytes as are written. *)
Class FatLaws `{Fat} := {
  fat_lookup : bytes → string → option bytes;
  fat_case v n n' : same_name n n' → fat_lookup v n = fat_lookup v n';
  fat_format_ok label b v pos : fat_format label b = Some (v, pos) →
    length v = length b ∧ fat_mount v 0 = true ∧ ∀ n, fat_lookup v n = None;
  fat_create_dir_ok name v v' : fat_create_dir name v = Some v' →
    length v' = length v ∧ ∀ n, fat_lookup v' n = fat_lookup v n;
  fat_create_file_ok name v v' : fat_create_file name v = Some v' →
    length v' = length v ∧ fat_lookup v' name = Some (default [] (fat_lookup v name)) ∧
    ∀ n, ¬ same_name n name → fat_lookup v' n = fat_lookup v n;
  fat_write_ok name data v v' old : fat_write name data v = Some v' → fat_lookup v name = Some old →
    length v' = length v ∧ fat_lookup v' name = Some (data ++ drop (length data) old) ∧
    ∀ n, ¬ same_name n name → fat_lookup v' n = fat_lookup v n;
}.

(** The calls of [write_partition] on the volume. *)
Definition fat_session `{Fat} (size : Z) (bootloader kernel : bytes) : option bytes :=
  '(v, _) ← fat_format "SimpleOS-rs" (replicate (Z.to_nat size) 0);
  v ← fat_create_dir "EFI" v;
  v ← fat_create_dir "EFI/BOOT" v;
  v ← fat_create_file "EFI/BOOT/BOOTX64.EFI" v;
  v ← fat_write "EFI/BOOT/BOOTX64.EFI" bootloader v;
  v ← fat_create_file "EFI/BOOT/kernel.sys" v;
  fat_write "EFI/BOOT/kernel.sys" kernel v.

(** The calls of [write_image] on the device, up to the copy. *)
Definition gpt_session `{Gpt} (size : Z) (b : bytes) : option (bytes * Z) :=
  b ← gpt_overwrite_lba0 b;
  '(b, d) ← gpt_create b;
  '(b, d) ← gpt_update_partitions d ∅ b;
  '(b, (id, d)) ← gpt_add_partition d "boot" size b;
  o ← gpt_bytes_start d id;
  b ← gpt_write d b;
  mret (b, o).

(** The bytes of the table: 34 blocks at the start and 33 at the end. *)
Definition gpt_head : Z := 34 * 512.
Definition gpt_tail : Z := 33 * 512.

(** What each call of the crate promises when it succeeds: [create_from_device]
    opens a disk of the device's size, [update_partitions] replaces the
    partitions of the disk, [add_partition] adds one of the given size (in
    whole blocks) under a new number between the two copies of the table,
    [bytes_start] says where one starts, [write] puts the table on the device,
    where a reader that only looks at the table finds it.  A device that has
    room for the table keeps its size. *)
Class GptLaws `{Gpt} := {
  gpt_table : gpt_disk → gmap Z (Z * Z);
  gpt_device_size : gpt_disk → Z;
  gpt_partitions : bytes → option (gmap Z (Z * Z));
  gpt_overwrite_lba0_ok b b' : gpt_overwrite_lba0 b = Some b' →
    gpt_head + gpt_tail ≤ Z.of_nat (length b) → length b' = length b;
  gpt_create_ok b b' d : gpt_create b = Some (b', d) →
    gpt_head + gpt_tail ≤ Z.of_nat (length b) →
    length b' = length b ∧ gpt_device_size d = Z.of_nat (length b);
  gpt_update_partitions_ok d parts b b' d' : gpt_update_partitions d parts b = Some (b', d') →
    gpt_head + gpt_tail ≤ Z.of_nat (length b) →
    length b' = length b ∧ gpt_device_size d' = gpt_device_size d ∧ gpt_table d' = parts;
  gpt_add_partition_ok d name size b b' id d' : gpt_add_partition d name size b = Some (b', (id, d')) →
    gpt_head + gpt_tail ≤ Z.of_nat (length b) → 0 < size → (512 | size) →
    length b' = length b ∧ gpt_device_size d' = gpt_device_size d ∧ gpt_table d !! id = None ∧
    ∃ o, gpt_table d' = <[id := (o, size)]> (gpt_table d) ∧
      gpt_head ≤ o ∧ o + size + gpt_tail ≤ gpt_device_size d;
  gpt_bytes_start_ok d id o : gpt_bytes_start d id = Some o → ∃ size, gpt_table d !! id = Some (o, size);
  gpt_write_ok d b b' : gpt_write d b = Some b' → gpt_device_size d = Z.of_nat (length b) →
    gpt_head + gpt_tail ≤ Z.of_nat (length b) →
    length b' = length b ∧ gpt_partitions b' = Some (gpt_table d);
  gpt_partitions_local b b' : length b' = length b →
    (∀ i, (Z.of_nat i < gpt_head ∨ Z.of_nat (length b) - gpt_tail ≤ Z.of_nat i) → b' !! i = b !! i) →
    gpt_partitions b' = gpt_partitions b;
}.

(** ** Running scripts *)

Lemma run_bind {A B} (m : script A) (f : A → script B) h h' a :
  run m h = (h', Ok a) → run (m ≫= f) h = run (f a) h'.
Proof. intros E. unfold mbind, script_bind. cbn [run]. by rewrite E. Qed.

Lemma run_bind_err {A B} (m : script A) (f : A → script B) h h' e :
  run m h = (h', Err e) → run (m ≫= f) h = (h', Err e).
Proof. intros E. unfold mbind, script_bind. cbn [run]. by rewrite E. Qed.

(** A host with one file changed. *)
Definition with_file (h : host) (p : string) (b : bytes) : host := set_files h (<[p := b]> (h_files h)).

Lemma with_file_twice h p b b' : with_file (with_file h p b) p b' = with_file h p b'.
Proof. unfold with_file, set_files. cbn. by rewrite insert_insert_eq. Qed.

Lemma run_open_truncate dir p h : p ∉ h_denied h → dir ∈ h_dirs h →
  run (open_truncate dir p) h = (with_file h p [], Ok ()).
Proof. intros Hp Hd. cbn. rewrite decide_False; [done|]. naive_solver. Qed.

(** The steps of a script that edits the file [p]. *)
Lemma run_edit {A} p (f : bytes → option (bytes * A)) h b b' a : f b = Some (b', a) →
  run (edit p f) (with_file h p b) = (with_file h p b', Ok a).
Proof. intros Hf. cbn. rewrite lookup_insert_eq. cbn. rewrite Hf. f_equal. apply with_file_twice. Qed.

Lemma run_edit_ p (f : bytes → option bytes) h b b' : f b = Some b' →
  run (edit_ p f) (with_file h p b) = (with_file h p b', Ok ()).
Proof. intros Hf. apply run_edit. by rewrite Hf. Qed.

Lemma run_read_self p h b : run (read_file p) (with_file h p b) = (with_file h p b, Ok b).
Proof. cbn. by rewrite lookup_insert_eq. Qed.

Lemma run_read p h b : h_files h !! p = Some b → run (read_file p) h = (h, Ok b).
Proof. intros Hb. cbn. by rewrite Hb. Qed.

Lemma run_read_other p q h b d : p ≠ q → h_files h !! q = Some d →
  run (read_file q) (with_file h p b) = (with_file h p b, Ok d).
Proof. intros Hne Hd. apply run_read. cbn. by rewrite lookup_insert_ne. Qed.

Section running.
Context `{Cargo} `{FatLaws} `{GptLaws} (root : string).

Lemma run_write_partition dir p bp kp size bl ke v h :
  dir ∈ h_dirs h → p ∉ h_denied h → p ≠ bp → p ≠ kp →
  h_files h !! bp = Some bl → h_files h !! kp = Some ke → fat_session size bl ke = Some v →
  run (write_partition dir p bp kp size) h = (with_file h p v, Ok ()).
Proof.
  intros Hd Hp Hbp Hkp Hbl Hke Hs. unfold fat_session in Hs.
  apply bind_Some in Hs as ([v0 pos] & E0 & Hs). apply bind_Some in Hs as (v1 & E1 & Hs).
  apply bind_Some in Hs as (v2 & E2 & Hs). apply bind_Some in Hs as (v3 & E3 & Hs).
  apply bind_Some in Hs as (v4 & E4 & Hs). apply bind_Some in Hs as (v5 & E5 & E6).
  destruct (fat_format_ok _ _ _ _ E0) as (_ & Hmount & _).
  assert (set_len size [] = Some (replicate (Z.to_nat size) 0)) as El by (unfold set_len; by rewrite resize_nil).
  unfold write_partition. rewrite (run_bind _ _ _ _ _ (run_open_truncate dir p h Hp Hd)).
  rewrite (run_bind _ _ _ _ _ (run_edit_ p _ h _ _ El)).
  rewrite (run_bind _ _ _ _ _ (run_edit p _ h _ _ _ E0)). cbv zeta.
  rewrite (run_bind _ _ _ _ _ (run_read_self p h v0)). rewrite Hmount.
  erewrite run_bind by reflexivity.
  rewrite (run_bind _ _ _ _ _ (run_edit_ p _ h _ _ E1)). rewrite (run_bind _ _ _ _ _ (run_edit_ p _ h _ _ E2)).
  rewrite (run_bind _ _ _ _ _ (run_edit_ p _ h _ _ E3)).
  rewrite (run_bind _ _ _ _ _ (run_read_other p bp h _ bl Hbp Hbl)).
  rewrite (run_bind _ _ _ _ _ (run_edit_ p _ h _ _ E4)). rewrite (run_bind _ _ _ _ _ (run_edit_ p _ h _ _ E5)).
  rewrite (run_bind _ _ _ _ _ (run_read_other p kp h _ ke Hkp Hke)). by apply run_edit_.
Qed.

Lemma run_write_image dir p pp isize psize part b o h :
  dir ∈ h_dirs h → p ∉ h_denied h → p ≠ pp → h_files h !! pp = Some part →
  gpt_session psize (replicate (Z.to_nat isize) 0) = Some (b, o) →
  run (write_image dir p pp isize psize) h =
    (with_file h p (resize (Z.to_nat o) 0 b ++ part ++ drop (Z.to_nat o + length part) b), Ok ()).
Proof.
  intros Hd Hp Hne Hpart Hs. unfold gpt_session in Hs.
  apply bind_Some in Hs as (b0 & E0 & Hs). apply bind_Some in Hs as ([b1 d1] & E1 & Hs).
  apply bind_Some in Hs as ([b2 d2] & E2 & Hs). apply bind_Some in Hs as ([b3 [id d3]] & E3 & Hs).
  apply bind_Some in Hs as (o' & E4 & Hs). apply bind_Some in Hs as (b5 & E5 & [= <- <-]).
  assert (set_len isize [] = Some (replicate (Z.to_nat isize) 0)) as El by (unfold set_len; by rewrite resize_nil).
  unfold write_image. rewrite (run_bind _ _ _ _ _ (run_open_truncate dir p h Hp Hd)).
  rewrite (run_bind _ _ _ _ _ (run_edit_ p _ h _ _ El)).
  rewrite (run_bind _ _ _ _ _ (run_edit_ p _ h _ _ E0)).
  rewrite (run_bind _ _ _ _ _ (run_edit p _ h _ _ _ E1)). rewrite (run_bind _ _ _ _ _ (run_edit p _ h _ _ _ E2)).
  rewrite (run_bind _ _ _ _ _ (run_edit p _ h _ _ _ E3)). rewrite E4. erewrite run_bind by reflexivity.
  rewrite (run_bind _ _ _ _ _ (run_edit_ p _ h _ _ E5)).
  rewrite (run_bind _ _ _ _ _ (run_read_other p pp h _ part Hne Hpart)). by apply run_edit_.
Qed.
(** The volume holds both files. *)
Lemma fat_session_ok size bl ke v : 0 ≤ size → fat_session size bl ke = Some v →
  Z.of_nat (length v) = size ∧ fat_lookup v "EFI/BOOT/BOOTX64.EFI" = Some bl ∧
  fat_lookup v "EFI/BOOT/kernel.sys" = Some ke.
Proof.
  intros Hsz Hs. unfold fat_session in Hs.
  apply bind_Some in Hs as ([v0 pos] & E0 & Hs). apply bind_Some in Hs as (v1 & E1 & Hs).
  apply bind_Some in Hs as (v2 & E2 & Hs). apply bind_Some in Hs as (v3 & E3 & Hs).
  apply bind_Some in Hs as (v4 & E4 & Hs). apply bind_Some in Hs as (v5 & E5 & E6).
  apply fat_format_ok in E0 as (L0 & _ & N0). rewrite length_replicate in L0.
  apply fat_create_dir_ok in E1 as [L1 K1]. apply fat_create_dir_ok in E2 as [L2 K2].
  apply fat_create_file_ok in E3 as (L3 & Q3 & K3). rewrite K2, K1, N0 in Q3.
  change (default [] None) with ([] : bytes) in Q3.
  apply (fat_write_ok _ _ _ _ _) with (1 := E4) in Q3 as (L4 & Q4 & K4).
  apply fat_create_file_ok in E5 as (L5 & Q5 & K5).
  assert (¬ same_name "EFI/BOOT/kernel.sys" "EFI/BOOT/BOOTX64.EFI" ∧
    ¬ same_name "EFI/BOOT/BOOTX64.EFI" "EFI/BOOT/kernel.sys") as [Hd1 Hd2] by (by split; vm_compute).
  rewrite K4, K3, K2, K1, N0 in Q5 by done. change (default [] None) with ([] : bytes) in Q5.
  apply (fat_write_ok _ _ _ _ _) with (1 := E6) in Q5 as (L6 & Q6 & K6).
  split_and!; [lia| |by rewrite Q6, drop_nil, app_nil_r].
  by rewrite K6, K5, Q4, drop_nil, app_nil_r.
Qed.

(** The session leaves one partition, between the two copies of the table. *)
Lemma gpt_session_ok size b b' o : gpt_session size b = Some (b', o) → 0 < size → (512 | size) →
  gpt_head + gpt_tail ≤ Z.of_nat (length b) →
  ∃ id, length b' = length b ∧ gpt_partitions b' = Some {[id := (o, size)]} ∧
    gpt_head ≤ o ∧ o + size + gpt_tail ≤ Z.of_nat (length b).
Proof.
  intros Hs Hsz H512 Hroom. unfold gpt_session in Hs.
  apply bind_Some in Hs as (b0 & E0 & Hs). apply bind_Some in Hs as ([b1 d1] & E1 & Hs).
  apply bind_Some in Hs as ([b2 d2] & E2 & Hs). apply bind_Some in Hs as ([b3 [id d3]] & E3 & Hs).
  apply bind_Some in Hs as (o' & E4 & Hs). apply bind_Some in Hs as (b5 & E5 & [= <- <-]).
  apply gpt_overwrite_lba0_ok in E0 as L0; [|done].
  apply gpt_create_ok in E1 as (L1 & S1); [|by rewrite L0].
  apply gpt_update_partitions_ok in E2 as (L2 & S2 & T2); [|by rewrite L1, L0].
  apply gpt_add_partition_ok in E3 as (L3 & S3 & _ & o & T3 & Ho & Hend); [|by rewrite L2, L1, L0|done|done].
  apply gpt_bytes_start_ok in E4 as (size' & E4). rewrite T3, lookup_insert_eq in E4. injection E4 as -> <-.
  apply gpt_write_ok in E5 as (L5 & P5); [|rewrite S3, S2, S1; congruence|by rewrite L3, L2, L1, L0].
  exists id. rewrite P5, T3, T2, insert_empty. split_and!; [congruence|done|done|].
  rewrite S2, S1, L0 in Hend. done.
Qed.

(** Copying the partition to its place does not touch the table. *)
Lemma image_ok b o size part : Z.of_nat (length part) = size →
  gpt_head ≤ o → o + size + gpt_tail ≤ Z.of_nat (length b) →
  let img := resize (Z.to_nat o) 0 b ++ part ++ drop (Z.to_nat o + length part) b in
  length img = length b ∧ gpt_partitions img = gpt_partitions b ∧
  take (Z.to_nat size) (drop (Z.to_nat o) img) = part.
Proof.
  intros Hp Ho Hend img. unfold gpt_head, gpt_tail in *.
  assert (length (resize (Z.to_nat o) 0 b) = Z.to_nat o) as Hr by apply length_resize.
  assert (length img = length b) as Hl.
  { unfold img. rewrite !length_app, Hr, length_drop. lia. }
  split_and!; [done| |].
  - apply gpt_partitions_local; [done|]. unfold gpt_head, gpt_tail. intros i Hi. unfold img.
    destruct Hi as [Hi|Hi].
    + rewrite lookup_app_l by lia. rewrite resize_le by lia. by rewrite lookup_take_lt by lia.
    + rewrite lookup_app_r by lia. rewrite lookup_app_r by lia. rewrite lookup_drop. f_equal. lia.
  - unfold img. rewrite drop_app_length' by lia. rewrite take_app_length' by lia. done.
Qed.

(** Both compilations succeed. *)
Lemma run_compile arch release h f1 f2 :
  cargo (bootloader_args "build" arch ++ release_arg release) (h_files h) = Some (true, f1) →
  cargo (kernel_args "build" root arch ++ release_arg release) f1 = Some (true, f2) →
  run (compile root arch release) h =
    (mkHost f2 (h_dirs h) (h_denied h)
      (h_out h ++ ["-- Building for " +:+ arch; "-- Building bootloader (" +:+ profile_name release +:+ ")";
        "-- Building kernel (" +:+ profile_name release +:+ ")"])
      (h_runs h ++ [bootloader_args "build" arch ++ release_arg release;
        kernel_args "build" root arch ++ release_arg release]), Ok ()).
Proof.
  intros E1 E2. unfold compile. do 2 (erewrite run_bind by reflexivity).
  erewrite run_bind by (cbn [run command h_files]; by rewrite E1).
  do 2 (erewrite run_bind by reflexivity).
  erewrite run_bind by (cbn [run command h_files]; by rewrite E2).
  cbn. by rewrite <- !app_assoc.
Qed.
End running.

(** ** Paths *)

Fixpoint last_char (s : string) : option Ascii.ascii :=
  match s with
  | EmptyString => None
  | String a EmptyString => Some a
  | String _ s => last_char s
  end.

Lemma last_char_app s t : t ≠ ""%string → last_char (s +:+ t) = last_char t.
Proof.
  intros Ht. induction s as [|a s IH]; [done|]. rewrite <- IH. change (String a s +:+ t) with (String a (s +:+ t)).
  destruct (s +:+ t) as [|b u] eqn:E; [|done]. destruct s; [by destruct t|done].
Qed.

(** Paths that end differently are different. *)
Lemma path_ne s t u v : t ≠ ""%string → v ≠ ""%string → last_char t ≠ last_char v → s +:+ t ≠ u +:+ v.
Proof. intros Ht Hv Hne E. apply (f_equal last_char) in E. rewrite !last_char_app in E by done. done. Qed.

Lemma app_assoc_string (s t u : string) : (s +:+ t) +:+ u = s +:+ (t +:+ u).
Proof. induction s as [|a s IH]; [done|]. exact (f_equal (String a) IH). Qed.

Lemma image_files_ne root arch release name :
  name = "/partition.img"%string ∨ name = "/image.img"%string →
  image_dir root arch release +:+ name ≠ bootloader_path root arch release ∧
  image_dir root arch release +:+ name ≠ kernel_path root arch release.
Proof.
  intros Hn. unfold bootloader_path, kernel_path. rewrite <- !app_assoc_string.
  split; apply path_ne; try done; destruct Hn as [-> | ->]; intros [=].
Qed.

(** ** Theorems *)

Section built.
Context `{Cargo} `{FatLaws} `{GptLaws} (root arch : string) (release : bool) (h : host).

Abbreviation bpath := (bootloader_path root arch release).
Abbreviation kpath := (kernel_path root arch release).
Abbreviation dir := (image_dir root arch release).
Abbreviation ppath := (image_dir root arch release +:+ "/partition.img").
Abbreviation ipath := (image_dir root arch release +:+ "/image.img").
Abbreviation bargs := (bootloader_args "build" arch ++ release_arg release).
Abbreviation kargs := (kernel_args "build" root arch ++ release_arg release).


(** C40: a failed compilation stops the builder: no command after it runs, no
    directory or file is made by the builder, and the panic names the part
    that failed. *)
Theorem build_stops ok1 ok2 f1 f2 :
  cargo bargs (h_files h) = Some (ok1, f1) → (ok1 = true → cargo kargs f1 = Some (ok2, f2)) →
  ok1 && ok2 = false →
  ∃ h', run (build root arch release) h =
      (h', Err (PanicMsg (if ok1 then "Failed to build kernel" else "Failed to build bootloader"))) ∧
    h_files h' = (if ok1 then f2 else f1) ∧ h_dirs h' = h_dirs h ∧
    h_runs h' = h_runs h ++ (if ok1 then [bargs; kargs] else [bargs]).
Proof.
  intros E1 E2 Hf. unfold build.
  assert (∃ h', run (compile root arch release) h =
      (h', Err (PanicMsg (if ok1 then "Failed to build kernel" else "Failed to build bootloader"))) ∧
    h_files h' = (if ok1 then f2 else f1) ∧ h_dirs h' = h_dirs h ∧
    h_runs h' = h_runs h ++ (if ok1 then [bargs; kargs] else [bargs])) as (h' & Hrun & Hrest).
  { unfold compile. do 2 (erewrite run_bind by reflexivity).
    erewrite run_bind by (cbn [run command h_files]; by rewrite E1). destruct ok1.
    - destruct ok2; [done|]. do 2 (erewrite run_bind by reflexivity).
      erewrite run_bind by (cbn [run command h_files]; by rewrite E2 by done).
      eexists. split; [reflexivity|]. cbn. by rewrite <- app_assoc.
    - eexists. by erewrite run_bind_err by reflexivity. }
  exists h'. by rewrite (run_bind_err _ _ _ _ _ Hrun).
Qed.
End built.
