(* ===== verification/BuildDemo.v ===== *)
(** * A host on which the builder runs: the laws of [BuildScript] can hold.

    A volume and a partition table that keep their directory in their first
    cell, and a compiler that leaves two small files. *)
From stdpp Require Import base gmap numbers strings list countable.
From S2P Require Import Prelude.
From S2P Require Import Builder.
From S2P Require Import BuildScript.

#[local] Open Scope Z_scope.

(** The first cell as an encoded value. *)
Definition get_cell {A} `{Countable A} (v : bytes) : option A :=
  match v with
  | Zpos p :: _ => decode p
  | _ => None
  end.

Definition put_cell {A} `{Countable A} (a : A) (v : bytes) : option bytes :=
  match v with
  | [] => None
  | _ :: v => Some (Zpos (encode a) :: v)
  end.

Lemma put_cell_ok {A} `{Countable A} (a : A) v v' : put_cell a v = Some v' →
  length v' = length v ∧ get_cell v' = Some a.
Proof. destruct v as [|c v]; [done|]. intros [= <-]. split; [done|]. apply decode_encode. Qed.

Lemma put_cell_is_Some {A} `{Countable A} (a : A) v : (0 < length v)%nat → is_Some (put_cell a v).
Proof. destruct v; cbn; [lia|eauto]. Qed.

(** ** The volume *)

Definition directory (v : bytes) : gmap string bytes := default ∅ (get_cell v).

(** Files by their names in capitals. *)
#[local] Instance demo_fat : Fat := {
  fat_format _ b := (., 512) <$> put_cell (∅ : gmap string bytes) b;
  fat_mount _ pos := pos =? 0;
  fat_create_dir _ v := put_cell (directory v) v;
  fat_create_file name v :=
    put_cell (<[upper name := default [] (directory v !! upper name)]> (directory v)) v;
  fat_write name data v :=
    old ← directory v !! upper name;
    put_cell (<[upper name := data ++ drop (length data) old]> (directory v)) v;
}.

Lemma put_directory m v v' : put_cell m v = Some v' → length v' = length v ∧ directory v' = m.
Proof. intros [Hl Hg]%put_cell_ok. split; [done|]. unfold directory. by rewrite Hg. Qed.

#[local, refine] Instance demo_fat_laws : FatLaws := {
  fat_lookup v n := directory v !! upper n;
}.
Proof.
  - intros v n n' Hn. by rewrite Hn.
  - intros label b v pos E. cbn in E. destruct (put_cell _ b) as [v0|] eqn:Ev; [|done].
    injection E as <- _. apply put_directory in Ev as [? ->]. done.
  - intros name v v' [Hl ->]%put_directory. done.
  - intros name v v' [Hl ->]%put_directory. split_and!; [done|apply lookup_insert_eq|].
    intros n Hn. rewrite lookup_insert_ne; [done|]. intros E. by apply Hn.
  - intros name data v v' old E Hold. cbn in E. rewrite Hold in E. apply put_directory in E as [Hl ->].
    split_and!; [done|apply lookup_insert_eq|]. intros n Hn. rewrite lookup_insert_ne; [done|].
    intros E. by apply Hn.
Defined.

(** Every call finds a cell to put the directory in. *)
Lemma put_step (m : gmap string bytes) v : (0 < length v)%nat →
  ∃ v', put_cell m v = Some v' ∧ (0 < length v')%nat ∧ directory v' = m.
Proof.
  intros Hv. destruct (put_cell_is_Some m v Hv) as [v' E]. exists v'. split; [done|].
  apply put_directory in E as [-> ->]. done.
Qed.

Lemma demo_fat_session size bl ke : 0 < size → is_Some (fat_session size bl ke).
Proof.
  intros Hs. unfold fat_session. cbn [fat_format fat_create_dir fat_create_file fat_write demo_fat].
  assert (0 < length (replicate (Z.to_nat size) 0%Z))%nat as P by (rewrite length_replicate; lia).
  destruct (put_step ∅ _ P) as (v0 & -> & P0 & D0). cbn [fmap option_fmap option_map mbind option_bind].
  destruct (put_step (directory v0) _ P0) as (v1 & -> & P1 & D1). cbn [mbind option_bind].
  destruct (put_step (directory v1) _ P1) as (v2 & -> & P2 & D2). cbn [mbind option_bind].
  set (b := upper "EFI/BOOT/BOOTX64.EFI"). set (k := upper "EFI/BOOT/kernel.sys").
  destruct (put_step (<[b := default [] (directory v2 !! b)]> (directory v2)) _ P2) as (v3 & -> & P3 & D3).
  cbn [mbind option_bind]. rewrite D3, lookup_insert_eq. cbn [mbind option_bind].
  match goal with |- context [put_cell ?m v3] => destruct (put_step m _ P3) as (v4 & -> & P4 & D4) end.
  cbn [mbind option_bind].
  match goal with |- context [put_cell ?m v4] => destruct (put_step m _ P4) as (v5 & -> & P5 & D5) end.
  cbn [mbind option_bind]. rewrite D5, lookup_insert_eq. cbn [mbind option_bind].
  match goal with |- context [put_cell ?m v5] => destruct (put_step m _ P5) as (v6 & -> & _) end. by eexists.
Qed.

(** ** The partition table *)

(** An open disk knows the size of its device; a new partition takes the first
    blocks behind the table, on a disk that has none. *)
#[local] Instance demo_gpt : Gpt := {
  gpt_disk := Z * gmap Z (Z * Z);
  gpt_overwrite_lba0 b := Some b;
  gpt_create b := Some (b, (Z.of_nat (length b), ∅));
  gpt_update_partitions d parts b := Some (b, (d.1, parts));
  gpt_add_partition d _ size b :=
    if bool_decide (d.2 = ∅) && (gpt_head + size + gpt_tail <=? d.1)
    then Some (b, (1, (d.1, {[1 := (gpt_head, size)]}))) else None;
  gpt_bytes_start d id := fst <$> d.2 !! id;
  gpt_write d b := put_cell d.2 b;
}.

#[local, refine] Instance demo_gpt_laws : GptLaws := {
  gpt_table d := d.2;
  gpt_device_size d := d.1;
  gpt_partitions := get_cell;
}.
Proof.
  - by intros b b' [= <-].
  - by intros b b' d [= <- <-].
  - by intros d parts b b' d' [= <- <-].
  - intros d name size b b' id d' E _ Hs _. cbn in E.
    destruct (bool_decide_reflect (d.2 = ∅)) as [He|]; [|done].
    destruct (Z.leb_spec (gpt_head + size + gpt_tail) d.1); [|done]. injection E as <- <- <-.
    rewrite He. split_and!; [done|done|apply lookup_empty|]. exists gpt_head. by rewrite insert_empty.
  - intros d id o E. cbn in E. destruct (d.2 !! id) as [[o' size]|]; [|done]. injection E as <-. by exists size.
  - intros d b b' E _ _. cbn in E. apply put_cell_ok in E. done.
  - intros b b' Hl Hsame. specialize (Hsame 0%nat). destruct b as [|c b], b' as [|c' b']; try done.
    cbn in Hsame. assert (Some c' = Some c) as [= ->]; [|done]. apply Hsame. left. unfold gpt_head. lia.
Defined.

Lemma demo_gpt_session size b : gpt_head + size + gpt_tail ≤ Z.of_nat (length b) → 0 ≤ size →
  is_Some (gpt_session size b).
Proof.
  intros Hl Hs. unfold gpt_session. cbn. rewrite (proj2 (Z.leb_le _ _)) by done. cbn.
  destruct b as [|c b]; [unfold gpt_head, gpt_tail in Hl; cbn in Hl; lia|]. by eexists.
Qed.

(** ** The compiler *)

Definition demo_root : string := "/home/user/SimpleOS-rs".
Definition demo_bpath : string := bootloader_path demo_root "x86_64" true.
Definition demo_kpath : string := kernel_path demo_root "x86_64" true.

#[local] Instance demo_cargo : Cargo := {
  cargo args files :=
    match args !! 2%nat with
    | Some p => Some (if decide (p = "bootloader"%string) then (true, <[demo_bpath := [77; 90; 0]]> files)
                      else (true, <[demo_kpath := [127; 69]]> files))
    | None => None
    end;
}.

(** A compiler that rejects the kernel. *)
#[local] Instance demo_broken : Cargo := {
  cargo args files :=
    match args !! 2%nat with
    | Some p => Some (bool_decide (p = "bootloader"%string), files)
    | None => None
    end;
}.

Definition demo_host : host := mkHost ∅ ∅ ∅ [] [].


Lemma build_stops_witness :
  ∃ h', run (build (H := demo_broken) demo_root "x86_64" true) demo_host =
    (h', Err (PanicMsg "Failed to build kernel")) ∧ h_files h' = ∅ ∧ h_dirs h' = ∅.
Proof.
  destruct (build_stops (H := demo_broken) demo_root "x86_64" true demo_host true false ∅ ∅)
    as (h' & Hr & Hf & Hd & _); [reflexivity|intros _; reflexivity|reflexivity|].
  exists h'. split; [exact Hr|]. split; [exact Hf|exact Hd].
Defined.
